(* ===== verification/_CoqProject ===== *)
-Q . S2P
Prelude.v
Exceptions.v
State.v
Struct.v
Utf8.v
Datetime.v
Values.v
Table.v
Recursion.v
Codec.v
Typing.v
Spec.v
Content.v
Framing.v
Transport.v
Network.v
Platform.v
Package.v
Scripts.v
Show.v
Sockopts.v
Tls.v
Wire.v
Sasl.v
Conn.v
Rpc.v
Protocol.v
Session.v
SessionFuel.v
SessionDemo.v
Life.v
SessionInv.v
SessionSafe.v
Quiet.v
Progress.v
SessionEnds.v
SessionWait.v
SessionTurn.v
SessionRpc.v
SessionEvents.v
SessionNetwork.v
SessionMixed.v
SessionClose.v
SessionHandshake.v
SessionChannel.v
SessionTimeout.v
SessionPublish.v
SessionConsume.v
SessionFindings.v
