(* ===== verification/Prelude.v ===== *)
(** * A model of py-amqp

    py-amqp is a client of AMQP 0-9-1 in Python.  A [Connection] owns a
    [transport] (a TCP or TLS socket).  [Transport.read_frame] cuts the bytes
    of the socket into frames; the closure of [frame_handler] collects the
    frames of each channel into methods and messages and calls
    [Connection.on_inbound_method]; the other way, [AbstractChannel.send_method]
    encodes the arguments of a method and the closure of [frame_writer] turns
    it, with its content, into frames.  Arguments, field tables and message
    properties have their formats in [amqp/serialization.py].

    ** Files

    - [Prelude.v]: results of Python code ([Ok], [Raise], [OutOfFuel]) and
      their monad, the tactics and hint databases of the development, bytes,
      slices, insertion-ordered dictionaries, and [holds_at buf off bs]: the
      buffer holds these bytes at this offset.
    - [Exceptions.v] ([amqp/exceptions.py]): the class hierarchy, [ERROR_MAP],
      [METHOD_NAME_MAP], [error_for_code], and the type [exc] of all
      exceptions the code can meet.
    - [State.v]: the state and exception monad [st] of methods that change
      their object; changes made before an exception persist.  [ByteSink] is
      the interface of an output.  [respects R m]: [m] takes states related by
      [R] to related states with the same result.
    - [Struct.v], [Utf8.v], [Datetime.v]: what the code uses of [struct],
      [str.encode]/[bytes.decode] (with the [surrogatepass] of
      [amqp/utils.py]) and [datetime]/[calendar].
    - [Values.v]: the Python values that reach the wire, with their
      conversions ([int()], floats as 64-bit patterns, decimals).
    - [Table.v] ([_read_item], [_write_item], [_write_table], [_write_array]):
      field tables.  [wire_value] is what the peer reads of a value.
    - [Recursion.v]: [_read_item] under the limit that the interpreter puts on
      nested calls, and that nothing but [RecursionError] comes of it.
    - [Codec.v] ([loads], [dumps]): method arguments, with the packing of bits.
    - [Typing.v]: the types of what [loads] returns.
    - [Spec.v] ([amqp/spec.py], [amqp/protocol.py]): the method signatures.
    - [Content.v] ([GenericContent], [Message]): property lists, content
      headers, and the assembly of a body.
    - [Framing.v] ([amqp/method_framing.py]): [frame_handler] as the function
      [on_frame] on its cells, and [frame_writer] with its reused buffer, over
      any [ByteSink].
    - [Transport.v] ([amqp/transport.py]): exact reads over a socket that
      delivers pieces and fails, [read_frame] with [_read_buffer], writing,
      [having_timeout], [connect], [close], [to_host_port].  The transport is
      an instance of [ByteSink].
    - [Network.v]: transports that differ only in the pieces in which their
      bytes arrive, and a reader that takes the octets one by one.
    - [Platform.v] ([amqp/platform.py], [_set_socket_options]), [Sockopts.v]
      ([_init_socket]) and [Tls.v] ([SSLTransport]): the TCP options of a
      platform, the calls of [setsockopt] with the timeouts they pack, and the
      setup of TLS.
    - [Package.v] ([amqp/__init__.py], [setup.py], [get_logger] and [coro] of
      [amqp/utils.py]): the version, the package metadata and what
      [setuptools.setup] is called with.
    - [Scripts.v] ([extra/update_comments_from_spec.py]): the script that puts
      the comments of the specification into the source.
    - [Show.v]: [__str__] and [__repr__] of errors, transports and connections.
    - [Wire.v]: writer and reader together.
    - [Sasl.v] ([amqp/sasl.py] and the choice in [Connection._on_start]).
    - [Conn.v] ([amqp/connection.py]): channel ids, tuning, heartbeats.
    - [Rpc.v] ([amqp/channel.py], [amqp/connection.py]): each operation as the
      request it passes to [send_method], and the tables [_METHODS].
    - [Protocol.v]: the methods of AMQP with the names of their fields, and the
      operations with their parameters under these names.
    - [Session.v] ([amqp/abstract_channel.py], [amqp/connection.py],
      [amqp/channel.py]): the connection and its channels as one state
      machine: sending, waiting, dispatch, the reactions to every incoming
      method, consumers, confirms, [connect], closing and collecting.
      Objects are numbers, since the code shares them between [channels],
      [_pending] and the listeners; a promise is known by the interface
      [Vine], and a function of the user by the transition it makes.
    - [SessionFuel.v], [SessionDemo.v]: more fuel changes no result; a broker
      on which the definitions are evaluated.
    - [Life.v]: the abstract machine of the life of channels.  [SessionInv.v]
      and [SessionSafe.v]: the invariant of the session, and that every
      operation keeps it and moves as [Life.v] allows.
    - [Quiet.v], [SessionWait.v], [SessionTurn.v]: the lemmas that carry a
      session from the call of [send_method] to the bytes written, and from
      the bytes that arrive to the method dispatched.
    - [Progress.v], [SessionEnds.v]: every operation ends, or is blocked by
      the operating system.
    - [SessionRpc.v], [SessionEvents.v], [SessionClose.v],
      [SessionHandshake.v], [SessionChannel.v]: calls with their replies,
      methods the broker sends on its own, the end of a connection, its
      beginning, the life of a channel.
    - [SessionNetwork.v]: sessions over networks that cut the bytes in
      different ways.
    - [SessionMixed.v], [SessionTimeout.v], [SessionPublish.v],
      [SessionConsume.v]: frames that are mixed with heartbeats and with those
      of other channels, timeouts, and messages end to end.
    - [SessionFindings.v]: behaviours one would not expect.

    ** What the theorems show

    - The session: whatever the peer sends and whatever the functions of the
      user do, the objects stay well-formed ([SessionSafe.session_invariant])
      and move as the abstract machine allows ([SessionSafe.session_refines]).
      Connecting negotiates and ends up open
      ([SessionHandshake.connect_completes]), a call sends its request and
      returns what the reply carries, while methods for others are dispatched
      ([SessionRpc.rpc_call], [SessionRpc.basic_get_returns]), waiting leaves
      [_pending] as it was on every path ([SessionWait.wait_restores]), a
      delivery reaches its consumer ([SessionEvents.delivery]), a published
      message is confirmed ([SessionEvents.publish_confirmed]), and closing by
      either side leaves nothing connected
      ([SessionClose.connection_close_ends], [SessionClose.closed_by_broker]).
      A channel is opened ([SessionChannel.channel_opens]), closed
      ([SessionChannel.channel_close_ends]), and opened again when the broker
      closes it ([SessionChannel.channel_closed_by_broker]).  Every program of
      library calls ends or is blocked by the operating system
      ([SessionEnds.program_ends]).
    - Messages end to end: what one session publishes, the consumer of another
      gets ([SessionPublish.message_travels]); a consumer gets every message
      once and in order ([SessionConsume.consume_in_order]); and timeouts of
      [drain_events], wherever they fall, change nothing of it
      ([SessionTimeout.timeouts_invisible]), nor do heartbeats and the frames
      of other channels ([SessionMixed.mixed_frames]).  No program can tell
      where the network cuts the bytes into pieces
      ([SessionNetwork.network_invisible]).
    - Round trips: values ([Table.read_write_item]), arguments
      ([Codec.loads_dumps]), requests as a peer understands them that knows the
      protocol ([Protocol.request_understood]), properties
      ([Content.read_write_properties]), the AMQPLAIN response
      ([Sasl.amqplain_response]), and a whole message from [frame_writer]
      through the socket to the callback ([Wire.publish_receive]), whatever
      [frame_max] either side has ([Wire.frame_max_invisible]).
    - Safety of reading: no byte is lost at a timeout
      ([Transport.read_frame_lossless]), frames are read in the end
      ([Transport.read_frame_retry]), readers end on every input
      ([Table.read_item_terminates], [Codec.loads_terminates]) and raise only
      known exceptions ([Recursion.read_item_errors]).  Whatever bytes arrive,
      the arguments have the types of the method ([Typing.loads_typed]).
    - The frame handler: its invariant ([Framing.handler_invariant]), the
      independence of channels ([Framing.channels_independent]), reassembly
      ([Framing.content_reassembled], [Content.body_assembled]).
    - The frame writer: what is sent on each path
      ([Framing.write_frame_content]), no overflow of the buffer
      ([Framing.write_frame_fast]), and a defect
      ([Framing.write_frame_method]).
    - The connection: heartbeats over any number of ticks
      ([Conn.heartbeat_contract]), ids
      ([Conn.free_channel_id]), tuning ([Conn.tune_agrees]), login
      ([Sasl.choose_first]), replies ([Rpc.replies_known]), TLS checks
      ([Tls.wrap_socket_checks]), and the life of the transport
      ([Transport.connect_outcome], [Transport.close_closes],
      [Transport.having_timeout_restores], [Transport.read_frame_connected],
      [Transport.write_all]).
    - The script of the comments replaces the comment of the method it looks for
      and changes nothing else ([Scripts.replace_comment]), within the form of comment
      that the theorem names; outside of it the script can delete code
      ([Scripts.one_line_comment_eats_code]).

    ** Bounds and fuel

    [read_item] runs [read_item_fuel] with one unit more than the length of
    the buffer, since every nested item starts at a later offset;
    [Table.read_item_terminates] shows that it suffices.  [read] runs its loop
    with one unit more than the size of the events that [recv] can meet, since
    every call of [recv] takes an event or a byte; it returns [OutOfFuel] only
    when the events are used up, which means that the call blocks.  The
    writing loops are structural in the outcomes of the socket calls.
    The reader of the other files recurses as deep as the bytes are nested;
    [Recursion.v] has the reader that the interpreter stops, and shows that it
    differs only by [RecursionError], and only when the buffer has more than
    five bytes for each call that is allowed.
    [Sockopts.timeval_near] bounds what the rounding of a timeout loses.

    The loops of the session ([drain_events], [wait], the handshake) take
    their fuel as an argument, since the code loops until the peer has
    answered.  [SessionFuel.v] shows that a result reached within some fuel is
    reached with any more.  The theorems on calls, deliveries, the handshake
    and closing state the fuel that suffices for the frames they speak of, and
    conclude with the result of the call, not under the condition of one.
    [SessionEnds.v] gives the bound: fuel above [work], the bytes and events
    still to come over all transports, is never exhausted, so that then
    [OutOfFuel] means a call of the operating system that blocks.

    ** What is outside

    The operating system is the environment: lists of events and outcomes that
    the theorems quantify over.  Encodings other than UTF-8 are a parameter of
    [frame_writer]; the clock is a parameter of [heartbeat_tick], with times
    as rationals.  Errno values are those of Linux.  Digits in numbers written
    as text are ASCII.  A transport is taken to be used by one thread, as the
    library requires.  The writer of values recurses as deep as the values of
    the caller are nested, without the limit of the interpreter.  A promise of [vine] is what the interface [Vine] says,
    an [SSLContext] what the documentation of the standard library says, and
    a function of the user any transition of the session.  What the GSSAPI
    mechanism calls of its library is a parameter.  Logging (but for
    [get_logger]) and pickling are not modelled.  [Show.v] takes the texts of
    exceptions of the standard library as parameters, and [Scripts.v] texts
    without backslashes; what [setuptools.find_packages] finds on the disk is
    a parameter.  [docs/conf.py] is settings and is left out.
    The attributes [method_queue] and
    [returned_messages] are set and never read. *)

From stdpp Require Export base tactics option list numbers gmap strings fin_maps.
From Stdlib Require Export ZArith Lia.
Export Byte.ByteSyntaxNotations.
Delimit Scope byte_scope with byte.

#[export] Set Default Goal Selector "!".

(** ** Results of Python code

    [Ok a] is a normal return, [Raise e] a raised exception and [OutOfFuel]
    marks an exhausted bound of a model function whose loop or recursion is
    not structural; each such function has a theorem that its own bound is
    never exhausted. *)
Inductive result (E A : Type) : Type :=
  | Ok (a : A)
  | Raise (e : E)
  | OutOfFuel.
Arguments Ok {E A} a.
Arguments Raise {E A} e.
Arguments OutOfFuel {E A}.

Section result_monad.
Context {E : Type}.

#[export] Instance result_ret : MRet (result E) := fun A a => Ok a.

#[export] Instance result_bind : MBind (result E) := fun A B f m =>
  match m with
  | Ok a => f a
  | Raise e => Raise e
  | OutOfFuel => OutOfFuel
  end.

#[export] Instance result_fmap : FMap (result E) := fun A B f m =>
  match m with
  | Ok a => Ok (f a)
  | Raise e => Raise e
  | OutOfFuel => OutOfFuel
  end.
End result_monad.

Definition is_ok {E A} (r : result E A) : bool :=
  match r with Ok _ => true | _ => false end.

(** [of_option e o] raises [e] where a Python lookup has no entry. *)
Definition of_option {E A} (e : E) (o : option A) : result E A :=
  match o with Some a => Ok a | None => Raise e end.

(** [guard_py b e] raises [e] unless the condition holds. *)
Definition guard_py {E} (b : bool) (e : E) : result E unit :=
  if b then Ok tt else Raise e.

Section result_lemmas.
Context {E : Type}.
Implicit Types (e : E).

Lemma bind_ok_inv {A B} (m : result E A) (f : A -> result E B) b :
  m ≫= f = Ok b -> exists a, m = Ok a /\ f a = Ok b.
Proof. destruct m; cbn; intros H; try discriminate; eauto. Qed.

Lemma bind_raise_inv {A B} (m : result E A) (f : A -> result E B) e :
  m ≫= f = Raise e -> m = Raise e \/ exists a, m = Ok a /\ f a = Raise e.
Proof. destruct m; cbn; intros H; simplify_eq; eauto. Qed.

Lemma bind_fuel_inv {A B} (m : result E A) (f : A -> result E B) :
  m ≫= f = OutOfFuel -> m = OutOfFuel \/ exists a, m = Ok a /\ f a = OutOfFuel.
Proof. destruct m; cbn; intros H; simplify_eq; eauto. Qed.

Lemma bind_fuel_ne {A B} (m : result E A) (f : A -> result E B) :
  m <> OutOfFuel -> (forall a, m = Ok a -> f a <> OutOfFuel) -> m ≫= f <> OutOfFuel.
Proof. destruct m; cbn; intros; try done; eauto. Qed.

Lemma of_option_ok {A} e (o : option A) a : of_option e o = Ok a <-> o = Some a.
Proof. destruct o; cbn; split; intros; simplify_eq; done. Qed.

Lemma of_option_fuel {A} e (o : option A) : of_option e o <> OutOfFuel.
Proof. by destruct o. Qed.

Lemma guard_py_ok b e u : guard_py b e = Ok u <-> b = true.
Proof. destruct b, u; cbn; split; intros; simplify_eq; done. Qed.
End result_lemmas.

(** ** Which exceptions a computation can raise *)

Definition raises_only {E A} (P : E -> bool) (r : result E A) : Prop :=
  match r with Raise e => P e = true | _ => True end.

Section raises_only.
Context {E : Type} (P : E -> bool).

Lemma raises_only_ret {A} (a : A) : raises_only P (mret a).
Proof. done. Qed.

Lemma raises_only_ok {A} (a : A) : raises_only P (Ok a).
Proof. done. Qed.

Lemma raises_only_raise {A} e : P e = true -> raises_only P (Raise (A := A) e).
Proof. done. Qed.

Lemma raises_only_bind {A B} (m : result E A) (f : A -> result E B) :
  raises_only P m -> (forall a, m = Ok a -> raises_only P (f a)) ->
  raises_only P (m ≫= f).
Proof. destruct m; cbn; auto. Qed.

Lemma raises_only_fmap {A B} (m : result E A) (f : A -> B) :
  raises_only P m -> raises_only P (f <$> m).
Proof. by destruct m. Qed.

Lemma raises_only_of_option {A} e (o : option A) :
  P e = true -> raises_only P (of_option e o).
Proof. by destruct o. Qed.

Lemma raises_only_inv {A} (m : result E A) e : raises_only P m -> m = Raise e -> P e = true.
Proof. by intros H ->. Qed.
End raises_only.

(** Two hint databases: [py_errors] bounds the exceptions of a function,
    [py_total] shows that it does not run out of fuel. *)
Create HintDb py_errors discriminated.
#[export] Hint Resolve raises_only_ret raises_only_ok raises_only_raise
  raises_only_fmap raises_only_of_option : py_errors.
Create HintDb py_total discriminated.
#[export] Hint Resolve of_option_fuel : py_total.

(** ** Tactics *)

(** Splits every successful bind of the context into its successful steps. *)
Ltac ok_inv :=
  repeat match goal with
  | H : mbind _ _ = Ok _ |- _ => apply bind_ok_inv in H as (? & ? & H)
  | H : context [match ?p with (_, _) => _ end] |- _ => is_var p; destruct p
  | H : Ok _ = Ok _ |- _ => injection H as H
  | H : mret _ = Ok _ |- _ => unfold mret, result_ret in H
  | H : guard_py _ _ = Ok _ |- _ => apply guard_py_ok in H
  | H : of_option _ _ = Ok _ |- _ => apply of_option_ok in H
  | H : Raise _ = Ok _ |- _ => discriminate H
  | H : OutOfFuel = Ok _ |- _ => discriminate H
  end.

(** Runs the binds whose first step is known. *)
Ltac py_simpl := cbn [mbind result_bind mret result_ret].

(** Turns the boolean tests of the code into propositions. *)
Ltac bool_to_prop :=
  repeat match goal with
  | H : (_ && _)%bool = true |- _ => apply andb_true_iff in H as [? ?]
  | H : (_ || _)%bool = false |- _ => apply orb_false_iff in H as [? ?]
  | H : negb _ = true |- _ => apply negb_true_iff in H
  | H : negb _ = false |- _ => apply negb_false_iff in H
  | H : Z.leb _ _ = true |- _ => apply Z.leb_le in H
  | H : Z.leb _ _ = false |- _ => apply Z.leb_gt in H
  | H : Z.ltb _ _ = true |- _ => apply Z.ltb_lt in H
  | H : Z.ltb _ _ = false |- _ => apply Z.ltb_ge in H
  | H : Z.eqb _ _ = true |- _ => apply Z.eqb_eq in H
  | H : Z.eqb _ _ = false |- _ => apply Z.eqb_neq in H
  end.

(** [lia] with division and modulo by constants. *)
Ltac dlia := Z.to_euclidean_division_equations; lia.

(** Case analysis on the test of every [if] of the goal. *)
Ltac case_if :=
  match goal with
  | |- context [if ?b then _ else _] => destruct b eqn:?
  end.

(** Walks through the binds of a computation, and solves the steps by the
    databases above. *)
Ltac total_steps :=
  repeat first
    [ progress (intros; cbn beta iota) | apply bind_fuel_ne
    | solve [auto with py_total] | discriminate
    | match goal with |- context [let '(_, _) := ?p in _] => destruct p end ].

Ltac error_steps :=
  repeat first
    [ progress (intros; cbn beta iota) | apply raises_only_bind
    | solve [auto with py_errors] | reflexivity
    | match goal with |- context [let '(_, _) := ?p in _] => destruct p end ].

(** ** Python's [bytes] *)

Abbreviation byte := Byte.byte.
Abbreviation bytes := (list byte).

#[export] Instance byte_eq_dec : EqDecision byte := Byte.byte_eq_dec.

(** The unsigned value of a byte, and the byte holding a value modulo 256. *)
Definition byte_to_Z (b : byte) : Z := Z.of_N (Byte.to_N b).
Definition byte_of_Z (z : Z) : byte :=
  default Byte.x00 (Byte.of_N (Z.to_N (z mod 256))).

Lemma byte_to_Z_range b : (0 <= byte_to_Z b < 256)%Z.
Proof. unfold byte_to_Z. pose proof (Byte.to_N_bounded b). lia. Qed.

Lemma byte_to_of z : byte_to_Z (byte_of_Z z) = (z mod 256)%Z.
Proof.
  unfold byte_of_Z, byte_to_Z.
  pose proof (Z.mod_pos_bound z 256 eq_refl) as Hr.
  destruct (Byte.of_N _) as [b|] eqn:Hb; cbn.
  - apply Byte.to_of_N in Hb. rewrite Hb. lia.
  - apply Byte.of_N_None_iff in Hb. lia.
Qed.

Lemma byte_to_of_small z : (0 <= z < 256)%Z -> byte_to_Z (byte_of_Z z) = z.
Proof. intros. rewrite byte_to_of. apply Z.mod_small. lia. Qed.

Lemma byte_to_Z_inj b c : byte_to_Z b = byte_to_Z c -> b = c.
Proof.
  unfold byte_to_Z. intros H%N2Z.inj.
  pose proof (Byte.of_to_N b). pose proof (Byte.of_to_N c). congruence.
Qed.

Lemma byte_of_to b : byte_of_Z (byte_to_Z b) = b.
Proof.
  apply byte_to_Z_inj. rewrite byte_to_of_small; [done|]. apply byte_to_Z_range.
Qed.

(** [len(b)] as a Python int. *)
Abbreviation zlen l := (Z.of_nat (length l)).

(** [buf[a:b]] for non-negative bounds: Python truncates a slice to the
    sequence instead of raising. *)
Definition slice {A} (buf : list A) (a b : Z) : list A :=
  let n := zlen buf in
  let a := Z.min a n in
  take (Z.to_nat (Z.min b n - a)) (drop (Z.to_nat a) buf).

(** A slice that lies inside the middle part of a concatenation. *)
Lemma slice_mid {A} (p m q : list A) a b :
  a = zlen p -> b = (zlen p + zlen m)%Z -> slice (p ++ m ++ q) a b = m.
Proof.
  intros -> ->. unfold slice. rewrite !length_app.
  rewrite Z.min_l by lia. rewrite Z.min_l by lia.
  rewrite Nat2Z.id, drop_app_length.
  replace (Z.to_nat _) with (length m) by lia. apply take_app_length.
Qed.

(** Python code points: a [str] is a list of them. *)
Abbreviation pystr := (list Z).

Definition str_of (s : string) : pystr :=
  (fun c => Z.of_nat (Ascii.nat_of_ascii c)) <$> String.list_ascii_of_string s.

Definition bytes_of (s : string) : bytes :=
  Ascii.byte_of_ascii <$> String.list_ascii_of_string s.

(** [s.split(sep)] for a separator of one element. *)
Fixpoint split_at {A} (sep : A -> bool) (l : list A) : list (list A) :=
  match l with
  | [] => [[]]
  | x :: l =>
      let parts := split_at sep l in
      if sep x then [] :: parts
      else match parts with p :: ps => (x :: p) :: ps | [] => [[x]] end
  end.

(** ** Association lists with the semantics of a Python [dict]

    A [dict] keeps the order of first insertion; storing an existing key
    changes the value in place. *)
Section dict.
Context {K V : Type} `{!EqDecision K}.

Fixpoint dict_get (d : list (K * V)) (k : K) : option V :=
  match d with
  | [] => None
  | (k', v) :: d => if decide (k = k') then Some v else dict_get d k
  end.

Fixpoint dict_set (d : list (K * V)) (k : K) (v : V) : list (K * V) :=
  match d with
  | [] => [(k, v)]
  | (k', v') :: d =>
      if decide (k = k') then (k', v) :: d else (k', v') :: dict_set d k v
  end.

Lemma dict_get_set d k v k' :
  dict_get (dict_set d k v) k' = if decide (k' = k) then Some v else dict_get d k'.
Proof. induction d as [|[] ? IH]; cbn; repeat (case_decide; cbn; simplify_eq); auto. Qed.

Lemma dict_set_keys d k v :
  k ∉ d.*1 -> dict_set d k v = d ++ [(k, v)].
Proof.
  induction d as [|[k' v'] d IH]; cbn; [done|].
  rewrite not_elem_of_cons. intros [? ?].
  rewrite decide_False by done. by rewrite IH.
Qed.

Lemma dict_set_elem d k v k' :
  k' ∈ (dict_set d k v).*1 <-> k' = k \/ k' ∈ d.*1.
Proof.
  induction d as [|[k2 v2] d IH]; cbn.
  - rewrite list_elem_of_singleton. set_solver.
  - case_decide as Hk; cbn; rewrite !elem_of_cons; [subst; tauto|]. rewrite IH. tauto.
Qed.

Lemma dict_set_nodup d k v : NoDup d.*1 -> NoDup (dict_set d k v).*1.
Proof.
  induction d as [|[k' v'] d IH]; cbn; intros Hnd.
  - apply NoDup_singleton.
  - apply NoDup_cons in Hnd as [Hk Hnd].
    case_decide as Hkk; cbn; apply NoDup_cons; split; auto.
    rewrite dict_set_elem. intros [->|?]; auto.
Qed.

Lemma dict_set_Forall (Q : K * V -> Prop) d k v : Forall Q d -> Q (k, v) -> Forall Q (dict_set d k v).
Proof.
  intros Hd Hq. induction Hd as [|[k' v'] d Hx Hd IH]; cbn; [by repeat constructor|].
  case_decide as Hk; [subst|]; by constructor.
Qed.

Lemma dict_get_Forall (Q : K * V -> Prop) d k v : Forall Q d -> dict_get d k = Some v -> Q (k, v).
Proof. induction 1 as [|[k' v'] d Hx Hd IH]; cbn; [done|]. case_decide; [naive_solver|auto]. Qed.

Lemma dict_get_None d k : dict_get d k = None <-> k ∉ d.*1.
Proof.
  induction d as [|[k' v] d IH]; cbn; [set_solver|].
  rewrite not_elem_of_cons. case_decide; [naive_solver|]. rewrite IH. naive_solver.
Qed.
End dict.

(** ** Buffers with an offset

    [holds_at buf off bs]: the bytes [bs] lie in [buf] at [off].  The readers
    of the library index a buffer, its writers append; this is what connects
    them. *)
Definition holds_at {A} (buf : list A) (off : Z) (bs : list A) : Prop :=
  exists pre post, buf = pre ++ bs ++ post /\ off = zlen pre.

Section holds_at.
Context {A : Type}.
Implicit Types (buf bs cs : list A).

Lemma holds_at_whole bs : holds_at bs 0 bs.
Proof. exists [], []. by rewrite app_nil_r. Qed.

Lemma holds_at_mid pre bs post : holds_at (pre ++ bs ++ post) (zlen pre) bs.
Proof. by exists pre, post. Qed.

Lemma holds_at_app buf off bs cs :
  holds_at buf off (bs ++ cs) ->
  holds_at buf off bs /\ holds_at buf (off + zlen bs)%Z cs.
Proof.
  intros (pre & post & -> & ->). split.
  - exists pre, (cs ++ post). by rewrite <- !app_assoc.
  - exists (pre ++ bs), post. rewrite <- !app_assoc, length_app. split; [done|lia].
Qed.

Lemma holds_at_cons buf off b cs :
  holds_at buf off (b :: cs) ->
  holds_at buf off [b] /\ holds_at buf (off + 1)%Z cs.
Proof. intros H. by apply (holds_at_app buf off [b] cs) in H. Qed.

Lemma holds_at_bound buf off bs :
  holds_at buf off bs -> (0 <= off /\ off + zlen bs <= zlen buf)%Z.
Proof. intros (pre & post & -> & ->). rewrite !length_app. lia. Qed.

Lemma holds_at_slice buf off bs e :
  holds_at buf off bs -> e = (off + zlen bs)%Z -> slice buf off e = bs.
Proof. intros (pre & post & -> & ->) ->. by apply slice_mid. Qed.

Lemma holds_at_lookup buf off b :
  holds_at buf off [b] -> buf !! Z.to_nat off = Some b /\ (off < zlen buf)%Z.
Proof.
  intros (pre & post & -> & ->). rewrite Nat2Z.id, !length_app. cbn.
  split; [|lia]. by rewrite lookup_app_r, Nat.sub_diag by done.
Qed.
End holds_at.
