(* ===== verification/Exceptions.v ===== *)
(** * Exceptions ([amqp/exceptions.py])

    The AMQP exception classes with their hierarchy and codes, [ERROR_MAP],
    [METHOD_NAME_MAP], the constructor of [AMQPError] and [error_for_code];
    together with the built-in Python exceptions that the modelled code can
    raise or catch. *)

From S2P Require Import Prelude.

(** The exception classes deriving from [AMQPError]. *)
Inductive amqp_class : Set :=
  | AMQPError | ConnectionError | ChannelError
  | RecoverableChannelError | IrrecoverableChannelError
  | RecoverableConnectionError | IrrecoverableConnectionError
  | Blocked | ConsumerCancelled | ContentTooLarge | NoConsumers
  | ConnectionForced | InvalidPath | AccessRefused | NotFound
  | ResourceLocked | PreconditionFailed | FrameError | FrameSyntaxError
  | InvalidCommand | ChannelNotOpen | UnexpectedFrame | ResourceError
  | NotAllowed | AMQPNotImplementedError | InternalError.

#[export] Instance amqp_class_eq_dec : EqDecision amqp_class.
Proof. solve_decision. Defined.

(** The base class of each class statement. *)
Definition base_class (c : amqp_class) : option amqp_class :=
  match c with
  | AMQPError => None
  | ConnectionError | ChannelError => Some AMQPError
  | RecoverableChannelError | IrrecoverableChannelError => Some ChannelError
  | RecoverableConnectionError | IrrecoverableConnectionError => Some ConnectionError
  | Blocked | ConsumerCancelled => Some RecoverableConnectionError
  | ContentTooLarge | NoConsumers => Some RecoverableChannelError
  | ConnectionForced => Some RecoverableConnectionError
  | InvalidPath => Some IrrecoverableConnectionError
  | AccessRefused | NotFound => Some IrrecoverableChannelError
  | ResourceLocked => Some RecoverableChannelError
  | PreconditionFailed => Some IrrecoverableChannelError
  | FrameError | FrameSyntaxError | InvalidCommand | ChannelNotOpen
  | UnexpectedFrame => Some IrrecoverableConnectionError
  | ResourceError => Some RecoverableConnectionError
  | NotAllowed | AMQPNotImplementedError
  | InternalError => Some IrrecoverableConnectionError
  end.

(** [issubclass c d]: the hierarchy is three levels deep below [AMQPError]. *)
Fixpoint subclass_within (n : nat) (c d : amqp_class) : bool :=
  bool_decide (c = d) ||
  match n, base_class c with
  | S n, Some b => subclass_within n b d
  | _, _ => false
  end.
Definition issubclass (c d : amqp_class) : bool := subclass_within 4 c d.

(** The class attribute [code], inherited as 0 where a class sets none. *)
Definition class_code (c : amqp_class) : Z :=
  match c with
  | ContentTooLarge => 311 | NoConsumers => 313 | ConnectionForced => 320
  | InvalidPath => 402 | AccessRefused => 403 | NotFound => 404
  | ResourceLocked => 405 | PreconditionFailed => 406 | FrameError => 501
  | FrameSyntaxError => 502 | InvalidCommand => 503 | ChannelNotOpen => 504
  | UnexpectedFrame => 505 | ResourceError => 506 | NotAllowed => 530
  | AMQPNotImplementedError => 540 | InternalError => 541
  | _ => 0
  end.

Definition ERROR_MAP : list (Z * amqp_class) :=
  [ (311, ContentTooLarge); (313, NoConsumers); (320, ConnectionForced);
    (402, InvalidPath); (403, AccessRefused); (404, NotFound);
    (405, ResourceLocked); (406, PreconditionFailed); (501, FrameError);
    (502, FrameSyntaxError); (503, InvalidCommand); (504, ChannelNotOpen);
    (505, UnexpectedFrame); (506, ResourceError); (530, NotAllowed);
    (540, AMQPNotImplementedError); (541, InternalError) ]%Z.

(** A method signature: a [(class_id, method_id)] tuple, or the 32-bit
    integer that the last loop of the module adds as a key. *)
Abbreviation method_sig := (Z * Z)%type.
Abbreviation method_key := (method_sig + Z)%type.

Definition METHOD_NAME_TABLE : list (method_sig * string) :=
  [ ((10, 10), "Connection.start"); ((10, 11), "Connection.start_ok");
    ((10, 20), "Connection.secure"); ((10, 21), "Connection.secure_ok");
    ((10, 30), "Connection.tune"); ((10, 31), "Connection.tune_ok");
    ((10, 40), "Connection.open"); ((10, 41), "Connection.open_ok");
    ((10, 50), "Connection.close"); ((10, 51), "Connection.close_ok");
    ((20, 10), "Channel.open"); ((20, 11), "Channel.open_ok");
    ((20, 20), "Channel.flow"); ((20, 21), "Channel.flow_ok");
    ((20, 40), "Channel.close"); ((20, 41), "Channel.close_ok");
    ((30, 10), "Access.request"); ((30, 11), "Access.request_ok");
    ((40, 10), "Exchange.declare"); ((40, 11), "Exchange.declare_ok");
    ((40, 20), "Exchange.delete"); ((40, 21), "Exchange.delete_ok");
    ((40, 30), "Exchange.bind"); ((40, 31), "Exchange.bind_ok");
    ((40, 40), "Exchange.unbind"); ((40, 41), "Exchange.unbind_ok");
    ((50, 10), "Queue.declare"); ((50, 11), "Queue.declare_ok");
    ((50, 20), "Queue.bind"); ((50, 21), "Queue.bind_ok");
    ((50, 30), "Queue.purge"); ((50, 31), "Queue.purge_ok");
    ((50, 40), "Queue.delete"); ((50, 41), "Queue.delete_ok");
    ((50, 50), "Queue.unbind"); ((50, 51), "Queue.unbind_ok");
    ((60, 10), "Basic.qos"); ((60, 11), "Basic.qos_ok");
    ((60, 20), "Basic.consume"); ((60, 21), "Basic.consume_ok");
    ((60, 30), "Basic.cancel"); ((60, 31), "Basic.cancel_ok");
    ((60, 40), "Basic.publish"); ((60, 50), "Basic.return");
    ((60, 60), "Basic.deliver"); ((60, 70), "Basic.get");
    ((60, 71), "Basic.get_ok"); ((60, 72), "Basic.get_empty");
    ((60, 80), "Basic.ack"); ((60, 90), "Basic.reject");
    ((60, 100), "Basic.recover_async"); ((60, 110), "Basic.recover");
    ((60, 111), "Basic.recover_ok"); ((60, 120), "Basic.nack");
    ((90, 10), "Tx.select"); ((90, 11), "Tx.select_ok");
    ((90, 20), "Tx.commit"); ((90, 21), "Tx.commit_ok");
    ((90, 30), "Tx.rollback"); ((90, 31), "Tx.rollback_ok");
    ((85, 10), "Confirm.select"); ((85, 11), "Confirm.select_ok") ]%Z.

(** [unpack('>I', pack('>HH', class_id, method_id))]: every id of the table
    fits 16 bits, so the four bytes read back as this number. *)
Definition method_id_of (m : method_sig) : Z := (m.1 * 2 ^ 16 + m.2)%Z.

(** The map after the loop that adds, for each signature, its integer form. *)
Definition METHOD_NAME_MAP : list (method_key * string) :=
  foldl (fun d '(sig, name) => dict_set d (inr (method_id_of sig)) name)
    ((fun '(sig, name) => (inl sig, name)) <$> METHOD_NAME_TABLE)
    METHOD_NAME_TABLE.

(** The text of an exception: a string received from the peer or passed by
    the caller, or a message the library formats, known by its template. *)
Inductive text : Type :=
  | TStr (s : pystr)
  | TMsg (template : string).

(** The attributes set by [AMQPError.__init__]. *)
Record amqp_error : Type := AmqpError {
  err_class : amqp_class;
  err_reply_code : Z;
  err_reply_text : option text;
  err_method_sig : option method_key;
  err_method_name : string;
}.

(** Truth value of the [method_sig] argument: [None] and 0 are false. *)
Definition sig_truthy (m : option method_key) : bool :=
  match m with
  | None => false
  | Some (inl _) => true
  | Some (inr z) => negb (Z.eqb z 0)
  end.

Definition amqp_error_init (cls : amqp_class) (reply_text : option text)
    (method_sig : option method_key) (method_name : option string)
    (reply_code : option Z) : amqp_error :=
  let code := default 0%Z reply_code in
  let name := default "" method_name in
  {| err_class := cls;
     err_reply_code := if Z.eqb code 0 then class_code cls else code;
     err_reply_text := reply_text;
     err_method_sig := method_sig;
     err_method_name :=
       if sig_truthy method_sig && String.eqb name ""
       then default "" (m ← method_sig; dict_get METHOD_NAME_MAP m)
       else name |}.

(** The property [AMQPError.method]: [method_name or method_sig]. *)
Definition amqp_error_method (e : amqp_error) : string + option method_key :=
  if String.eqb (err_method_name e) "" then inr (err_method_sig e)
  else inl (err_method_name e).

Definition error_for_code (code : Z) (text : option text)
    (method : option method_key) (default : amqp_class) : amqp_error :=
  match dict_get ERROR_MAP code with
  | Some cls => amqp_error_init cls text method None (Some code)
  | None => amqp_error_init default text method None (Some code)
  end.

(** ** All exceptions *)

(** What the message of an [SSLError] contains, as far as the code looks. *)
Inductive ssl_message : Set := SslTimedOut | SslDidNotComplete | SslOther.

Inductive exc : Type :=
  (* struct.error *)
  | StructError
  | IndexError | KeyError | TypeError | ValueError | AttributeError
  | OverflowError | UnicodeDecodeError | UnicodeEncodeError
  | NotImplementedError | StopIteration | AssertionError | RecursionError
  (* OSError with its errno, and its subclasses socket.timeout, SSLError *)
  | OSErr (errno : option Z)
  | SockTimeout
  | SSLErr (msg : ssl_message) (errno : option Z)
  (* of the library gssapi *)
  | GSSError
  | MessageNacked
  | Amqp (e : amqp_error).

Abbreviation py := (result exc).

(** Raising a library exception with a formatted message. *)
Definition raise_amqp {A} (cls : amqp_class) (template : string)
    (sig : option method_key) : py A :=
  Raise (Amqp (amqp_error_init cls (Some (TMsg template)) sig None None)).

(** What [except ValueError] catches. *)
Definition is_value_error (e : exc) : bool :=
  match e with
  | ValueError | UnicodeDecodeError | UnicodeEncodeError => true
  | _ => false
  end.

(** What [except OSError] catches, and the [errno] it sees. *)
Definition is_os_error (e : exc) : bool :=
  match e with OSErr _ | SockTimeout | SSLErr _ _ => true | _ => false end.

Definition exc_errno (e : exc) : option Z :=
  match e with OSErr n | SSLErr _ n => n | _ => None end.

(** What [except amqp.ConnectionError] or another class of the hierarchy
    catches. *)
Definition is_amqp (cls : amqp_class) (e : exc) : bool :=
  match e with Amqp a => issubclass (err_class a) cls | _ => false end.

(** The tuples of exceptions of [Connection]; [IOError] and [socket.error] are
    [OSError]. *)
Definition connection_errors (e : exc) : bool := is_amqp ConnectionError e || is_os_error e.
Definition channel_errors (e : exc) : bool := is_amqp ChannelError e.
Definition recoverable_connection_errors (e : exc) : bool :=
  is_amqp RecoverableConnectionError e || (if e is MessageNacked then true else false) || is_os_error e.
Definition recoverable_channel_errors (e : exc) : bool := is_amqp RecoverableChannelError e.

(** [try: m except E: h], for the exceptions that satisfy the test. *)
Definition try_except {A} (m : py A) (catches : exc -> bool) (h : exc -> py A) : py A :=
  match m with
  | Raise e => if catches e then h e else Raise e
  | r => r
  end.

(** ** Properties *)

Lemma ERROR_MAP_in code cls :
  dict_get ERROR_MAP code = Some cls -> In (code, cls) ERROR_MAP.
Proof.
  generalize ERROR_MAP as d. induction d as [|[c k] d IH]; cbn; [done|].
  case_decide; intros; simplify_eq; auto.
Qed.

Lemma ERROR_MAP_entry (P : Z -> amqp_class -> bool) code cls :
  forallb (fun p => P p.1 p.2) ERROR_MAP = true ->
  dict_get ERROR_MAP code = Some cls -> P code cls = true.
Proof. intros Hall Hin%ERROR_MAP_in. rewrite forallb_forall in Hall. apply (Hall _ Hin). Qed.

(** [error_for_code] returns an exception that carries the code it
    was given; its class is the one of [ERROR_MAP], whose own [code] is that
    code and which is a connection or a channel error, and the default class
    for any other code. *)
Theorem error_for_code_class code txt m dflt :
  code <> 0%Z ->
  let e := error_for_code code txt m dflt in
  err_reply_code e = code /\
  err_reply_text e = txt /\
  match dict_get ERROR_MAP code with
  | Some cls =>
      err_class e = cls /\ class_code cls = code /\
      (issubclass cls ConnectionError || issubclass cls ChannelError) = true
  | None => err_class e = dflt
  end.
Proof.
  intros Hc. unfold error_for_code.
  assert (Z.eqb code 0 = false) as Hz by (by apply Z.eqb_neq).
  destruct (dict_get ERROR_MAP code) as [cls|] eqn:He; cbn; rewrite Hz; [|done].
  split_and!; try done.
  - apply Z.eqb_eq. apply (ERROR_MAP_entry (fun c k => Z.eqb (class_code k) c)); [|done].
    by vm_compute.
  - apply (ERROR_MAP_entry
      (fun _ k => issubclass k ConnectionError || issubclass k ChannelError)%bool code); [|done].
    by vm_compute.
Qed.

Lemma error_for_code_class_witness :
  (404 <> 0)%Z /\
  err_class (error_for_code 404 (Some (TStr (str_of "NOT_FOUND")))
               (Some (inl (50, 10)%Z)) ChannelError) = NotFound.
Proof.
  split; [lia|].
  apply (error_for_code_class 404 (Some (TStr (str_of "NOT_FOUND")))
           (Some (inl (50, 10)%Z)) ChannelError). lia.
Defined.

(** A recoverable error is an error of the same kind, except for
    [MessageNacked], which is no [ConnectionError]. *)
Lemma recoverable_errors e :
  (recoverable_connection_errors e = true -> e <> MessageNacked -> connection_errors e = true) /\
  (recoverable_channel_errors e = true -> channel_errors e = true).
Proof.
  unfold recoverable_connection_errors, connection_errors, recoverable_channel_errors, channel_errors.
  destruct e as [| | | | | | | | | | | | | | | | | |a]; cbn; try done.
  rewrite !orb_false_r. split; intros Hr; [intros _|]; by destruct (err_class a).
Qed.
