(* ===== verification/State.v ===== *)
(** * Stateful Python code

    A method that changes its object and may raise is a function from the
    state to the state it leaves behind and its result: the changes made
    before an exception persist. *)

From S2P Require Import Prelude Exceptions.

Definition st (S A : Type) : Type := S -> S * py A.

Section st_monad.
Context {S : Type}.

#[export] Instance st_ret : MRet (st S) := fun A a s => (s, Ok a).

#[export] Instance st_bind : MBind (st S) := fun A B f m s =>
  match m s with
  | (s, Ok a) => f a s
  | (s, Raise e) => (s, Raise e)
  | (s, OutOfFuel) => (s, OutOfFuel)
  end.

(** Code that does not touch the state. *)
Definition lift {A} (m : py A) : st S A := fun s => (s, m).

Definition raise {A} (e : exc) : st S A := fun s => (s, Raise e).

Definition get_st : st S S := fun s => (s, Ok s).
Definition put_st (s : S) : st S unit := fun _ => (s, Ok tt).

(** Reading and changing the attributes. *)
Definition gets {A} (f : S -> A) : st S A := fun s => (s, Ok (f s)).
Definition modify (f : S -> S) : st S unit := fun s => (f s, Ok tt).

(** [if b: m]. *)
Definition when (b : bool) (m : st S unit) : st S unit := if b then m else mret tt.

(** [try: m except E: h]. *)
Definition st_try {A} (m : st S A) (catches : exc -> bool) (h : exc -> st S A) : st S A :=
  fun s => match m s with
           | (s, Raise e) => if catches e then h e s else (s, Raise e)
           | r => r
           end.

(** [try: m finally: f]: an exception of [f] replaces the result of [m].
    While [m] blocks, [f] does not run. *)
Definition st_finally {A} (m : st S A) (f : st S unit) : st S A :=
  fun s => match m s with
           | (s, OutOfFuel) => (s, OutOfFuel)
           | (s, r) =>
               match f s with
               | (s, Ok _) => (s, r)
               | (s, Raise e) => (s, Raise e)
               | (s, OutOfFuel) => (s, OutOfFuel)
               end
           end.
End st_monad.

(** A method of a component [T] of the state. *)
Definition zoom {S T A} (get : S -> T) (set : T -> S -> S) (m : st T A) : st S A :=
  fun s => let '(t, r) := m (get s) in (set t s, r).

Section st_lemmas.
Context {S : Type}.

Lemma st_bind_ok_inv {A B} (m : st S A) (f : A -> st S B) s s' b :
  (m ≫= f) s = (s', Ok b) -> exists s1 a, m s = (s1, Ok a) /\ f a s1 = (s', Ok b).
Proof.
  unfold mbind, st_bind. destruct (m s) as [s1 [a|e|]]; intros; simplify_eq; eauto.
Qed.

Lemma st_bind_eq {A B} (m : st S A) (f : A -> st S B) s :
  (m ≫= f) s = match m s with
               | (s, Ok a) => f a s
               | (s, Raise e) => (s, Raise e)
               | (s, OutOfFuel) => (s, OutOfFuel)
               end.
Proof. done. Qed.

Lemma st_bind_inv {A B} (m : st S A) (f : A -> st S B) s s' r :
  (m ≫= f) s = (s', r) ->
  (exists s1 a, m s = (s1, Ok a) /\ f a s1 = (s', r)) \/
  (exists e, m s = (s', Raise e) /\ r = Raise e) \/
  (m s = (s', OutOfFuel) /\ r = OutOfFuel).
Proof.
  unfold mbind, st_bind. destruct (m s) as [s1 [a|e|]]; intros; simplify_eq; eauto 6.
Qed.

Lemma st_bind_ok {A B} (m : st S A) (f : A -> st S B) s s1 a :
  m s = (s1, Ok a) -> (m ≫= f) s = f a s1.
Proof. unfold mbind, st_bind. by intros ->. Qed.

Lemma st_bind_lift {A B} (m : py A) a (f : A -> st S B) s :
  m = Ok a -> (lift m ≫= f) s = f a s.
Proof. by intros ->. Qed.

Lemma st_bind_ret {A B} (a : A) (f : A -> st S B) s : (mret a ≫= f) s = f a s.
Proof. done. Qed.

Lemma st_bind_gets {A B} (g : S -> A) (f : A -> st S B) s : (gets g ≫= f) s = f (g s) s.
Proof. done. Qed.

Lemma st_bind_modify {B} (g : S -> S) (f : unit -> st S B) s : (modify g ≫= f) s = f tt (g s).
Proof. done. Qed.

Lemma st_bind_raise {A B} (m : st S A) (f : A -> st S B) s s1 e :
  m s = (s1, Raise e) -> (m ≫= f) s = (s1, Raise e).
Proof. unfold mbind, st_bind. by intros ->. Qed.

Lemma st_bind_bind {A B C} (m : st S A) (f : A -> st S B) (g : B -> st S C) s :
  ((m ≫= f) ≫= g) s = (m ≫= (fun a => f a ≫= g)) s.
Proof. unfold mbind, st_bind. by destruct (m s) as [s1 [a|e|]]. Qed.

(** A property of the state that every part of a method preserves. *)
Definition preserves {A} (P : S -> Prop) (m : st S A) : Prop :=
  forall s, P s -> P (m s).1.

Lemma preserves_ret {A} P (a : A) : preserves P (mret a).
Proof. intros s Hs. exact Hs. Qed.

Lemma preserves_lift {A} P (m : py A) : preserves P (lift m).
Proof. intros s Hs. exact Hs. Qed.

Lemma preserves_raise {A} P e : preserves P (raise (A := A) e).
Proof. intros s Hs. exact Hs. Qed.

Lemma preserves_gets {A} P (f : S -> A) : preserves P (gets f).
Proof. intros s Hs. exact Hs. Qed.

Lemma preserves_modify P f : (forall s, P s -> P (f s)) -> preserves P (modify f).
Proof. intros H s Hs. by apply H. Qed.

Lemma preserves_bind {A B} P (m : st S A) (f : A -> st S B) :
  preserves P m -> (forall a, preserves P (f a)) -> preserves P (m ≫= f).
Proof.
  intros Hm Hf s Hs. specialize (Hm s Hs). unfold mbind, st_bind.
  destruct (m s) as [s1 [a|e|]]; cbn in *; [by apply Hf|done..].
Qed.

Lemma preserves_when P b m : preserves P m -> preserves P (when b m).
Proof. intros. destruct b; [done|apply preserves_ret]. Qed.

Lemma preserves_try {A} P (m : st S A) c h :
  preserves P m -> (forall e, preserves P (h e)) -> preserves P (st_try m c h).
Proof.
  intros Hm Hh s Hs. specialize (Hm s Hs). unfold st_try.
  destruct (m s) as [s1 [a|e|]]; cbn in *; try done. case_match; [by apply Hh|done].
Qed.

Lemma preserves_finally {A} P (m : st S A) f :
  preserves P m -> preserves P f -> preserves P (st_finally m f).
Proof.
  intros Hm Hf s Hs. specialize (Hm s Hs). unfold st_finally. destruct (m s) as [s1 r].
  specialize (Hf s1 Hm). cbn in *. destruct r; [|by destruct (f s1) as [s2 []]|done].
  by destruct (f s1) as [s2 []].
Qed.
End st_lemmas.

Create HintDb py_state discriminated.
#[export] Hint Resolve preserves_ret preserves_lift preserves_raise preserves_gets
  preserves_modify preserves_when : py_state.

(** Runs the binds of stateful code whose first step is known. *)
Ltac st_simpl := cbn [mbind st_bind mret st_ret lift raise gets modify when fst snd].

(** [for x in l: f(x)]. *)
Fixpoint st_iter {S A} (f : A -> st S unit) (l : list A) : st S unit :=
  match l with
  | [] => mret tt
  | x :: l => f x ;; st_iter f l
  end.

(** ** More fuel *)

(** [m'] goes on where [m] runs out of fuel, and agrees with it elsewhere. *)
Definition st_le {S A} (m m' : st S A) : Prop := forall s, (m s).2 <> OutOfFuel -> m' s = m s.

Section st_le.
Context {S : Type}.

Lemma st_le_refl {A} (m : st S A) : st_le m m.
Proof. by intros s. Qed.

Lemma st_le_fuel {A} (m : st S A) : st_le (lift OutOfFuel) m.
Proof. by intros s []. Qed.

Lemma st_le_bind {A B} (m m' : st S A) (f f' : A -> st S B) :
  st_le m m' -> (forall a, st_le (f a) (f' a)) -> st_le (m ≫= f) (m' ≫= f').
Proof.
  intros Hm Hf s Hs. unfold mbind, st_bind in *. pose proof (Hm s) as H.
  destruct (m s) as [s1 [a|e|]]; cbn in *; [|by rewrite H|done].
  rewrite H by done. by apply Hf.
Qed.

Lemma st_le_try {A} (m m' : st S A) c h h' :
  st_le m m' -> (forall e, st_le (h e) (h' e)) -> st_le (st_try m c h) (st_try m' c h').
Proof.
  intros Hm Hh s Hs. unfold st_try in *. pose proof (Hm s) as H.
  destruct (m s) as [s1 [a|e|]]; cbn in *; [by rewrite H| |done].
  rewrite H by done. destruct (c e); [by apply Hh|done].
Qed.

Lemma st_le_finally {A} (m m' : st S A) f f' :
  st_le m m' -> st_le f f' -> st_le (st_finally m f) (st_finally m' f').
Proof.
  intros Hm Hf s Hs. unfold st_finally in *. pose proof (Hm s) as H.
  destruct (m s) as [s1 r]; cbn in *. destruct r as [a|e|]; [| |done]; rewrite H by done;
    pose proof (Hf s1) as H1; destruct (f s1) as [s2 [u|e'|]]; cbn in *; try done; by rewrite H1.
Qed.

Lemma st_le_iter {B} (f f' : B -> st S unit) l :
  (forall x, st_le (f x) (f' x)) -> st_le (st_iter f l) (st_iter f' l).
Proof.
  intros Hf. induction l as [|x l IH]; cbn; [apply st_le_refl|].
  apply st_le_bind; [apply Hf|done].
Qed.
End st_le.

(** ** Bounded work *)

(** In a state that satisfies [I] and is smaller than [j], [m] keeps [I], does
    not make the state bigger, and runs out of fuel only where the environment
    blocks it. *)
Section ends.
Context {S : Type} (I : S -> Prop) (size : S -> nat) (blocked : S -> Prop).

Definition ends {A} (j : nat) (m : st S A) : Prop := forall s, I s -> (size s < j)%nat ->
  I (m s).1 /\ (size (m s).1 <= size s)%nat /\ ((m s).2 = OutOfFuel -> blocked (m s).1).

Lemma ends_weaken {A} j j' (m : st S A) : (j' <= j)%nat -> ends j m -> ends j' m.
Proof. intros Hj Hm s Hs Hj'. apply Hm; [done|lia]. Qed.

Lemma ends_ret {A} j (a : A) : ends j (mret a).
Proof. by intros s. Qed.

Lemma ends_lift {A} j (m : py A) : m <> OutOfFuel -> ends j (lift m).
Proof. by intros H s. Qed.

Lemma ends_raise {A} j e : ends j (raise (A := A) e).
Proof. by intros s. Qed.

Lemma ends_gets {A} j (f : S -> A) : ends j (gets f).
Proof. by intros s. Qed.

Lemma ends_modify j f : (forall s, I s -> I (f s) /\ (size (f s) <= size s)%nat) -> ends j (modify f).
Proof. intros H s Hs Hj. destruct (H s Hs) as [H1 H2]. unfold modify. cbn. by split_and!. Qed.

Lemma ends_bind {A B} j (m : st S A) (f : A -> st S B) :
  ends j m -> (forall a, ends j (f a)) -> ends j (m ≫= f).
Proof.
  intros Hm Hf s Hs Hj. destruct (Hm s Hs Hj) as (H1 & H2 & H3). unfold mbind, st_bind.
  destruct (m s) as [s1 [a|e|]]; cbn in *; [|by split_and!; auto..].
  destruct (Hf a s1 H1 ltac:(lia)) as (H4 & H5 & H6). split_and!; [done|lia|auto].
Qed.

Lemma ends_bind_lift {A B} j (m : py A) (f : A -> st S B) :
  m <> OutOfFuel -> (forall a, m = Ok a -> ends j (f a)) -> ends j (lift m ≫= f).
Proof. intros Hm Hf. destruct m as [a|e|]; [by apply (Hf a)|by intros s|done]. Qed.

(** [m] also makes the state smaller when it returns. *)
Definition ends_less {A} (j : nat) (m : st S A) : Prop :=
  ends j m /\ forall s s' a, I s -> (size s < j)%nat -> m s = (s', Ok a) -> (size s' < size s)%nat.

Lemma ends_less_weaken {A} j j' (m : st S A) : (j' <= j)%nat -> ends_less j m -> ends_less j' m.
Proof. intros Hj [H1 H2]. split; [by eapply ends_weaken|]. intros s s' a Hs Hj'. apply H2; [done|lia]. Qed.

(** What follows such a step needs less. *)
Lemma ends_less_bind {A B} j (m : st S A) (f : A -> st S B) :
  ends_less (Datatypes.S j) m -> (forall a, ends j (f a)) -> ends_less (Datatypes.S j) (m ≫= f).
Proof.
  intros [Hm Hless] Hf.
  assert (forall s, I s -> (size s < Datatypes.S j)%nat ->
    I ((m ≫= f) s).1 /\ (size ((m ≫= f) s).1 <= size s)%nat /\
    (((m ≫= f) s).2 = OutOfFuel -> blocked ((m ≫= f) s).1) /\
    (is_ok ((m ≫= f) s).2 = true -> (size ((m ≫= f) s).1 < size s)%nat)) as H.
  { intros s Hs Hj. destruct (Hm s Hs Hj) as (H1 & H2 & H3). unfold mbind, st_bind.
    destruct (m s) as [s1 [a|e|]] eqn:E; cbn in *; [|by split_and!; auto..].
    pose proof (Hless _ _ _ Hs Hj E).
    destruct (Hf a s1 H1 ltac:(lia)) as (H4 & H5 & H6). split_and!; [done|lia|auto|lia]. }
  split; [intros s Hs Hj; by destruct (H s Hs Hj) as (? & ? & ? & _)|].
  intros s s' b Hs Hj E. destruct (H s Hs Hj) as (_ & _ & _ & H4). rewrite E in H4. by apply H4.
Qed.

Lemma ends_less_bind_r {A B} j (m : st S A) (f : A -> st S B) :
  ends j m -> (forall a, ends_less j (f a)) -> ends_less j (m ≫= f).
Proof.
  intros Hm Hf. split; [apply ends_bind; [done|intros a; apply Hf]|]. intros s s' b Hs Hj E.
  destruct (Hm s Hs Hj) as (H1 & H2 & _). unfold mbind, st_bind in E.
  destruct (m s) as [s1 [a|e|]] eqn:E1; cbn in *; try done.
  destruct (Hf a) as [_ H]. specialize (H s1 s' b H1 ltac:(lia) E). lia.
Qed.

Lemma ends_when j b m : ends j m -> ends j (when b m).
Proof. intros. destruct b; [done|apply ends_ret]. Qed.

Lemma ends_try {A} j (m : st S A) c h :
  ends j m -> (forall e, ends j (h e)) -> ends j (st_try m c h).
Proof.
  intros Hm Hh s Hs Hj. destruct (Hm s Hs Hj) as (H1 & H2 & H3). unfold st_try.
  destruct (m s) as [s1 [a|e|]]; cbn in *; [by split_and!; auto| |by split_and!; auto].
  destruct (c e); [|by split_and!; auto]. destruct (Hh e s1 H1 ltac:(lia)) as (H4 & H5 & H6).
  split_and!; [done|lia|auto].
Qed.

Lemma ends_finally {A} j (m : st S A) f : ends j m -> ends j f -> ends j (st_finally m f).
Proof.
  intros Hm Hf s Hs Hj. destruct (Hm s Hs Hj) as (H1 & H2 & H3). unfold st_finally.
  destruct (m s) as [s1 r]; cbn in *. destruct (Hf s1 H1 ltac:(lia)) as (H4 & H5 & H6).
  destruct r; [| |by split_and!; auto]; destruct (f s1) as [s2 [u|e'|]]; cbn in *; split_and!; try done; try lia; auto.
Qed.

Lemma ends_iter {B} j (f : B -> st S unit) l : (forall x, ends j (f x)) -> ends j (st_iter f l).
Proof.
  intros Hf. induction l as [|x l IH]; cbn [st_iter]; [apply ends_ret|].
  by apply ends_bind; [apply Hf|].
Qed.
End ends.

(** A component that ends, in a state. *)
Lemma ends_zoom {S T A} (get : S -> T) (set : T -> S -> S) I size blocked I' size' blocked' j (m : st T A) :
  (forall s, I' s -> I (get s)) ->
  (forall s, (size' s < Datatypes.S j)%nat -> (size (get s) < Datatypes.S j)%nat) ->
  (forall s t, I' s -> I t -> (size t <= size (get s))%nat -> I' (set t s) /\ (size' (set t s) <= size' s)%nat) ->
  (forall s t, blocked t -> blocked' (set t s)) ->
  ends I size blocked (Datatypes.S j) m -> ends I' size' blocked' (Datatypes.S j) (zoom get set m).
Proof.
  intros HI Hsz Hset Hb Hm s Hs Hj. destruct (Hm (get s) (HI s Hs) (Hsz s Hj)) as (H1 & H2 & H3).
  unfold zoom. destruct (m (get s)) as [t r]. cbn in *. destruct (Hset s t Hs H1 H2). split_and!; auto.
Qed.

(** ** Equivalent states *)

(** From states that [R] relates, [m] returns the same and leaves related
    states behind. *)
Definition respects {S A} (R : relation S) (m : st S A) : Prop := Proper (R ==> prod_relation R eq) m.

Section respects.
Context {S : Type} (R : relation S).

Lemma respects_ret {A} (a : A) : respects R (mret a).
Proof. by intros s1 s2 H. Qed.

Lemma respects_lift {A} (m : py A) : respects R (lift m).
Proof. by intros s1 s2 H. Qed.

Lemma respects_raise {A} e : respects R (raise (A := A) e).
Proof. by intros s1 s2 H. Qed.

Lemma respects_gets {A} (f : S -> A) : Proper (R ==> eq) f -> respects R (gets f).
Proof. intros Hf s1 s2 H. split; [done|]. cbn. f_equal. by apply Hf. Qed.

Lemma respects_modify f : Proper (R ==> R) f -> respects R (modify f).
Proof. intros Hf s1 s2 H. split; [by apply Hf|done]. Qed.

Lemma respects_bind {A B} (m : st S A) (f : A -> st S B) :
  respects R m -> (forall a, respects R (f a)) -> respects R (m ≫= f).
Proof.
  intros Hm Hf s1 s2 H. destruct (Hm s1 s2 H) as [H1 H2]. unfold mbind, st_bind.
  destruct (m s1) as [t1 r1], (m s2) as [t2 r2]. cbn in *. subst r2.
  destruct r1 as [a|e|]; [by apply Hf|by split..].
Qed.

Lemma respects_when b m : respects R m -> respects R (when b m).
Proof. intros. destruct b; [done|apply respects_ret]. Qed.

Lemma respects_try {A} (m : st S A) c h :
  respects R m -> (forall e, respects R (h e)) -> respects R (st_try m c h).
Proof.
  intros Hm Hh s1 s2 H. destruct (Hm s1 s2 H) as [H1 H2]. unfold st_try.
  destruct (m s1) as [t1 r1], (m s2) as [t2 r2]. cbn in *. subst r2.
  destruct r1 as [a|e|]; [by split| |by split]. destruct (c e); [by apply Hh|by split].
Qed.

Lemma respects_finally {A} (m : st S A) f : respects R m -> respects R f -> respects R (st_finally m f).
Proof.
  intros Hm Hf s1 s2 H. destruct (Hm s1 s2 H) as [H1 H2]. unfold st_finally.
  destruct (m s1) as [t1 r1], (m s2) as [t2 r2]. cbn in *. subst r2. destruct (Hf t1 t2 H1) as [H3 H4].
  destruct r1 as [a|e|]; [| |by split];
    destruct (f t1) as [u1 q1], (f t2) as [u2 q2]; cbn in *; subst q2; by destruct q1.
Qed.

Lemma respects_iter {B} (f : B -> st S unit) l : (forall x, respects R (f x)) -> respects R (st_iter f l).
Proof.
  intros Hf. induction l as [|x l IH]; cbn [st_iter]; [apply respects_ret|].
  by apply respects_bind; [apply Hf|].
Qed.
End respects.

Lemma respects_zoom {S T A} (R : relation S) (Q : relation T) (get : S -> T) (set : T -> S -> S) (m : st T A) :
  Proper (R ==> Q) get -> Proper (Q ==> R ==> R) set -> respects Q m -> respects R (zoom get set m).
Proof.
  intros Hget Hset Hm s1 s2 H. destruct (Hm _ _ (Hget s1 s2 H)) as [H1 H2]. unfold zoom.
  destruct (m (get s1)) as [t1 r1], (m (get s2)) as [t2 r2]. split; [by apply Hset|done].
Qed.

(** Walks through the code down to its calls. *)
Create HintDb py_respects discriminated.
#[export] Hint Constants Opaque : py_respects.
#[export] Hint Resolve respects_ret respects_lift respects_raise : py_respects.

Ltac respects_step :=
  match goal with
  | |- respects _ (when _ _) => apply respects_when
  | |- respects _ (st_try _ _ _) => apply respects_try
  | |- respects _ (st_finally _ _) => apply respects_finally
  | |- respects _ (st_iter _ _) => apply respects_iter
  | |- respects _ (mbind _ _) => apply respects_bind
  | |- respects _ (let '(_, _) := ?x in _) => destruct x
  | |- respects _ (match ?x with _ => _ end) => destruct x
  | |- forall _, _ => intros
  end.
Ltac respects_tac := repeat first [assumption | solve [auto with py_respects] | respects_step].

(** ** The interface of an output *)

(** What the writer of frames needs of a transport: a [write] that, when it
    returns, has appended the bytes to the stream the peer receives. *)
Class ByteSink (W : Type) := {
  sink_write : bytes -> st W unit;
  sink_out : W -> bytes;
  sink_write_ok : forall bs w w' u,
    sink_write bs w = (w', Ok u) -> sink_out w' = sink_out w ++ bs;
}.

(** A transport that never fails, for examples. *)
#[export] Program Instance list_sink : ByteSink bytes := {|
  sink_write bs := modify (fun out => out ++ bs);
  sink_out out := out;
|}.
Next Obligation. intros bs w w' u H. unfold modify in H. by simplify_eq. Qed.
