(* ===== verification/Struct.v ===== *)
(** * Binary packing (Python's [struct])

    The format characters of [struct.pack] and [struct.unpack_from] that the
    library uses, all big-endian and without padding: unsigned and two's
    complement integers of 1, 2, 4 and 8 bytes.  A value that does not fit its
    width and a buffer that is too short raise [struct.error]. *)

From S2P Require Import Prelude Exceptions.

Open Scope Z_scope.

(** The [n] low-order bytes of [z], most significant first. *)
Fixpoint be_encode (n : nat) (z : Z) : bytes :=
  match n with
  | O => []
  | S n => byte_of_Z (z / 256 ^ Z.of_nat n) :: be_encode n z
  end.

(** The unsigned number that the bytes spell. *)
Definition be_decode (bs : bytes) : Z :=
  foldl (fun acc b => acc * 256 + byte_to_Z b) 0 bs.

(** Two's complement reading of an unsigned [n]-byte value. *)
Definition to_signed (n : nat) (z : Z) : Z :=
  if z <? 256 ^ Z.of_nat n / 2 then z else z - 256 ^ Z.of_nat n.

(** [pack] of ['B'], ['H'], ['I'], ['Q'] ([n] = 1, 2, 4, 8). *)
Definition pack_u (n : nat) (z : Z) : py bytes :=
  if (0 <=? z) && (z <? 256 ^ Z.of_nat n) then Ok (be_encode n z) else Raise StructError.

(** [pack] of ['b'], ['h'], ['i'], ['q']. *)
Definition pack_s (n : nat) (z : Z) : py bytes :=
  if (- (256 ^ Z.of_nat n / 2) <=? z) && (z <? 256 ^ Z.of_nat n / 2)
  then Ok (be_encode n z) else Raise StructError.

(** [unpack_from] at an offset. *)
Definition unpack_u (n : nat) (buf : bytes) (offset : Z) : py Z :=
  if offset + Z.of_nat n <=? zlen buf
  then Ok (be_decode (slice buf offset (offset + Z.of_nat n)))
  else Raise StructError.

Definition unpack_s (n : nat) (buf : bytes) (offset : Z) : py Z :=
  to_signed n <$> unpack_u n buf offset.

(** ** Big-endian numbers *)

Lemma be_encode_length n z : length (be_encode n z) = n.
Proof. induction n; cbn; congruence. Qed.

Lemma be_decode_from a bs :
  foldl (fun acc b => acc * 256 + byte_to_Z b) a bs = a * 256 ^ zlen bs + be_decode bs.
Proof.
  unfold be_decode. revert a. induction bs as [|b bs IH]; intros a; cbn [foldl length]; [lia|].
  rewrite IH, (IH (0 * 256 + _)), Nat2Z.inj_succ, Z.pow_succ_r by lia. lia.
Qed.

Lemma be_decode_app bs cs :
  be_decode (bs ++ cs) = be_decode bs * 256 ^ zlen cs + be_decode cs.
Proof. unfold be_decode at 1. by rewrite foldl_app, be_decode_from. Qed.

Lemma be_decode_cons b cs : be_decode (b :: cs) = byte_to_Z b * 256 ^ zlen cs + be_decode cs.
Proof. apply (be_decode_app [b] cs). Qed.

Lemma be_decode_range bs : 0 <= be_decode bs < 256 ^ zlen bs.
Proof.
  induction bs as [|b bs IH]; [cbn; lia|].
  rewrite be_decode_cons. pose proof (byte_to_Z_range b). cbn [length].
  rewrite Nat2Z.inj_succ, Z.pow_succ_r by lia. nia.
Qed.

Lemma be_decode_encode_mod n z : be_decode (be_encode n z) = z mod 256 ^ Z.of_nat n.
Proof.
  induction n as [|n IH]; [cbn; by rewrite Z.mod_1_r|].
  cbn [be_encode]. rewrite be_decode_cons, IH, be_encode_length, byte_to_of.
  rewrite Nat2Z.inj_succ, Z.pow_succ_r by lia.
  rewrite (Z.mul_comm 256), Z.rem_mul_r by lia. lia.
Qed.

Lemma be_decode_encode n z :
  0 <= z < 256 ^ Z.of_nat n -> be_decode (be_encode n z) = z.
Proof. intros. rewrite be_decode_encode_mod. by apply Z.mod_small. Qed.

Lemma be_encode_mod n m z :
  (n <= m)%nat -> be_encode n (z mod 256 ^ Z.of_nat m) = be_encode n z.
Proof.
  induction n as [|n IH]; intros Hle; [done|]. cbn [be_encode].
  rewrite IH by lia. f_equal. apply byte_to_Z_inj. rewrite !byte_to_of.
  replace (Z.of_nat m) with (Z.of_nat n + (1 + Z.of_nat (m - S n))) by lia.
  rewrite Z.pow_add_r, (Z.pow_add_r _ 1) by lia.
  rewrite Z.rem_mul_r by lia.
  rewrite Z.mul_comm, Z.div_add by lia.
  rewrite (Z.div_small (z mod _)) by (apply Z.mod_pos_bound; lia).
  rewrite Z.add_0_l. change (256 ^ 1) with 256.
  apply Z.mod_mod_divide, Z.divide_factor_l.
Qed.

Lemma be_encode_decode bs : be_encode (length bs) (be_decode bs) = bs.
Proof.
  induction bs as [|b bs IH]; [done|]. cbn [length be_encode].
  rewrite be_decode_cons. pose proof (be_decode_range bs).
  rewrite Z.div_add_l by lia. rewrite Z.div_small by done. rewrite Z.add_0_r.
  f_equal; [apply byte_of_to|].
  rewrite <- (be_encode_mod _ (length bs)) by done.
  rewrite Z.add_comm, Z.mod_add by lia. by rewrite Z.mod_small.
Qed.

(** ** Packing and unpacking *)

Lemma pack_u_ok n z bs : pack_u n z = Ok bs -> 0 <= z < 256 ^ Z.of_nat n /\ bs = be_encode n z.
Proof. unfold pack_u. case_if; intros; simplify_eq. bool_to_prop. done. Qed.

Lemma pack_s_ok n z bs :
  pack_s n z = Ok bs ->
  - (256 ^ Z.of_nat n / 2) <= z < 256 ^ Z.of_nat n / 2 /\ bs = be_encode n z.
Proof. unfold pack_s. case_if; intros; simplify_eq. bool_to_prop. done. Qed.

Lemma pack_u_length n z bs : pack_u n z = Ok bs -> length bs = n.
Proof. intros [_ ->]%pack_u_ok. apply be_encode_length. Qed.

Lemma pack_s_length n z bs : pack_s n z = Ok bs -> length bs = n.
Proof. intros [_ ->]%pack_s_ok. apply be_encode_length. Qed.

Lemma pack_u_in_range n z : 0 <= z < 256 ^ Z.of_nat n -> pack_u n z = Ok (be_encode n z).
Proof. intros. unfold pack_u. destruct (_ && _) eqn:Hb; [done|]. apply andb_false_iff in Hb. lia. Qed.

Lemma unpack_u_range n buf off z : unpack_u n buf off = Ok z -> 0 <= z < 256 ^ Z.of_nat n.
Proof.
  unfold unpack_u. case_if; intros; simplify_eq.
  pose proof (be_decode_range (slice buf off (off + Z.of_nat n))) as Hr.
  assert (length (slice buf off (off + Z.of_nat n)) <= n)%nat as Hl.
  { unfold slice. rewrite length_take. lia. }
  split; [lia|]. eapply Z.lt_le_trans; [apply Hr|]. apply Z.pow_le_mono_r; lia.
Qed.

Lemma unpack_u_bound n buf off z :
  unpack_u n buf off = Ok z -> off + Z.of_nat n <= zlen buf.
Proof. unfold unpack_u. case_if; intros; bool_to_prop; done. Qed.

Lemma unpack_s_bound n buf off z :
  unpack_s n buf off = Ok z -> off + Z.of_nat n <= zlen buf.
Proof.
  unfold unpack_s. destruct (unpack_u n buf off) eqn:Hu; cbn; intros; [|done..].
  by eapply unpack_u_bound.
Qed.

Lemma unpack_u_fuel n buf off : unpack_u n buf off <> OutOfFuel.
Proof. unfold unpack_u. by case_if. Qed.

Lemma unpack_s_fuel n buf off : unpack_s n buf off <> OutOfFuel.
Proof. unfold unpack_s, unpack_u. by case_if. Qed.

(** The unsigned reading of any [n] bytes that the buffer holds. *)
Lemma unpack_u_holds n buf off bs :
  holds_at buf off bs -> length bs = n -> unpack_u n buf off = Ok (be_decode bs).
Proof.
  intros Hb <-. unfold unpack_u. pose proof (holds_at_bound _ _ _ Hb).
  by rewrite (proj2 (Z.leb_le _ _)), (holds_at_slice _ _ bs) by (done || lia).
Qed.

(** Reading back a packed value. *)
Lemma unpack_pack_u n z bs buf off :
  holds_at buf off bs -> pack_u n z = Ok bs -> unpack_u n buf off = Ok z.
Proof.
  intros Hb Hp. erewrite unpack_u_holds; [|done|by eapply pack_u_length].
  apply pack_u_ok in Hp as [Hr ->]. by rewrite be_decode_encode.
Qed.

Lemma pow256_pos n : 0 < 256 ^ Z.of_nat n.
Proof. apply Z.pow_pos_nonneg; lia. Qed.

Lemma pow256_even n : (0 < n)%nat -> 256 ^ Z.of_nat n = 2 * (256 ^ Z.of_nat n / 2).
Proof.
  intros Hn. apply Z.div_exact; [lia|]. destruct n; [lia|].
  rewrite Nat2Z.inj_succ, Z.pow_succ_r by lia.
  change 256 with (2 * 128) at 1. rewrite <- Z.mul_assoc, Z.mul_comm. apply Z.mod_mul. lia.
Qed.

Lemma unpack_pack_s n z bs buf off :
  (0 < n)%nat -> holds_at buf off bs -> pack_s n z = Ok bs -> unpack_s n buf off = Ok z.
Proof.
  intros Hn Hb Hp. unfold unpack_s.
  erewrite unpack_u_holds; [|done|by eapply pack_s_length].
  apply pack_s_ok in Hp as [Hr ->]. cbn. f_equal. rewrite be_decode_encode_mod. unfold to_signed.
  pose proof (pow256_even n Hn). pose proof (pow256_pos n).
  destruct (decide (0 <= z)).
  - rewrite Z.mod_small by lia. case_if; bool_to_prop; lia.
  - assert (z mod 256 ^ Z.of_nat n = z + 256 ^ Z.of_nat n) as ->.
    { rewrite <- (Z.mod_add z 1), Z.mul_1_l by lia. apply Z.mod_small. lia. }
    case_if; bool_to_prop; lia.
Qed.

Lemma be_encode_1 z : be_encode 1 z = [byte_of_Z z].
Proof. unfold be_encode. change (256 ^ Z.of_nat 0) with 1. by rewrite Z.div_1_r. Qed.

#[global] Arguments be_encode : simpl never.
#[global] Arguments be_decode : simpl never.

Lemma pack_u_fuel n z : pack_u n z <> OutOfFuel.
Proof. unfold pack_u. by case_if. Qed.

Lemma pack_s_fuel n z : pack_s n z <> OutOfFuel.
Proof. unfold pack_s. by case_if. Qed.

#[export] Hint Resolve unpack_u_fuel unpack_s_fuel pack_u_fuel pack_s_fuel : py_total.

Section struct_errors.
Context (P : exc -> bool) (HP : P StructError = true).

Lemma unpack_u_raises n buf off : raises_only P (unpack_u n buf off).
Proof. unfold unpack_u. by case_if. Qed.

Lemma unpack_s_raises n buf off : raises_only P (unpack_s n buf off).
Proof. apply raises_only_fmap, unpack_u_raises. Qed.

Lemma pack_u_raises n z : raises_only P (pack_u n z).
Proof. unfold pack_u. by case_if. Qed.

Lemma pack_s_raises n z : raises_only P (pack_s n z).
Proof. unfold pack_s. by case_if. Qed.
End struct_errors.

#[export] Hint Resolve unpack_u_raises unpack_s_raises pack_u_raises pack_s_raises : py_errors.
