(* ===== verification/Utf8.v ===== *)
(** * UTF-8 with [surrogatepass] ([amqp/utils.py] and the [str] codec)

    [str_to_bytes] and [bytes_to_str] of [amqp/utils.py], which encode and
    decode with the error handler [surrogatepass]: the lone surrogates that a
    Python [str] may hold are coded as three bytes like any other code point
    of that range.  Decoding is otherwise strict: it refuses stray and missing
    continuation bytes, overlong forms and numbers above 0x10FFFF. *)

From S2P Require Import Prelude Exceptions.

Open Scope Z_scope.

(** Every element of a Python [str] is a code point. *)
Definition code_point (c : Z) : Prop := 0 <= c <= 0x10FFFF.
Abbreviation wf_str := (Forall code_point).

#[export] Instance code_point_dec c : Decision (code_point c).
Proof. unfold code_point. apply _. Defined.

Definition utf8_encode_char (c : Z) : bytes :=
  if c <? 0x80 then [byte_of_Z c]
  else if c <? 0x800 then
    [byte_of_Z (0xC0 + c / 64); byte_of_Z (0x80 + c mod 64)]
  else if c <? 0x10000 then
    [byte_of_Z (0xE0 + c / 4096); byte_of_Z (0x80 + c / 64 mod 64);
     byte_of_Z (0x80 + c mod 64)]
  else
    [byte_of_Z (0xF0 + c / 262144); byte_of_Z (0x80 + c / 4096 mod 64);
     byte_of_Z (0x80 + c / 64 mod 64); byte_of_Z (0x80 + c mod 64)].

Definition is_cont (b : byte) : bool :=
  (0x80 <=? byte_to_Z b) && (byte_to_Z b <? 0xC0).

(** The six payload bits of a continuation byte. *)
Definition cont_bits (b : byte) : Z := byte_to_Z b - 0x80.

Definition code2 (b0 b1 : byte) : Z := (byte_to_Z b0 - 0xC0) * 64 + cont_bits b1.
Definition code3 (b0 b1 b2 : byte) : Z :=
  (byte_to_Z b0 - 0xE0) * 4096 + cont_bits b1 * 64 + cont_bits b2.
Definition code4 (b0 b1 b2 b3 : byte) : Z :=
  (byte_to_Z b0 - 0xF0) * 262144 + cont_bits b1 * 4096 + cont_bits b2 * 64 + cont_bits b3.

Definition ok2 (b0 b1 : byte) : bool :=
  (0xC0 <=? byte_to_Z b0) && (byte_to_Z b0 <? 0xE0) && is_cont b1 &&
  (0x80 <=? code2 b0 b1).
Definition ok3 (b0 b1 b2 : byte) : bool :=
  (0xE0 <=? byte_to_Z b0) && (byte_to_Z b0 <? 0xF0) && is_cont b1 && is_cont b2 &&
  (0x800 <=? code3 b0 b1 b2).
Definition ok4 (b0 b1 b2 b3 : byte) : bool :=
  (0xF0 <=? byte_to_Z b0) && (byte_to_Z b0 <? 0xF8) &&
  is_cont b1 && is_cont b2 && is_cont b3 &&
  (0x10000 <=? code4 b0 b1 b2 b3) && (code4 b0 b1 b2 b3 <=? 0x10FFFF).

Fixpoint utf8_decode_opt (bs : bytes) : option pystr :=
  match bs with
  | [] => Some []
  | b0 :: t0 =>
      if byte_to_Z b0 <? 0x80 then cons (byte_to_Z b0) <$> utf8_decode_opt t0
      else match t0 with
      | [] => None
      | b1 :: t1 =>
          if ok2 b0 b1 then cons (code2 b0 b1) <$> utf8_decode_opt t1
          else match t1 with
          | [] => None
          | b2 :: t2 =>
              if ok3 b0 b1 b2 then cons (code3 b0 b1 b2) <$> utf8_decode_opt t2
              else match t2 with
              | [] => None
              | b3 :: t3 =>
                  if ok4 b0 b1 b2 b3 then cons (code4 b0 b1 b2 b3) <$> utf8_decode_opt t3
                  else None
              end
          end
      end
  end.

(** [str_to_bytes] on a [str]: [s.encode('utf-8', 'surrogatepass')]. *)
Definition str_to_bytes (s : pystr) : bytes := s ≫= utf8_encode_char.

(** [bytes_to_str] (imported as [pstr_t]) on [bytes]. *)
Definition bytes_to_str (bs : bytes) : py pystr :=
  of_option UnicodeDecodeError (utf8_decode_opt bs).

(** Strict UTF-8 ([s.encode('utf-8')]), which refuses surrogates. *)
Definition is_surrogate (c : Z) : bool := (0xD800 <=? c) && (c <=? 0xDFFF).
Definition encode_utf8_strict (s : pystr) : py bytes :=
  if existsb is_surrogate s then Raise UnicodeEncodeError else Ok (str_to_bytes s).
(** [bs.decode('utf-8')]. *)
Definition decode_utf8_strict (bs : bytes) : py pystr :=
  s ← bytes_to_str bs; if existsb is_surrogate s then Raise UnicodeDecodeError else Ok s.

(** ** Round trips *)

Ltac byte_arith :=
  unfold ok2, ok3, ok4, is_cont, code2, code3, code4, cont_bits, code_point in *;
  rewrite ?byte_to_of_small by dlia.

Lemma utf8_decode_encode_char c bs :
  code_point c -> utf8_decode_opt (utf8_encode_char c ++ bs) = cons c <$> utf8_decode_opt bs.
Proof.
  intros Hc. unfold utf8_encode_char, code_point in *.
  destruct (c <? 0x80) eqn:H1; bool_to_prop.
  { cbn. rewrite byte_to_of_small by lia. by rewrite (proj2 (Z.ltb_lt _ _)) by dlia. }
  destruct (c <? 0x800) eqn:H2; bool_to_prop; [|destruct (c <? 0x10000) eqn:H3; bool_to_prop].
  - cbn. byte_arith.
    rewrite (proj2 (Z.ltb_ge _ _)) by dlia.
    replace (_ && _) with true; [do 2 f_equal; dlia|].
    symmetry. rewrite !andb_true_iff, !Z.leb_le, !Z.ltb_lt. dlia.
  - cbn. byte_arith.
    rewrite (proj2 (Z.ltb_ge _ _)) by dlia.
    replace (_ && _ && _ && _) with false.
    2: { symmetry. rewrite !andb_false_iff, !Z.leb_gt, !Z.ltb_ge. dlia. }
    replace (_ && _ && _ && _ && _) with true; [do 2 f_equal; dlia|].
    symmetry. rewrite !andb_true_iff, !Z.leb_le, !Z.ltb_lt. dlia.
  - cbn. byte_arith.
    rewrite (proj2 (Z.ltb_ge _ _)) by dlia.
    replace (_ && _ && _ && _) with false.
    2: { symmetry. rewrite !andb_false_iff, !Z.leb_gt, !Z.ltb_ge. dlia. }
    replace (_ && _ && _ && _ && _) with false.
    2: { symmetry. rewrite !andb_false_iff, !Z.leb_gt, !Z.ltb_ge. dlia. }
    replace (_ && _ && _ && _ && _ && _ && _) with true; [do 2 f_equal; dlia|].
    symmetry. rewrite !andb_true_iff, !Z.leb_le, !Z.ltb_lt. dlia.
Qed.

(** Decoding gives back every string that was encoded, surrogates included. *)
Lemma utf8_decode_encode s : wf_str s -> bytes_to_str (str_to_bytes s) = Ok s.
Proof.
  intros Hs. unfold bytes_to_str, str_to_bytes.
  assert (utf8_decode_opt (s ≫= utf8_encode_char) = Some s) as ->; [|done].
  induction Hs as [|c s Hc Hs IH]; [done|].
  cbn [mbind list_bind]. rewrite utf8_decode_encode_char by done. by rewrite IH.
Qed.

Lemma utf8_strict_decode_encode s b :
  wf_str s -> encode_utf8_strict s = Ok b -> decode_utf8_strict b = Ok s.
Proof.
  unfold encode_utf8_strict, decode_utf8_strict. intros Hs. destruct (existsb is_surrogate s) eqn:He; [done|].
  intros [= <-]. rewrite utf8_decode_encode by done. cbn. by rewrite He.
Qed.

Lemma byte_of_to_eq b z : z = byte_to_Z b -> byte_of_Z z = b.
Proof. intros ->. apply byte_of_to. Qed.

Ltac encode_back :=
  intros H; byte_arith; bool_to_prop; unfold utf8_encode_char;
  repeat (case_if; bool_to_prop; try lia);
  split; [|lia]; repeat (f_equal; try (apply byte_of_to_eq; dlia)).

Lemma encode_code2 b0 b1 :
  ok2 b0 b1 = true -> utf8_encode_char (code2 b0 b1) = [b0; b1] /\ code_point (code2 b0 b1).
Proof. encode_back. Qed.

Lemma encode_code3 b0 b1 b2 :
  ok3 b0 b1 b2 = true ->
  utf8_encode_char (code3 b0 b1 b2) = [b0; b1; b2] /\ code_point (code3 b0 b1 b2).
Proof. encode_back. Qed.

Lemma encode_code4 b0 b1 b2 b3 :
  ok4 b0 b1 b2 b3 = true ->
  utf8_encode_char (code4 b0 b1 b2 b3) = [b0; b1; b2; b3] /\ code_point (code4 b0 b1 b2 b3).
Proof. encode_back. Qed.

(** What decodes is the encoding of a well-formed string, and of one only. *)
Lemma utf8_encode_decode_opt bs s :
  utf8_decode_opt bs = Some s -> str_to_bytes s = bs /\ wf_str s.
Proof.
  assert (Hstep : forall c r t u,
    (forall s, utf8_decode_opt t = Some s -> str_to_bytes s = t /\ wf_str s) ->
    utf8_encode_char c = r -> code_point c -> cons c <$> utf8_decode_opt t = Some u ->
    str_to_bytes u = r ++ t /\ wf_str u).
  { intros c r t u IH Hr Hc (v & Hv & ->)%fmap_Some. apply IH in Hv as [Hv Hw].
    split; [|by constructor]. unfold str_to_bytes in *. cbn. by rewrite Hv, Hr. }
  revert s. induction bs as [bs IH] using (induction_ltof1 _ (@length byte)). unfold ltof in IH.
  destruct bs as [|b0 t0]; cbn; intros s Hs; simplify_eq; [done|].
  destruct (byte_to_Z b0 <? 0x80) eqn:H1; bool_to_prop.
  { pose proof (byte_to_Z_range b0).
    refine (Hstep _ [b0] _ _ _ _ _ Hs); [apply IH; cbn; lia| |unfold code_point; lia].
    unfold utf8_encode_char. rewrite (proj2 (Z.ltb_lt _ _)) by lia. by rewrite byte_of_to. }
  destruct t0 as [|b1 t1]; [done|]. destruct (ok2 b0 b1) eqn:H2.
  { apply encode_code2 in H2 as [He Hc].
    refine (Hstep _ [b0; b1] _ _ _ He Hc Hs). apply IH; cbn; lia. }
  destruct t1 as [|b2 t2]; [done|]. destruct (ok3 b0 b1 b2) eqn:H3.
  { apply encode_code3 in H3 as [He Hc].
    refine (Hstep _ [b0; b1; b2] _ _ _ He Hc Hs). apply IH; cbn; lia. }
  destruct t2 as [|b3 t3]; [done|]. destruct (ok4 b0 b1 b2 b3) eqn:H4; [|done].
  apply encode_code4 in H4 as [He Hc].
  refine (Hstep _ [b0; b1; b2; b3] _ _ _ He Hc Hs). apply IH; cbn; lia.
Qed.

Lemma utf8_encode_decode bs s : bytes_to_str bs = Ok s -> str_to_bytes s = bs /\ wf_str s.
Proof. unfold bytes_to_str. intros H%of_option_ok. by apply utf8_encode_decode_opt. Qed.

(** The only exception of [bytes_to_str] is [UnicodeDecodeError]. *)
Lemma bytes_to_str_cases bs :
  bytes_to_str bs = Raise UnicodeDecodeError \/ exists s, bytes_to_str bs = Ok s.
Proof. unfold bytes_to_str. destruct (utf8_decode_opt bs); cbn; eauto. Qed.

Lemma bytes_to_str_fuel bs : bytes_to_str bs <> OutOfFuel.
Proof. apply of_option_fuel. Qed.

Lemma bytes_to_str_raises P bs :
  P UnicodeDecodeError = true -> raises_only P (bytes_to_str bs).
Proof. apply raises_only_of_option. Qed.

#[export] Hint Resolve bytes_to_str_fuel : py_total.
#[export] Hint Resolve bytes_to_str_raises : py_errors.
