(* ===== verification/Datetime.v ===== *)
(** * Timestamps (Python's [datetime] and [calendar])

    The two conversions of [amqp/serialization.py] between a [datetime] and
    the 64-bit POSIX timestamp of the wire: writing uses
    [int(calendar.timegm(val.utctimetuple()))], reading uses
    [datetime.fromtimestamp(val, tz=timezone.utc).replace(tzinfo=None)].
    The calendar is the proleptic Gregorian one of [datetime], computed as its
    documentation and implementation do. *)

From S2P Require Import Prelude Exceptions.

Open Scope Z_scope.

Record datetime : Type := Datetime {
  dt_year : Z; dt_month : Z; dt_day : Z;
  dt_hour : Z; dt_minute : Z; dt_second : Z; dt_microsecond : Z;
  (* [utcoffset()] in seconds; [None] for a naive datetime *)
  dt_utcoffset : option Z;
}.

#[export] Instance datetime_eq_dec : EqDecision datetime.
Proof. solve_decision. Defined.

(** ** Ordinals *)

Definition is_leap (y : Z) : bool :=
  (y mod 4 =? 0) && (negb (y mod 100 =? 0) || (y mod 400 =? 0)).

Definition days_before_year (y : Z) : Z :=
  let y := y - 1 in y * 365 + y / 4 - y / 100 + y / 400.

(** Days before the month in a common year, and the leap day. *)
Definition month_offset (leap : bool) (m : Z) : Z :=
  nth (Z.to_nat m) [0; 0; 31; 59; 90; 120; 151; 181; 212; 243; 273; 304; 334; 365] 0
  + (if (2 <? m) && leap then 1 else 0).

Definition days_before_month (y m : Z) : Z := month_offset (is_leap y) m.

Definition days_in_month (y m : Z) : Z :=
  days_before_month y (m + 1) - days_before_month y m.

Definition ymd2ord (y m d : Z) : Z := days_before_year y + days_before_month y m + d.

Definition ord2ymd (n : Z) : Z * Z * Z :=
  let n := n - 1 in
  let n400 := n / 146097 in let n := n mod 146097 in
  let year := n400 * 400 + 1 in
  let n100 := n / 36524 in let n := n mod 36524 in
  let n4 := n / 1461 in let n := n mod 1461 in
  let n1 := n / 365 in let n := n mod 365 in
  let year := year + n100 * 100 + n4 * 4 + n1 in
  if (n1 =? 4) || (n100 =? 4) then (year - 1, 12, 31)
  else
    let month := Z.shiftr (n + 50) 5 in
    let preceding := days_before_month year month in
    if n <? preceding
    then (year, month - 1, n - days_before_month year (month - 1) + 1)
    else (year, month, n - preceding + 1).

Definition EPOCH_ORD : Z := 719163.

(** ** Conversions *)

Definition valid_date (y m d : Z) : bool :=
  (1 <=? m) && (m <=? 12) && (1 <=? d) && (d <=? days_in_month y m).

(** What the [datetime] constructor checks; an offset is less than a day. *)
Definition valid_datetime (dt : datetime) : Prop :=
  (1 <= dt_year dt <= 9999) /\ valid_date (dt_year dt) (dt_month dt) (dt_day dt) = true /\
  (0 <= dt_hour dt < 24) /\ (0 <= dt_minute dt < 60) /\ (0 <= dt_second dt < 60) /\
  (0 <= dt_microsecond dt < 1000000) /\
  (-86400 < default 0 (dt_utcoffset dt) < 86400).

(** The seconds between the epoch and the wall-clock fields. *)
Definition wall_seconds (dt : datetime) : Z :=
  ((ymd2ord (dt_year dt) (dt_month dt) (dt_day dt) - EPOCH_ORD) * 24 + dt_hour dt) * 3600
  + dt_minute dt * 60 + dt_second dt.

Definition utc_seconds (dt : datetime) : Z := wall_seconds dt - default 0 (dt_utcoffset dt).

(** The first second of year 1 and the last one of year 9999. *)
Definition MIN_SECONDS : Z := -62135596800.
Definition MAX_SECONDS : Z := 253402300799.

(** [calendar.timegm(val.utctimetuple())]: shifting an aware datetime to UTC
    overflows when it leaves the years 1 to 9999. *)
Definition timegm_utc (dt : datetime) : py Z :=
  let s := utc_seconds dt in
  if (MIN_SECONDS <=? s) && (s <=? MAX_SECONDS) then Ok s else Raise OverflowError.

(** The naive datetime at a number of seconds from the epoch. *)
Definition datetime_at (s : Z) : datetime :=
  let '(y, m, d) := ord2ymd (s / 86400 + EPOCH_ORD) in
  let r := s mod 86400 in
  Datetime y m d (r / 3600) (r / 60 mod 60) (r mod 60) 0 None.

(** [datetime.fromtimestamp(val, tz=timezone.utc).replace(tzinfo=None)] for a
    non-negative [val]: beyond year 9999 the constructor raises [ValueError],
    beyond the range of [struct tm] [gmtime] fails with EOVERFLOW and beyond
    that of [time_t] the conversion overflows. *)
Definition fromtimestamp (val : Z) : py datetime :=
  if val <=? MAX_SECONDS then Ok (datetime_at val)
  else if val <=? 67768036191676799 then Raise ValueError
  else if val <? 2 ^ 63 then Raise (OSErr (Some 75))
  else Raise OverflowError.

(** ** Correctness of the calendar *)

(** Checking a property of a range of numbers by computation. *)
Fixpoint all_below (n : nat) (acc : Z) (P : Z -> bool) : bool :=
  match n with
  | O => true
  | S n => P acc && all_below n (acc + 1) P
  end.

Lemma all_below_spec n a P z :
  all_below n a P = true -> a <= z < a + Z.of_nat n -> P z = true.
Proof.
  revert a. induction n as [|n IH]; intros a Hall Hz; [lia|].
  cbn in Hall. apply andb_true_iff in Hall as [Ha Hall].
  destruct (decide (z = a)) as [->|]; [done|]. apply (IH _ Hall). lia.
Qed.

(** The month and day that [ord2ymd] finds from the day of the year. *)
Definition month_day (leap : bool) (n : Z) : Z * Z :=
  let month := Z.shiftr (n + 50) 5 in
  if n <? month_offset leap month
  then (month - 1, n - month_offset leap (month - 1) + 1)
  else (month, n - month_offset leap month + 1).

Lemma month_day_check leap :
  all_below 12 1 (fun m =>
    all_below (Z.to_nat (month_offset leap (m + 1) - month_offset leap m)) 1 (fun d =>
      let n := month_offset leap m + d - 1 in
      (0 <=? n) && (n <=? 364 + (if leap then 1 else 0)) &&
      ((n =? 365) || (let '(m', d') := month_day leap n in (m' =? m) && (d' =? d))) &&
      (negb (n =? 365) || ((m =? 12) && (d =? 31))))) = true.
Proof. destruct leap; vm_compute; reflexivity. Qed.

Lemma month_day_spec leap m d :
  1 <= m <= 12 -> 1 <= d <= month_offset leap (m + 1) - month_offset leap m ->
  let n := month_offset leap m + d - 1 in
  0 <= n <= 364 + (if leap then 1 else 0) /\
  (n < 365 -> month_day leap n = (m, d)) /\ (n = 365 -> m = 12 /\ d = 31).
Proof.
  intros Hm Hd n.
  pose proof (all_below_spec _ _ _ m (month_day_check leap) ltac:(lia)) as Hc.
  pose proof (all_below_spec _ _ _ d Hc ltac:(lia)) as H. cbv beta zeta in H. fold n in H.
  rewrite !andb_true_iff, !orb_true_iff, negb_true_iff in H.
  destruct H as [[[H1 H2] H3] H4]. bool_to_prop.
  split_and!; [done|destruct leap; lia| |].
  - intros. destruct H3 as [H3|H3]; bool_to_prop; [lia|].
    destruct (month_day leap n). bool_to_prop. by subst.
  - intros. destruct H4 as [H4|H4]; bool_to_prop; [lia|done].
Qed.

(** The year that [ord2ymd] finds, from the position in the 400-year cycle. *)
Lemma ord2ymd_cycle a b c n :
  0 <= a <= 3 -> 0 <= b <= 24 -> 0 <= c <= 3 ->
  let y := 100 * a + 4 * b + c + 1 in
  0 <= n <= 364 + (if is_leap y then 1 else 0) ->
  days_before_year y = 36524 * a + 1461 * b + 365 * c /\
  ord2ymd (days_before_year y + n + 1) =
    if n =? 365 then (y, 12, 31) else let '(m, d) := month_day (is_leap y) n in (y, m, d).
Proof.
  intros Ha Hb Hc y Hn.
  assert (days_before_year y = 36524 * a + 1461 * b + 365 * c) as Hdby.
  { unfold days_before_year, y. dlia. }
  assert (is_leap y = (c =? 3) && (negb (b =? 24) || (a =? 3))) as Hleap.
  { unfold is_leap, y. rewrite eq_iff_eq_true.
    rewrite !andb_true_iff, !orb_true_iff, !negb_true_iff, !Z.eqb_eq, !Z.eqb_neq. dlia. }
  split; [done|]. rewrite Hdby. unfold ord2ymd.
  replace (36524 * a + 1461 * b + 365 * c + n + 1 - 1)
    with (36524 * a + 1461 * b + 365 * c + n) by lia.
  assert (n = 365 -> c = 3 /\ (b <> 24 \/ a = 3)) as H365.
  { intros ->. destruct (is_leap y); [|lia]. symmetry in Hleap.
    rewrite andb_true_iff, orb_true_iff, negb_true_iff, !Z.eqb_eq, Z.eqb_neq in Hleap. lia. }
  assert (n <= 365) by (destruct (is_leap y); lia).
  set (N := 36524 * a + 1461 * b + 365 * c + n).
  assert (0 <= N < 146097) by (unfold N; lia).
  rewrite (Z.div_small N) by lia. rewrite (Z.mod_small N) by lia.
  destruct (decide (n = 365)) as [Hn365|Hn365].
  - destruct (H365 Hn365) as [-> Hab]. subst n. cbn [Z.eqb Pos.eqb].
    destruct (decide (a = 3 /\ b = 24)) as [[-> ->]|].
    + replace N with 146096 by (unfold N; lia). vm_compute. done.
    + assert (N / 36524 = a) as -> by (unfold N; dlia).
      assert (N mod 36524 = 1461 * b + 1460) as -> by (unfold N; dlia).
      assert ((1461 * b + 1460) / 1461 = b) as -> by dlia.
      assert ((1461 * b + 1460) mod 1461 = 1460) as -> by dlia.
      cbn [Z.div Z.modulo Z.eqb Pos.eqb orb]. change (1460 / 365 =? 4) with true. cbn [orb].
      do 2 f_equal. change (1460 / 365) with 4. unfold y. lia.
  - rewrite (proj2 (Z.eqb_neq n 365)) by done.
    assert (N / 36524 = a) as -> by (unfold N; dlia).
    assert (N mod 36524 = 1461 * b + 365 * c + n) as -> by (unfold N; dlia).
    assert ((1461 * b + 365 * c + n) / 1461 = b) as -> by dlia.
    assert ((1461 * b + 365 * c + n) mod 1461 = 365 * c + n) as -> by dlia.
    assert ((365 * c + n) / 365 = c) as -> by dlia.
    assert ((365 * c + n) mod 365 = n) as -> by dlia.
    rewrite (proj2 (Z.eqb_neq c 4)), (proj2 (Z.eqb_neq a 4)) by lia. cbn [orb].
    replace (0 * 400 + 1 + a * 100 + b * 4 + c) with y by (unfold y; lia).
    unfold days_before_month, month_day. by case_if.
Qed.

Lemma is_leap_shift y k : is_leap (y + 400 * k) = is_leap y.
Proof.
  unfold is_leap.
  replace ((y + 400 * k) mod 4) with (y mod 4) by dlia.
  replace ((y + 400 * k) mod 100) with (y mod 100) by dlia.
  by replace ((y + 400 * k) mod 400) with (y mod 400) by dlia.
Qed.

Lemma days_before_month_shift y m k :
  days_before_month (y + 400 * k) m = days_before_month y m.
Proof. unfold days_before_month. by rewrite is_leap_shift. Qed.

Lemma ymd2ord_shift y m d k :
  ymd2ord (y + 400 * k) m d = ymd2ord y m d + 146097 * k.
Proof.
  unfold ymd2ord. rewrite days_before_month_shift. unfold days_before_year. dlia.
Qed.

Lemma ord2ymd_shift n k :
  ord2ymd (n + 146097 * k) = let '(y, m, d) := ord2ymd n in (y + 400 * k, m, d).
Proof.
  unfold ord2ymd.
  replace ((n + 146097 * k - 1) / 146097) with ((n - 1) / 146097 + k) by dlia.
  replace ((n + 146097 * k - 1) mod 146097) with ((n - 1) mod 146097) by dlia.
  generalize ((n - 1) / 146097), ((n - 1) mod 146097). clear n. intros q r.
  cbv zeta.
  set (a := r / 36524 * 100). set (b := r mod 36524 / 1461 * 4).
  set (c := (r mod 36524) mod 1461 / 365).
  replace ((q + k) * 400 + 1 + a + b + c) with (q * 400 + 1 + a + b + c + 400 * k) by lia.
  rewrite !days_before_month_shift. repeat case_if; try done.
  do 2 f_equal; lia.
Qed.

Lemma ord2ymd_ymd2ord y m d :
  valid_date y m d = true -> ord2ymd (ymd2ord y m d) = (y, m, d).
Proof.
  unfold valid_date. intros Hv. bool_to_prop.
  set (k := (y - 1) / 400). set (y0 := (y - 1) mod 400 + 1).
  assert (y = y0 + 400 * k) as Hy by (unfold y0, k; dlia).
  assert (1 <= y0 <= 400) by (unfold y0; dlia). clearbody k y0. subst y.
  unfold days_in_month in *. rewrite !days_before_month_shift in *.
  rewrite ymd2ord_shift, ord2ymd_shift.
  assert (ord2ymd (ymd2ord y0 m d) = (y0, m, d)) as ->; [|done].
  unfold days_before_month in *.
  destruct (month_day_spec (is_leap y0) m d) as (Hn & Hmd & Hlast); [lia..|].
  destruct (ord2ymd_cycle ((y0 - 1) / 100) ((y0 - 1) mod 100 / 4) ((y0 - 1) mod 4)
    (month_offset (is_leap y0) m + d - 1)) as [_ Hy]; [dlia..| |].
  - by replace (100 * _ + _ + _ + 1) with y0 by dlia.
  - replace (100 * _ + _ + _ + 1) with y0 in Hy by dlia.
    unfold ymd2ord, days_before_month.
    replace (_ + _ + d) with (days_before_year y0 + (month_offset (is_leap y0) m + d - 1) + 1) by lia.
    rewrite Hy. case_if; bool_to_prop; [by destruct Hlast as [-> ->]|]. rewrite Hmd; [done|].
    destruct (is_leap y0); lia.
Qed.

(** Reading the timestamp of a naive datetime gives it back, up to the
    microseconds that the wire does not carry. *)
Lemma datetime_at_wall dt :
  valid_datetime dt ->
  datetime_at (wall_seconds dt) =
    Datetime (dt_year dt) (dt_month dt) (dt_day dt)
             (dt_hour dt) (dt_minute dt) (dt_second dt) 0 None.
Proof.
  destruct dt as [y m d h mi s us off]. unfold valid_datetime. cbn.
  intros (Hy & Hd & Hh & Hm & Hs & _). unfold datetime_at, wall_seconds. cbn.
  set (o := ymd2ord y m d). set (w := ((o - EPOCH_ORD) * 24 + h) * 3600 + mi * 60 + s).
  replace (w / 86400 + EPOCH_ORD) with o by (unfold w; dlia).
  unfold o at 1. rewrite ord2ymd_ymd2ord by done.
  assert (w mod 86400 = h * 3600 + mi * 60 + s) as -> by (unfold w; dlia).
  f_equal; dlia.
Qed.

Lemma timegm_utc_ok dt s :
  timegm_utc dt = Ok s -> s = utc_seconds dt /\ MIN_SECONDS <= s <= MAX_SECONDS.
Proof. unfold timegm_utc. case_if; intros; simplify_eq. bool_to_prop. done. Qed.

Lemma fromtimestamp_timegm dt s :
  timegm_utc dt = Ok s -> fromtimestamp s = Ok (datetime_at (utc_seconds dt)).
Proof.
  intros [-> Hr]%timegm_utc_ok. unfold fromtimestamp.
  by rewrite (proj2 (Z.leb_le _ _)) by lia.
Qed.

Lemma fromtimestamp_fuel v : fromtimestamp v <> OutOfFuel.
Proof. unfold fromtimestamp. by repeat case_if. Qed.

Lemma timegm_utc_fuel dt : timegm_utc dt <> OutOfFuel.
Proof. unfold timegm_utc. by case_if. Qed.

#[export] Hint Resolve fromtimestamp_fuel timegm_utc_fuel : py_total.

(** Conversion compares calls of these before it looks into the calendar. *)
#[global] Strategy 100 [timegm_utc fromtimestamp datetime_at utc_seconds].
