(* ===== verification/Values.v ===== *)
(** * Python values on the wire

    The Python objects that [amqp/serialization.py] converts to and from
    bytes: [None], [bool], [int], [float] (as the 64-bit pattern of its
    binary64 value), [Decimal] (as the triple of [as_tuple]), [str], [bytes],
    [datetime], [dict] with [str] or [bytes] keys in insertion order, [list]
    and [tuple]; [VObject] stands for an object of any other type.  With them
    the operations of the language that the code applies to such objects:
    truth value, [int()], the conversion of [struct.pack('>f')], iteration. *)

From S2P Require Import Prelude Exceptions Struct Utf8 Datetime.

Open Scope Z_scope.

(** [Decimal.as_tuple()]; the exponent of a special value is a string. *)
Inductive decimal : Type :=
  | Dec (sign : bool) (digits : list Z) (exponent : Z)
  | DecInf (sign : bool)
  | DecNaN (sign signaling : bool).

Inductive dict_key : Type :=
  | KStr (s : pystr)
  | KBytes (b : bytes).

#[export] Instance dict_key_eq_dec : EqDecision dict_key.
Proof. solve_decision. Defined.

(** The induction principle needs hypotheses on the nested values, stated
    below. *)
#[local] Unset Elimination Schemes.
Inductive value : Type :=
  | VNone
  | VBool (b : bool)
  | VInt (z : Z)
  | VFloat (bits : Z)
  | VDecimal (d : decimal)
  | VStr (s : pystr)
  | VBytes (b : bytes)
  | VDatetime (dt : datetime)
  | VDict (d : list (dict_key * value))
  | VList (l : list value)
  | VTuple (l : list value)
  | VObject.
#[local] Set Elimination Schemes.

Section value_ind.
Context (P : value -> Prop).
Hypotheses (HNone : P VNone) (HBool : forall b, P (VBool b)) (HInt : forall z, P (VInt z))
  (HFloat : forall b, P (VFloat b)) (HDecimal : forall d, P (VDecimal d))
  (HStr : forall s, P (VStr s)) (HBytes : forall b, P (VBytes b))
  (HDatetime : forall dt, P (VDatetime dt))
  (HDict : forall d, Forall (fun p => P p.2) d -> P (VDict d))
  (HList : forall l, Forall P l -> P (VList l))
  (HTuple : forall l, Forall P l -> P (VTuple l))
  (HObject : P VObject).

Fixpoint value_ind (v : value) : P v :=
  let fix go_list (l : list value) : Forall P l :=
    match l with
    | [] => Forall_nil_2 _
    | x :: l => Forall_cons_2 _ _ _ (value_ind x) (go_list l)
    end in
  let fix go_dict (d : list (dict_key * value)) : Forall (fun p => P p.2) d :=
    match d with
    | [] => Forall_nil_2 _
    | (k, x) :: d => Forall_cons_2 (fun p => P p.2) (k, x) _ (value_ind x) (go_dict d)
    end in
  match v with
  | VNone => HNone | VBool b => HBool b | VInt z => HInt z
  | VFloat b => HFloat b | VDecimal d => HDecimal d | VStr s => HStr s
  | VBytes b => HBytes b | VDatetime dt => HDatetime dt
  | VDict d => HDict d (go_dict d)
  | VList l => HList l (go_list l)
  | VTuple l => HTuple l (go_list l)
  | VObject => HObject
  end.
End value_ind.

(** ** Decimals *)

(** The number spelled by a tuple of digits. *)
Definition digits_value (ds : list Z) : Z := foldl (fun v d => v * 10 + d) 0 ds.

(** The decimal digits of a natural number; each step removes one digit. *)
Fixpoint digits_fuel (fuel : nat) (n : Z) : list Z :=
  match fuel with
  | O => []
  | S fuel => if n <? 10 then [n] else digits_fuel fuel (n / 10) ++ [n mod 10]
  end.
Definition digits_of (n : Z) : list Z := digits_fuel (S (Z.to_nat (Z.log2 n))) n.

(** Removes trailing zeros of a coefficient while the exponent is negative:
    the result of an exact division is as close as possible to exponent 0. *)
Fixpoint strip_zeros (d : nat) (n : Z) : Z * nat :=
  match d with
  | O => (n, O)
  | S d' => if n mod 10 =? 0 then strip_zeros d' (n / 10) else (n, d)
  end.

(** [Decimal(n) / Decimal(10 ** d)]: exact, since a 32-bit [n] has at most ten
    digits and the default context keeps 28. *)
Definition decimal_div_pow10 (n : Z) (d : nat) : decimal :=
  let '(c, e) := strip_zeros d (Z.abs n) in
  Dec (n <? 0) (digits_of c) (- Z.of_nat e).

(** ** Binary floating point *)

(** Rounds the quotient of two numbers to an integer, ties to even. *)
Definition round_even (num den : Z) : Z :=
  let q := num / den in
  match 2 * (num mod den) ?= den with
  | Lt => q
  | Gt => q + 1
  | Eq => if Z.even q then q else q + 1
  end.

(** The magnitude bits of the float of precision [prec] and least exponent
    [emin] nearest to the positive rational [num / den]; the result exceeds
    the finite range when the rational does. *)
Definition float_bits (prec emin num den : Z) : Z :=
  let e0 := Z.log2 num - Z.log2 den in
  let e := if num * 2 ^ Z.max (- e0) 0 <? den * 2 ^ Z.max e0 0 then e0 - 1 else e0 in
  let q := Z.max (e - (prec - 1)) emin in
  let m := round_even (num * 2 ^ Z.max (- q) 0) (den * 2 ^ Z.max q 0) in
  (q - emin) * 2 ^ (prec - 1) + m.

Definition F64_SIGN : Z := 2 ^ 63.
Definition F64_INF : Z := 2047 * 2 ^ 52.
Definition F64_NAN : Z := F64_INF + 2 ^ 51.

Definition f64_signed (s : bool) (mag : Z) : Z := if s then F64_SIGN + mag else mag.

(** The double nearest to [±num/den], infinite beyond the finite range. *)
Definition f64_of_ratio (s : bool) (num den : Z) : Z :=
  f64_signed s (if num =? 0 then 0 else Z.min F64_INF (float_bits 53 (-1074) num den)).

(** Sign, numerator and denominator of a finite double. *)
Definition f64_ratio (bits : Z) : bool * Z * Z :=
  let e := bits / 2 ^ 52 mod 2048 in
  let m := bits mod 2 ^ 52 in
  let '(m, q) := if e =? 0 then (m, -1074) else (m + 2 ^ 52, e - 1075) in
  (F64_SIGN <=? bits, m * 2 ^ Z.max q 0, 2 ^ Z.max (- q) 0).

Definition f64_is_finite (bits : Z) : bool := bits mod F64_SIGN <? F64_INF.
Definition f64_is_nan (bits : Z) : bool := F64_INF <? bits mod F64_SIGN.

(** [struct.pack('>f', x)] of a double: overflow raises, NaNs become quiet. *)
Definition f32_of_f64 (bits : Z) : py Z :=
  let sign := if F64_SIGN <=? bits then 2 ^ 31 else 0 in
  if f64_is_finite bits then
    let '(_, num, den) := f64_ratio bits in
    let mag := if num =? 0 then 0 else float_bits 24 (-149) num den in
    if mag <? 255 * 2 ^ 23 then Ok (sign + mag) else Raise OverflowError
  else if f64_is_nan bits then
    Ok (sign + Z.lor (255 * 2 ^ 23 + 2 ^ 22) (bits mod 2 ^ 52 / 2 ^ 29))
  else Ok (sign + 255 * 2 ^ 23).

(** The double with the value of a single ([unpack_from('>f')]). *)
Definition f64_of_f32 (b : Z) : Z :=
  let s := 2 ^ 31 <=? b in
  let e := b / 2 ^ 23 mod 256 in
  let m := b mod 2 ^ 23 in
  if e =? 255 then
    f64_signed s (if m =? 0 then F64_INF else Z.lor F64_NAN (m * 2 ^ 29))
  else if e =? 0 then f64_of_ratio s m (2 ^ 149)
  else f64_signed s ((e - 127 + 1023) * 2 ^ 52 + m * 2 ^ 29).

(** ** Operations of the language *)

(** The truth value of an object ([val or ''], [if val]). *)
Definition truthy (v : value) : bool :=
  match v with
  | VNone => false
  | VBool b => b
  | VInt z => negb (z =? 0)
  | VFloat b => negb (b mod F64_SIGN =? 0)
  | VDecimal (Dec _ ds _) => existsb (fun d => negb (d =? 0)) ds
  | VDecimal _ => true
  | VStr s => bool_decide (s <> [])
  | VBytes b => bool_decide (b <> [])
  | VDatetime _ => true
  | VDict d => match d with [] => false | _ => true end
  | VList l | VTuple l => match l with [] => false | _ => true end
  | VObject => true
  end.

(** The integer that [struct.pack] takes for an integer format. *)
Definition as_index (v : value) : py Z :=
  match v with
  | VInt z => Ok z
  | VBool b => Ok (if b then 1 else 0)
  | _ => Raise StructError
  end.

(** [int('...')] for ASCII text: surrounding white space, a sign, and digits
    separated by single underscores. *)
Definition is_space (c : Z) : bool := (c =? 32) || ((9 <=? c) && (c <=? 13)).
Definition is_digit (c : Z) : bool := (48 <=? c) && (c <=? 57).

Fixpoint lstrip (s : pystr) : pystr :=
  match s with
  | c :: s' => if is_space c then lstrip s' else s
  | [] => []
  end.
Definition strip (s : pystr) : pystr := rev (lstrip (rev (lstrip s))).

Fixpoint parse_digits (s : pystr) (acc : Z) (after_digit : bool) : option Z :=
  match s with
  | [] => if after_digit then Some acc else None
  | c :: s =>
      if is_digit c then parse_digits s (acc * 10 + (c - 48)) true
      else if (c =? 95) && after_digit then parse_digits s acc false
      else None
  end.

Definition int_of_str (s : pystr) : py Z :=
  of_option ValueError
    match strip s with
    | 43 :: s => parse_digits s 0 false
    | 45 :: s => Z.opp <$> parse_digits s 0 false
    | s => parse_digits s 0 false
    end.

(** [int(val)]: numbers are truncated towards zero. *)
Definition py_int (v : value) : py Z :=
  match v with
  | VInt z => Ok z
  | VBool b => Ok (if b then 1 else 0)
  | VFloat b =>
      if f64_is_finite b then
        let '(s, num, den) := f64_ratio b in
        Ok (if s then - (num / den) else num / den)
      else Raise (if f64_is_nan b then ValueError else OverflowError)
  | VDecimal (Dec s ds e) =>
      let c := digits_value ds * 10 ^ Z.max e 0 / 10 ^ Z.max (- e) 0 in
      Ok (if s then - c else c)
  | VDecimal (DecInf _) => Raise OverflowError
  | VDecimal (DecNaN _ _) => Raise ValueError
  | VStr s => int_of_str s
  | VBytes b => int_of_str (byte_to_Z <$> b)
  | _ => Raise TypeError
  end.

(** The double that [struct.pack('>f', val)] starts from; every failure of
    the conversion is reported as [struct.error]. *)
Definition as_double (v : value) : py Z :=
  match v with
  | VFloat b => Ok b
  | VBool b => Ok (f64_of_ratio false (if b then 1 else 0) 1)
  | VInt z =>
      let f := f64_of_ratio (z <? 0) (Z.abs z) 1 in
      if f64_is_finite f then Ok f else Raise StructError
  | VDecimal (Dec s ds e) =>
      Ok (f64_of_ratio s (digits_value ds * 10 ^ Z.max e 0) (10 ^ Z.max (- e) 0))
  | VDecimal (DecInf s) => Ok (f64_signed s F64_INF)
  | VDecimal (DecNaN s false) => Ok (f64_signed s F64_NAN)
  | _ => Raise StructError
  end.

Definition value_of_key (k : dict_key) : value :=
  match k with KStr s => VStr s | KBytes b => VBytes b end.

(** [for v in val]. *)
Definition iterate (v : value) : py (list value) :=
  match v with
  | VList l | VTuple l => Ok l
  | VStr s => Ok ((fun c => VStr [c]) <$> s)
  | VBytes b => Ok ((fun c => VInt (byte_to_Z c)) <$> b)
  | VDict d => Ok ((fun p => value_of_key p.1) <$> d)
  | _ => Raise TypeError
  end.

(** ** Well-formed values: what the Python types guarantee *)

Definition wf_decimal (d : decimal) : Prop :=
  match d with Dec _ ds _ => Forall (fun x => 0 <= x <= 9) ds | _ => True end.

Definition wf_key (k : dict_key) : Prop :=
  match k with KStr s => wf_str s | KBytes _ => True end.

Fixpoint wf_value (v : value) : Prop :=
  match v with
  | VFloat b => 0 <= b < 2 ^ 64
  | VDecimal d => wf_decimal d
  | VStr s => wf_str s
  | VDatetime dt => valid_datetime dt
  | VDict d =>
      (fix go d := match d with
                   | [] => True
                   | (k, x) :: d => wf_key k /\ wf_value x /\ go d
                   end) d
  | VList l | VTuple l =>
      (fix go l := match l with [] => True | x :: l => wf_value x /\ go l end) l
  | _ => True
  end.

Lemma wf_value_dict d :
  wf_value (VDict d) <-> Forall (fun p => wf_key p.1 /\ wf_value p.2) d.
Proof.
  cbn. induction d as [|[k x] d IH]; [by rewrite Forall_nil|].
  rewrite Forall_cons, <- IH. cbn. tauto.
Qed.

Lemma wf_value_list l : wf_value (VList l) <-> Forall wf_value l.
Proof. cbn. induction l as [|x l IH]; [by rewrite Forall_nil|]. by rewrite Forall_cons, <- IH. Qed.

Lemma wf_value_tuple l : wf_value (VTuple l) <-> Forall wf_value l.
Proof. apply wf_value_list. Qed.

(** ** Facts on decimals *)

Lemma digits_value_app ds x : digits_value (ds ++ [x]) = digits_value ds * 10 + x.
Proof. unfold digits_value. by rewrite foldl_app. Qed.

Lemma digits_fuel_value fuel n :
  0 <= n < 2 ^ Z.of_nat fuel -> digits_value (digits_fuel fuel n) = n.
Proof.
  revert n. induction fuel as [|fuel IH]; intros n Hn; [cbn in *; lia|].
  cbn [digits_fuel]. case_if; bool_to_prop; [done|].
  rewrite digits_value_app, IH; [dlia|].
  rewrite Nat2Z.inj_succ, Z.pow_succ_r in Hn by lia. dlia.
Qed.

Lemma digits_of_value n : 0 <= n -> digits_value (digits_of n) = n.
Proof.
  intros Hn. unfold digits_of. apply digits_fuel_value. split; [done|].
  rewrite Nat2Z.inj_succ, Z2Nat.id by apply Z.log2_nonneg.
  destruct (decide (n = 0)) as [->|]; [cbn; lia|]. apply Z.log2_spec. lia.
Qed.

Lemma strip_zeros_spec d n c e :
  strip_zeros d n = (c, e) -> (e <= d)%nat /\ n = c * 10 ^ Z.of_nat (d - e).
Proof.
  revert n. induction d as [|d IH]; intros n; cbn.
  - intros; simplify_eq. split; [lia|]. cbn. lia.
  - case_if; bool_to_prop; intros H.
    + apply IH in H as [He Hn]. split; [lia|].
      replace (S d - e)%nat with (S (d - e)) by lia.
      rewrite Nat2Z.inj_succ, Z.pow_succ_r by lia. dlia.
    + simplify_eq. rewrite Nat.sub_diag. cbn. lia.
Qed.

(** The signed coefficient of a finite decimal. *)
Definition decimal_coef (d : decimal) : Z :=
  match d with
  | Dec s ds _ => if s then - digits_value ds else digits_value ds
  | _ => 0
  end.

(** The quotient is the number it should be: [n * 10^-d], exactly. *)
Lemma decimal_div_pow10_exact n d :
  match decimal_div_pow10 n d with
  | Dec s ds e =>
      decimal_coef (Dec s ds e) * 10 ^ (e + Z.of_nat d) = n /\ - Z.of_nat d <= e <= 0
  | _ => False
  end.
Proof.
  unfold decimal_div_pow10. destruct (strip_zeros d (Z.abs n)) as [c e] eqn:Hs.
  apply strip_zeros_spec in Hs as [He Hn].
  assert (0 < 10 ^ Z.of_nat (d - e)) by (apply Z.pow_pos_nonneg; lia).
  assert (0 <= c) by nia. cbn [decimal_coef]. rewrite digits_of_value by done.
  replace (- Z.of_nat e + Z.of_nat d) with (Z.of_nat (d - e)) by lia.
  split; [|lia]. case_if; bool_to_prop; lia.
Qed.

(** ** Ranges of the float conversions *)

Lemma lor_bound a b n : 0 <= n -> 0 <= a < 2 ^ n -> 0 <= b < 2 ^ n -> 0 <= Z.lor a b < 2 ^ n.
Proof.
  intros Hn Ha Hb. assert (0 <= Z.lor a b) by (apply Z.lor_nonneg; lia). split; [done|].
  destruct (decide (Z.lor a b = 0)) as [->|]; [lia|].
  apply Z.log2_lt_pow2; [lia|]. rewrite Z.log2_lor by lia.
  assert (forall c, 0 <= c < 2 ^ n -> c = 0 \/ Z.log2 c < n) as Hl.
  { intros c Hc. destruct (decide (c = 0)); [by left|]. right. apply Z.log2_lt_pow2; lia. }
  pose proof (Z.log2_nonneg a). pose proof (Z.log2_nonneg b).
  destruct (Hl a Ha) as [->|], (Hl b Hb) as [->|]; change (Z.log2 0) with 0 in *;
    [by rewrite Z.lor_0_l in n0|lia..].
Qed.

Lemma round_even_nonneg num den : 0 <= num -> 0 <= den -> 0 <= round_even num den.
Proof.
  intros Hn Hd. unfold round_even.
  assert (0 <= num / den) by (destruct (decide (den = 0)) as [->|]; [by rewrite Z.div_0_r|apply Z.div_pos; lia]).
  destruct (_ ?= _); [|lia..]. case_if; lia.
Qed.

Lemma float_bits_nonneg prec emin num den :
  0 < prec -> 0 <= num -> 0 <= den -> 0 <= float_bits prec emin num den.
Proof.
  intros. unfold float_bits.
  set (q := Z.max (_ - (prec - 1)) emin).
  assert (0 <= round_even (num * 2 ^ Z.max (- q) 0) (den * 2 ^ Z.max q 0)).
  { apply round_even_nonneg; apply Z.mul_nonneg_nonneg; try lia; apply Z.pow_nonneg; lia. }
  assert (0 <= 2 ^ (prec - 1)) by (apply Z.pow_nonneg; lia).
  assert (emin <= q) by lia. nia.
Qed.

Lemma f64_ratio_pos bits s num den : f64_ratio bits = (s, num, den) -> 0 <= num /\ 0 < den.
Proof.
  unfold f64_ratio. assert (0 <= bits mod 2 ^ 52) by (apply Z.mod_pos_bound; lia).
  destruct (_ =? 0); intros H'; simplify_eq; split;
    try (apply Z.mul_nonneg_nonneg; [lia|apply Z.pow_nonneg; lia]);
    apply Z.pow_pos_nonneg; lia.
Qed.

(** A packed single is a 32-bit pattern. *)
Lemma f32_range x b : f32_of_f64 x = Ok b -> 0 <= b < 256 ^ Z.of_nat 4.
Proof.
  change (256 ^ Z.of_nat 4) with (2 ^ 31 + 2 ^ 31). unfold f32_of_f64.
  set (sign := if F64_SIGN <=? x then 2 ^ 31 else 0).
  assert (0 <= sign <= 2 ^ 31) by (unfold sign; case_if; lia).
  destruct (f64_is_finite x).
  - destruct (f64_ratio x) as [[s num] den] eqn:Hr. apply f64_ratio_pos in Hr as [? ?].
    pose proof (float_bits_nonneg 24 (-149) num den ltac:(lia) ltac:(lia) ltac:(lia)).
    case_if; intros; simplify_eq; bool_to_prop.
    destruct (num =? 0); lia.
  - destruct (f64_is_nan x); intros; simplify_eq; [|lia].
    assert (0 <= x mod 2 ^ 52 / 2 ^ 29 < 2 ^ 31) as Hx by dlia.
    pose proof (lor_bound (255 * 2 ^ 23 + 2 ^ 22) (x mod 2 ^ 52 / 2 ^ 29) 31 ltac:(lia) ltac:(lia) Hx).
    lia.
Qed.
