(* ===== verification/Table.v ===== *)
(** * Field tables and arrays ([amqp/serialization.py])

    [_write_item], [_write_table], [_write_array] and [_read_item]: the typed
    values of AMQP field tables.  A write function returns the bytes it
    appends to its stream.  [read_item] follows the recursion of [_read_item]
    and its two loops with one fuel counter; [read_fuel] is enough for every
    buffer ([read_item_total]). *)

From S2P Require Import Prelude Exceptions Struct Utf8 Datetime Values.

Open Scope Z_scope.

(** ** Type octets *)

Inductive item_type : Set :=
  | TLongStr | TShortStr | TByteArray | TShortShortInt | TShortShortUInt
  | TShortInt | TShortUInt | TLongInt | TLongUInt | TLongLongInt
  | TLongLongUInt | TFloat | TDouble | TDecimal | TTable | TArray | TBool
  | TTimestamp | TVoid.

#[export] Instance item_type_eq_dec : EqDecision item_type.
Proof. solve_decision. Defined.

(** The comparisons [ftype == 'S'], ... of [_read_item]. *)
Definition item_type_of (ftype : byte) : option item_type :=
  match ftype with
  | "S" => Some TLongStr | "s" => Some TShortStr | "x" => Some TByteArray
  | "b" => Some TShortShortInt | "B" => Some TShortShortUInt
  | "U" => Some TShortInt | "u" => Some TShortUInt
  | "I" => Some TLongInt | "i" => Some TLongUInt
  | "L" => Some TLongLongInt | "l" => Some TLongLongUInt
  | "f" => Some TFloat | "d" => Some TDouble | "D" => Some TDecimal
  | "F" => Some TTable | "A" => Some TArray | "t" => Some TBool
  | "T" => Some TTimestamp | "V" => Some TVoid
  | _ => None
  end%byte.

(** ** Writing *)

(** [write(pack('>I', len(v))); write(v)]. *)
Definition write_long (bs : bytes) : py bytes :=
  n ← pack_u 4 (zlen bs); mret (n ++ bs).

(** [k.encode('utf-8', 'surrogatepass')] for a [str] key. *)
Definition key_bytes (k : dict_key) : bytes :=
  match k with KStr s => str_to_bytes s | KBytes b => b end.

(** [twrite(pack('B', len(k))); twrite(k)]. *)
Definition write_key (k : dict_key) : py bytes :=
  n ← pack_u 1 (zlen (key_bytes k)); mret (n ++ key_bytes k).

Definition ILLEGAL_TABLE_TYPE := "Table type {0!r} not handled by amqp.".
Definition ILLEGAL_TABLE_TYPE_WITH_KEY :=
  "Table type {0!r} for key {1!r} not handled by amqp. [value: {2!r}]".
Definition ILLEGAL_TABLE_TYPE_WITH_VALUE :=
  "Table type {0!r} not handled by amqp. [value: {1!r}]".

Section write_containers.
(** The loops of [_write_table] and [_write_array] call [_write_item]. *)
Context (write_item : value -> py bytes).

Fixpoint write_entries (d : list (dict_key * value)) : py bytes :=
  match d with
  | [] => mret []
  | (k, v) :: d =>
      kb ← write_key k;
      vb ← try_except (write_item v) is_value_error (fun _ =>
             raise_amqp FrameSyntaxError ILLEGAL_TABLE_TYPE_WITH_KEY None);
      rest ← write_entries d;
      mret (kb ++ vb ++ rest)
  end.

Definition write_table (d : list (dict_key * value)) : py bytes :=
  table_data ← write_entries d; write_long table_data.

Fixpoint write_elements (l : list value) : py bytes :=
  match l with
  | [] => mret []
  | v :: l =>
      vb ← try_except (write_item v) is_value_error (fun _ =>
             raise_amqp FrameSyntaxError ILLEGAL_TABLE_TYPE_WITH_VALUE None);
      rest ← write_elements l;
      mret (vb ++ rest)
  end.

Definition write_array (l : list value) : py bytes :=
  array_data ← write_elements l; write_long array_data.
End write_containers.

(** The [Decimal] branch: [sign, digits, exponent = v.as_tuple()]; negating
    the string exponent of an infinity or a NaN raises [TypeError]. *)
Definition write_decimal (d : decimal) : py bytes :=
  match d with
  | Dec _ _ exponent =>
      e ← pack_u 1 (- exponent); n ← pack_s 4 (decimal_coef d); mret (e ++ n)
  | _ => Raise TypeError
  end.

Fixpoint write_item (v : value) : py bytes :=
  match v with
  | VStr s => bs ← write_long (str_to_bytes s); mret ("S"%byte :: bs)
  | VBytes b => bs ← write_long b; mret ("S"%byte :: bs)
  | VBool b => mret ["t"%byte; byte_of_Z (if b then 1 else 0)]
  | VFloat bits => mret ("d"%byte :: be_encode 8 bits)
  | VInt z =>
      if (2147483647 <? z) || (z <? -2147483647)
      then bs ← pack_s 8 z; mret ("L"%byte :: bs)
      else bs ← pack_s 4 z; mret ("I"%byte :: bs)
  | VDecimal d => bs ← write_decimal d; mret ("D"%byte :: bs)
  | VDatetime dt =>
      t ← timegm_utc dt; bs ← pack_u 8 t; mret ("T"%byte :: bs)
  | VDict d => bs ← write_table write_item d; mret ("F"%byte :: bs)
  | VList l | VTuple l => bs ← write_array write_item l; mret ("A"%byte :: bs)
  | VNone => mret ["V"%byte]
  | VObject => Raise ValueError
  end.

(** ** Reading *)

(** [buf[offset]] of a non-negative offset. *)
Definition byte_at (buf : bytes) (offset : Z) : py byte :=
  if offset <? zlen buf then of_option IndexError (buf !! Z.to_nat offset)
  else Raise IndexError.

(** The common shape of the integer branches. *)
Definition read_num (r : py Z) (offset : Z) : py (value * Z) :=
  z ← r; mret (VInt z, offset).

(** [pstr_t(buf[offset:offset + slen])] with the new offset. *)
Definition read_str (buf : bytes) (offset slen : Z) : py (pystr * Z) :=
  s ← bytes_to_str (slice buf offset (offset + slen)); mret (s, offset + slen).

(** The key of a table entry. *)
Definition read_key (buf : bytes) (offset : Z) : py (dict_key * Z) :=
  keylen ← unpack_u 1 buf offset;
  '(key, offset) ← read_str buf (offset + 1) keylen;
  mret (KStr key, offset).

(** The branches of [_read_item] that read no nested item, after the type
    octet. *)
Definition read_scalar (t : item_type) (buf : bytes) (offset : Z) : py (value * Z) :=
  match t with
  | TLongStr =>
      slen ← unpack_u 4 buf offset;
      let offset := offset + 4 in
      let raw := slice buf offset (offset + slen) in
      let val := match utf8_decode_opt raw with Some s => VStr s | None => VBytes raw end in
      mret (val, offset + slen)
  | TShortStr =>
      slen ← unpack_u 1 buf offset;
      '(s, offset) ← read_str buf (offset + 1) slen;
      mret (VStr s, offset)
  | TByteArray =>
      blen ← unpack_u 4 buf offset;
      let offset := offset + 4 in
      mret (VBytes (slice buf offset (offset + blen)), offset + blen)
  | TShortShortInt => read_num (unpack_u 1 buf offset) (offset + 1)
  | TShortShortUInt => read_num (unpack_s 1 buf offset) (offset + 1)
  | TShortInt => read_num (unpack_s 2 buf offset) (offset + 2)
  | TShortUInt => read_num (unpack_u 2 buf offset) (offset + 2)
  | TLongInt => read_num (unpack_s 4 buf offset) (offset + 4)
  | TLongUInt => read_num (unpack_u 4 buf offset) (offset + 4)
  | TLongLongInt => read_num (unpack_s 8 buf offset) (offset + 8)
  | TLongLongUInt => read_num (unpack_u 8 buf offset) (offset + 8)
  | TFloat => b ← unpack_u 4 buf offset; mret (VFloat (f64_of_f32 b), offset + 4)
  | TDouble => b ← unpack_u 8 buf offset; mret (VFloat b, offset + 8)
  | TDecimal =>
      d ← unpack_u 1 buf offset;
      let offset := offset + 1 in
      n ← unpack_s 4 buf offset;
      mret (VDecimal (decimal_div_pow10 n (Z.to_nat d)), offset + 4)
  | TBool => b ← unpack_u 1 buf offset; mret (VBool (negb (b =? 0)), offset + 1)
  | TTimestamp =>
      t ← unpack_u 8 buf offset;
      let offset := offset + 8 in
      dt ← fromtimestamp t;
      mret (VDatetime dt, offset)
  | TVoid | TTable | TArray => mret (VNone, offset)
  end.

Definition UNKNOWN_VALUE := "Unknown value in table: {!r} ({!r})".

Section read_containers.
(** The loops of the ['F'] and ['A'] branches, for a given reader of the
    items; the accumulator is the [dict] or [list] under construction. *)
Context (buf : bytes) (read_item : Z -> py (value * Z)).

Fixpoint read_entries (fuel : nat) (limit offset : Z) (val : list (dict_key * value))
    : py (list (dict_key * value) * Z) :=
  if offset <? limit then
    match fuel with
    | O => OutOfFuel
    | S fuel =>
        '(key, offset) ← read_key buf offset;
        '(v, offset) ← read_item offset;
        read_entries fuel limit offset (dict_set val key v)
    end
  else mret (val, offset).

Fixpoint read_elements (fuel : nat) (limit offset : Z) (val : list value)
    : py (list value * Z) :=
  if offset <? limit then
    match fuel with
    | O => OutOfFuel
    | S fuel =>
        '(v, offset) ← read_item offset;
        read_elements fuel limit offset (val ++ [v])
    end
  else mret (val, offset).

(** The length word and the loop. *)
Definition read_table (fuel : nat) (offset : Z) : py (list (dict_key * value) * Z) :=
  tlen ← unpack_u 4 buf offset;
  let offset := offset + 4 in
  read_entries fuel (offset + tlen) offset [].

Definition read_array (fuel : nat) (offset : Z) : py (list value * Z) :=
  alen ← unpack_u 4 buf offset;
  let offset := offset + 4 in
  read_elements fuel (offset + alen) offset [].
End read_containers.

Fixpoint read_item_fuel (fuel : nat) (buf : bytes) (offset : Z) : py (value * Z) :=
  match fuel with
  | O => OutOfFuel
  | S fuel =>
      ftype ← byte_at buf offset;
      let offset := offset + 1 in
      match item_type_of ftype with
      | Some TTable =>
          '(d, offset) ← read_table buf (read_item_fuel fuel buf) fuel offset;
          mret (VDict d, offset)
      | Some TArray =>
          '(l, offset) ← read_array buf (read_item_fuel fuel buf) fuel offset;
          mret (VList l, offset)
      | Some t => read_scalar t buf offset
      | None => raise_amqp FrameSyntaxError UNKNOWN_VALUE None
      end
  end.

(** Every item takes at least one byte of the buffer, so neither the nesting
    depth nor a loop can exceed its length. *)
Definition read_fuel (buf : bytes) : nat := S (length buf).

Definition read_item (buf : bytes) (offset : Z) : py (value * Z) :=
  read_item_fuel (read_fuel buf) buf offset.

(** ** What the peer reads

    [wire_value v] is the value that [_read_item] produces from the bytes of
    [_write_item v]: byte strings that are UTF-8 become [str], tuples become
    lists, a decimal loses its trailing zeros, a datetime becomes naive UTC
    without microseconds, and the keys of a [dict] become [str]. *)

Definition wire_key (k : dict_key) : dict_key :=
  match k with
  | KStr s => KStr s
  | KBytes b => match utf8_decode_opt b with Some s => KStr s | None => KBytes b end
  end.

Definition wire_decimal (d : decimal) : decimal :=
  match d with
  | Dec _ _ e => decimal_div_pow10 (decimal_coef d) (Z.to_nat (- e))
  | d => d
  end.

Fixpoint wire_value (v : value) : value :=
  match v with
  | VBytes b => match utf8_decode_opt b with Some s => VStr s | None => VBytes b end
  | VDecimal d => VDecimal (wire_decimal d)
  | VDatetime dt => VDatetime (datetime_at (utc_seconds dt))
  | VDict d =>
      VDict (foldl (fun acc p => dict_set acc p.1 p.2) []
               ((fun p => (wire_key p.1, wire_value p.2)) <$> d))
  | VList l | VTuple l => VList (wire_value <$> l)
  | v => v
  end.

Definition wire_dict (d : list (dict_key * value)) : list (dict_key * value) :=
  foldl (fun acc p => dict_set acc p.1 p.2) []
    ((fun p => (wire_key p.1, wire_value p.2)) <$> d).

(** Keys are read with [pstr_t], outside any handler of
    [UnicodeDecodeError]: a [bytes] key has to be UTF-8. *)
Definition key_decodes (k : dict_key) : Prop :=
  match k with KStr _ => True | KBytes b => is_Some (utf8_decode_opt b) end.

Fixpoint keys_decode (v : value) : Prop :=
  match v with
  | VDict d =>
      (fix go d := match d with
                   | [] => True
                   | (k, x) :: d => key_decodes k /\ keys_decode x /\ go d
                   end) d
  | VList l | VTuple l =>
      (fix go l := match l with [] => True | x :: l => keys_decode x /\ go l end) l
  | _ => True
  end.

Lemma keys_decode_dict d :
  keys_decode (VDict d) <-> Forall (fun p => key_decodes p.1 /\ keys_decode p.2) d.
Proof.
  cbn. induction d as [|[k x] d IH]; [by rewrite Forall_nil|].
  rewrite Forall_cons, <- IH. cbn. tauto.
Qed.

Lemma keys_decode_list l : keys_decode (VList l) <-> Forall keys_decode l.
Proof. cbn. induction l as [|x l IH]; [by rewrite Forall_nil|]. by rewrite Forall_cons, <- IH. Qed.

(** ** Progress and termination of the reader *)

Ltac read_bounds :=
  repeat match goal with
  | H : unpack_u ?n ?b ?o = Ok ?z |- _ =>
      lazymatch goal with
      | _ : 0 <= z < _ |- _ => fail
      | _ => pose proof (unpack_u_range _ _ _ _ H); pose proof (unpack_u_bound _ _ _ _ H)
      end
  end.

Lemma read_str_progress buf off slen s off' :
  read_str buf off slen = Ok (s, off') -> off' = off + slen.
Proof. unfold read_str. intros. by ok_inv. Qed.

Lemma read_key_progress buf off k off' :
  read_key buf off = Ok (k, off') -> off < zlen buf /\ off < off'.
Proof.
  unfold read_key. intros H. ok_inv. read_bounds.
  apply read_str_progress in H1. lia.
Qed.

Lemma read_scalar_progress t buf off v off' :
  read_scalar t buf off = Ok (v, off') -> off <= off'.
Proof.
  destruct t; unfold read_scalar, read_num; intros H; ok_inv; read_bounds;
    try lia; simplify_eq; try lia.
  all: match goal with H : read_str _ _ _ = Ok _ |- _ => apply read_str_progress in H end; lia.
Qed.

Lemma byte_at_bound buf off b : byte_at buf off = Ok b -> off < zlen buf.
Proof. unfold byte_at. case_if; intros; by bool_to_prop. Qed.

Section containers_progress.
Context (buf : bytes) (item : Z -> py (value * Z)).
Hypothesis item_progress :
  forall off v off', item off = Ok (v, off') -> off < zlen buf /\ off < off'.

Lemma read_entries_progress fuel limit off acc d off' :
  read_entries buf item fuel limit off acc = Ok (d, off') -> off <= off'.
Proof.
  revert off acc. induction fuel as [|fuel IH]; intros off acc; cbn [read_entries];
    (case_if; [|intros; ok_inv; simplify_eq; lia]); [done|].
  intros H. ok_inv. apply read_key_progress in H0. apply item_progress in H1.
  apply IH in H. lia.
Qed.

Lemma read_elements_progress fuel limit off acc l off' :
  read_elements item fuel limit off acc = Ok (l, off') -> off <= off'.
Proof.
  revert off acc. induction fuel as [|fuel IH]; intros off acc; cbn [read_elements];
    (case_if; [|intros; ok_inv; simplify_eq; lia]); [done|].
  intros H. ok_inv. apply item_progress in H0. apply IH in H. lia.
Qed.

(** The loops end: each round moves the offset, and reading at or beyond the
    end of the buffer raises. *)
Lemma read_entries_total fuel limit off acc :
  Z.max 0 (zlen buf - off) < Z.of_nat fuel ->
  (forall o, off <= o -> item o <> OutOfFuel) ->
  read_entries buf item fuel limit off acc <> OutOfFuel.
Proof.
  revert off acc. induction fuel as [|fuel IH]; intros off acc Hf Hi; [lia|].
  cbn [read_entries]. case_if; [|done].
  apply bind_fuel_ne.
  { unfold read_key, read_str. repeat (apply bind_fuel_ne; intros);
      first [apply unpack_u_fuel | apply bytes_to_str_fuel | done | idtac].
    by destruct a0. }
  intros [k o1] H1%read_key_progress. apply bind_fuel_ne; [apply Hi; lia|].
  intros [v o2] H2%item_progress. apply IH; [lia|]. intros o Ho. apply Hi. lia.
Qed.

Lemma read_elements_total fuel limit off acc :
  Z.max 0 (zlen buf - off) < Z.of_nat fuel ->
  (forall o, off <= o -> item o <> OutOfFuel) ->
  read_elements item fuel limit off acc <> OutOfFuel.
Proof.
  revert off acc. induction fuel as [|fuel IH]; intros off acc Hf Hi; [lia|].
  cbn [read_elements]. case_if; [|done].
  apply bind_fuel_ne; [apply Hi; lia|].
  intros [v o2] H2%item_progress. apply IH; [lia|]. intros o Ho. apply Hi. lia.
Qed.
End containers_progress.

Lemma read_item_fuel_progress fuel buf off v off' :
  read_item_fuel fuel buf off = Ok (v, off') -> off < zlen buf /\ off < off'.
Proof.
  revert off v off'. induction fuel as [|fuel IH]; intros off v off'; [done|].
  cbn [read_item_fuel]. intros H. apply bind_ok_inv in H as (b & Hb & H).
  apply byte_at_bound in Hb. split; [done|].
  destruct (item_type_of b) as [t|]; [|done].
  destruct t; try (apply read_scalar_progress in H; lia);
    unfold read_table, read_array in H; ok_inv; read_bounds.
  - match goal with H : read_entries _ _ _ _ _ _ = _ |- _ =>
      apply read_entries_progress in H; [lia|done] end.
  - match goal with H : read_elements _ _ _ _ _ = _ |- _ =>
      apply (read_elements_progress buf) in H; [lia|done] end.
Qed.

Lemma read_scalar_fuel t buf off : read_scalar t buf off <> OutOfFuel.
Proof.
  destruct t; unfold read_scalar, read_num, read_str;
    repeat (apply bind_fuel_ne; intros);
    first [apply unpack_u_fuel | apply unpack_s_fuel | apply bytes_to_str_fuel
          | apply fromtimestamp_fuel | done | by destruct a0].
Qed.

Lemma read_item_fuel_total fuel buf off :
  Z.max 0 (zlen buf - off) < Z.of_nat fuel -> read_item_fuel fuel buf off <> OutOfFuel.
Proof.
  revert off. induction fuel as [|fuel IH]; intros off Hf; [lia|].
  cbn [read_item_fuel]. apply bind_fuel_ne.
  { unfold byte_at. case_if; [apply of_option_fuel|done]. }
  intros b Hb%byte_at_bound.
  assert (Hprog := read_item_fuel_progress fuel buf).
  destruct (item_type_of b) as [t|]; [|done].
  destruct t; try apply read_scalar_fuel;
    (apply bind_fuel_ne; [|by intros []]);
    (apply bind_fuel_ne; [apply unpack_u_fuel|intros n Hn%unpack_u_range]).
  - apply read_entries_total; [done|lia|]. intros o Ho. apply IH. lia.
  - apply (read_elements_total buf); [done|lia|]. intros o Ho. apply IH. lia.
Qed.

(** ** The round trip *)

Lemma byte_at_holds buf off b : holds_at buf off [b] -> byte_at buf off = Ok b.
Proof.
  intros [Hl Hlt]%holds_at_lookup. unfold byte_at.
  by rewrite (proj2 (Z.ltb_lt _ _)), Hl by done.
Qed.

Lemma write_long_ok bs out :
  write_long bs = Ok out -> exists n, pack_u 4 (zlen bs) = Ok n /\ out = n ++ bs.
Proof. unfold write_long. intros H. ok_inv. eauto. Qed.

(** A length word and the bytes it announces, as the readers find them. *)
Lemma read_long_holds buf off bs out :
  holds_at buf off out -> write_long bs = Ok out ->
  zlen out = 4 + zlen bs /\
  unpack_u 4 buf off = Ok (zlen bs) /\ holds_at buf (off + 4) bs.
Proof.
  intros Hb (n & Hn & ->)%write_long_ok.
  apply holds_at_app in Hb as [Hb1 Hb2].
  pose proof (pack_u_length _ _ _ Hn) as Hl. rewrite length_app, Hl in *.
  split_and!; [lia| |done]. by eapply unpack_pack_u.
Qed.

Lemma read_str_holds buf off bs s :
  holds_at buf off bs -> utf8_decode_opt bs = Some s ->
  read_str buf off (zlen bs) = Ok (s, off + zlen bs).
Proof.
  intros Hb Hs. unfold read_str, bytes_to_str.
  rewrite (holds_at_slice _ _ bs) by done. by rewrite Hs.
Qed.

Lemma wire_key_spec k :
  wf_key k -> key_decodes k ->
  exists s, utf8_decode_opt (key_bytes k) = Some s /\ wire_key k = KStr s.
Proof.
  destruct k as [s|b]; cbn; intros Hw Hd.
  - exists s. split; [|done]. apply utf8_decode_encode in Hw.
    unfold bytes_to_str in Hw. by apply of_option_ok in Hw.
  - destruct Hd as [s Hs]. exists s. by rewrite Hs.
Qed.

Lemma read_key_holds buf off k out :
  holds_at buf off out -> write_key k = Ok out -> wf_key k -> key_decodes k ->
  0 < zlen out /\ read_key buf off = Ok (wire_key k, off + zlen out).
Proof.
  unfold write_key, read_key. intros Hb H Hw Hd. ok_inv. subst out.
  destruct (wire_key_spec k Hw Hd) as (s & Hs & ->).
  apply holds_at_app in Hb as [Hb1 Hb2].
  pose proof (pack_u_length _ _ _ H0) as Hl. rewrite length_app, Hl in *.
  split; [lia|]. rewrite (unpack_pack_u _ _ _ _ _ Hb1 H0). cbn.
  change (Z.of_nat 1) with 1 in Hb2.
  rewrite (read_str_holds _ _ _ _ Hb2 Hs). cbn. do 2 f_equal. lia.
Qed.

(** The scalar branches, one lemma for each kind of number. *)
Lemma read_num_u n z bs buf off o :
  holds_at buf off bs -> pack_u n z = Ok bs ->
  read_num (unpack_u n buf off) o = Ok (VInt z, o).
Proof. intros Hb Hp. unfold read_num. by rewrite (unpack_pack_u _ _ _ _ _ Hb Hp). Qed.

Lemma read_num_s n z bs buf off o :
  (0 < n)%nat -> holds_at buf off bs -> pack_s n z = Ok bs ->
  read_num (unpack_s n buf off) o = Ok (VInt z, o).
Proof. intros Hn Hb Hp. unfold read_num. by rewrite (unpack_pack_s _ _ _ _ _ Hn Hb Hp). Qed.

(** [reads_back f v out]: at any place of any buffer that holds [out], a
    reader with at least [length out] fuel finds [wire_value v]. *)
Definition reads_back (v : value) (out : bytes) : Prop :=
  0 < zlen out /\
  forall buf off fuel, holds_at buf off out -> (length out <= fuel)%nat ->
    read_item_fuel fuel buf off = Ok (wire_value v, off + zlen out).

(** Reading the type octet. *)
Lemma reads_back_tag v b t out :
  item_type_of b = Some t ->
  (forall buf off fuel, holds_at buf off out -> (length out <= fuel)%nat ->
    match t with
    | TTable => '(d, offset) ← read_table buf (read_item_fuel fuel buf) fuel off;
                mret (VDict d, offset)
    | TArray => '(l, offset) ← read_array buf (read_item_fuel fuel buf) fuel off;
                mret (VList l, offset)
    | t => read_scalar t buf off
    end = Ok (wire_value v, off + zlen out)) ->
  reads_back v (b :: out).
Proof.
  intros Ht Hr. split; [cbn; lia|]. intros buf off fuel Hb Hf.
  cbn [length] in *. destruct fuel as [|fuel]; [lia|].
  apply holds_at_cons in Hb as [Hb1 Hb2]. cbn [read_item_fuel].
  rewrite (byte_at_holds _ _ _ Hb1). cbn [mbind result_bind].
  rewrite Ht. specialize (Hr buf (off + 1) fuel Hb2 ltac:(lia)).
  replace (off + Z.of_nat (S (length out))) with (off + 1 + zlen out) by lia.
  by destruct t.
Qed.

Lemma try_except_ok {A} (m : py A) c h a :
  (forall e, h e <> Ok a) -> try_except m c h = Ok a -> m = Ok a.
Proof. destruct m; cbn; [done| |done]. case_if; [|done]. intros Hn H. by destruct (Hn e). Qed.

Lemma read_entries_holds buf F d :
  Forall (fun p => wf_key p.1 /\ key_decodes p.1 /\
            forall out, write_item p.2 = Ok out -> reads_back p.2 out) d ->
  forall fuel body off acc limit,
  write_entries write_item d = Ok body -> holds_at buf off body ->
  (length body <= F)%nat -> (length body <= fuel)%nat -> limit = off + zlen body ->
  read_entries buf (read_item_fuel F buf) fuel limit off acc =
    Ok (foldl (fun acc p => dict_set acc p.1 p.2) acc
          ((fun p => (wire_key p.1, wire_value p.2)) <$> d), limit).
Proof.
  induction 1 as [|[k v] d (Hw & Hd & Hv) _ IH]; intros fuel body off acc limit Hwr Hb HF Hf ->.
  - cbn in Hwr. ok_inv. subst body. destruct fuel; cbn; by rewrite Z.add_0_r, Z.ltb_irrefl.
  - cbn [write_entries] in Hwr. ok_inv. subst body.
    match goal with H : try_except _ _ _ = Ok _ |- _ =>
      apply try_except_ok in H; [|done]; destruct (Hv _ H) as [Hpos Hrd] end.
    apply holds_at_app in Hb as [Hbk Hb]. apply holds_at_app in Hb as [Hbv Hbr].
    match goal with H : write_key _ = Ok _ |- _ =>
      destruct (read_key_holds _ _ _ _ Hbk H Hw Hd) as [Hkpos Hrk] end.
    rewrite !length_app in *. destruct fuel as [|fuel]; [lia|]. cbn [read_entries].
    rewrite (proj2 (Z.ltb_lt _ _)) by lia. rewrite Hrk. cbn [mbind result_bind].
    rewrite (Hrd _ _ F Hbv) by lia. cbn [mbind result_bind].
    erewrite IH; [done|done|done|lia..].
Qed.

Lemma read_elements_holds buf F l :
  Forall (fun v => forall out, write_item v = Ok out -> reads_back v out) l ->
  forall fuel body off acc limit,
  write_elements write_item l = Ok body -> holds_at buf off body ->
  (length body <= F)%nat -> (length body <= fuel)%nat -> limit = off + zlen body ->
  read_elements (read_item_fuel F buf) fuel limit off acc =
    Ok (acc ++ (wire_value <$> l), limit).
Proof.
  induction 1 as [|v l Hv _ IH]; intros fuel body off acc limit Hwr Hb HF Hf ->.
  - cbn in Hwr. ok_inv. subst body. rewrite app_nil_r.
    destruct fuel; cbn; by rewrite Z.add_0_r, Z.ltb_irrefl.
  - cbn [write_elements] in Hwr. ok_inv. subst body.
    match goal with H : try_except _ _ _ = Ok _ |- _ =>
      apply try_except_ok in H; [|done]; destruct (Hv _ H) as [Hpos Hrd] end.
    apply holds_at_app in Hb as [Hbv Hbr].
    rewrite !length_app in *. destruct fuel as [|fuel]; [lia|]. cbn [read_elements].
    rewrite (proj2 (Z.ltb_lt _ _)) by lia.
    rewrite (Hrd _ _ F Hbv) by lia. cbn [mbind result_bind].
    erewrite IH; [|done|done|lia..]. by rewrite <- app_assoc.
Qed.

Lemma read_long_str_holds buf off bs out :
  holds_at buf off out -> write_long bs = Ok out ->
  read_scalar TLongStr buf off =
    Ok (match utf8_decode_opt bs with Some s => VStr s | None => VBytes bs end,
        off + zlen out).
Proof.
  intros Hb Hw. destruct (read_long_holds _ _ _ _ Hb Hw) as (Hl & Hu & Hh).
  unfold read_scalar. rewrite Hu. cbn [mbind result_bind].
  rewrite (holds_at_slice _ _ bs) by done. rewrite Hl. unfold mret, result_ret.
  do 2 f_equal. lia.
Qed.

Lemma utf8_decode_opt_encode s : wf_str s -> utf8_decode_opt (str_to_bytes s) = Some s.
Proof. intros H%utf8_decode_encode. by apply of_option_ok in H. Qed.

Lemma read_decimal_holds buf off d out :
  holds_at buf off out -> write_decimal d = Ok out ->
  read_scalar TDecimal buf off = Ok (VDecimal (wire_decimal d), off + zlen out).
Proof.
  intros Hb Hw. destruct d as [s ds e| |]; [|done..]. cbn [write_decimal] in Hw. ok_inv. subst out.
  apply holds_at_app in Hb as [Hbe Hbn]. unfold read_scalar, wire_decimal.
  pose proof (pack_u_length _ _ _ H) as Hle. pose proof (pack_s_length _ _ _ H0) as Hln.
  rewrite (unpack_pack_u _ _ _ _ _ Hbe H). cbn [mbind result_bind].
  rewrite Hle in Hbn. change (Z.of_nat 1) with 1 in Hbn. rewrite (unpack_pack_s 4 _ _ _ _ ltac:(lia) Hbn H0).
  unfold mret, result_ret. cbn [mbind result_bind]. rewrite length_app, Hle, Hln.
  do 2 f_equal. lia.
Qed.

Lemma read_timestamp_holds buf off dt t out :
  holds_at buf off out -> timegm_utc dt = Ok t -> pack_u 8 t = Ok out ->
  read_scalar TTimestamp buf off =
    Ok (VDatetime (datetime_at (utc_seconds dt)), off + zlen out).
Proof.
  intros Hb Ht Hp. unfold read_scalar. rewrite (unpack_pack_u _ _ _ _ _ Hb Hp).
  cbn [mbind result_bind]. rewrite (fromtimestamp_timegm _ _ Ht).
  by rewrite (pack_u_length _ _ _ Hp).
Qed.

(** A whole table, from its length word. *)
Lemma read_table_holds buf F fuel off d out :
  Forall (fun p => wf_key p.1 /\ key_decodes p.1 /\
            forall out, write_item p.2 = Ok out -> reads_back p.2 out) d ->
  holds_at buf off out -> write_table write_item d = Ok out ->
  (length out <= F)%nat -> (length out <= fuel)%nat ->
  read_table buf (read_item_fuel F buf) fuel off = Ok (wire_dict d, off + zlen out).
Proof.
  intros Hall Hb Hw HF Hf. unfold write_table in Hw. ok_inv.
  destruct (read_long_holds _ _ _ _ Hb Hw) as (Hl & Hu & Hh).
  unfold read_table. rewrite Hu. cbn [mbind result_bind].
  rewrite (read_entries_holds buf F d) with (body := x); [|done..|lia|lia|done].
  unfold wire_dict. do 2 f_equal. lia.
Qed.

Lemma read_array_holds buf F fuel off l out :
  Forall (fun v => forall out, write_item v = Ok out -> reads_back v out) l ->
  holds_at buf off out -> write_array write_item l = Ok out ->
  (length out <= F)%nat -> (length out <= fuel)%nat ->
  read_array buf (read_item_fuel F buf) fuel off = Ok (wire_value <$> l, off + zlen out).
Proof.
  intros Hall Hb Hw HF Hf. unfold write_array in Hw. ok_inv.
  destruct (read_long_holds _ _ _ _ Hb Hw) as (Hl & Hu & Hh).
  unfold read_array. rewrite Hu. cbn [mbind result_bind].
  rewrite (read_elements_holds buf F l) with (body := x); [|done..|lia|lia|done].
  do 2 f_equal. lia.
Qed.

Lemma reads_back_table d out :
  Forall (fun p => wf_key p.1 /\ key_decodes p.1 /\
            forall out, write_item p.2 = Ok out -> reads_back p.2 out) d ->
  write_table write_item d = Ok out -> reads_back (VDict d) ("F"%byte :: out).
Proof.
  intros Hall Hw. apply (reads_back_tag _ _ TTable); [done|]. intros buf off fuel Hb Hf.
  by rewrite (read_table_holds _ _ _ _ _ _ Hall Hb Hw Hf Hf).
Qed.

Lemma reads_back_array v l out :
  wire_value v = VList (wire_value <$> l) ->
  Forall (fun v => forall out, write_item v = Ok out -> reads_back v out) l ->
  write_array write_item l = Ok out -> reads_back v ("A"%byte :: out).
Proof.
  intros Hv Hall Hw. apply (reads_back_tag _ _ TArray); [done|]. intros buf off fuel Hb Hf.
  by rewrite (read_array_holds _ _ _ _ _ _ Hall Hb Hw Hf Hf), Hv.
Qed.

Lemma reads_back_int z out : write_item (VInt z) = Ok out -> reads_back (VInt z) out.
Proof.
  cbn [write_item]. destruct (_ || _); intros H; ok_inv; subst out.
  - apply (reads_back_tag _ _ TLongLongInt); [done|]. intros buf off fuel Hb _.
    rewrite (pack_s_length _ _ _ H0). apply (read_num_s 8 z x); [lia|done..].
  - apply (reads_back_tag _ _ TLongInt); [done|]. intros buf off fuel Hb _.
    rewrite (pack_s_length _ _ _ H0). apply (read_num_s 4 z x); [lia|done..].
Qed.

Lemma reads_back_float f :
  0 <= f < 2 ^ 64 -> reads_back (VFloat f) ("d"%byte :: be_encode 8 f).
Proof.
  intros Hf. apply (reads_back_tag _ _ TDouble); [done|]. intros buf off fuel Hb _.
  unfold read_scalar. rewrite (unpack_u_holds 8 _ _ _ Hb) by apply be_encode_length.
  change (2 ^ 64) with (256 ^ Z.of_nat 8) in Hf.
  rewrite (be_decode_encode _ _ Hf), be_encode_length. done.
Qed.

Lemma reads_back_bool b :
  reads_back (VBool b) ["t"%byte; byte_of_Z (if b then 1 else 0)].
Proof.
  apply (reads_back_tag _ _ TBool); [done|]. intros buf off fuel Hb _.
  unfold read_scalar. rewrite (unpack_u_holds 1 _ _ _ Hb eq_refl). by destruct b.
Qed.

Lemma write_item_reads_back v out :
  wf_value v -> keys_decode v -> write_item v = Ok out -> reads_back v out.
Proof.
  revert out. induction v as [|b|z|f|d|s|b|dt|d IH|l IH|l IH|] using value_ind;
    intros out Hw Hk Ho; cbn [write_item] in Ho; ok_inv; try subst out; try done.
  - apply (reads_back_tag _ _ TVoid); [done|]. intros buf off fuel _ _. cbn. by rewrite Z.add_0_r.
  - apply reads_back_bool.
  - by apply reads_back_int.
  - by apply reads_back_float.
  - apply (reads_back_tag _ _ TDecimal); [done|]. intros buf off fuel Hb _.
    by apply read_decimal_holds.
  - apply (reads_back_tag _ _ TLongStr); [done|]. intros buf off fuel Hb _.
    rewrite (read_long_str_holds _ _ _ _ Hb H). by rewrite utf8_decode_opt_encode.
  - apply (reads_back_tag _ _ TLongStr); [done|]. intros buf off fuel Hb _.
    by rewrite (read_long_str_holds _ _ _ _ Hb H).
  - apply (reads_back_tag _ _ TTimestamp); [done|]. intros buf off fuel Hb _.
    by eapply read_timestamp_holds.
  - apply wf_value_dict in Hw. apply keys_decode_dict in Hk.
    apply reads_back_table; [|done]. rewrite Forall_forall in *. intros p Hp.
    destruct (Hw p Hp), (Hk p Hp). split_and!; auto.
  - apply wf_value_list in Hw. apply keys_decode_list in Hk.
    apply (reads_back_array _ l); [done| |done]. rewrite Forall_forall in *. auto.
  - apply wf_value_list in Hw. apply keys_decode_list in Hk.
    apply (reads_back_array _ l); [done| |done]. rewrite Forall_forall in *. auto.
Qed.

(** ** Values that survive unchanged *)

(** A dictionary whose keys are distinct strings is rebuilt as it was. *)
Lemma foldl_dict_set_nodup (d acc : list (dict_key * value)) :
  NoDup (acc ++ d).*1 -> foldl (fun acc p => dict_set acc p.1 p.2) acc d = acc ++ d.
Proof.
  revert acc. induction d as [|[k v] d IH]; intros acc Hnd; cbn; [by rewrite app_nil_r|].
  rewrite fmap_app, fmap_cons in Hnd. cbn in Hnd.
  assert (k ∉ acc.*1).
  { apply NoDup_app in Hnd as (_ & Hd & _). intros Hk. apply (Hd k Hk). by left. }
  rewrite dict_set_keys by done. rewrite IH.
  - by rewrite <- app_assoc.
  - by rewrite <- app_assoc, fmap_app.
Qed.

(** The values with a faithful wire form: no byte strings, tuples, decimals
    or aware datetimes, whole seconds, and [str] keys (distinct, as in any
    Python [dict]). *)
Definition plain_key (k : dict_key) : Prop :=
  match k with KStr _ => True | KBytes _ => False end.

Fixpoint plain (v : value) : Prop :=
  match v with
  | VNone | VBool _ | VInt _ | VFloat _ | VStr _ => True
  | VDatetime dt => dt_utcoffset dt = None /\ dt_microsecond dt = 0
  | VDict d =>
      NoDup d.*1 /\
      (fix go d := match d with
                   | [] => True
                   | (k, x) :: d => plain_key k /\ plain x /\ go d
                   end) d
  | VList l => (fix go l := match l with [] => True | x :: l => plain x /\ go l end) l
  | _ => False
  end.

Lemma plain_dict d :
  plain (VDict d) <-> NoDup d.*1 /\ Forall (fun p => plain_key p.1 /\ plain p.2) d.
Proof.
  cbn. induction d as [|[k x] d IH]; [by rewrite Forall_nil|].
  rewrite Forall_cons. rewrite fmap_cons, NoDup_cons. cbn.
  split.
  - intros ((? & Hnd) & ? & ? & ?). destruct (proj1 IH); done.
  - intros ((? & Hnd) & (? & ?) & ?). destruct (proj2 IH); done.
Qed.

Lemma plain_list l : plain (VList l) <-> Forall plain l.
Proof. cbn. induction l as [|x l IH]; [by rewrite Forall_nil|]. by rewrite Forall_cons, <- IH. Qed.

Lemma plain_wire_value v : wf_value v -> plain v -> wire_value v = v.
Proof.
  induction v as [| | | | | | |dt|d IH|l IH| |] using value_ind; cbn [wire_value]; try done.
  - intros Hw [Ho Hm]. f_equal. unfold utc_seconds. rewrite Ho, Z.sub_0_r.
    rewrite datetime_at_wall by done. destruct dt. cbn in *. by subst.
  - intros Hw%wf_value_dict [Hnd Hp]%plain_dict. f_equal.
    assert ((fun p => (wire_key p.1, wire_value p.2)) <$> d = d) as ->.
    { clear Hnd. induction d as [|[k x] d IHd]; [done|]. apply Forall_cons in IH as [IHx IH].
      apply Forall_cons in Hp as [[Hk Hx] Hp]. apply Forall_cons in Hw as [[_ Hwx] Hw].
      cbn in *. rewrite IHx, IHd by done. by destruct k. }
    by rewrite foldl_dict_set_nodup.
  - intros Hw%wf_value_list Hp%plain_list. f_equal.
    induction l as [|x l IHl]; [done|]. apply Forall_cons in IH as [IHx IH].
    apply Forall_cons in Hp as [Hx Hp]. apply Forall_cons in Hw as [Hwx Hw].
    cbn. rewrite IHx by done. f_equal. by apply IHl.
Qed.

Lemma plain_keys_decode v : plain v -> keys_decode v.
Proof.
  induction v as [| | | | | | |dt|d IH|l IH|l IH|] using value_ind; try done.
  - intros [_ Hp]%plain_dict. apply keys_decode_dict. rewrite Forall_forall in *.
    intros p Hin. destruct (Hp p Hin) as [Hk Hx]. split; [by destruct p.1|]. by apply IH.
  - intros Hp%plain_list. apply keys_decode_list. rewrite Forall_forall in *. auto.
Qed.

(** ** Exceptions *)

(** What [_read_item] raises on malformed input: besides the library's own
    [FrameSyntaxError], exceptions of [struct], of indexing, of the UTF-8
    codec and of [datetime]. *)
Definition reader_exc (e : exc) : bool :=
  match e with
  | StructError | IndexError | UnicodeDecodeError | ValueError | OverflowError => true
  | OSErr (Some n) => n =? 75
  | Amqp a => bool_decide (err_class a = FrameSyntaxError)
  | _ => false
  end.

Lemma fromtimestamp_raises t : raises_only reader_exc (fromtimestamp t).
Proof. unfold fromtimestamp. by repeat case_if. Qed.
Lemma byte_at_raises buf off : raises_only reader_exc (byte_at buf off).
Proof. unfold byte_at. case_if; [by apply raises_only_of_option|done]. Qed.
Lemma read_str_raises buf off n : raises_only reader_exc (read_str buf off n).
Proof. unfold read_str. error_steps. Qed.
#[local] Hint Resolve fromtimestamp_raises byte_at_raises read_str_raises : py_errors.

Lemma read_key_raises buf off : raises_only reader_exc (read_key buf off).
Proof. unfold read_key. error_steps. Qed.
#[local] Hint Resolve read_key_raises : py_errors.

Lemma read_entries_raises buf item fuel limit off acc :
  (forall o, raises_only reader_exc (item o)) ->
  raises_only reader_exc (read_entries buf item fuel limit off acc).
Proof.
  intros Hi. revert off acc. induction fuel as [|fuel IH]; intros off acc;
    cbn [read_entries]; case_if; error_steps; auto.
Qed.

Lemma read_elements_raises item fuel limit off acc :
  (forall o, raises_only reader_exc (item o)) ->
  raises_only reader_exc (read_elements item fuel limit off acc).
Proof.
  intros Hi. revert off acc. induction fuel as [|fuel IH]; intros off acc;
    cbn [read_elements]; case_if; error_steps; auto.
Qed.

Lemma read_scalar_raises t buf off : raises_only reader_exc (read_scalar t buf off).
Proof. destruct t; unfold read_scalar, read_num; error_steps. Qed.

Lemma read_item_fuel_raises fuel buf off :
  raises_only reader_exc (read_item_fuel fuel buf off).
Proof.
  revert off. induction fuel as [|fuel IH]; intros off; [done|]. cbn [read_item_fuel].
  apply raises_only_bind; [auto with py_errors|]. intros b _.
  destruct (item_type_of b) as [[]|]; try apply read_scalar_raises; [| |done];
    unfold read_table, read_array; error_steps;
    auto using read_entries_raises, read_elements_raises.
Qed.

(** What [_write_item] raises; [writer_exc false] is what escapes from a table
    or an array, where the handler of [ValueError] has run. *)
Definition writer_exc (value_error : bool) (e : exc) : bool :=
  match e with
  | StructError | TypeError | OverflowError => true
  | ValueError => value_error
  | Amqp a => bool_decide (err_class a = FrameSyntaxError)
  | _ => false
  end.

Lemma try_value_error_raises (m : py bytes) msg :
  raises_only (writer_exc true) m ->
  raises_only (writer_exc false)
    (try_except m is_value_error (fun _ => raise_amqp FrameSyntaxError msg None)).
Proof. destruct m as [|e|]; cbn; try done. by destruct e. Qed.

Lemma write_long_raises b bs : raises_only (writer_exc b) (write_long bs).
Proof. unfold write_long. error_steps. Qed.
Lemma write_key_raises b k : raises_only (writer_exc b) (write_key k).
Proof. unfold write_key. error_steps. Qed.
Lemma timegm_utc_raises b dt : raises_only (writer_exc b) (timegm_utc dt).
Proof. unfold timegm_utc. by case_if. Qed.
#[local] Hint Resolve write_long_raises write_key_raises timegm_utc_raises
  try_value_error_raises : py_errors.

Lemma write_entries_raises d :
  Forall (fun p => raises_only (writer_exc true) (write_item p.2)) d ->
  raises_only (writer_exc false) (write_entries write_item d).
Proof. induction 1 as [|[k v] d Hv _ IH]; cbn [write_entries]; error_steps. Qed.

Lemma write_elements_raises l :
  Forall (fun v => raises_only (writer_exc true) (write_item v)) l ->
  raises_only (writer_exc false) (write_elements write_item l).
Proof. induction 1 as [|v l Hv _ IH]; cbn [write_elements]; error_steps. Qed.

Lemma writer_exc_weaken {A} (m : py A) :
  raises_only (writer_exc false) m -> raises_only (writer_exc true) m.
Proof. destruct m as [|[]|]; done. Qed.

Lemma write_item_raises v : raises_only (writer_exc true) (write_item v).
Proof.
  induction v as [| | | |d| | | |d IH|l IH|l IH|] using value_ind; cbn [write_item];
    try (error_steps; done).
  - case_if; error_steps.
  - destruct d; cbn; error_steps.
  - apply raises_only_bind; [|done]. apply writer_exc_weaken.
    apply raises_only_bind; [by apply write_entries_raises|auto with py_errors].
  - apply raises_only_bind; [|done]. apply writer_exc_weaken.
    apply raises_only_bind; [by apply write_elements_raises|auto with py_errors].
  - apply raises_only_bind; [|done]. apply writer_exc_weaken.
    apply raises_only_bind; [by apply write_elements_raises|auto with py_errors].
Qed.

Lemma write_table_raises d : raises_only (writer_exc false) (write_table write_item d).
Proof.
  apply raises_only_bind; [|auto with py_errors]. apply write_entries_raises.
  apply Forall_forall. intros p _. apply write_item_raises.
Qed.

Lemma write_array_raises l : raises_only (writer_exc false) (write_array write_item l).
Proof.
  apply raises_only_bind; [|auto with py_errors]. apply write_elements_raises.
  apply Forall_forall. intros p _. apply write_item_raises.
Qed.

Lemma write_entries_fuel d :
  Forall (fun p => write_item p.2 <> OutOfFuel) d -> write_entries write_item d <> OutOfFuel.
Proof.
  induction 1 as [|[k v] d Hv _ IH]; [done|]. cbn [write_entries]. cbn in Hv.
  apply bind_fuel_ne; [unfold write_key; total_steps|]. intros kb _.
  apply bind_fuel_ne; [destruct (write_item v); cbn; try case_if; done|]. total_steps.
Qed.

Lemma write_elements_fuel l :
  Forall (fun v => write_item v <> OutOfFuel) l -> write_elements write_item l <> OutOfFuel.
Proof.
  induction 1 as [|v l Hv _ IH]; [done|]. cbn [write_elements].
  apply bind_fuel_ne; [destruct (write_item v); cbn; try case_if; done|]. total_steps.
Qed.

Lemma write_long_fuel bs : write_long bs <> OutOfFuel.
Proof. unfold write_long. total_steps. Qed.
#[export] Hint Resolve write_long_fuel : py_total.

Lemma write_item_fuel v : write_item v <> OutOfFuel.
Proof.
  induction v as [| | | |d| | | |d IH|l IH|l IH|] using value_ind; cbn [write_item];
    try (total_steps; done).
  - case_if; total_steps.
  - destruct d; cbn; total_steps.
  - unfold write_table. apply write_entries_fuel in IH. total_steps.
  - unfold write_array. apply write_elements_fuel in IH. total_steps.
  - unfold write_array. apply write_elements_fuel in IH. total_steps.
Qed.

(** ** Properties *)

(** C28: every value that [_write_item] serializes is read back by
    [_read_item], at any place of any buffer, as its wire form, and the
    returned offset is the end of its bytes. *)
Theorem read_write_item v out pre post :
  wf_value v -> keys_decode v -> write_item v = Ok out ->
  read_item (pre ++ out ++ post) (zlen pre) = Ok (wire_value v, zlen pre + zlen out).
Proof.
  intros Hw Hk Ho. destruct (write_item_reads_back v out Hw Hk Ho) as [_ Hr].
  apply Hr; [apply holds_at_mid|]. unfold read_fuel. rewrite !length_app. lia.
Qed.

(** Well-formedness of a concrete value, unfolded. *)
Ltac solve_wf := repeat first [done | lia | split | constructor].

(** A nested table with every kind of value that changes on the wire. *)
Definition sample_table : value :=
  VDict [ (KStr (str_of "n"), VInt (-5));
          (KBytes (bytes_of "raw"), VBytes [byte_of_Z 255]);
          (KStr (str_of "utf"), VBytes (bytes_of "abc"));
          (KStr [0xD800], VTuple [VBool true; VNone; VFloat 4591870180066957722]);
          (KStr (str_of "d"), VDecimal (Dec true [1; 5; 0] (-2)));
          (KStr (str_of "at"), VDatetime (Datetime 2024 2 29 23 59 58 7 (Some 3600))) ].

Definition ok_or {A} (d : A) (r : py A) : A := match r with Ok a => a | _ => d end.

Lemma sample_table_wf : wf_value sample_table /\ keys_decode sample_table.
Proof.
  split; cbn; unfold code_point, valid_datetime; cbn; solve_wf.
Defined.

Lemma read_write_item_witness :
  read_item ([byte_of_Z 1] ++ ok_or [] (write_item sample_table) ++ [byte_of_Z 2]) 1 =
    Ok (wire_value sample_table, 1 + zlen (ok_or [] (write_item sample_table))) /\
  wire_value sample_table =
    VDict [ (KStr (str_of "n"), VInt (-5));
            (KStr (str_of "raw"), VBytes [byte_of_Z 255]);
            (KStr (str_of "utf"), VStr (str_of "abc"));
            (KStr [0xD800], VList [VBool true; VNone; VFloat 4591870180066957722]);
            (KStr (str_of "d"), VDecimal (Dec true [1; 5] (-1)));
            (KStr (str_of "at"), VDatetime (Datetime 2024 2 29 22 59 58 0 None)) ].
Proof.
  split; [|vm_compute; reflexivity].
  apply (read_write_item sample_table _ [byte_of_Z 1] [byte_of_Z 2]);
    [apply sample_table_wf..|vm_compute; reflexivity].
Defined.

(** The round trip is exact on the values with a faithful wire form:
    [None], [bool], [int], [float], [str], naive datetimes of whole seconds,
    and lists and string-keyed dictionaries of such values. *)
Theorem read_write_plain v out pre post :
  wf_value v -> plain v -> write_item v = Ok out ->
  read_item (pre ++ out ++ post) (zlen pre) = Ok (v, zlen pre + zlen out).
Proof.
  intros Hw Hp Ho. rewrite <- (plain_wire_value v Hw Hp).
  destruct (write_item_reads_back v out Hw (plain_keys_decode v Hp) Ho) as [_ Hr].
  apply Hr; [apply holds_at_mid|]. unfold read_fuel. rewrite !length_app. lia.
Qed.

Lemma read_write_plain_witness :
  let v := VDict [(KStr (str_of "x-death"), VList [VInt 3000000000; VStr (str_of "q")]);
                  (KStr (str_of "t"), VDatetime (Datetime 1999 12 31 0 0 1 0 None))] in
  read_item ([] ++ ok_or [] (write_item v) ++ []) 0 =
    Ok (v, 0 + zlen (ok_or [] (write_item v))).
Proof.
  intros v. apply (read_write_plain v _ [] []).
  - cbn. unfold valid_datetime, code_point. cbn. solve_wf.
  - cbn. split_and!; try done. apply NoDup_cons. split; [|apply NoDup_singleton].
    intros H%list_elem_of_singleton. discriminate.
  - vm_compute. reflexivity.
Defined.

(** C34: [_read_item] ends on every buffer, and moves the offset forward from
    a place inside the buffer: neither nesting nor the length words of a
    hostile peer make it loop. *)
Theorem read_item_terminates buf off :
  0 <= off ->
  read_item buf off <> OutOfFuel /\
  forall v off', read_item buf off = Ok (v, off') -> off < zlen buf /\ off < off'.
Proof.
  intros Ho. split.
  - apply read_item_fuel_total. unfold read_fuel. lia.
  - intros v off' H. by eapply read_item_fuel_progress.
Qed.

Lemma read_item_terminates_witness :
  0 <= 0 /\ read_item (bytes_of "F" ++ [byte_of_Z 255; byte_of_Z 255; byte_of_Z 255; byte_of_Z 255]) 0
            <> OutOfFuel.
Proof. split; [lia|]. apply (read_item_terminates _ 0). lia. Defined.

(** A table is either written or refused with [FrameSyntaxError] (an
    object of a type that has no wire form), [struct.error], [TypeError] or
    [OverflowError]; the [ValueError] of an unsupported object never escapes,
    whatever its place in the table. *)
Theorem write_table_errors d :
  (exists out, write_table write_item d = Ok out) \/
  (exists e, write_table write_item d = Raise e /\ writer_exc false e = true).
Proof.
  pose proof (write_table_raises d) as Hr.
  assert (write_table write_item d <> OutOfFuel) as Hf.
  { unfold write_table. apply bind_fuel_ne; [|auto with py_total].
    apply write_entries_fuel, Forall_forall. intros p _. apply write_item_fuel. }
  destruct (write_table write_item d); [eauto..|done].
Qed.

(** Integers are written exactly when they fit 64 bits, in the shortest
    of the two signed forms except for -2^31, which takes the long one. *)
Theorem write_item_int z :
  write_item (VInt z) =
    if (- 2 ^ 31 <? z) && (z <? 2 ^ 31) then Ok ("I"%byte :: be_encode 4 z)
    else if (- 2 ^ 63 <=? z) && (z <? 2 ^ 63) then Ok ("L"%byte :: be_encode 8 z)
    else Raise StructError.
Proof.
  cbn [write_item]. unfold pack_s.
  change (256 ^ Z.of_nat 8 / 2) with (2 ^ 63). change (256 ^ Z.of_nat 4 / 2) with (2 ^ 31).
  destruct ((2147483647 <? z) || (z <? -2147483647)) eqn:Hz.
  - replace ((- 2 ^ 31 <? z) && (z <? 2 ^ 31)) with false; [by case_if|].
    symmetry. rewrite andb_false_iff, Z.ltb_ge, Z.ltb_ge.
    apply orb_true_iff in Hz. rewrite !Z.ltb_lt in Hz. lia.
  - bool_to_prop.
    replace ((- 2 ^ 31 <? z) && (z <? 2 ^ 31)) with true.
    + replace ((- 2 ^ 31 <=? z) && (z <? 2 ^ 31)) with true; [done|].
      symmetry. rewrite andb_true_iff, Z.leb_le, Z.ltb_lt. lia.
    + symmetry. rewrite andb_true_iff, !Z.ltb_lt. lia.
Qed.

(** A decimal that is written is read as the same number: the
    coefficient scaled by the difference of the exponents is the original. *)
Theorem wire_decimal_exact s ds e out :
  write_decimal (Dec s ds e) = Ok out ->
  exists s' ds' e', wire_decimal (Dec s ds e) = Dec s' ds' e' /\ e <= e' <= 0 /\
    decimal_coef (Dec s' ds' e') * 10 ^ (e' - e) = decimal_coef (Dec s ds e).
Proof.
  intros H. cbn [write_decimal] in H. ok_inv.
  match goal with H : pack_u _ _ = _ |- _ => apply pack_u_ok in H as [? _] end.
  unfold wire_decimal.
  pose proof (decimal_div_pow10_exact (decimal_coef (Dec s ds e)) (Z.to_nat (- e))) as Hd.
  destruct (decimal_div_pow10 _ _) as [s' ds' e'| |]; [|done..].
  destruct Hd as [Hd Hb]. exists s', ds', e'. split; [done|].
  rewrite Z2Nat.id in Hd, Hb by lia. split; [lia|].
  by replace (e' - e) with (e' + - e) by lia.
Qed.

Lemma wire_decimal_exact_witness :
  exists s' ds' e', wire_decimal (Dec true [1; 5; 0] (-2)) = Dec s' ds' e' /\ -2 <= e' <= 0 /\
    decimal_coef (Dec s' ds' e') * 10 ^ (e' - -2) = decimal_coef (Dec true [1; 5; 0] (-2)).
Proof.
  apply (wire_decimal_exact true [1; 5; 0] (-2)
    (ok_or [] (write_decimal (Dec true [1; 5; 0] (-2))))).
  vm_compute. reflexivity.
Defined.

(** A long string whose announced length exceeds the buffer is accepted:
    the value is what is left of the buffer and the offset is beyond its
    end. *)
Theorem read_longstr_truncated n body s :
  zlen body < n < 2 ^ 32 -> utf8_decode_opt body = Some s ->
  let buf := "S"%byte :: be_encode 4 n ++ body in
  read_item buf 0 = Ok (VStr s, 5 + n) /\ zlen buf < 5 + n.
Proof.
  intros Hn Hs buf. unfold buf. split.
  2: { cbn [length]. rewrite length_app, be_encode_length. lia. }
  unfold read_item, read_fuel. cbn [read_item_fuel length].
  assert (holds_at ("S"%byte :: be_encode 4 n ++ body) 0 ("S"%byte :: be_encode 4 n ++ body))
    as Hb by apply holds_at_whole.
  apply holds_at_cons in Hb as [H1 Hb]. rewrite (byte_at_holds _ _ _ H1).
  cbn [mbind result_bind item_type_of read_scalar].
  apply holds_at_app in Hb as [H2 H3].
  rewrite (unpack_u_holds 4 _ _ _ H2) by apply be_encode_length.
  rewrite be_decode_encode by lia. cbn [mbind result_bind].
  assert (slice ("S"%byte :: be_encode 4 n ++ body) (0 + 1 + 4) (0 + 1 + 4 + n) = body) as ->.
  { unfold slice. cbn [length]. rewrite length_app, be_encode_length.
    rewrite (Z.min_l (0 + 1 + 4)) by lia.
    change (Z.to_nat (0 + 1 + 4)) with (S 4). cbn [drop].
    rewrite drop_app_length' by (by rewrite be_encode_length). apply take_ge. lia. }
  by rewrite Hs.
Qed.

Lemma read_longstr_truncated_witness :
  zlen (bytes_of "ab") < 5 < 2 ^ 32 /\
  read_item ("S"%byte :: be_encode 4 5 ++ bytes_of "ab") 0 = Ok (VStr (str_of "ab"), 5 + 5).
Proof.
  split; [cbn; lia|].
  apply (read_longstr_truncated 5 (bytes_of "ab") (str_of "ab")); [cbn; lia|].
  vm_compute. reflexivity.
Defined.

(** The type octet ['b'] is read as an unsigned and ['B'] as a signed
    byte, against the comments of the two branches. *)
Theorem read_short_short x :
  read_item ["b"%byte; x] 0 = Ok (VInt (byte_to_Z x), 2) /\
  read_item ["B"%byte; x] 0 =
    Ok (VInt (if byte_to_Z x <? 128 then byte_to_Z x else byte_to_Z x - 256), 2).
Proof. split; destruct x; reflexivity. Qed.
