(* ===== verification/Recursion.v ===== *)
(** * The recursion of the reader ([_read_item] of [amqp/serialization.py])

    [Table.read_item] recurses as deep as the bytes are nested.  The
    interpreter does not: a call of a Python function beyond its limit raises
    [RecursionError].  Here is the reader with that limit, and what it changes:
    nothing, as long as there are no five bytes of nesting for each call. *)

From S2P Require Import Prelude Exceptions Struct Utf8 Datetime Values Table.

Open Scope Z_scope.

(** A call of a function of Python, when [limit] more can be nested; the
    functions of C are not counted. *)
Definition py_call {A} (limit : nat) (m : py A) : py A :=
  match limit with O => Raise RecursionError | S _ => m end.

(** The branches that call [pstr_t] do so behind the length octets. *)
Definition read_scalar_within (limit : nat) (t : item_type) (buf : bytes) (offset : Z) : py (value * Z) :=
  match t with
  | TLongStr => unpack_u 4 buf offset ;; py_call limit (read_scalar t buf offset)
  | TShortStr => unpack_u 1 buf offset ;; py_call limit (read_scalar t buf offset)
  | _ => read_scalar t buf offset
  end.

Definition read_key_within (limit : nat) (buf : bytes) (offset : Z) : py (dict_key * Z) :=
  unpack_u 1 buf offset ;; py_call limit (read_key buf offset).

Section loop.
(** The two loops, for given readers of a key and of an item. *)
Context (read_key : Z -> py (dict_key * Z)) (read_item : Z -> py (value * Z)).

Fixpoint read_entries_within (fuel : nat) (limit offset : Z) (val : list (dict_key * value))
    : py (list (dict_key * value) * Z) :=
  if offset <? limit then
    match fuel with
    | O => OutOfFuel
    | S fuel =>
        '(key, offset) ← read_key offset;
        '(v, offset) ← read_item offset;
        read_entries_within fuel limit offset (dict_set val key v)
    end
  else mret (val, offset).

Definition read_table_within (fuel : nat) (buf : bytes) (offset : Z) : py (list (dict_key * value) * Z) :=
  tlen ← unpack_u 4 buf offset;
  let offset := offset + 4 in
  read_entries_within fuel (offset + tlen) offset [].
End loop.

(** [_read_item] when [limit] more calls can be nested, this one included: the
    recursion is structural, and the rounds of a loop are bounded by the
    bytes. *)
Fixpoint read_item_within (limit : nat) (buf : bytes) (offset : Z) : py (value * Z) :=
  match limit with
  | O => Raise RecursionError
  | S limit =>
      ftype ← byte_at buf offset;
      let offset := offset + 1 in
      match item_type_of ftype with
      | Some TTable =>
          '(d, offset) ← read_table_within (read_key_within limit buf) (read_item_within limit buf)
                           (read_fuel buf) buf offset;
          mret (VDict d, offset)
      | Some TArray =>
          '(l, offset) ← read_array buf (read_item_within limit buf) (read_fuel buf) offset;
          mret (VList l, offset)
      | Some t => read_scalar_within limit t buf offset
      | None => raise_amqp FrameSyntaxError UNKNOWN_VALUE None
      end
  end.

(** ** The limit changes nothing else *)

(** The outcome is that of the reader without a limit, or the [RecursionError]
    of bytes for which [P] holds. *)
Inductive limited {A} (P : Prop) : py A -> py A -> Prop :=
  | limited_same r : limited P r r
  | limited_deep r : P -> limited P (Raise RecursionError) r.
#[local] Hint Constructors limited : core.

Lemma limited_weaken {A} (P Q : Prop) (r r' : py A) : (P -> Q) -> limited P r r' -> limited Q r r'.
Proof. intros HPQ []; auto. Qed.

Lemma limited_bind {A B} P (m m' : py A) (f f' : A -> py B) :
  limited P m m' -> (forall a, m = Ok a -> limited P (f a) (f' a)) -> limited P (m ≫= f) (m' ≫= f').
Proof. intros [[a|e|]|r HP] Hf; cbn; auto. Qed.

(** The nesting that a call within [limit] needs to raise [RecursionError]:
    five bytes for each call but the last. *)
Definition deep (limit : nat) (buf : bytes) (off : Z) : Prop :=
  limit = O \/ off + 5 * (Z.of_nat limit - 1) < zlen buf.

Lemma limited_scalar limit t buf off :
  limited (deep (S limit) buf (off - 1)) (read_scalar_within limit t buf off) (read_scalar t buf off).
Proof.
  destruct t; unfold read_scalar_within; auto; (destruct (unpack_u _ buf off) as [z|e|] eqn:E;
    [|cbn; rewrite E; cbn; auto..]); apply unpack_u_bound in E as Hb;
    cbn [mbind result_bind]; (destruct limit; [|auto]); apply limited_deep; right; lia.
Qed.

Lemma limited_key limit buf off :
  limited (deep (S limit) buf (off - 1)) (read_key_within limit buf off) (read_key buf off).
Proof.
  unfold read_key_within. destruct (unpack_u 1 buf off) as [z|e|] eqn:E; cbn [mbind result_bind];
    [|unfold read_key; rewrite E; cbn; auto..].
  apply unpack_u_bound in E. destruct limit; cbn [py_call]; [|auto]. apply limited_deep. right. lia.
Qed.

Section loops.
Context (P : Prop) (buf : bytes) (key : Z -> py (dict_key * Z)) (item item' : Z -> py (value * Z)).
(** The loops start at [start]. *)
Context (start : Z).
Hypothesis key_limited : forall off, start <= off -> limited P (key off) (read_key buf off).
Hypothesis item_limited : forall off, start <= off -> limited P (item off) (item' off).
Hypothesis item_progress : forall off v off', item' off = Ok (v, off') -> off < zlen buf /\ off < off'.

Lemma limited_ok {A} (r r' : py A) a : limited P r r' -> r = Ok a -> r' = Ok a.
Proof. by intros [] E; simplify_eq. Qed.

(** Both loops have rounds enough for what is left of the buffer. *)
Lemma limited_entries fuel fuel' limit off acc :
  start <= off -> Z.max 0 (zlen buf - off) < Z.of_nat fuel -> Z.max 0 (zlen buf - off) < Z.of_nat fuel' ->
  limited P (read_entries_within key item fuel limit off acc) (read_entries buf item' fuel' limit off acc).
Proof.
  revert fuel' off acc. induction fuel as [|fuel IH]; intros [|fuel'] off acc Hs H1 H2; [lia..|].
  cbn [read_entries_within read_entries]. case_if; [|auto].
  apply limited_bind; [auto|]. intros [k o1] Hk.
  eapply limited_ok, read_key_progress in Hk as [Hk1 Hk2]; [|by apply key_limited].
  apply limited_bind; [apply item_limited; lia|]. intros [v o2] Hv.
  eapply limited_ok, item_progress in Hv as [Hv1 Hv2]; [|apply item_limited; lia].
  apply IH; lia.
Qed.

Lemma limited_elements fuel fuel' limit off acc :
  start <= off -> Z.max 0 (zlen buf - off) < Z.of_nat fuel -> Z.max 0 (zlen buf - off) < Z.of_nat fuel' ->
  limited P (read_elements item fuel limit off acc) (read_elements item' fuel' limit off acc).
Proof.
  revert fuel' off acc. induction fuel as [|fuel IH]; intros [|fuel'] off acc Hs H1 H2; [lia..|].
  cbn [read_elements]. case_if; [|auto]. apply limited_bind; [by apply item_limited|]. intros [v o] Hv.
  eapply limited_ok, item_progress in Hv as [Hv1 Hv2]; [|by apply item_limited]. apply IH; lia.
Qed.
End loops.

Lemma deep_nested limit buf off off' n :
  unpack_u 4 buf off = Ok n -> off + 4 <= off' -> deep limit buf off' -> deep (S limit) buf (off - 1).
Proof. intros Hn%unpack_u_bound Ho [->|H]; right; lia. Qed.

Lemma limited_item limit fuel buf off :
  0 <= off -> Z.max 0 (zlen buf - off) < Z.of_nat fuel ->
  limited (deep limit buf off) (read_item_within limit buf off) (read_item_fuel fuel buf off).
Proof.
  revert fuel off. induction limit as [|limit IH]; intros [|fuel] off H0 Hf; [lia|apply limited_deep; by left|lia|].
  cbn [read_item_within read_item_fuel].
  apply limited_bind; [auto|]. intros b Hb%byte_at_bound.
  replace (deep (S limit) buf off) with (deep (S limit) buf (off + 1 - 1)) by (by rewrite Z.add_simpl_r).
  assert (forall n o, unpack_u 4 buf (off + 1) = Ok n -> off + 5 <= o ->
    limited (deep (S limit) buf (off + 1 - 1)) (read_item_within limit buf o) (read_item_fuel fuel buf o)) as Hi.
  { intros n o Hn Ho. eapply limited_weaken; [|apply IH; lia].
    eapply deep_nested; [exact Hn|lia]. }
  assert (Hp := read_item_fuel_progress fuel buf).
  destruct (item_type_of b) as [t|]; [|auto].
  destruct t; try apply limited_scalar; unfold read_table_within, read_table, read_array;
    (apply limited_bind; [apply limited_bind; [auto|]|intros [] _; auto]);
    intros n Hn; apply unpack_u_bound in Hn as Hn'.
  - apply (limited_entries _ _ _ _ _ (off + 5)); try (unfold read_fuel; lia); [|eauto|done].
    intros o Ho. eapply limited_weaken, limited_key. intros [?|?]; [done|right; lia].
  - apply (limited_elements _ buf _ _ (off + 5)); try (unfold read_fuel; lia); [eauto|done].
Qed.

(** ** What the reader raises *)

(** C35: the exceptions of [_read_item].  Whatever the bytes are and however
    many calls the interpreter allows, [_read_item] returns what the bytes say
    ([read_item], which has no limit), or raises one of [struct.error],
    [IndexError], [UnicodeDecodeError], [FrameSyntaxError] and the errors of the
    conversion of timestamps, or raises [RecursionError]; the last only when
    the buffer has more than five bytes for each call that was allowed. *)
Theorem read_item_errors limit buf off :
  0 <= off ->
  match read_item_within (S limit) buf off with
  | Ok x => read_item buf off = Ok x
  | Raise e => (reader_exc e = true /\ read_item buf off = Raise e) \/
               (e = RecursionError /\ off + 5 * Z.of_nat limit < zlen buf)
  | OutOfFuel => False
  end.
Proof.
  intros Hoff. unfold read_item.
  assert (Z.max 0 (zlen buf - off) < Z.of_nat (read_fuel buf)) as Hf by (unfold read_fuel; lia).
  pose proof (read_item_fuel_raises (read_fuel buf) buf off) as Hr.
  pose proof (read_item_fuel_total _ _ _ Hf) as Ht.
  destruct (limited_item (S limit) (read_fuel buf) buf off Hoff Hf) as [r|r [?|?]]; [|done|right; split; [done|lia]].
  destruct r as [x|e|]; [done|by left|done].
Qed.

(** Arrays of one element in each other. *)
Fixpoint nested (n : nat) : bytes :=
  match n with
  | O => ["V"%byte]
  | S n => let inner := nested n in "A"%byte :: be_encode 4 (zlen inner) ++ inner
  end.

Lemma read_item_errors_witness :
  0 <= 0 /\
  match read_item_within 3 (nested 3) 0 with
  | Ok x => read_item (nested 3) 0 = Ok x
  | Raise e => (reader_exc e = true /\ read_item (nested 3) 0 = Raise e) \/
               (e = RecursionError /\ 0 + 5 * Z.of_nat 2 < zlen (nested 3))
  | OutOfFuel => False
  end.
Proof. split; [lia|]. apply (read_item_errors 2 (nested 3) 0). lia. Defined.

Lemma nested_length n : zlen (nested n) = 5 * Z.of_nat n + 1.
Proof. induction n; [done|]. cbn [nested length]. rewrite length_app, be_encode_length. lia. Qed.

Lemma nested_raises limit n buf off :
  (limit <= n)%nat -> 5 * Z.of_nat n + 1 < 2 ^ 32 -> holds_at buf off (nested n) ->
  read_item_within limit buf off = Raise RecursionError.
Proof.
  revert limit off. induction n as [|n IH]; intros [|limit] off Hl Hn Hb; [done|lia|done|].
  cbn [nested] in Hb. apply holds_at_cons in Hb as [H1 Hb]. apply holds_at_app in Hb as [H2 H3].
  rewrite be_encode_length in H3. cbn [read_item_within]. rewrite (byte_at_holds _ _ _ H1).
  cbn [mbind result_bind item_type_of]. unfold read_array.
  rewrite (unpack_u_holds 4 _ _ _ H2), be_decode_encode; [|rewrite nested_length; lia|apply be_encode_length].
  cbn [mbind result_bind]. unfold read_fuel. cbn [read_elements].
  rewrite (proj2 (Z.ltb_lt _ _)) by (rewrite nested_length; lia).
  change (off + 1 + Z.of_nat 4) with (off + 1 + 4) in H3. by rewrite (IH limit) by (try done; lia).
Qed.

(** Five bytes for each allowed call are enough: with any limit, the right
    number of arrays in each other raises [RecursionError], though the bytes
    are those of a value. *)
Theorem recursion_reached limit :
  5 * Z.of_nat limit + 1 < 2 ^ 32 -> read_item_within limit (nested limit) 0 = Raise RecursionError.
Proof. intros H. apply (nested_raises limit limit); [done|done|]. apply holds_at_whole. Qed.

Lemma recursion_reached_witness :
  read_item_within 1000 (nested 1000) 0 = Raise RecursionError /\ is_ok (read_item (nested 1000) 0) = true.
Proof. split; [apply (recursion_reached 1000); cbn; lia|]. vm_compute. reflexivity. Defined.
