(* ===== verification/Codec.v ===== *)
(** * Method arguments ([loads] and [dumps] of [amqp/serialization.py])

    The format strings of the method signatures and the two functions that
    read and write the arguments of a method by them.  Consecutive bit
    arguments are packed eight to an octet: [dumps] collects the octets in
    [bits] and writes them with [_flushbits] before the next argument of
    another kind, [loads] takes an octet whenever its [bitcount] is zero. *)

From S2P Require Import Prelude Exceptions Struct Utf8 Datetime Values Table.

Open Scope Z_scope.

Inductive fmt : Set :=
  | FBit | FOctet | FShort | FLong | FLongLong | FFloat | FShortStr | FLongStr
  | FBytes | FTable | FArray | FTimestamp.

#[export] Instance fmt_eq_dec : EqDecision fmt.
Proof. solve_decision. Defined.

(** The comparisons [p == 'b'], ... of both functions. *)
Definition fmt_of (p : byte) : option fmt :=
  match p with
  | "b" => Some FBit | "o" => Some FOctet | "B" => Some FShort | "l" => Some FLong
  | "L" => Some FLongLong | "f" => Some FFloat | "s" => Some FShortStr
  | "S" => Some FLongStr | "x" => Some FBytes | "F" => Some FTable
  | "A" => Some FArray | "T" => Some FTimestamp
  | _ => None
  end%byte.

(** ** loads *)

(** The locals of the loop of [loads]. *)
Record load_state : Type := LoadState {
  ls_bitcount : Z;
  ls_bits : Z;
  ls_offset : Z;
}.

(** [bitcount = bits = 0] and the new offset. *)
Definition ls_next (offset : Z) : load_state := LoadState 0 0 offset.

Definition loads_num (r : py Z) (offset : Z) : py (value * load_state) :=
  z ← r; mret (VInt z, ls_next offset).

Definition loads_str (buf : bytes) (offset slen : Z) : py (value * load_state) :=
  '(s, offset) ← read_str buf offset slen; mret (VStr s, ls_next offset).

Definition loads_arg (f : fmt) (buf : bytes) (st : load_state) : py (value * load_state) :=
  let offset := ls_offset st in
  match f with
  | FBit =>
      (* ord() of an empty slice is a TypeError *)
      '(bits, offset, bitcount) ←
        (if ls_bitcount st =? 0
         then match slice buf offset (offset + 1) with
              | [b] => mret (byte_to_Z b, offset + 1, 8)
              | _ => Raise TypeError
              end
         else mret (ls_bits st, offset, ls_bitcount st));
      mret (VBool (Z.land bits 1 =? 1), LoadState (bitcount - 1) (Z.shiftr bits 1) offset)
  | FOctet => loads_num (unpack_u 1 buf offset) (offset + 1)
  | FShort => loads_num (unpack_u 2 buf offset) (offset + 2)
  | FLong => loads_num (unpack_u 4 buf offset) (offset + 4)
  | FLongLong => loads_num (unpack_u 8 buf offset) (offset + 8)
  | FFloat => b ← unpack_u 4 buf offset; mret (VFloat (f64_of_f32 b), ls_next (offset + 4))
  | FShortStr => slen ← unpack_u 1 buf offset; loads_str buf (offset + 1) slen
  | FLongStr => slen ← unpack_u 4 buf offset; loads_str buf (offset + 4) slen
  | FBytes =>
      (* this branch leaves bitcount and bits alone *)
      blen ← unpack_u 4 buf offset;
      let offset := offset + 4 in
      mret (VBytes (slice buf offset (offset + blen)),
            LoadState (ls_bitcount st) (ls_bits st) (offset + blen))
  | FTable =>
      '(d, offset) ← read_table buf (read_item buf) (read_fuel buf) offset;
      mret (VDict d, ls_next offset)
  | FArray =>
      '(l, offset) ← read_array buf (read_item buf) (read_fuel buf) offset;
      mret (VList l, ls_next offset)
  | FTimestamp =>
      t ← unpack_u 8 buf offset;
      dt ← fromtimestamp t;
      mret (VDatetime dt, ls_next (offset + 8))
  end.

Fixpoint loads_loop (format : bytes) (buf : bytes) (st : load_state) (values : list value)
    : py (list value * Z) :=
  match format with
  | [] => mret (values, ls_offset st)
  | p :: format =>
      match fmt_of p with
      | None => raise_amqp FrameSyntaxError ILLEGAL_TABLE_TYPE None
      | Some f =>
          '(val, st) ← loads_arg f buf st;
          loads_loop format buf st (values ++ [val])
      end
  end.

Definition loads (format : bytes) (buf : bytes) (offset : Z) : py (list value * Z) :=
  loads_loop format buf (ls_next offset) [].

(** ** dumps *)

(** The locals of [dumps]: [bits] are the octets not written yet. *)
Record dump_state : Type := DumpState {
  ds_bitcount : Z;
  ds_bits : list Z;
  ds_out : bytes;
}.

(** [pack('B' * len(bits), *bits)]. *)
Fixpoint pack_octets (bits : list Z) : py bytes :=
  match bits with
  | [] => mret []
  | b :: bits => o ← pack_u 1 b; os ← pack_octets bits; mret (o ++ os)
  end.

(** [bitcount = _flushbits(bits, write)]. *)
Definition flushbits (st : dump_state) : py dump_state :=
  match ds_bits st with
  | [] => mret (DumpState 0 [] (ds_out st))
  | bits => bs ← pack_octets bits; mret (DumpState 0 [] (ds_out st ++ bs))
  end.

Definition ds_write (st : dump_state) (bs : bytes) : dump_state :=
  DumpState (ds_bitcount st) (ds_bits st) (ds_out st ++ bs).

(** [bits[-1] |= x]. *)
Definition or_last (bits : list Z) (x : Z) : py (list Z) :=
  match rev bits with
  | [] => Raise IndexError
  | b :: bs => mret (rev bs ++ [Z.lor b x])
  end.

Definition py_len (v : value) : py Z :=
  match v with
  | VStr s => Ok (zlen s)
  | VBytes b => Ok (zlen b)
  | VList l | VTuple l => Ok (zlen l)
  | VDict d => Ok (zlen d)
  | _ => Raise TypeError
  end.

(** [write(v)]: only a bytes-like object can be written. *)
Definition buffer_of (v : value) : py bytes :=
  match v with VBytes b => Ok b | _ => Raise TypeError end.

(** [val or dflt]. *)
Definition val_or (val dflt : value) : value := if truthy val then val else dflt.

(** The ['s'], ['S'] and ['x'] branches, with a length word of [w] bytes. *)
Definition dumps_str (w : nat) (val : value) : py bytes :=
  let val := val_or val (VStr []) in
  let val := match val with VStr s => VBytes (str_to_bytes s) | v => v end in
  len ← py_len val;
  n ← pack_u w len;
  body ← buffer_of val;
  mret (n ++ body).

(** [d.items()]. *)
Definition items_of (v : value) : py (list (dict_key * value)) :=
  match v with VDict d => Ok d | _ => Raise AttributeError end.

(** The bytes of an argument that is not a bit. *)
Definition dumps_bytes (f : fmt) (val : value) : py bytes :=
  match f with
  | FBit => mret []
  | FOctet => n ← as_index val; pack_u 1 n
  | FShort => n ← py_int val; pack_u 2 n
  | FLong => n ← as_index val; pack_u 4 n
  | FLongLong => n ← as_index val; pack_u 8 n
  | FFloat => x ← as_double val; b ← f32_of_f64 x; mret (be_encode 4 b)
  | FShortStr => dumps_str 1 val
  | FLongStr | FBytes => dumps_str 4 val
  | FTable => d ← items_of (val_or val (VDict [])); write_table write_item d
  | FArray => l ← iterate (val_or val (VList [])); write_array write_item l
  | FTimestamp =>
      match val with
      | VDatetime dt => t ← timegm_utc dt; pack_u 8 t
      | _ => Raise AttributeError
      end
  end.

Definition dumps_arg (p : byte) (val : value) (st : dump_state) : py dump_state :=
  match fmt_of p with
  | None => mret st
  | Some FBit =>
      let v := if truthy val then 1 else 0 in
      let shift := ds_bitcount st mod 8 in
      let bits := if shift =? 0 then ds_bits st ++ [0] else ds_bits st in
      bits ← or_last bits (Z.shiftl v shift);
      mret (DumpState (ds_bitcount st + 1) bits (ds_out st))
  | Some FTimestamp =>
      (* no _flushbits here *)
      bs ← dumps_bytes FTimestamp val; mret (ds_write st bs)
  | Some f =>
      st ← flushbits st; bs ← dumps_bytes f val; mret (ds_write st bs)
  end.

Fixpoint dumps_loop (format : bytes) (values : list value) (st : dump_state)
    {struct values} : py dump_state :=
  match values, format with
  | [], _ => mret st
  | _ :: _, [] => Raise IndexError
  | val :: values, p :: format => st ← dumps_arg p val st; dumps_loop format values st
  end.

Definition dumps (format : bytes) (values : list value) : py bytes :=
  st ← dumps_loop format values (DumpState 0 [] []);
  st ← flushbits st;
  mret (ds_out st).

(** ** Examples *)

Example dumps_bits :
  dumps (bytes_of "bbBb") [VBool true; VBool true; VInt 258; VInt 0] =
    Ok [byte_of_Z 3; byte_of_Z 1; byte_of_Z 2; byte_of_Z 0].
Proof. reflexivity. Qed.

Example loads_bits :
  loads (bytes_of "bbBb") [byte_of_Z 3; byte_of_Z 1; byte_of_Z 2; byte_of_Z 0] 0 =
    Ok ([VBool true; VBool true; VInt 258; VBool false], 4).
Proof. reflexivity. Qed.

(** ** What the peer reads of an argument *)

(** The bytes of a string argument. *)
Definition str_body (val : value) : py bytes :=
  match val_or val (VStr []) with
  | VStr s => mret (str_to_bytes s)
  | v => buffer_of v
  end.

Definition wire_arg (f : fmt) (val : value) : py value :=
  match f with
  | FBit => mret (VBool (truthy val))
  | FOctet | FLong | FLongLong => VInt <$> as_index val
  | FShort => VInt <$> py_int val
  | FFloat => x ← as_double val; b ← f32_of_f64 x; mret (VFloat (f64_of_f32 b))
  | FShortStr | FLongStr => b ← str_body val; VStr <$> bytes_to_str b
  | FBytes => VBytes <$> str_body val
  | FTable => d ← items_of (val_or val (VDict [])); mret (VDict (wire_dict d))
  | FArray => l ← iterate (val_or val (VList [])); mret (VList (wire_value <$> l))
  | FTimestamp =>
      match val with
      | VDatetime dt => t ← timegm_utc dt; VDatetime <$> fromtimestamp t
      | _ => Raise AttributeError
      end
  end.

(** The tables and arrays among the arguments are well formed and have keys
    that decode. *)
Definition wf_arg (f : fmt) (val : value) : Prop :=
  match f with
  | FTable => forall d, items_of (val_or val (VDict [])) = Ok d ->
      wf_value (VDict d) /\ keys_decode (VDict d)
  | FArray => forall l, iterate (val_or val (VList [])) = Ok l ->
      wf_value (VList l) /\ keys_decode (VList l)
  | _ => True
  end.

Lemma dumps_str_ok w val out :
  dumps_str w val = Ok out ->
  exists n body, str_body val = Ok body /\ pack_u w (zlen body) = Ok n /\ out = n ++ body.
Proof.
  unfold dumps_str, str_body. destruct (val_or val (VStr [])); cbn; intros H;
    ok_inv; subst; eauto; discriminate.
Qed.

(** A string with its length word, in the buffer of the reader. *)
Lemma dumps_str_holds w val out buf off :
  holds_at buf off out -> dumps_str w val = Ok out ->
  exists body, str_body val = Ok body /\ unpack_u w buf off = Ok (zlen body) /\
    holds_at buf (off + Z.of_nat w) body /\ zlen out = Z.of_nat w + zlen body.
Proof.
  intros Hb (n & body & Hs & Hn & ->)%dumps_str_ok.
  apply holds_at_app in Hb as [H1 H2]. pose proof (pack_u_length _ _ _ Hn) as Hl.
  exists body. rewrite Hl in H2. rewrite length_app, Hl. split_and!; [done| |done|lia].
  by eapply unpack_pack_u.
Qed.

(** The state of [loads] after an argument that ends at [offset]. *)
Definition ls_after (f : fmt) (st : load_state) (offset : Z) : load_state :=
  match f with
  | FBytes => LoadState (ls_bitcount st) (ls_bits st) offset
  | _ => ls_next offset
  end.

Lemma loads_num_holds n z out buf off :
  holds_at buf off out -> pack_u n z = Ok out ->
  loads_num (unpack_u n buf off) (off + Z.of_nat n) = Ok (VInt z, ls_next (off + zlen out)).
Proof.
  intros Hb Hp. unfold loads_num.
  by rewrite (unpack_pack_u _ _ _ _ _ Hb Hp), (pack_u_length _ _ _ Hp).
Qed.

Lemma loads_str_holds buf off body v :
  holds_at buf off body -> VStr <$> bytes_to_str body = Ok v ->
  loads_str buf off (zlen body) = Ok (v, ls_next (off + zlen body)).
Proof.
  intros Hb Hv. unfold loads_str, read_str. rewrite (holds_at_slice _ _ body) by done.
  destruct (bytes_to_str body); cbn in *; by simplify_eq.
Qed.

Lemma loads_str_arg w val buf off out v :
  holds_at buf off out -> dumps_str w val = Ok out ->
  (b ← str_body val; VStr <$> bytes_to_str b) = Ok v ->
  (slen ← unpack_u w buf off; loads_str buf (off + Z.of_nat w) slen) =
    Ok (v, ls_next (off + zlen out)).
Proof.
  intros Hb Hd Hv. destruct (dumps_str_holds _ _ _ _ _ Hb Hd) as (body & Hs & Hu & Hh & Hl).
  rewrite Hs in Hv. rewrite Hu. cbn [mbind result_bind] in *.
  rewrite Hl, Z.add_assoc. by apply loads_str_holds.
Qed.

Lemma dumps_bytes_holds f val out buf st ws :
  f <> FBit -> wf_arg f val -> dumps_bytes f val = Ok out -> wire_arg f val = Ok ws ->
  holds_at buf (ls_offset st) out ->
  loads_arg f buf st = Ok (ws, ls_after f st (ls_offset st + zlen out)).
Proof.
  intros Hf Hwf Hd Hw Hb. pose proof (holds_at_bound _ _ _ Hb) as Hbd.
  destruct f; [done|..]; cbn [dumps_bytes wire_arg loads_arg ls_after] in *.
  (* octet, short, long, long long *)
  1-4: apply bind_ok_inv in Hd as (z & Hz & Hd); rewrite Hz in Hw; cbn in Hw; simplify_eq;
    by apply (loads_num_holds _ _ _ _ _ Hb Hd).
  - apply bind_ok_inv in Hd as (x & Hx & Hd). apply bind_ok_inv in Hd as (b & Hb32 & Hd).
    rewrite Hx in Hw. cbn [mbind result_bind] in Hw. rewrite Hb32 in Hw.
    cbn [mbind result_bind] in Hw. unfold mret, result_ret in *. simplify_eq.
    rewrite (unpack_u_holds 4 _ _ _ Hb), be_encode_length by apply be_encode_length.
    by rewrite (be_decode_encode _ _ (f32_range _ _ Hb32)).
  - by apply (loads_str_arg 1 val).
  - by apply (loads_str_arg 4 val).
  - destruct (dumps_str_holds _ _ _ _ _ Hb Hd) as (body & Hs & Hu & Hh & Hl).
    rewrite Hs in Hw. rewrite Hu. cbn in Hw. simplify_eq. cbn [mbind result_bind].
    change 4 with (Z.of_nat 4) at 1 2 3. rewrite (holds_at_slice _ _ body) by done. rewrite Hl.
    unfold mret, result_ret. do 3 f_equal. lia.
  - apply bind_ok_inv in Hd as (d & Hi & Hd). destruct (Hwf _ Hi) as [Hwv Hkd].
    rewrite Hi in Hw. cbn [mbind result_bind] in Hw. ok_inv. subst ws.
    change (read_item buf) with (read_item_fuel (read_fuel buf) buf).
    apply wf_value_dict in Hwv. apply keys_decode_dict in Hkd.
    erewrite read_table_holds; [done| |done|done| |]; [|unfold read_fuel; lia..].
    rewrite Forall_forall in *. intros p Hp. destruct (Hwv p Hp), (Hkd p Hp).
    split_and!; auto using write_item_reads_back.
  - apply bind_ok_inv in Hd as (l & Hi & Hd). destruct (Hwf _ Hi) as [Hwv Hkd].
    rewrite Hi in Hw. cbn [mbind result_bind] in Hw. ok_inv. subst ws.
    change (read_item buf) with (read_item_fuel (read_fuel buf) buf).
    apply wf_value_list in Hwv. apply keys_decode_list in Hkd.
    erewrite read_array_holds; [done| |done|done| |]; [|unfold read_fuel; lia..].
    rewrite Forall_forall in *. auto using write_item_reads_back.
  - destruct val; try done. apply bind_ok_inv in Hd as (t & Ht & Hd).
    rewrite Ht in Hw. cbn [mbind result_bind] in Hw.
    rewrite (unpack_pack_u _ _ _ _ _ Hb Hd). cbn [mbind result_bind].
    destruct (fromtimestamp t); cbn in *; [|done..]. simplify_eq.
    by rewrite (pack_u_length _ _ _ Hd).
Qed.

(** ** Bit packing

    [dumps] fills its last octet from the low end and writes it later, while
    [loads] takes the octet first and shifts it down.  [covers] says that the
    bytes written from some state on begin with the pending octets, the last
    one completed by the bits still to come. *)

(** The number of bits in the last pending octet. *)
Definition last_fill (bitcount : Z) : Z :=
  if bitcount mod 8 =? 0 then 8 else bitcount mod 8.

Definition covers (st : dump_state) (out : bytes) : Prop :=
  match rev (ds_bits st) with
  | [] => True
  | b :: bs => exists o rest,
      out = (byte_of_Z <$> rev bs) ++ o :: rest /\
      byte_to_Z o mod 2 ^ last_fill (ds_bitcount st) = b
  end.

Record ds_ok (st : dump_state) : Prop := {
  ds_ok_octets : Forall (fun b => 0 <= b < 256) (ds_bits st);
  ds_ok_empty : ds_bits st = [] -> ds_bitcount st = 0;
  ds_ok_count : 0 <= ds_bitcount st;
  ds_ok_last : forall bs b, ds_bits st = bs ++ [b] -> 0 <= b < 2 ^ last_fill (ds_bitcount st);
}.

Lemma ds_ok_start out : ds_ok (DumpState 0 [] out).
Proof. split; cbn; try done. intros [] ? H; discriminate. Qed.

Lemma or_last_snoc bs b x : or_last (bs ++ [b]) x = Ok (bs ++ [Z.lor b x]).
Proof. unfold or_last. rewrite rev_app_distr. cbn. by rewrite rev_involutive. Qed.

Lemma last_fill_cases n :
  0 <= n -> let k := n mod 8 in
  (k = 0 /\ last_fill n = 8 /\ last_fill (n + 1) = 1 /\ (n + 1) mod 8 = 1) \/
  (1 <= k <= 7 /\ last_fill n = k /\ last_fill (n + 1) = k + 1 /\
   (n + 1) mod 8 = (if k =? 7 then 0 else k + 1)).
Proof.
  intros Hn k. unfold k, last_fill.
  assert (n mod 8 = 0 \/ n mod 8 = 7 \/ 1 <= n mod 8 <= 6) as [H|[H|H]] by dlia.
  - left. assert ((n + 1) mod 8 = 1) as -> by dlia. rewrite H. done.
  - right. assert ((n + 1) mod 8 = 0) as -> by dlia. rewrite H. done.
  - right. assert ((n + 1) mod 8 = n mod 8 + 1) as -> by dlia.
    rewrite (proj2 (Z.eqb_neq (n mod 8) 0)), (proj2 (Z.eqb_neq (n mod 8 + 1) 0)),
      (proj2 (Z.eqb_neq (n mod 8) 7)) by lia. lia.
Qed.

(** Setting the next bit of an octet. *)
Lemma lor_next_bit b v k :
  0 <= k -> 0 <= b < 2 ^ k -> Z.lor b (Z.shiftl v k) = b + v * 2 ^ k.
Proof.
  intros Hk Hb. rewrite Z.shiftl_mul_pow2 by done.
  rewrite <- Z.add_nocarry_lor; [done|]. apply Z.bits_inj'. intros i Hi.
  rewrite Z.land_spec, Z.bits_0.
  destruct (decide (i < k)).
  - rewrite Z.mul_pow2_bits_low by lia. apply andb_false_r.
  - destruct (decide (b = 0)) as [->|]; [by rewrite Z.bits_0|].
    rewrite (Z.bits_above_log2 b); [done|lia|].
    apply Z.lt_le_trans with k; [|lia]. apply Z.log2_lt_pow2; lia.
Qed.

Definition bit_of (val : value) : Z := if truthy val then 1 else 0.

(** One bit argument of [dumps]: a new octet, or one more bit in the last. *)
Lemma dumps_bit p val st st' :
  fmt_of p = Some FBit -> ds_ok st -> dumps_arg p val st = Ok st' ->
  ds_ok st' /\ ds_out st' = ds_out st /\ ds_bitcount st' = ds_bitcount st + 1 /\
  ((ds_bitcount st mod 8 = 0 /\ ds_bits st' = ds_bits st ++ [bit_of val]) \/
   (ds_bitcount st mod 8 <> 0 /\ exists bs b, ds_bits st = bs ++ [b] /\
      ds_bits st' = bs ++ [b + bit_of val * 2 ^ (ds_bitcount st mod 8)])).
Proof.
  intros Hp [Ho He Hc Hl] H. unfold dumps_arg in H. rewrite Hp in H.
  fold (bit_of val) in H. assert (0 <= bit_of val <= 1) by (unfold bit_of; case_if; lia).
  pose proof (last_fill_cases _ Hc) as Hf. cbn zeta in Hf.
  set (k := ds_bitcount st mod 8) in *. destruct (k =? 0) eqn:Hk; bool_to_prop.
  - rewrite or_last_snoc, Hk, Z.shiftl_0_r, Z.lor_0_l in H.
    cbn [mbind result_bind] in H. unfold mret, result_ret in H. injection H as <-. cbn.
    destruct Hf as [(_ & _ & Hf & _)|]; [|lia].
    split_and!; [split; cbn|done|done|by left].
    + apply Forall_app. split; [done|]. apply Forall_singleton. lia.
    + intros []%app_nil; done.
    + lia.
    + intros bs b [_ [= <-]]%app_inj_2; [|done]. rewrite Hf. lia.
  - destruct (ds_bits st) as [|b bs _] eqn:Hb using rev_ind; [exfalso; apply Hk; unfold k; by rewrite He|].
    destruct Hf as [|(Hk7 & Hf & Hf1 & _)]; [lia|]. specialize (Hl bs b eq_refl).
    rewrite Hf in Hl. rewrite or_last_snoc, lor_next_bit in H by (try done; lia).
    cbn [mbind result_bind] in H. unfold mret, result_ret in H. injection H as <-. cbn.
    apply Forall_app in Ho as [Ho Hob].
    assert (0 <= b + bit_of val * 2 ^ k < 2 ^ (k + 1)) by (rewrite Z.pow_add_r by lia; nia).
    assert (2 ^ (k + 1) <= 2 ^ 8) by (apply Z.pow_le_mono_r; lia).
    split_and!; [split; cbn|done|done|right; split; [done|]; eauto].
    + apply Forall_app. split; [done|]. apply Forall_singleton. lia.
    + intros []%app_nil; done.
    + lia.
    + intros bs' b' [_ [= <-]]%app_inj_2; [|done]. by rewrite Hf1.
Qed.

Lemma pack_octets_ok bits : Forall (fun b => 0 <= b < 256) bits -> pack_octets bits = Ok (byte_of_Z <$> bits).
Proof.
  induction 1 as [|b bits Hb _ IH]; [done|]. cbn [pack_octets].
  by rewrite pack_u_in_range, IH, be_encode_1 by done.
Qed.

Lemma flushbits_ok st :
  ds_ok st -> flushbits st = Ok (DumpState 0 [] (ds_out st ++ (byte_of_Z <$> ds_bits st))).
Proof.
  intros [Ho _ _ _]. unfold flushbits. destruct (ds_bits st) as [|b bs] eqn:Hb.
  - cbn. by rewrite app_nil_r.
  - rewrite <- Hb in *. by rewrite pack_octets_ok.
Qed.

(** Formats for which both functions agree on the pending bits: a byte array
    or a timestamp does not directly follow a bit.  All the signatures of the
    library satisfy it. *)
Fixpoint bits_safe (pending : bool) (format : bytes) : bool :=
  match format with
  | [] => true
  | p :: format =>
      match fmt_of p with
      | None => false
      | Some FBit => bits_safe true format
      | Some FBytes | Some FTimestamp => negb pending && bits_safe false format
      | Some _ => bits_safe false format
      end
  end.

(** An argument that is not a bit, in a safe format: the pending octets are
    written, then the argument. *)
Lemma dumps_other p f val st st' pending format :
  fmt_of p = Some f -> f <> FBit -> ds_ok st -> bits_safe pending (p :: format) = true ->
  (pending = false -> ds_bits st = []) -> dumps_arg p val st = Ok st' ->
  exists bs, dumps_bytes f val = Ok bs /\
    st' = DumpState 0 [] (ds_out st ++ (byte_of_Z <$> ds_bits st) ++ bs) /\
    bits_safe false format = true /\ ((f = FBytes \/ f = FTimestamp) -> ds_bits st = []).
Proof.
  intros Hp Hf Hok Hs Hpend H. unfold dumps_arg in H. cbn [bits_safe] in Hs.
  rewrite Hp in H, Hs.
  assert (f = FTimestamp \/ (st ← flushbits st; bs ← dumps_bytes f val; mret (ds_write st bs)) = Ok st')
    as [->|H2] by (destruct f; first [done|by left|by right]).
  - apply andb_true_iff in Hs as [Hpf Hs]. apply negb_true_iff in Hpf.
    specialize (Hpend Hpf). pose proof (ds_ok_empty _ Hok Hpend) as Hc.
    apply bind_ok_inv in H as (bs & Hb & H). unfold mret, result_ret in H. injection H as <-.
    exists bs. split_and!; try done. rewrite Hpend. unfold ds_write. by rewrite Hc, Hpend.
  - rewrite flushbits_ok in H2 by done. cbn [mbind result_bind] in H2.
    apply bind_ok_inv in H2 as (bs & Hb & H2). unfold mret, result_ret in H2. injection H2 as <-.
    exists bs. split_and!; [done| | |].
    + unfold ds_write. cbn. by rewrite <- app_assoc.
    + destruct f; try done; by apply andb_true_iff in Hs as [_ ?].
    + intros [->| ->]; apply andb_true_iff in Hs as [Hpf _]; apply negb_true_iff in Hpf; auto.
Qed.

Lemma bits_safe_bit p pending format :
  fmt_of p = Some FBit -> bits_safe pending (p :: format) = bits_safe true format.
Proof. intros H. cbn. by rewrite H. Qed.

Lemma bits_safe_some p pending format :
  bits_safe pending (p :: format) = true -> exists f, fmt_of p = Some f.
Proof. cbn. destruct (fmt_of p); eauto; done. Qed.

(** The low part of a sum of two parts. *)
Lemma low_part_eq x y c b k :
  0 <= k -> 0 <= c < 2 ^ k -> 0 <= b <= 1 ->
  x mod 2 ^ k + 2 ^ k * (y mod 2) = c + b * 2 ^ k -> x mod 2 ^ k = c /\ y mod 2 = b.
Proof.
  intros Hk Hc Hb H. assert (0 < 2 ^ k) by (apply Z.pow_pos_nonneg; lia).
  pose proof (Z.mod_pos_bound x (2 ^ k) ltac:(lia)).
  pose proof (Z.mod_pos_bound y 2 ltac:(lia)).
  assert (b = 0 \/ b = 1) as [-> | ->] by lia;
    assert (y mod 2 = 0 \/ y mod 2 = 1) as [Hy|Hy] by lia; rewrite Hy in *; lia.
Qed.

(** The pending octets before and after one more bit. *)
Lemma covers_bit st st' b out :
  ds_ok st -> 0 <= b <= 1 ->
  (ds_bitcount st mod 8 = 0 /\ ds_bits st' = ds_bits st ++ [b]) \/
  (ds_bitcount st mod 8 <> 0 /\ exists bs c, ds_bits st = bs ++ [c] /\
     ds_bits st' = bs ++ [c + b * 2 ^ (ds_bitcount st mod 8)]) ->
  ds_bitcount st' = ds_bitcount st + 1 ->
  covers st' out -> covers st out.
Proof.
  intros [Ho He Hc Hl] Hb Hbits Hcnt. unfold covers. rewrite Hcnt.
  pose proof (last_fill_cases _ Hc) as Hf. cbn zeta in Hf.
  destruct Hbits as [(Hk & ->)|(Hk & bs & c & Hbs & ->)]; rewrite rev_app_distr; cbn [rev app].
  - intros (o & rest & -> & _). rewrite rev_involutive.
    destruct (ds_bits st) as [|l bs _] eqn:Hds using rev_ind; [done|].
    rewrite rev_app_distr. cbn. rewrite rev_involutive, fmap_app, <- app_assoc.
    eexists _, _. split; [reflexivity|]. destruct Hf as [(_ & -> & _)|]; [|lia].
    apply Forall_app in Ho as [_ Hl2]. rewrite Forall_singleton in Hl2.
    rewrite byte_to_of_small by lia. apply Z.mod_small. lia.
  - intros (o & rest & -> & Ho2). rewrite Hbs, rev_app_distr in *. cbn. rewrite rev_involutive in *.
    eexists _, _. split; [reflexivity|].
    destruct Hf as [|(Hk7 & Hfill & Hfill1 & _)]; [lia|].
    specialize (Hl bs c eq_refl). rewrite Hfill in *. rewrite Hfill1 in Ho2.
    rewrite Z.pow_add_r in Ho2 by lia. change (2 ^ 1) with 2 in Ho2.
    rewrite Z.rem_mul_r in Ho2 by lia.
    eapply low_part_eq; [|exact Hl|exact Hb|exact Ho2]. lia.
Qed.

Lemma covers_flush st rest : ds_ok st -> covers st ((byte_of_Z <$> ds_bits st) ++ rest).
Proof.
  intros [_ _ _ Hl]. unfold covers. destruct (ds_bits st) as [|b bs _] eqn:Hb using rev_ind; [done|].
  rewrite rev_app_distr. cbn. rewrite rev_involutive, fmap_app, <- app_assoc.
  eexists _, _. split; [done|]. specialize (Hl bs b eq_refl).
  assert (2 ^ last_fill (ds_bitcount st) <= 2 ^ 8).
  { apply Z.pow_le_mono_r; [lia|]. unfold last_fill. case_if; dlia. }
  rewrite byte_to_of_small by lia. by apply Z.mod_small.
Qed.

(** What [dumps] writes from a state on begins with what is pending. *)
Lemma dumps_loop_covers format values st st' final pending :
  dumps_loop format values st = Ok st' -> flushbits st' = Ok final ->
  ds_ok st -> bits_safe pending format = true -> (pending = false -> ds_bits st = []) ->
  exists out, ds_out final = ds_out st ++ out /\ covers st out.
Proof.
  revert format st pending. induction values as [|val values IH];
    intros format st pending Hd Hfl Hok Hs Hpend; cbn in Hd.
  - unfold mret, result_ret in Hd. injection Hd as <-. rewrite flushbits_ok in Hfl by done.
    injection Hfl as <-. cbn. eexists. split; [done|].
    rewrite <- (app_nil_r (_ <$> _)). by apply covers_flush.
  - destruct format as [|p format]; [done|]. apply bind_ok_inv in Hd as (st1 & H1 & Hd).
    destruct (bits_safe_some _ _ _ Hs) as [f Hp].
    destruct (decide (f = FBit)) as [->|Hf].
    + destruct (dumps_bit _ _ _ _ Hp Hok H1) as (Hok1 & Hout & Hcnt & Hbits).
      rewrite (bits_safe_bit _ _ _ Hp) in Hs.
      destruct (IH _ _ true Hd Hfl Hok1 Hs ltac:(done)) as (out & -> & Hcov).
      exists out. rewrite Hout. split; [done|]. eapply covers_bit; eauto.
      unfold bit_of. case_if; lia.
    + destruct (dumps_other _ _ _ _ _ _ _ Hp Hf Hok Hs Hpend H1) as (bs & _ & -> & Hs' & _).
      destruct (IH _ _ false Hd Hfl (ds_ok_start _) Hs' ltac:(done)) as (out & -> & _). cbn.
      rewrite <- !app_assoc. eexists. split; [done|]. by apply covers_flush.
Qed.

(** ** The round trip of argument lists *)

Fixpoint wire_args (format : bytes) (values : list value) : py (list value) :=
  match format, values with
  | [], [] => mret []
  | p :: format, val :: values =>
      f ← of_option KeyError (fmt_of p);
      w ← wire_arg f val;
      ws ← wire_args format values;
      mret (w :: ws)
  | _, _ => Raise IndexError
  end.

Lemma wire_args_length format vs ws : wire_args format vs = Ok ws -> length ws = length format.
Proof.
  revert vs ws. induction format as [|p format IH]; intros [|v vs] ws; cbn [wire_args]; try done.
  - by intros [= <-].
  - intros H. apply bind_ok_inv in H as (f & _ & H). apply bind_ok_inv in H as (w & _ & H).
    apply bind_ok_inv in H as (ws' & H & Hws). injection Hws as <-. cbn. by rewrite (IH _ _ H).
Qed.

Definition wf_args (format : bytes) (values : list value) : Prop :=
  Forall2 (fun p val => forall f, fmt_of p = Some f -> wf_arg f val) format values.

(** The states of the writer and of the reader that correspond: the reader
    stands after the pending octets and holds the unread part of the last. *)
Definition in_step (buf : bytes) (base : Z) (st : dump_state) (lst : load_state) : Prop :=
  let k := ds_bitcount st mod 8 in
  let pos := base + zlen (ds_out st) + zlen (ds_bits st) in
  ls_offset lst = pos /\
  (k = 0 -> ls_bitcount lst = 0) /\
  (k <> 0 -> ls_bitcount lst = 8 - k /\
     exists o, holds_at buf (pos - 1) [o] /\ ls_bits lst = byte_to_Z o / 2 ^ k).

Lemma land_1 x : Z.land x 1 = x mod 2.
Proof. apply (Z.land_ones x 1). lia. Qed.

Lemma shiftr_1 x : Z.shiftr x 1 = x / 2.
Proof. apply Z.shiftr_div_pow2. lia. Qed.

Lemma bit_value (val : value) : (bit_of val =? 1) = truthy val.
Proof. unfold bit_of. by case_if. Qed.

(** The octet that holds the newest bit, in the buffer of the reader. *)
Lemma covers_last st bs b out buf off :
  ds_bits st = bs ++ [b] -> covers st out -> holds_at buf off out ->
  exists o, holds_at buf (off + zlen (ds_bits st) - 1) [o] /\
    byte_to_Z o mod 2 ^ last_fill (ds_bitcount st) = b.
Proof.
  intros Hb Hcov Hh. unfold covers in Hcov. rewrite Hb, rev_app_distr in Hcov. cbn in Hcov.
  rewrite rev_involutive in Hcov. destruct Hcov as (o & rest & -> & Ho). exists o. split; [|done].
  apply holds_at_app in Hh as [_ Hh]. apply holds_at_cons in Hh as [Hh _].
  rewrite length_fmap in Hh. rewrite Hb, length_app. cbn.
  by replace (off + Z.of_nat (length bs + 1) - 1) with (off + zlen bs) by lia.
Qed.

Lemma holds_at_byte_inj (buf : bytes) off a b : holds_at buf off [a] -> holds_at buf off [b] -> a = b.
Proof. intros [Ha _]%holds_at_lookup [Hb _]%holds_at_lookup. congruence. Qed.

(** One bit argument of [loads] follows one of [dumps]. *)
Lemma loads_bit buf base p val st st' lst out :
  fmt_of p = Some FBit -> ds_ok st -> dumps_arg p val st = Ok st' ->
  in_step buf base st lst -> covers st' out ->
  holds_at buf (base + zlen (ds_out st')) out ->
  exists lst', loads_arg FBit buf lst = Ok (VBool (truthy val), lst') /\ in_step buf base st' lst'.
Proof.
  intros Hp Hok Hd (Hoff & Hz & Hnz) Hcov Hh.
  destruct (dumps_bit _ _ _ _ Hp Hok Hd) as (Hok' & Hout & Hcnt & Hbits).
  rewrite Hout in Hh. pose proof (last_fill_cases _ (ds_ok_count _ Hok)) as Hf. cbn zeta in Hf.
  assert (0 <= bit_of val <= 1) as Hbv by (unfold bit_of; case_if; lia).
  destruct Hbits as [(Hk & Hb')|(Hk & bs & c & Hb & Hb')].
  - destruct (covers_last _ _ _ _ _ _ Hb' Hcov Hh) as (o & Ho & Hbit).
    rewrite Hb', length_app in Ho. cbn [length] in Ho.
    replace (_ - 1) with (ls_offset lst) in Ho by lia.
    destruct Hf as [(_ & _ & Hfill & Hk1)|]; [|lia]. rewrite Hcnt, Hfill in Hbit.
    change (2 ^ 1) with 2 in Hbit.
    eexists. split.
    + unfold loads_arg. rewrite (Hz Hk). cbn [Z.eqb].
      rewrite (holds_at_slice _ _ [o]) by done. py_simpl.
      rewrite land_1, Hbit, bit_value. reflexivity.
    + unfold in_step. rewrite Hcnt, Hk1, Hout, Hb', length_app. cbn [ls_offset ls_bitcount ls_bits length].
      split_and!; [lia|lia|]. intros _. split; [done|]. exists o.
      replace (_ - 1) with (ls_offset lst) by lia. split; [done|]. apply shiftr_1.
  - destruct (Hnz Hk) as (Hbc & o & Ho & Hlb).
    destruct (covers_last _ _ _ _ _ _ Hb' Hcov Hh) as (o' & Ho' & Hbit).
    assert (zlen (ds_bits st') = zlen (ds_bits st)) as Hlen
      by (rewrite Hb, Hb', !length_app; cbn; lia).
    rewrite Hlen in Ho'. pose proof (holds_at_byte_inj _ _ _ _ Ho Ho') as <-.
    destruct Hf as [|(Hk7 & _ & Hfill & Hk1)]; [lia|]. rewrite Hcnt, Hfill in Hbit.
    pose proof (ds_ok_last _ Hok bs c Hb) as Hc.
    set (k := ds_bitcount st mod 8) in *.
    assert (last_fill (ds_bitcount st) = k) as Hlf
      by (unfold last_fill; fold k; by rewrite (proj2 (Z.eqb_neq k 0))).
    rewrite Hlf in Hc. rewrite Z.pow_add_r, Z.rem_mul_r in Hbit by lia. change (2 ^ 1) with 2 in Hbit.
    apply low_part_eq in Hbit as [_ Hbit]; [|lia|done|done].
    eexists. split.
    + unfold loads_arg. rewrite Hbc, (proj2 (Z.eqb_neq (8 - k) 0)) by lia. py_simpl.
      rewrite land_1, Hlb, Hbit, bit_value. reflexivity.
    + unfold in_step. rewrite Hcnt, Hk1, Hout, Hlen. cbn [ls_offset ls_bitcount ls_bits].
      split_and!; [done|case_if; bool_to_prop; lia|].
      case_if; bool_to_prop; [done|]. intros _. split; [lia|]. exists o. split; [done|].
      rewrite shiftr_1, Z.div_div, Z.pow_add_r by lia. done.
Qed.

Lemma in_step_flushed buf base out off :
  off = base + zlen out -> in_step buf base (DumpState 0 [] out) (ls_next off).
Proof. intros ->. unfold in_step. cbn. split_and!; [lia|done|done]. Qed.

Lemma loads_dumps_loop buf base format values st st' final pending lst acc ws :
  dumps_loop format values st = Ok st' -> flushbits st' = Ok final ->
  ds_ok st -> bits_safe pending format = true -> (pending = false -> ds_bits st = []) ->
  wf_args format values -> wire_args format values = Ok ws ->
  holds_at buf base (ds_out final) -> in_step buf base st lst ->
  loads_loop format buf lst acc = Ok (acc ++ ws, base + zlen (ds_out final)).
Proof.
  revert format st pending lst acc ws.
  induction values as [|val values IH]; intros format st pending lst acc ws Hd Hfl Hok Hs Hpend Hwf Hw Hb Hin.
  - destruct format as [|p format]; [|done]. cbn in *. unfold mret, result_ret in *. simplify_eq.
    rewrite flushbits_ok in Hfl by done. simplify_eq. cbn [ds_out].
    rewrite app_nil_r, length_app, length_fmap. destruct Hin as (-> & _). do 2 f_equal. lia.
  - destruct format as [|p format]; [done|]. cbn [dumps_loop] in Hd.
    apply bind_ok_inv in Hd as (st1 & H1 & Hd). apply Forall2_cons in Hwf as [Hwa Hwf].
    destruct (bits_safe_some _ _ _ Hs) as [f Hp]. specialize (Hwa f Hp).
    cbn [wire_args] in Hw. rewrite Hp in Hw. cbn [of_option mbind result_bind] in Hw.
    apply bind_ok_inv in Hw as (w & Hwv & Hw). apply bind_ok_inv in Hw as (ws' & Hws & Hw).
    unfold mret, result_ret in Hw. injection Hw as <-. cbn [loads_loop]. rewrite Hp.
    destruct (decide (f = FBit)) as [->|Hf].
    + destruct (dumps_bit _ _ _ _ Hp Hok H1) as (Hok1 & Hout & _).
      rewrite (bits_safe_bit _ _ _ Hp) in Hs.
      destruct (dumps_loop_covers _ _ _ _ _ true Hd Hfl Hok1 Hs ltac:(done)) as (out & He & Hcov).
      pose proof Hb as Hb1. rewrite He in Hb1. apply holds_at_app in Hb1 as [_ Hb1].
      destruct (loads_bit _ _ _ _ _ _ _ _ Hp Hok H1 Hin Hcov Hb1) as (lst' & -> & Hin').
      cbn [mbind result_bind] in *. unfold wire_arg, mret, result_ret in Hwv. injection Hwv as <-.
      erewrite (IH format st1 true); [by rewrite <- app_assoc|done..].
    + destruct (dumps_other _ _ _ _ _ _ _ Hp Hf Hok Hs Hpend H1) as (bs & Hbs & -> & Hs' & Hnb).
      destruct (dumps_loop_covers _ _ _ _ _ false Hd Hfl (ds_ok_start _) Hs' ltac:(done))
        as (out & He & _). cbn [ds_out] in He.
      pose proof Hb as Hb1. rewrite He, <- !app_assoc in Hb1.
      apply holds_at_app in Hb1 as [_ Hb1]. apply holds_at_app in Hb1 as [_ Hb1].
      apply holds_at_app in Hb1 as [Hb1 _]. rewrite length_fmap in Hb1.
      destruct Hin as (Hoff & Hz & _). rewrite <- Hoff in Hb1.
      rewrite (dumps_bytes_holds _ _ _ _ _ _ Hf Hwa Hbs Hwv Hb1). cbn [mbind result_bind].
      erewrite (IH format _ false); [by rewrite <- app_assoc|done|done|apply ds_ok_start|done..|].
      assert (ls_after f lst (ls_offset lst + zlen bs) =
        ls_after f lst (base + zlen (ds_out st ++ (byte_of_Z <$> ds_bits st) ++ bs))) as ->.
      { f_equal. rewrite !length_app, length_fmap. lia. }
      destruct (decide (f = FBytes)) as [->|Hfb].
      * rewrite Hnb in * by auto. cbn [ls_after].
        pose proof (ds_ok_empty _ Hok (Hnb ltac:(auto))) as Hc.
        unfold in_step. cbn. rewrite Hc in Hz. split_and!; [lia|by auto|done].
      * destruct f; try done; by apply in_step_flushed.
Qed.

(** ** Termination and exceptions of [loads] *)

Lemma read_table_total buf off : 0 <= off -> read_table buf (read_item buf) (read_fuel buf) off <> OutOfFuel.
Proof.
  intros Ho. unfold read_table, read_item, read_fuel. apply bind_fuel_ne; [auto with py_total|].
  intros n Hn. apply read_entries_total; [apply read_item_fuel_progress|lia|].
  intros o Hle. apply read_item_fuel_total. lia.
Qed.

Lemma read_array_total buf off : 0 <= off -> read_array buf (read_item buf) (read_fuel buf) off <> OutOfFuel.
Proof.
  intros Ho. unfold read_array, read_item, read_fuel. apply bind_fuel_ne; [auto with py_total|].
  intros n Hn. apply (read_elements_total buf); [apply read_item_fuel_progress|lia|].
  intros o Hle. apply read_item_fuel_total. lia.
Qed.

Lemma loads_arg_total f buf st : 0 <= ls_offset st -> loads_arg f buf st <> OutOfFuel.
Proof.
  intros Ho. destruct f; unfold loads_arg, loads_num, loads_str, read_str;
    try (total_steps; done).
  - apply bind_fuel_ne; [|by intros [[]]]. case_if; [|done].
    by destruct (slice _ _ _) as [|? []].
  - apply bind_fuel_ne; [by apply read_table_total|]. by intros [].
  - apply bind_fuel_ne; [by apply read_array_total|]. by intros [].
Qed.

Lemma loads_arg_progress f buf st v st' :
  loads_arg f buf st = Ok (v, st') -> ls_offset st <= ls_offset st'.
Proof.
  destruct f; unfold loads_arg, loads_num, loads_str; intros H;
    try (ok_inv; read_bounds; subst; cbn; lia).
  - apply bind_ok_inv in H as ([[bits off] bc] & H1 & H). ok_inv. subst. cbn.
    destruct (_ =? 0); [destruct (slice _ _ _) as [|? []]|]; ok_inv; simplify_eq; lia.
  - ok_inv. read_bounds. subst. cbn.
    match goal with H : read_str _ _ _ = _ |- _ => apply read_str_progress in H end. lia.
  - ok_inv. read_bounds. subst. cbn.
    match goal with H : read_str _ _ _ = _ |- _ => apply read_str_progress in H end. lia.
  - apply bind_ok_inv in H as ([d off] & H1 & H). ok_inv. subst. cbn.
    unfold read_table in H1. ok_inv.
    match goal with H : read_entries _ _ _ _ _ _ = _ |- _ =>
      apply read_entries_progress in H; [lia|apply read_item_fuel_progress] end.
  - apply bind_ok_inv in H as ([d off] & H1 & H). ok_inv. subst. cbn.
    unfold read_array in H1. ok_inv.
    match goal with H : read_elements _ _ _ _ _ = _ |- _ =>
      apply (read_elements_progress buf) in H; [lia|apply read_item_fuel_progress] end.
Qed.

Lemma loads_loop_total format buf st acc :
  0 <= ls_offset st -> loads_loop format buf st acc <> OutOfFuel.
Proof.
  revert st acc. induction format as [|p format IH]; intros st acc Ho; [done|].
  cbn [loads_loop]. destruct (fmt_of p) as [f|]; [|done].
  apply bind_fuel_ne; [by apply loads_arg_total|]. intros [v st'] H%loads_arg_progress.
  apply IH. lia.
Qed.

(** [ord] of an empty slice is the one exception [_read_item] cannot raise. *)
Definition loads_exc (e : exc) : bool :=
  match e with TypeError => true | e => reader_exc e end.

Lemma reader_loads_exc {A} (m : py A) : raises_only reader_exc m -> raises_only loads_exc m.
Proof. destruct m as [|[]|]; done. Qed.

Lemma loads_arg_raises f buf st : raises_only loads_exc (loads_arg f buf st).
Proof.
  destruct f; unfold loads_arg, loads_num, loads_str;
    try (apply reader_loads_exc; error_steps; auto using read_str_raises, fromtimestamp_raises; done).
  - apply raises_only_bind; [|by intros [[]]]. case_if; [|done].
    by destruct (slice _ _ _) as [|? []].
  - apply reader_loads_exc. apply raises_only_bind; [|by intros []].
    unfold read_table. error_steps. apply read_entries_raises, read_item_fuel_raises.
  - apply reader_loads_exc. apply raises_only_bind; [|by intros []].
    unfold read_array. error_steps. apply read_elements_raises, read_item_fuel_raises.
Qed.

Lemma loads_loop_raises format buf st acc : raises_only loads_exc (loads_loop format buf st acc).
Proof.
  revert st acc. induction format as [|p format IH]; intros st acc; [done|].
  cbn [loads_loop]. destruct (fmt_of p) as [f|]; [|done].
  apply raises_only_bind; [apply loads_arg_raises|]. intros [] _. apply IH.
Qed.

(** ** Properties *)

Lemma loads_dumps_holds format values out ws pre post :
  bits_safe false format = true -> wf_args format values ->
  wire_args format values = Ok ws -> dumps format values = Ok out ->
  loads format (pre ++ out ++ post) (zlen pre) = Ok (ws, zlen pre + zlen out).
Proof.
  intros Hs Hwf Hw Hd. unfold dumps in Hd.
  apply bind_ok_inv in Hd as (st & Hl & Hd). apply bind_ok_inv in Hd as (final & Hf & Hd).
  unfold mret, result_ret in Hd. injection Hd as <-.
  eapply (loads_dumps_loop _ _ _ _ _ _ _ false _ []);
    [done..|apply ds_ok_start|done|done|done|done|apply holds_at_mid|].
  apply in_step_flushed. cbn. lia.
Qed.

(** C26: [loads] reads back, at any place of any buffer, the arguments that
    [dumps] wrote by the same format, each as its wire form, and stops at the
    end of the bytes.  Bits are included: they are packed into octets by one
    function and unpacked by the other in step.  The formats have no byte array
    and no timestamp behind a bit ([bits_safe]), where the two functions are out
    of step; those of the library are such. *)
Theorem loads_dumps format values out ws pre post :
  bits_safe false format = true -> wf_args format values ->
  wire_args format values = Ok ws -> dumps format values = Ok out ->
  loads format (pre ++ out ++ post) (zlen pre) = Ok (ws, zlen pre + zlen out).
Proof. apply loads_dumps_holds. Qed.

(** The arguments of [Exchange.Declare], the longest signature with bits. *)
Definition declare_args : list value :=
  [VInt 0; VStr (str_of "ex"); VStr (str_of "topic"); VBool false; VBool true; VBool true;
   VBool false; VBool true; VDict [(KStr (str_of "x"), VInt 7)]].

Lemma loads_dumps_witness :
  loads (bytes_of "BssbbbbbF") ([] ++ ok_or [] (dumps (bytes_of "BssbbbbbF") declare_args) ++ []) 0 =
    Ok (declare_args, 0 + zlen (ok_or [] (dumps (bytes_of "BssbbbbbF") declare_args))).
Proof.
  apply (loads_dumps _ declare_args _ _ [] []).
  - reflexivity.
  - unfold wf_args. repeat constructor; intros f [= <-]; try exact I.
    intros d [= <-]. cbn. unfold code_point. solve_wf.
  - vm_compute. reflexivity.
  - vm_compute. reflexivity.
Defined.

(** [loads] ends on every buffer and format, and raises only the
    exceptions of [_read_item] or the [TypeError] of reading a bit beyond the
    end of the buffer. *)
Theorem loads_terminates format buf offset :
  0 <= offset ->
  match loads format buf offset with
  | Ok (_, offset') => offset <= offset'
  | Raise e => loads_exc e = true
  | OutOfFuel => False
  end.
Proof.
  intros Ho. unfold loads.
  pose proof (loads_loop_total format buf (ls_next offset) [] Ho) as Ht.
  pose proof (loads_loop_raises format buf (ls_next offset) []) as He.
  destruct (loads_loop format buf (ls_next offset) []) as [[vs off]|e|] eqn:Hl; [|done..].
  clear Ht He. change offset with (ls_offset (ls_next offset)).
  revert Hl. generalize (ls_next offset) as st, (@nil value) as acc.
  induction format as [|p format IH]; intros st acc; cbn [loads_loop].
  - unfold mret, result_ret. intros; simplify_eq. lia.
  - destruct (fmt_of p); [|done]. intros H. apply bind_ok_inv in H as ([v st'] & H1 & H).
    apply loads_arg_progress in H1. apply IH in H. lia.
Qed.

Lemma loads_terminates_witness :
  0 <= 3 /\ loads_exc TypeError = true /\
  match loads (bytes_of "b") [] 3 with
  | Ok (_, offset') => 3 <= offset' | Raise e => loads_exc e = true | OutOfFuel => False
  end.
Proof. split_and!; [lia|done|]. apply (loads_terminates (bytes_of "b") [] 3). lia. Defined.

(** A timestamp that follows a bit is written before it, since the ['T']
    branch of [dumps] does not flush the pending bits. *)
Theorem dumps_timestamp_before_bit val dt t :
  timegm_utc dt = Ok t -> 0 <= t ->
  dumps (bytes_of "bT") [val; VDatetime dt] = Ok (be_encode 8 t ++ [byte_of_Z (bit_of val)]).
Proof.
  intros Ht Hpos. change (bytes_of "bT") with (["b"; "T"]%byte). unfold dumps.
  cbn [dumps_loop]. unfold dumps_arg at 1 2. cbn [fmt_of dumps_bytes].
  pose proof (timegm_utc_ok _ _ Ht) as [_ Hr]. rewrite Ht. py_simpl.
  unfold MAX_SECONDS in Hr. rewrite pack_u_in_range by (change (256 ^ Z.of_nat 8) with (2 ^ 64); lia).
  unfold bit_of. by destruct (truthy val).
Qed.

Lemma dumps_timestamp_before_bit_witness :
  dumps (bytes_of "bT") [VBool true; VDatetime (Datetime 1970 1 1 0 0 1 0 None)] =
    Ok (be_encode 8 1 ++ [byte_of_Z 1]) /\
  loads (bytes_of "bT") (be_encode 8 1 ++ [byte_of_Z 1]) 0 =
    Ok ([VBool false; VDatetime (Datetime 1970 1 1 0 4 17 0 None)], 9).
Proof.
  split; [|vm_compute; reflexivity].
  apply (dumps_timestamp_before_bit (VBool true) (Datetime 1970 1 1 0 0 1 0 None) 1);
    [vm_compute; reflexivity|lia].
Defined.

(** A bit that follows a byte array that follows a bit is lost: [dumps]
    starts a new octet for it, while [loads], whose ['x'] branch keeps
    [bitcount], reads it from the first octet as false. *)
Theorem loads_bit_after_bytes a b c out :
  dumps (bytes_of "bxb") [VBool a; VBytes b; VBool c] = Ok out ->
  zlen out = 6 + zlen b /\
  loads (bytes_of "bxb") out 0 = Ok ([VBool a; VBytes b; VBool false], 5 + zlen b).
Proof.
  intros H.
  assert (dumps (bytes_of "bxb") [VBool a; VBytes b; VBool c] =
    (n ← pack_u 4 (zlen b);
     mret ([byte_of_Z (Z.b2z a)] ++ n ++ b ++ [byte_of_Z (Z.b2z c)]))) as Heq.
  { change (bytes_of "bxb") with (["b"; "x"; "b"]%byte). unfold dumps. cbn [dumps_loop].
    unfold dumps_arg. cbn [fmt_of].
    assert (dumps_bytes FBytes (VBytes b) = (n ← pack_u 4 (zlen b); mret (n ++ b))) as ->.
    { unfold dumps_bytes, dumps_str, val_or. by destruct b. }
    destruct (pack_u 4 (zlen b)) as [n| |]; [|by destruct a, c..].
    py_simpl. rewrite (app_assoc n b). generalize (n ++ b) as nb. intros nb.
    by destruct a, c. }
  rewrite Heq in H. apply bind_ok_inv in H as (n & Hn & H).
  unfold mret, result_ret in H. injection H as <-.
  pose proof (pack_u_length _ _ _ Hn) as Hl. split; [cbn; rewrite !length_app, Hl; cbn; lia|].
  match goal with |- loads _ ?l 0 = _ => set (buf := l) end.
  pose proof (holds_at_whole buf) as Hb. unfold buf at 2 in Hb. apply holds_at_cons in Hb as [H0 Hb].
  apply holds_at_app in Hb as [H1 Hb]. apply holds_at_app in Hb as [H2 _].
  rewrite Hl in H2. change (0 + 1) with 1 in *.
  change (1 + Z.of_nat 4) with 5 in H2. clearbody buf.
  change (bytes_of "bxb") with (["b"; "x"; "b"]%byte). unfold loads. cbn [loads_loop fmt_of].
  cbn [loads_arg ls_offset ls_next ls_bitcount ls_bits Z.eqb].
  rewrite (holds_at_slice _ _ _ _ H0) by done. py_simpl.
  cbn [ls_offset ls_bitcount ls_bits]. change (0 + 1) with 1.
  rewrite (unpack_pack_u _ _ _ _ _ H1 Hn). py_simpl. change (1 + 4) with 5.
  rewrite (holds_at_slice _ _ _ _ H2) by done. by destruct a.
Qed.

Lemma loads_bit_after_bytes_witness :
  let out := ok_or [] (dumps (bytes_of "bxb") [VBool true; VBytes (bytes_of "hi"); VBool true]) in
  zlen out = 6 + zlen (bytes_of "hi") /\
  loads (bytes_of "bxb") out 0 = Ok ([VBool true; VBytes (bytes_of "hi"); VBool false], 5 + 2).
Proof. apply (loads_bit_after_bytes true (bytes_of "hi") true). vm_compute. reflexivity. Defined.
