(* ===== verification/Typing.v ===== *)
(** * The types of what is read

    [loads] is driven by the format of the method, but the bytes are those of
    the peer: whatever they are, every value it returns has the type that its
    format character stands for, down to the values nested in tables. *)

From S2P Require Import Prelude Exceptions Struct Utf8 Datetime Values Table Codec.

Open Scope Z_scope.

(** ** Types *)

(** The values that [_read_item] can make: numbers of at most 64 bits, finite
    decimals with the scale of an octet, Unicode strings, naive datetimes
    without microseconds, and containers of such values; the keys of a [dict]
    are distinct strings. *)
Definition table_decimal (d : decimal) : Prop :=
  match d with Dec _ ds e => Forall (fun x => 0 <= x <= 9) ds /\ -255 <= e <= 0 | _ => False end.

Definition table_datetime (dt : datetime) : Prop :=
  valid_datetime dt /\ dt_utcoffset dt = None /\ dt_microsecond dt = 0.

Definition table_key (k : dict_key) : Prop :=
  match k with KStr s => wf_str s | KBytes _ => False end.

Fixpoint table_value (v : value) : Prop :=
  match v with
  | VNone | VBool _ | VBytes _ => True
  | VInt z => - 2 ^ 63 <= z < 2 ^ 64
  | VFloat b => 0 <= b < 2 ^ 64
  | VDecimal d => table_decimal d
  | VStr s => wf_str s
  | VDatetime dt => table_datetime dt
  | VDict d =>
      NoDup d.*1 /\
      (fix go d := match d with [] => True | (k, x) :: d => table_key k /\ table_value x /\ go d end) d
  | VList l => (fix go l := match l with [] => True | x :: l => table_value x /\ go l end) l
  | VTuple _ | VObject => False
  end.

Lemma table_value_dict d :
  table_value (VDict d) <-> NoDup d.*1 /\ Forall (fun p => table_key p.1 /\ table_value p.2) d.
Proof.
  cbn. apply and_iff_compat_l. induction d as [|[k x] d IH]; [by rewrite Forall_nil|].
  rewrite Forall_cons, <- IH. cbn. tauto.
Qed.

Lemma table_value_list l : table_value (VList l) <-> Forall table_value l.
Proof. cbn. induction l as [|x l IH]; [by rewrite Forall_nil|]. by rewrite Forall_cons, <- IH. Qed.

(** The values of a format character. *)
Definition arg_type (f : fmt) (v : value) : Prop :=
  match f, v with
  | FBit, VBool _ => True
  | FOctet, VInt z => 0 <= z < 2 ^ 8
  | FShort, VInt z => 0 <= z < 2 ^ 16
  | FLong, VInt z => 0 <= z < 2 ^ 32
  | FLongLong, VInt z => 0 <= z < 2 ^ 64
  | FFloat, VFloat b => 0 <= b < 2 ^ 64
  | (FShortStr | FLongStr), VStr s => wf_str s
  | FBytes, VBytes _ => True
  | FTable, VDict d => table_value (VDict d)
  | FArray, VList l => table_value (VList l)
  | FTimestamp, VDatetime dt => table_datetime dt
  | _, _ => False
  end.

(** What the types of Python and the keys guarantee follows. *)
Lemma table_value_wf v : table_value v -> wf_value v /\ keys_decode v.
Proof.
  induction v as [| | | |d| | |dt|d IH|l IH|l IH|] using value_ind; try done.
  - destruct d; by intros [].
  - by intros [].
  - intros [_ Hd]%table_value_dict. rewrite wf_value_dict, keys_decode_dict, !Forall_forall in *.
    split; intros p Hp; destruct (Hd p Hp) as [Hk Hv]; destruct (IH p Hp Hv); destruct p as [[] ?]; done.
  - intros Hl%table_value_list. rewrite wf_value_list, keys_decode_list, !Forall_forall in *.
    split; intros x Hx; by destruct (IH x Hx (Hl x Hx)).
Qed.

(** ** Scalars *)

Lemma days_before_year_next y :
  1 <= y <= 400 -> days_before_year (y + 1) = days_before_year y + 365 + (if is_leap y then 1 else 0).
Proof.
  intros Hy. apply Z.eqb_eq.
  apply (all_below_spec 400 1 (fun y => days_before_year (y + 1) =? days_before_year y + 365 + (if is_leap y then 1 else 0)));
    [vm_compute; reflexivity|lia].
Qed.

(** The year of a day of the 400-year cycle. *)
Lemma year_of r m :
  (m <= 400)%nat -> 1 <= r <= days_before_year (Z.of_nat m + 1) ->
  exists y n, 1 <= y <= Z.of_nat m /\ r = days_before_year y + n + 1 /\ 0 <= n <= 364 + (if is_leap y then 1 else 0).
Proof.
  induction m as [|m IH]; intros Hm Hr; [change (days_before_year (Z.of_nat 0 + 1)) with 0 in Hr; lia|].
  destruct (decide (r <= days_before_year (Z.of_nat m + 1))) as [Hle|Hgt].
  - destruct IH as (y & n & ? & ? & ?); [lia|lia|]. exists y, n. split_and!; lia.
  - replace (Z.of_nat (S m) + 1) with (Z.of_nat m + 1 + 1) in Hr by lia.
    rewrite days_before_year_next in Hr by lia.
    exists (Z.of_nat m + 1), (r - days_before_year (Z.of_nat m + 1) - 1). split_and!; lia.
Qed.

Lemma month_day_valid_check leap :
  all_below 365 0 (fun n => let '(m, d) := month_day leap n in
    (1 <=? m) && (m <=? 12) && (1 <=? d) && (d <=? month_offset leap (m + 1) - month_offset leap m)) = true.
Proof. by destruct leap; vm_compute. Qed.

Lemma ord2ymd_cycle_valid r :
  1 <= r <= 146097 ->
  exists y n m d, r = days_before_year y + n + 1 /\ 0 <= n <= 364 + (if is_leap y then 1 else 0) /\
    ord2ymd r = (y, m, d) /\ valid_date y m d = true /\ 1 <= y <= 400.
Proof.
  intros Hr. destruct (year_of r 400) as (y & n & Hy & Hr' & Hn); [lia|done|]. rewrite Hr'.
  destruct (ord2ymd_cycle ((y - 1) / 100) ((y - 1) mod 100 / 4) ((y - 1) mod 4) n) as [_ Ho]; [dlia..| |].
  { by replace (100 * _ + _ + _ + 1) with y by dlia. }
  replace (100 * _ + _ + _ + 1) with y in Ho by dlia.
  unfold valid_date, days_in_month, days_before_month. destruct (n =? 365) eqn:En; bool_to_prop.
  - exists y, n, 12, 31. split_and!; try done; try lia. by destruct (is_leap y).
  - pose proof (all_below_spec _ _ _ n (month_day_valid_check (is_leap y))) as H. cbv beta in H.
    destruct (month_day (is_leap y) n) as [m d]. exists y, n, m, d. split_and!; try done; try lia.
    apply H. destruct (is_leap y); lia.
Qed.

Lemma ord2ymd_valid n :
  1 <= n <= 3652059 -> let '(y, m, d) := ord2ymd n in valid_date y m d = true /\ 1 <= y <= 9999.
Proof.
  intros Hn. pose proof (Z.div_mod (n - 1) 146097 ltac:(lia)) as Hdm.
  pose proof (Z.mod_pos_bound (n - 1) 146097 ltac:(lia)) as Hr.
  set (k := (n - 1) / 146097) in *. set (r := (n - 1) mod 146097) in *.
  assert (0 <= k <= 24) as Hk by lia. replace n with ((r + 1) + 146097 * k) in * by lia. clearbody k r.
  rewrite ord2ymd_shift. destruct (ord2ymd_cycle_valid (r + 1)) as (y & i & m & d & Hi & Hib & -> & Hv & Hy); [lia|].
  split.
  - unfold valid_date, days_in_month in *. by rewrite !days_before_month_shift.
  - split; [lia|]. destruct (decide (k = 24 /\ y = 400)) as [[-> ->]|]; [|lia].
    exfalso. assert (days_before_year 400 = 145731) as E by done. rewrite E in Hi. lia.
Qed.

Lemma datetime_at_valid t : 0 <= t <= MAX_SECONDS -> table_datetime (datetime_at t).
Proof.
  intros Ht. unfold MAX_SECONDS in Ht. unfold datetime_at, EPOCH_ORD.
  assert (1 <= t / 86400 + 719163 <= 3652059) as Hn by dlia.
  pose proof (ord2ymd_valid _ Hn) as H. destruct (ord2ymd _) as [[y m] d]. destruct H as [Hv Hy].
  split; [|done]. unfold valid_datetime. cbn. split_and!; try done; dlia.
Qed.

Lemma digits_of_digits n : 0 <= n -> Forall (fun x => 0 <= x <= 9) (digits_of n).
Proof.
  intros Hn. unfold digits_of. generalize (S (Z.to_nat (Z.log2 n))). intros fuel.
  revert n Hn. induction fuel as [|fuel IH]; intros n Hn; cbn [digits_fuel]; [constructor|].
  case_if; bool_to_prop; [repeat constructor; lia|].
  apply Forall_app. split; [apply IH; dlia|]. repeat constructor; dlia.
Qed.

Lemma strip_zeros_nonneg d n : 0 <= n -> 0 <= (strip_zeros d n).1.
Proof. revert n. induction d as [|d IH]; intros n Hn; cbn; [done|]. case_if; [apply IH; dlia|done]. Qed.

Lemma decimal_div_pow10_typed n d : (d <= 255)%nat -> table_decimal (decimal_div_pow10 n d).
Proof.
  intros Hd. unfold decimal_div_pow10. pose proof (strip_zeros_nonneg d (Z.abs n) ltac:(lia)) as Hc.
  destruct (strip_zeros d (Z.abs n)) as [c e] eqn:Hs. apply strip_zeros_spec in Hs as [He _]. cbn in Hc.
  split; [by apply digits_of_digits|lia].
Qed.

Lemma f64_signed_range s mag : 0 <= mag < 2 ^ 63 -> 0 <= f64_signed s mag < 2 ^ 64.
Proof. unfold f64_signed, F64_SIGN. destruct s; lia. Qed.

Lemma f64_of_ratio_range s num den : 0 <= num -> 0 <= den -> 0 <= f64_of_ratio s num den < 2 ^ 64.
Proof.
  intros Hn Hd. unfold f64_of_ratio. apply f64_signed_range. case_if; [lia|].
  pose proof (float_bits_nonneg 53 (-1074) num den ltac:(lia) Hn Hd). unfold F64_INF. lia.
Qed.

Lemma f64_of_f32_range b : 0 <= f64_of_f32 b < 2 ^ 64.
Proof.
  unfold f64_of_f32. cbv zeta. pose proof (Z.mod_pos_bound b (2 ^ 23) ltac:(lia)) as Hm.
  pose proof (Z.mod_pos_bound (b / 2 ^ 23) 256 ltac:(lia)) as He.
  set (m := b mod 2 ^ 23) in *. set (e := b / 2 ^ 23 mod 256) in *. destruct (e =? 255) eqn:E1; bool_to_prop.
  - apply f64_signed_range. case_if; [by unfold F64_INF; lia|]. apply lor_bound; [lia|by unfold F64_NAN, F64_INF; lia|lia].
  - destruct (e =? 0) eqn:E0; bool_to_prop; [apply f64_of_ratio_range; lia|]. apply f64_signed_range. lia.
Qed.

(** ** Items *)

Lemma fromtimestamp_typed t dt : 0 <= t -> fromtimestamp t = Ok dt -> table_datetime dt.
Proof.
  intros Ht. unfold fromtimestamp. repeat case_if; intros; simplify_eq. bool_to_prop. by apply datetime_at_valid.
Qed.

Lemma bytes_to_str_typed bs s : bytes_to_str bs = Ok s -> wf_str s.
Proof. apply utf8_encode_decode. Qed.

Lemma read_str_typed buf off slen s off' : read_str buf off slen = Ok (s, off') -> wf_str s.
Proof. unfold read_str. intros H. ok_inv. simplify_eq. by eapply bytes_to_str_typed. Qed.

Lemma unpack_s_int n buf off z :
  (1 <= n <= 8)%nat -> unpack_s n buf off = Ok z -> - 2 ^ 63 <= z < 2 ^ 63.
Proof.
  intros Hn. unfold unpack_s. destruct (unpack_u n buf off) as [u|e|] eqn:Hu; [|done..]. intros [= <-].
  apply unpack_u_range in Hu. unfold to_signed.
  assert (256 ^ Z.of_nat n <= 256 ^ 8) as Hle by (apply Z.pow_le_mono_r; lia).
  assert (256 ^ Z.of_nat n = 2 * (128 * 256 ^ (Z.of_nat n - 1))) as Hp.
  { replace (Z.of_nat n) with (Z.succ (Z.of_nat n - 1)) at 1 by lia. rewrite Z.pow_succ_r by lia. lia. }
  change (256 ^ 8) with (2 ^ 64) in Hle. rewrite Hp in *. set (q := 128 * _) in *. clearbody q. clear Hp.
  rewrite (Z.mul_comm 2 q), Z.div_mul by lia. case_if; bool_to_prop; lia.
Qed.

Lemma unpack_u_int n buf off z : (n <= 8)%nat -> unpack_u n buf off = Ok z -> - 2 ^ 63 <= z < 2 ^ 64.
Proof.
  intros Hn H%unpack_u_range. assert (256 ^ Z.of_nat n <= 256 ^ 8) by (apply Z.pow_le_mono_r; lia).
  change (256 ^ 8) with (2 ^ 64) in *. lia.
Qed.

(** Every type octet gives a value of the table types. *)
Lemma read_scalar_typed t buf off v off' : read_scalar t buf off = Ok (v, off') -> table_value v.
Proof.
  destruct t; unfold read_scalar, read_num; intros H; ok_inv; subst; cbn [table_value]; try done;
    try (match goal with H : unpack_u _ _ _ = Ok ?z |- _ <= ?z < _ => apply unpack_u_int in H; lia end);
    try (match goal with H : unpack_s _ _ _ = Ok ?z |- _ <= ?z < _ => apply unpack_s_int in H; lia end);
    try (by apply f64_of_f32_range).
  - destruct (utf8_decode_opt _) as [s|] eqn:Hs; [|done]. cbn [table_value].
    eapply bytes_to_str_typed. unfold bytes_to_str. by rewrite Hs.
  - by eapply read_str_typed.
  - match goal with H : unpack_u 8 _ _ = _ |- _ => apply unpack_u_range in H; cbn in *; lia end.
  - apply decimal_div_pow10_typed. match goal with H : unpack_u 1 _ _ = _ |- _ => apply unpack_u_range in H end.
    cbn in *. lia.
  - eapply fromtimestamp_typed; [|done]. match goal with H : unpack_u 8 _ _ = _ |- _ => apply unpack_u_range in H; lia end.
Qed.

Section containers.
Context (buf : bytes) (item : Z -> py (value * Z)).
Hypothesis item_typed : forall off v off', item off = Ok (v, off') -> table_value v.

Lemma read_entries_typed fuel limit off acc d off' :
  read_entries buf item fuel limit off acc = Ok (d, off') -> table_value (VDict acc) -> table_value (VDict d).
Proof.
  revert off acc. induction fuel as [|fuel IH]; intros off acc; cbn [read_entries];
    (case_if; [|intros; ok_inv; by subst]); [done|].
  intros H Hacc. apply bind_ok_inv in H as ([k o] & Hk & H). apply bind_ok_inv in H as ([v o'] & Hv & H).
  apply IH in H; [done|]. rewrite table_value_dict in *. destruct Hacc as [Hnd Hall].
  unfold read_key in Hk. ok_inv. subst. match goal with H : read_str _ _ _ = _ |- _ => apply read_str_typed in H end.
  split; [by apply dict_set_nodup|]. apply dict_set_Forall; [done|]. split; [done|by eapply item_typed].
Qed.
End containers.

(** ** Arguments *)

Lemma read_elements_typed (item : Z -> py (value * Z)) fuel limit off acc l off' :
  (forall off v off', item off = Ok (v, off') -> table_value v) ->
  read_elements item fuel limit off acc = Ok (l, off') -> table_value (VList acc) -> table_value (VList l).
Proof.
  intros Hitem. revert off acc. induction fuel as [|fuel IH]; intros off acc; cbn [read_elements];
    (case_if; [|intros; ok_inv; by subst]); [done|].
  intros H Hacc. apply bind_ok_inv in H as ([v o] & Hv & H). apply IH in H; [done|].
  rewrite table_value_list in *. apply Forall_app. split; [done|]. repeat constructor. by eapply Hitem.
Qed.

Lemma read_item_fuel_typed fuel buf off v off' : read_item_fuel fuel buf off = Ok (v, off') -> table_value v.
Proof.
  revert off v off'. induction fuel as [|fuel IH]; intros off v off' H; [done|]. cbn [read_item_fuel] in H.
  apply bind_ok_inv in H as (b & _ & H). destruct (item_type_of b) as [t|]; [|done].
  destruct t; try (by eapply read_scalar_typed); unfold read_table, read_array in H; ok_inv; subst.
  - by eapply read_entries_typed; [exact IH|done|split; [constructor|]].
  - by eapply read_elements_typed; [exact IH|done|].
Qed.

Lemma read_table_typed buf off d off' :
  read_table buf (read_item buf) (read_fuel buf) off = Ok (d, off') -> table_value (VDict d).
Proof.
  unfold read_table. intros H. ok_inv. eapply read_entries_typed; [|done|split; [constructor|done]].
  intros ???. apply read_item_fuel_typed.
Qed.

Lemma read_array_typed buf off l off' :
  read_array buf (read_item buf) (read_fuel buf) off = Ok (l, off') -> table_value (VList l).
Proof.
  unfold read_array. intros H. ok_inv. eapply read_elements_typed; [|done|done].
  intros ???. apply read_item_fuel_typed.
Qed.

Lemma loads_arg_typed f buf st v st' : loads_arg f buf st = Ok (v, st') -> arg_type f v.
Proof.
  intros H. destruct f; unfold loads_arg, loads_num, loads_str in H; try (by ok_inv; subst);
    try (by ok_inv; subst; match goal with H : unpack_u _ _ _ = _ |- _ => apply unpack_u_range in H end).
  - ok_inv. subst. apply f64_of_f32_range.
  - ok_inv. subst. by eapply read_str_typed.
  - ok_inv. subst. by eapply read_str_typed.
  - apply bind_ok_inv in H as ([d off] & H1 & H). ok_inv. subst. by eapply read_table_typed.
  - apply bind_ok_inv in H as ([l off] & H1 & H). ok_inv. subst. by eapply read_array_typed.
  - ok_inv. subst. eapply fromtimestamp_typed; [|done].
    match goal with H : unpack_u 8 _ _ = _ |- _ => apply unpack_u_range in H; lia end.
Qed.

(** Typed arguments can be sent again. *)
Lemma arg_type_wf f v : arg_type f v -> wf_arg f v.
Proof.
  destruct f; try done; destruct v as [| | | | | | | |d|l| |]; try done; cbn [arg_type].
  - intros H d' Hd. apply table_value_wf. unfold val_or in Hd. destruct d; cbn in Hd; by simplify_eq.
  - intros H l' Hl. apply table_value_wf. unfold val_or in Hl. destruct l; cbn in Hl; by simplify_eq.
Qed.

Definition typed (p : byte) (v : value) : Prop := exists f, fmt_of p = Some f /\ arg_type f v.

Lemma loads_loop_typed done_ format buf st acc vs off :
  Forall2 typed done_ acc -> loads_loop format buf st acc = Ok (vs, off) -> Forall2 typed (done_ ++ format) vs.
Proof.
  revert done_ st acc. induction format as [|p format IH]; intros done_ st acc Hacc H; cbn [loads_loop] in H.
  { ok_inv. subst. by rewrite app_nil_r. }
  destruct (fmt_of p) as [f|] eqn:Hf; [|done]. apply bind_ok_inv in H as ([v st'] & Hv & H).
  apply loads_arg_typed in Hv. rewrite (cons_middle p), app_assoc. eapply IH; [|done].
  apply Forall2_app; [done|]. repeat constructor. by exists f.
Qed.

(** C27: what is read is typed by the format.  Whatever the bytes are, when
    [loads] returns it returns one value for each character of the format,
    each of the Python type and in the range of its character (a bit is a
    [bool], a short a number below [2 ** 16], a string is Unicode, a timestamp
    a naive datetime, a table a [dict] with distinct [str] keys whose values
    are numbers of at most 64 bits, decimals, strings and so on to any depth),
    and so values whose encoding would be read back faithfully. *)
Theorem loads_typed format buf offset vs offset' :
  loads format buf offset = Ok (vs, offset') ->
  Forall2 typed format vs /\ wf_args format vs.
Proof.
  intros H. assert (Forall2 typed format vs) as Ht by (by eapply (loads_loop_typed [] format)).
  split; [done|]. unfold wf_args. eapply Forall2_impl; [exact Ht|]. intros p v (f & Hf & Hv) f' Hf'.
  rewrite Hf in Hf'. injection Hf' as <-. by apply arg_type_wf.
Qed.

Lemma loads_typed_witness :
  Forall2 typed (bytes_of "bsF") [VBool true; VStr (str_of "x"); VDict [(KStr (str_of "n"), VInt 7)]] /\
  wf_args (bytes_of "bsF") [VBool true; VStr (str_of "x"); VDict [(KStr (str_of "n"), VInt 7)]].
Proof.
  eapply (loads_typed (bytes_of "bsF")
    (ok_or [] (dumps (bytes_of "bsF") [VBool true; VStr (str_of "x"); VDict [(KStr (str_of "n"), VInt 7)]])) 0).
  vm_compute. reflexivity.
Defined.
