(* ===== verification/Spec.v ===== *)
(** * Protocol constants ([amqp/spec.py], [amqp/protocol.py])

    The method signatures of AMQP 0-9-1, one module per class as in the
    source, and the records [method_t], [queue_declare_ok_t] and
    [basic_return_t]. *)

From S2P Require Import Prelude Exceptions Values.

Open Scope Z_scope.

(** [namedtuple('method_t', ('method_sig', 'args', 'content'))]: how to read
    the arguments of an incoming method, and whether content follows. *)
Record method_t : Type := MethodT {
  m_sig : method_sig;
  m_args : option bytes;
  m_content : bool;
}.

(** [method(method_sig, args=None, content=False)]. *)
Definition method (sig : method_sig) (args : option string) (content : bool) : method_t :=
  MethodT sig (bytes_of <$> args) content.

(** [namedtuple('queue_declare_ok_t', ...)]. *)
Record queue_declare_ok_t : Type := QueueDeclareOk {
  qd_queue : value; qd_message_count : value; qd_consumer_count : value;
}.

Module Connection.
Definition CLASS_ID : Z := 10.
Definition Start : method_sig := (10, 10).
Definition StartOk : method_sig := (10, 11).
Definition Secure : method_sig := (10, 20).
Definition SecureOk : method_sig := (10, 21).
Definition Tune : method_sig := (10, 30).
Definition TuneOk : method_sig := (10, 31).
Definition Open : method_sig := (10, 40).
Definition OpenOk : method_sig := (10, 41).
Definition Close : method_sig := (10, 50).
Definition CloseOk : method_sig := (10, 51).
Definition Blocked : method_sig := (10, 60).
Definition Unblocked : method_sig := (10, 61).
End Connection.

Module Channel.
Definition CLASS_ID : Z := 20.
Definition Open : method_sig := (20, 10).
Definition OpenOk : method_sig := (20, 11).
Definition Flow : method_sig := (20, 20).
Definition FlowOk : method_sig := (20, 21).
Definition Close : method_sig := (20, 40).
Definition CloseOk : method_sig := (20, 41).
End Channel.

Module Exchange.
Definition CLASS_ID : Z := 40.
Definition Declare_ : method_sig := (40, 10).
Definition DeclareOk : method_sig := (40, 11).
Definition Delete : method_sig := (40, 20).
Definition DeleteOk : method_sig := (40, 21).
Definition Bind : method_sig := (40, 30).
Definition BindOk : method_sig := (40, 31).
Definition Unbind : method_sig := (40, 40).
Definition UnbindOk : method_sig := (40, 51).
End Exchange.

Module Queue.
Definition CLASS_ID : Z := 50.
Definition Declare_ : method_sig := (50, 10).
Definition DeclareOk : method_sig := (50, 11).
Definition Bind : method_sig := (50, 20).
Definition BindOk : method_sig := (50, 21).
Definition Purge : method_sig := (50, 30).
Definition PurgeOk : method_sig := (50, 31).
Definition Delete : method_sig := (50, 40).
Definition DeleteOk : method_sig := (50, 41).
Definition Unbind : method_sig := (50, 50).
Definition UnbindOk : method_sig := (50, 51).
End Queue.

Module Basic.
Definition CLASS_ID : Z := 60.
Definition Qos : method_sig := (60, 10).
Definition QosOk : method_sig := (60, 11).
Definition Consume : method_sig := (60, 20).
Definition ConsumeOk : method_sig := (60, 21).
Definition Cancel : method_sig := (60, 30).
Definition CancelOk : method_sig := (60, 31).
Definition Publish : method_sig := (60, 40).
Definition Return : method_sig := (60, 50).
Definition Deliver : method_sig := (60, 60).
Definition Get : method_sig := (60, 70).
Definition GetOk : method_sig := (60, 71).
Definition GetEmpty : method_sig := (60, 72).
Definition Ack : method_sig := (60, 80).
Definition Nack : method_sig := (60, 120).
Definition Reject : method_sig := (60, 90).
Definition RecoverAsync : method_sig := (60, 100).
Definition Recover : method_sig := (60, 110).
Definition RecoverOk : method_sig := (60, 111).
End Basic.

Module Confirm.
Definition CLASS_ID : Z := 85.
Definition Select : method_sig := (85, 10).
Definition SelectOk : method_sig := (85, 11).
End Confirm.

Module Tx.
Definition CLASS_ID : Z := 90.
Definition Select : method_sig := (90, 10).
Definition SelectOk : method_sig := (90, 11).
Definition Commit : method_sig := (90, 20).
Definition CommitOk : method_sig := (90, 21).
Definition Rollback : method_sig := (90, 30).
Definition RollbackOk : method_sig := (90, 31).
End Tx.

(** ** Method names *)

(** All the signatures of the module, in its order. *)
Definition all_methods : list method_sig :=
  [ Connection.Start; Connection.StartOk; Connection.Secure; Connection.SecureOk;
    Connection.Tune; Connection.TuneOk; Connection.Open; Connection.OpenOk;
    Connection.Close; Connection.CloseOk; Connection.Blocked; Connection.Unblocked;
    Channel.Open; Channel.OpenOk; Channel.Flow; Channel.FlowOk; Channel.Close; Channel.CloseOk;
    Exchange.Declare_; Exchange.DeclareOk; Exchange.Delete; Exchange.DeleteOk;
    Exchange.Bind; Exchange.BindOk; Exchange.Unbind; Exchange.UnbindOk;
    Queue.Declare_; Queue.DeclareOk; Queue.Bind; Queue.BindOk; Queue.Purge; Queue.PurgeOk;
    Queue.Delete; Queue.DeleteOk; Queue.Unbind; Queue.UnbindOk;
    Basic.Qos; Basic.QosOk; Basic.Consume; Basic.ConsumeOk; Basic.Cancel; Basic.CancelOk;
    Basic.Publish; Basic.Return; Basic.Deliver; Basic.Get; Basic.GetOk; Basic.GetEmpty;
    Basic.Ack; Basic.Nack; Basic.Reject; Basic.RecoverAsync; Basic.Recover; Basic.RecoverOk;
    Confirm.Select; Confirm.SelectOk;
    Tx.Select; Tx.SelectOk; Tx.Commit; Tx.CommitOk; Tx.Rollback; Tx.RollbackOk ].

Definition named (m : method_sig) : bool :=
  match dict_get METHOD_NAME_MAP (inl m) with Some _ => true | None => false end.

(** The signatures are distinct, and [METHOD_NAME_MAP] names all of them
    but three: [Connection.Blocked] and [Connection.Unblocked] have no entry,
    and the entry ["Exchange.unbind_ok"] is under (40, 41) while the signature
    is (40, 51).  Every name is also found under the 32-bit form of its
    signature. *)
Theorem method_names :
  NoDup all_methods /\
  filter (fun m => named m = false) all_methods =
    [Connection.Blocked; Connection.Unblocked; Exchange.UnbindOk] /\
  dict_get METHOD_NAME_MAP (inl (40, 41)) = Some "Exchange.unbind_ok" /\
  Forall (fun m => dict_get METHOD_NAME_MAP (inr (method_id_of m)) =
                   dict_get METHOD_NAME_MAP (inl m)) all_methods.
Proof.
  split_and!.
  - apply (bool_decide_unpack _). vm_compute. exact I.
  - vm_compute. reflexivity.
  - vm_compute. reflexivity.
  - apply (bool_decide_unpack _). vm_compute. exact I.
Qed.
