(* ===== verification/Content.v ===== *)
(** * Message content ([GenericContent] of [amqp/serialization.py], [Message]
    of [amqp/basic_message.py])

    The property list of a content header, written by [_serialize_properties]
    and read by [decode_properties_basic], and the assembly of a message from
    its header and body frames ([inbound_header], [inbound_body]). *)

From S2P Require Import Prelude Exceptions Struct Utf8 Datetime Values Table Codec.
From S2P Require Spec.

Open Scope Z_scope.

(** The [properties] dictionary of a message. *)
Abbreviation props := (list (string * value)).

(** ** Reading *)

(** [slen, = unpack_from('>B', ...); pstr_t(buf[offset:offset + slen])]. *)
Definition prop_shortstr (buf : bytes) (offset : Z) : py (value * Z) :=
  slen ← unpack_u 1 buf offset;
  '(s, offset) ← read_str buf (offset + 1) slen;
  mret (VStr s, offset).

(** [_f, offset = loads('F', buf, offset)], a list of one value. *)
Definition prop_table (buf : bytes) (offset : Z) : py (value * Z) :=
  '(f, offset) ← loads ["F"%byte] buf offset;
  match f with [v] => mret (v, offset) | _ => Raise ValueError end.

Definition prop_octet (buf : bytes) (offset : Z) : py (value * Z) :=
  n ← unpack_u 1 buf offset; mret (VInt n, offset + 1).

Definition prop_longlong (buf : bytes) (offset : Z) : py (value * Z) :=
  n ← unpack_u 8 buf offset; mret (VInt n, offset + 8).

(** [if flags & mask: ... properties[key] = ...]. *)
Definition prop_if (flags mask : Z) (key : string) (read : Z -> py (value * Z))
    (st : props * Z) : py (props * Z) :=
  let '(properties, offset) := st in
  if Z.land flags mask =? 0 then mret st
  else '(v, offset) ← read offset; mret (dict_set properties key v, offset).

Definition decode_properties_basic (buf : bytes) (offset : Z) : py (props * Z) :=
  flags ← unpack_u 2 buf offset;
  let st := ([], offset + 2) in
  st ← prop_if flags 0x8000 "content_type" (prop_shortstr buf) st;
  st ← prop_if flags 0x4000 "content_encoding" (prop_shortstr buf) st;
  st ← prop_if flags 0x2000 "application_headers" (prop_table buf) st;
  st ← prop_if flags 0x1000 "delivery_mode" (prop_octet buf) st;
  st ← prop_if flags 0x0800 "priority" (prop_octet buf) st;
  st ← prop_if flags 0x0400 "correlation_id" (prop_shortstr buf) st;
  st ← prop_if flags 0x0200 "reply_to" (prop_shortstr buf) st;
  st ← prop_if flags 0x0100 "expiration" (prop_shortstr buf) st;
  st ← prop_if flags 0x0080 "message_id" (prop_shortstr buf) st;
  st ← prop_if flags 0x0040 "timestamp" (prop_longlong buf) st;
  st ← prop_if flags 0x0020 "type" (prop_shortstr buf) st;
  st ← prop_if flags 0x0010 "user_id" (prop_shortstr buf) st;
  st ← prop_if flags 0x0008 "app_id" (prop_shortstr buf) st;
  prop_if flags 0x0004 "cluster_id" (prop_shortstr buf) st.

Definition PROPERTY_CLASSES : list (Z * (bytes -> Z -> py (props * Z))) :=
  [(Spec.Basic.CLASS_ID, decode_properties_basic)].

(** ** Writing *)

(** [Message.PROPERTIES]. *)
Definition PROPERTIES : list (string * string) :=
  [ ("content_type", "s"); ("content_encoding", "s"); ("application_headers", "F");
    ("delivery_mode", "o"); ("priority", "o"); ("correlation_id", "s");
    ("reply_to", "s"); ("expiration", "s"); ("message_id", "s"); ("timestamp", "L");
    ("type", "s"); ("user_id", "s"); ("app_id", "s"); ("cluster_id", "s") ].

(** The locals of the loop of [_serialize_properties]. *)
Record ser_state : Type := SerState {
  ss_shift : Z;
  ss_flag_bits : Z;
  ss_flags : list Z;
  ss_format : bytes;
  ss_values : list value;
}.

(** [1 << shift]: a negative shift count raises. *)
Definition py_shiftl (x shift : Z) : py Z :=
  if shift <? 0 then Raise ValueError else Ok (Z.shiftl x shift).

Definition serialize_property (properties : props) (prop : string * string) (st : ser_state)
    : py ser_state :=
  let '(key, proptype) := prop in
  let dec st := SerState (ss_shift st - 1) (ss_flag_bits st) (ss_flags st)
                         (ss_format st) (ss_values st) in
  match dict_get properties key with
  | None | Some VNone => mret (dec st)
  | Some val =>
      let st := if ss_shift st =? 0
                then SerState 15 0 (ss_flags st ++ [ss_flag_bits st]) (ss_format st) (ss_values st)
                else st in
      bit ← py_shiftl 1 (ss_shift st);
      let st := SerState (ss_shift st) (Z.lor (ss_flag_bits st) bit) (ss_flags st)
                         (ss_format st) (ss_values st) in
      mret (dec (if String.eqb proptype "bit" then st
                 else SerState (ss_shift st) (ss_flag_bits st) (ss_flags st)
                        (ss_format st ++ bytes_of proptype) (ss_values st ++ [val])))
  end.

Fixpoint serialize_loop (properties : props) (fields : list (string * string)) (st : ser_state)
    : py ser_state :=
  match fields with
  | [] => mret st
  | prop :: fields => st ← serialize_property properties prop st; serialize_loop properties fields st
  end.

(** [for flag_bits in flags: write(pack('>H', flag_bits))]. *)
Fixpoint pack_flags (flags : list Z) : py bytes :=
  match flags with
  | [] => mret []
  | f :: flags => b ← pack_u 2 f; bs ← pack_flags flags; mret (b ++ bs)
  end.

Definition serialize_properties (fields : list (string * string)) (properties : props) : py bytes :=
  st ← serialize_loop properties fields (SerState 15 0 [] [] []);
  fb ← pack_flags (ss_flags st ++ [ss_flag_bits st]);
  args ← dumps (ss_format st) (ss_values st);
  mret (fb ++ args).

(** ** Messages *)

(** The attributes of a [Message]; [delivery_info] and [channel] are set by
    the channel that delivers it. *)
Record message : Type := Message {
  msg_frame_method : option method_sig;
  msg_frame_args : bytes;
  msg_properties : props;
  msg_pending_chunks : list bytes;
  msg_body_received : Z;
  msg_body_size : Z;
  msg_ready : bool;
  msg_body : value;
  msg_delivery_info : option (list (string * value));
  msg_channel : option Z;
}.

(** [Message(body='', frame_method=None, frame_args=None, **properties)]. *)
Definition new_message (frame_method : option method_sig) (frame_args : bytes)
    (body : value) (properties : props) : message :=
  Message frame_method frame_args properties [] 0 0 false body None None.

(** [__getattr__]: an attribute that is not one of the object. *)
Definition content_getattr (msg : message) (name : string) : py value :=
  if decide (name = "__setstate__") then Raise AttributeError
  else of_option AttributeError (dict_get (msg_properties msg) name).

Definition headers (msg : message) : value := default VNone (dict_get (msg_properties msg) "application_headers").

Definition delivery_tag (msg : message) : py value :=
  match msg_delivery_info msg with
  | None => Raise AttributeError
  | Some info => Ok (default VNone (dict_get info "delivery_tag"))
  end.

(** [__getattr__] looks nowhere else, not in [delivery_info] either. *)
Lemma content_getattr_properties msg name v :
  content_getattr msg name = Ok v -> dict_get (msg_properties msg) name = Some v.
Proof. unfold content_getattr. case_decide; [done|]. destruct (dict_get _ _); [by intros [= ->]|done]. Qed.

(** [_load_properties]. *)
Definition load_properties (msg : message) (class_id : Z) (buf : bytes) (offset : Z)
    : py (message * Z) :=
  decode ← of_option KeyError (dict_get PROPERTY_CLASSES class_id);
  '(ps, offset) ← decode buf offset;
  mret (Message (msg_frame_method msg) (msg_frame_args msg) ps (msg_pending_chunks msg)
          (msg_body_received msg) (msg_body_size msg) (msg_ready msg) (msg_body msg)
          (msg_delivery_info msg) (msg_channel msg), offset).

Definition set_body_size (msg : message) (n : Z) : message :=
  Message (msg_frame_method msg) (msg_frame_args msg) (msg_properties msg)
    (msg_pending_chunks msg) (msg_body_received msg) n (msg_ready msg) (msg_body msg)
    (msg_delivery_info msg) (msg_channel msg).

Definition set_ready (msg : message) : message :=
  Message (msg_frame_method msg) (msg_frame_args msg) (msg_properties msg)
    (msg_pending_chunks msg) (msg_body_received msg) (msg_body_size msg) true (msg_body msg)
    (msg_delivery_info msg) (msg_channel msg).

(** [inbound_header(buf, offset=0)]: the message is mutable, so its state
    after an exception is part of the result.  The returned offset is the one
    before the properties. *)
Definition inbound_header (msg : message) (buf : bytes) (offset : Z) : message * py Z :=
  (* unpack_from('>HxxQ', buf, offset) *)
  match (if offset + 12 <=? zlen buf
         then c ← unpack_u 2 buf offset; n ← unpack_u 8 buf (offset + 4); mret (c, n)
         else Raise StructError) with
  | Ok (class_id, body_size) =>
      let msg := set_body_size msg body_size in
      let offset := offset + 12 in
      match load_properties msg class_id buf offset with
      | Ok (msg, _) =>
          let msg := if msg_body_size msg =? 0 then set_ready msg else msg in
          (msg, Ok offset)
      | Raise e => (msg, Raise e)
      | OutOfFuel => (msg, OutOfFuel)
      end
  | Raise e => (msg, Raise e)
  | OutOfFuel => (msg, OutOfFuel)
  end.

Definition inbound_body (msg : message) (buf : bytes) : message :=
  let chunks := msg_pending_chunks msg in
  let received := msg_body_received msg + zlen buf in
  if msg_body_size msg <=? received then
    let '(chunks, body) :=
      match chunks with
      | [] => ([], VBytes buf)
      | _ => ([], VBytes (concat (chunks ++ [buf])))
      end in
    Message (msg_frame_method msg) (msg_frame_args msg) (msg_properties msg) chunks
      received (msg_body_size msg) true body (msg_delivery_info msg) (msg_channel msg)
  else
    Message (msg_frame_method msg) (msg_frame_args msg) (msg_properties msg) (chunks ++ [buf])
      received (msg_body_size msg) (msg_ready msg) (msg_body msg)
      (msg_delivery_info msg) (msg_channel msg).

Example header_example :
  serialize_properties PROPERTIES
    [("priority", VInt 5); ("content_type", VStr (str_of "a/b")); ("other", VInt 1)] =
  Ok ([byte_of_Z 0x88; byte_of_Z 0; byte_of_Z 3] ++ bytes_of "a/b" ++ [byte_of_Z 5]).
Proof. vm_compute. reflexivity. Qed.

(** ** The property list as a list of fields *)

Definition fmt_of_type (t : string) : fmt :=
  match bytes_of t with [c] => default FBit (fmt_of c) | _ => FBit end.

(** The property types that [decode_properties_basic] reads. *)
Definition prop_fmt (f : fmt) : bool :=
  match f with FShortStr | FTable | FOctet | FLongLong => true | _ => false end.

Definition prop_read (f : fmt) (buf : bytes) : Z -> py (value * Z) :=
  match f with
  | FTable => prop_table buf
  | FOctet => prop_octet buf
  | FLongLong => prop_longlong buf
  | _ => prop_shortstr buf
  end.

Fixpoint decode_fields (buf : bytes) (flags : Z) (fields : list (string * string)) (shift : Z)
    (st : props * Z) : py (props * Z) :=
  match fields with
  | [] => mret st
  | (key, t) :: fields =>
      st ← prop_if flags (2 ^ shift) key (prop_read (fmt_of_type t) buf) st;
      decode_fields buf flags fields (shift - 1) st
  end.

(** The branches of the reader are [Message.PROPERTIES], in order. *)
Lemma decode_properties_fields buf off :
  decode_properties_basic buf off =
    (flags ← unpack_u 2 buf off; decode_fields buf flags PROPERTIES 15 ([], off + 2)).
Proof.
  unfold decode_properties_basic. destruct (unpack_u 2 buf off) as [flags| |]; [|done..].
  cbn [mbind result_bind decode_fields PROPERTIES].
  repeat (match goal with |- ?m ≫= _ = ?m' ≫= _ => change m' with m; destruct m; py_simpl; [|done..] end).
  match goal with |- ?m = ?m' ≫= _ => change m' with m; by destruct m end.
Qed.

Lemma prop_read_loads f buf off :
  prop_fmt f = true ->
  prop_read f buf off = ('(v, st) ← loads_arg f buf (ls_next off); mret (v, ls_offset st)).
Proof.
  destruct f; try done; intros _; unfold prop_read, loads_arg.
  - unfold prop_octet, loads_num. cbn [ls_offset ls_next]. by destruct (unpack_u 1 buf off).
  - unfold prop_longlong, loads_num. cbn [ls_offset ls_next]. by destruct (unpack_u 8 buf off).
  - unfold prop_shortstr, loads_str. cbn [ls_offset ls_next].
    destruct (unpack_u 1 buf off); py_simpl; [|done..]. by destruct (read_str _ _ _) as [[]| |].
  - unfold prop_table, loads. cbn [loads_loop fmt_of]. unfold loads_arg. cbn [ls_offset ls_next].
    by destruct (read_table _ _ _ _) as [[]| |].
Qed.

Lemma prop_read_holds f val out buf off w :
  prop_fmt f = true -> wf_arg f val -> dumps_bytes f val = Ok out -> wire_arg f val = Ok w ->
  holds_at buf off out -> prop_read f buf off = Ok (w, off + zlen out).
Proof.
  intros Hf Hwf Hd Hw Hb. rewrite prop_read_loads by done.
  assert (f <> FBit) by (intros ->; done).
  rewrite (dumps_bytes_holds f val out buf (ls_next off) w) by done. by destruct f.
Qed.

(** The value of a property that is present. *)
Definition present (properties : props) (key : string) : option value :=
  match dict_get properties key with None | Some VNone => None | Some v => Some v end.

(** The bytes of the present properties, and what the peer reads. *)
Fixpoint props_bytes (properties : props) (fields : list (string * string)) : py bytes :=
  match fields with
  | [] => mret []
  | (key, t) :: fields =>
      match present properties key with
      | None => props_bytes properties fields
      | Some v =>
          b ← dumps_bytes (fmt_of_type t) v;
          bs ← props_bytes properties fields;
          mret (b ++ bs)
      end
  end.

Fixpoint wire_props (properties : props) (fields : list (string * string)) : py props :=
  match fields with
  | [] => mret []
  | (key, t) :: fields =>
      match present properties key with
      | None => wire_props properties fields
      | Some v =>
          w ← wire_arg (fmt_of_type t) v;
          ws ← wire_props properties fields;
          mret ((key, w) :: ws)
      end
  end.

(** A property that is sent arrives under its name. *)
Lemma wire_props_lookup properties fields ws key t v :
  NoDup fields.*1 -> (key, t) ∈ fields -> present properties key = Some v ->
  wire_props properties fields = Ok ws ->
  exists w, wire_arg (fmt_of_type t) v = Ok w /\ dict_get ws key = Some w.
Proof.
  intros Hnd Hin Hp. revert ws. induction fields as [|[key' t'] fields IH]; intros ws Hw; [by apply elem_of_nil in Hin|].
  cbn [fmap list_fmap fst] in Hnd. apply NoDup_cons in Hnd as [Hk Hnd]. cbn [wire_props] in Hw.
  apply elem_of_cons in Hin as [[= <- <-]|Hin].
  - rewrite Hp in Hw. apply bind_ok_inv in Hw as (w & Hw & H). apply bind_ok_inv in H as (ws' & _ & H).
    unfold mret, result_ret in H. injection H as <-. exists w. split; [done|]. cbn. by rewrite decide_True.
  - assert (key <> key') as Hne.
    { intros ->. apply Hk. apply list_elem_of_fmap. by exists (key', t). }
    destruct (present properties key'); [|by apply IH].
    apply bind_ok_inv in Hw as (w' & _ & H). apply bind_ok_inv in H as (ws' & Hws & H).
    unfold mret, result_ret in H. injection H as <-. destruct (IH Hnd Hin ws' Hws) as (w & Hw & Hd).
    exists w. split; [done|]. cbn. by rewrite decide_False by congruence.
Qed.

(** Whether flag bit [j] belongs to a present field. *)
Fixpoint flag_bit (properties : props) (fields : list (string * string)) (shift j : Z) : bool :=
  match fields with
  | [] => false
  | (key, _) :: fields =>
      (bool_decide (is_Some (present properties key)) && (j =? shift))
      || flag_bit properties fields (shift - 1) j
  end.

Lemma flag_bit_high properties fields shift j : shift < j -> flag_bit properties fields shift j = false.
Proof.
  revert shift. induction fields as [|[k t] fields IH]; intros shift Hj; [done|]. cbn.
  rewrite (proj2 (Z.eqb_neq j shift)), andb_false_r, IH by lia. done.
Qed.

Lemma land_pow2 a s : 0 <= s -> (Z.land a (2 ^ s) =? 0) = negb (Z.testbit a s).
Proof.
  intros Hs. destruct (Z.testbit a s) eqn:Ht; cbn.
  - apply Z.eqb_neq. intros H. apply (f_equal (fun x => Z.testbit x s)) in H.
    by rewrite Z.land_spec, Ht, Z.pow2_bits_true, Z.bits_0 in H.
  - apply Z.eqb_eq, Z.bits_inj'. intros i Hi. rewrite Z.land_spec, Z.bits_0.
    destruct (decide (i = s)) as [->|]; [by rewrite Ht|].
    rewrite Z.pow2_bits_false by done. apply andb_false_r.
Qed.

Lemma testbit_set_bit a s j : 0 <= s -> Z.testbit (Z.lor a (Z.shiftl 1 s)) j = Z.testbit a j || (j =? s).
Proof.
  intros Hs. rewrite Z.lor_spec, Z.shiftl_1_l. f_equal.
  destruct (Z.eqb_spec j s) as [->|]; [by apply Z.pow2_bits_true|by apply Z.pow2_bits_false].
Qed.

(** A field type is one format character of the reader. *)
Definition field_ok (field : string * string) : Prop :=
  exists c f, bytes_of field.2 = [c] /\ fmt_of c = Some f /\ fmt_of_type field.2 = f /\
    prop_fmt f = true /\ String.eqb field.2 "bit" = false.

Lemma PROPERTIES_ok : Forall field_ok PROPERTIES.
Proof.
  unfold PROPERTIES.
  repeat (apply Forall_cons_2; [eexists _, _; split_and!; reflexivity|]). apply Forall_nil_2.
Qed.

(** The arguments that [_serialize_properties] collects. *)
Fixpoint prop_args (properties : props) (fields : list (string * string)) : bytes * list value :=
  match fields with
  | [] => ([], [])
  | (key, t) :: fields =>
      let '(fs, vs) := prop_args properties fields in
      match present properties key with
      | None => (fs, vs)
      | Some v => (bytes_of t ++ fs, v :: vs)
      end
  end.

(** With at most 15 fields the loop never reaches the continuation bit. *)
Lemma serialize_loop_spec properties fields shift fb fmt vals :
  Forall field_ok fields -> zlen fields <= shift ->
  exists fb', serialize_loop properties fields (SerState shift fb [] fmt vals) =
      Ok (SerState (shift - zlen fields) fb' []
            (fmt ++ (prop_args properties fields).1) (vals ++ (prop_args properties fields).2)) /\
    forall j, Z.testbit fb' j = Z.testbit fb j || flag_bit properties fields shift j.
Proof.
  intros Hok. revert shift fb fmt vals.
  induction Hok as [|[key t] fields (c & f & Hc & Hf & _ & _ & Ht) _ IH];
    intros shift fb fmt vals Hlen.
  - exists fb. cbn. rewrite !app_nil_r, Z.sub_0_r. split; [done|]. intros. by rewrite orb_false_r.
  - cbn [length] in Hlen. cbn [serialize_loop serialize_property prop_args flag_bit].
    destruct (prop_args properties fields) as [fs vs] eqn:Hpa. cbn [fst snd] in *.
    unfold present. destruct (dict_get properties key) as [v|] eqn:Hv.
    + assert (v = VNone \/ v <> VNone) as [->|Hn] by (destruct v; auto; by right).
      * py_simpl. cbn [ss_shift ss_flag_bits ss_flags ss_format ss_values].
        destruct (IH (shift - 1) fb fmt vals) as (fb' & -> & Hfb); [lia|].
        exists fb'. split; [do 2 f_equal; cbn; lia|]. intros j. by rewrite Hfb.
      * assert (match v with VNone => None | _ => Some v end = Some v) as Hp by (by destruct v).
        rewrite Hp. replace (match v with VNone => _ | _ => _ end) with
          (bit ← py_shiftl 1 shift;
           mret (SerState (shift - 1) (Z.lor fb bit) [] (fmt ++ bytes_of t) (vals ++ [v]))).
        2: { cbn [ss_shift]. rewrite (proj2 (Z.eqb_neq shift 0)) by lia.
             cbn in Ht. rewrite Ht. by destruct v. }
        unfold py_shiftl. rewrite (proj2 (Z.ltb_ge _ _)) by lia. py_simpl.
        destruct (IH (shift - 1) (Z.lor fb (Z.shiftl 1 shift)) (fmt ++ bytes_of t) (vals ++ [v]))
          as (fb' & -> & Hfb); [lia|].
        exists fb'. rewrite <- !app_assoc. split; [do 2 f_equal; cbn; lia|].
        intros j. rewrite Hfb, testbit_set_bit by lia. by rewrite orb_assoc.
    + py_simpl. cbn [ss_shift ss_flag_bits ss_flags ss_format ss_values].
      destruct (IH (shift - 1) fb fmt vals) as (fb' & -> & Hfb); [lia|].
      exists fb'. split; [do 2 f_equal; cbn; lia|]. intros j. by rewrite Hfb.
Qed.

Lemma dumps_prop_args properties fields out :
  Forall field_ok fields ->
  dumps_loop (prop_args properties fields).1 (prop_args properties fields).2 (DumpState 0 [] out) =
    (bs ← props_bytes properties fields; mret (DumpState 0 [] (out ++ bs))).
Proof.
  intros Hok. revert out.
  induction Hok as [|[key t] fields (c & f & Hc & Hf & Hft & Hp & _) _ IH]; intros out; cbn.
  - by rewrite app_nil_r.
  - cbn [snd] in *. destruct (prop_args properties fields) as [fs vs]. cbn [fst snd] in IH.
    destruct (present properties key) as [v|]; [|apply IH].
    rewrite Hft, Hc. cbn [dumps_loop app fst snd].
    replace (dumps_arg c v (DumpState 0 [] out))
      with (bs ← dumps_bytes f v; mret (DumpState 0 [] (out ++ bs))).
    2: { unfold dumps_arg. rewrite Hf. destruct f; try discriminate Hp; reflexivity. }
    destruct (dumps_bytes f v) as [b| |]; py_simpl; [|done..].
    rewrite IH. destruct (props_bytes properties fields); py_simpl; [|done..].
    by rewrite app_assoc.
Qed.

(** What [_serialize_properties] writes when the flags fit one word. *)
Lemma serialize_properties_spec fields properties :
  Forall field_ok fields -> zlen fields <= 15 ->
  exists flags, serialize_properties fields properties =
      (fb ← pack_u 2 flags; bs ← props_bytes properties fields; mret (fb ++ bs)) /\
    forall j, Z.testbit flags j = flag_bit properties fields 15 j.
Proof.
  intros Hok Hlen. unfold serialize_properties.
  destruct (serialize_loop_spec properties fields 15 0 [] [] Hok Hlen) as (flags & -> & Hj).
  exists flags. split; [|intros j; by rewrite Hj, Z.bits_0].
  py_simpl. cbn [ss_flags ss_flag_bits ss_format ss_values app pack_flags].
  destruct (pack_u 2 flags); py_simpl; [|done..]. unfold dumps.
  rewrite (dumps_prop_args _ _ [] Hok).
  destruct (props_bytes properties fields) as [bs| |]; py_simpl; try done. by rewrite app_nil_r.
Qed.

(** The tables among the properties are well formed. *)
Definition wf_props (fields : list (string * string)) (properties : props) : Prop :=
  forall key t v, (key, t) ∈ fields -> present properties key = Some v ->
    wf_arg (fmt_of_type t) v.

Lemma NoDup_drop_mid {A} (x : A) l k : NoDup (l ++ x :: k) -> NoDup (l ++ k).
Proof.
  intros (? & Hd & Hk)%NoDup_app. apply NoDup_cons in Hk as [_ Hk]. apply NoDup_app.
  split_and!; [done| |done]. intros y Hy Hy'. apply (Hd y Hy). by right.
Qed.

Lemma decode_fields_holds properties fields flags shift bs buf off ps acc :
  Forall field_ok fields -> wf_props fields properties -> zlen fields <= shift ->
  (forall j, j <= shift -> Z.testbit flags j = flag_bit properties fields shift j) ->
  props_bytes properties fields = Ok bs -> wire_props properties fields = Ok ps ->
  NoDup (acc.*1 ++ fields.*1) -> holds_at buf off bs ->
  decode_fields buf flags fields shift (acc, off) = Ok (acc ++ ps, off + zlen bs).
Proof.
  intros Hok. revert shift bs off ps acc.
  induction Hok as [|[key t] fields (c & f & Hc & Hf & Hft & Hp & _) _ IH];
    intros shift bs off ps acc Hwf Hlen Hflags Hb Hw Hnd Hh; cbn in *.
  { unfold mret, result_ret in *. simplify_eq. cbn. by rewrite app_nil_r, Z.add_0_r. }
  unfold prop_if. rewrite land_pow2, Hflags, Z.eqb_refl, flag_bit_high by lia.
  rewrite andb_true_r, orb_false_r, negb_if.
  assert (wf_props fields properties) as Hwf' by (intros k t' v Hin; apply Hwf; by right).
  assert (forall j, j <= shift - 1 ->
    Z.testbit flags j = flag_bit properties fields (shift - 1) j) as Hflags'.
  { intros j Hj. rewrite Hflags by lia. by rewrite (proj2 (Z.eqb_neq j shift)), andb_false_r by lia. }
  destruct (present properties key) as [v|] eqn:Hv; cbn [is_Some].
  - rewrite bool_decide_eq_true_2 by eauto.
    apply bind_ok_inv in Hb as (b & Hb & H). apply bind_ok_inv in H as (bs' & Hbs & H).
    unfold mret, result_ret in H. injection H as <-.
    apply bind_ok_inv in Hw as (w & Hw & H). apply bind_ok_inv in H as (ws & Hws & H).
    unfold mret, result_ret in H. injection H as <-.
    apply holds_at_app in Hh as [Hh1 Hh2]. cbn [snd] in Hft. rewrite Hft in *.
    assert (wf_arg f v) as Hwfv.
    { rewrite <- Hft. apply (Hwf key t v); [left|done]. }
    rewrite (prop_read_holds f v b buf off w) by done.
    py_simpl.
    rewrite dict_set_keys by
      (intros Hin; apply NoDup_app in Hnd as (_ & Hd & _); apply (Hd key Hin); left).
    rewrite (IH (shift - 1) bs' (off + zlen b) ws (acc ++ [(key, w)]) Hwf' ltac:(lia) Hflags' Hbs Hws).
    + rewrite <- app_assoc, length_app. f_equal; f_equal; lia.
    + rewrite fmap_app. cbn. by rewrite <- app_assoc.
    + done.
  - rewrite bool_decide_eq_false_2 by (intros [? [=]]). py_simpl.
    apply (IH (shift - 1) bs off ps acc Hwf' ltac:(lia) Hflags' Hb Hw); [|done].
    by apply (NoDup_drop_mid key).
Qed.

(** [pack('>HHQ', class_id, 0, body_size)], the start of a content header. *)
Definition pack_header (class_id body_size : Z) : py bytes :=
  c ← pack_u 2 class_id; n ← pack_u 8 body_size;
  mret (c ++ [byte_of_Z 0; byte_of_Z 0] ++ n).

Lemma decode_properties_holds properties out ps buf off :
  wf_props PROPERTIES properties ->
  serialize_properties PROPERTIES properties = Ok out ->
  wire_props properties PROPERTIES = Ok ps ->
  holds_at buf off out ->
  decode_properties_basic buf off = Ok (ps, off + zlen out).
Proof.
  intros Hwf Hs Hw Hb. rewrite decode_properties_fields.
  destruct (serialize_properties_spec PROPERTIES properties PROPERTIES_ok) as (flags & E & Hf);
    [done|].
  rewrite E in Hs. apply bind_ok_inv in Hs as (fb & Hfb & H).
  apply bind_ok_inv in H as (bs & Hbs & H). unfold mret, result_ret in H. injection H as <-.
  apply holds_at_app in Hb as [Hb1 Hb2].
  rewrite (unpack_pack_u _ _ _ _ _ Hb1 Hfb). cbn [mbind result_bind].
  pose proof (pack_u_length _ _ _ Hfb) as Hl. rewrite Hl in Hb2.
  rewrite (decode_fields_holds properties PROPERTIES flags 15 bs buf (off + 2) ps []
    PROPERTIES_ok Hwf ltac:(done) ltac:(auto) Hbs Hw).
  - f_equal. f_equal. rewrite length_app. lia.
  - by apply (bool_decide_unpack _).
  - done.
Qed.

(** C31: the property list that [_serialize_properties] writes is read back by
    [decode_properties_basic], wherever it stands in a frame: each property
    that is present has the value the peer reads for it, in the order of
    [PROPERTIES], the absent and the unknown ones are not there, and the
    reader stops exactly behind the list. *)
Theorem read_write_properties properties out ps pre post :
  wf_props PROPERTIES properties ->
  serialize_properties PROPERTIES properties = Ok out ->
  wire_props properties PROPERTIES = Ok ps ->
  decode_properties_basic (pre ++ out ++ post) (zlen pre) = Ok (ps, zlen pre + zlen out).
Proof. intros. by apply (decode_properties_holds properties), holds_at_mid. Qed.

Definition sample_props : props :=
  [("priority", VInt 5); ("content_type", VStr (str_of "a/b")); ("other", VInt 1);
   ("application_headers", VDict [(KStr (str_of "k"), VBool true)])].

Lemma sample_props_wf : wf_props PROPERTIES sample_props.
Proof.
  intros key t v _ Hp.
  assert (v = VInt 5 \/ v = VStr (str_of "a/b") \/ v = VInt 1 \/
          v = VDict [(KStr (str_of "k"), VBool true)]) as Hv.
  { unfold present, sample_props, dict_get in Hp. repeat case_decide; simplify_eq; eauto. }
  destruct (fmt_of_type t); try done; cbn; intros d Hd;
    destruct Hv as [-> | [-> | [-> | ->]]]; cbn in Hd; simplify_eq;
    split; cbn; unfold code_point; solve_wf.
Defined.

Theorem read_write_properties_witness :
  let out := [byte_of_Z 0xA8; byte_of_Z 0; byte_of_Z 3] ++ bytes_of "a/b" ++
             [byte_of_Z 0; byte_of_Z 0; byte_of_Z 0; byte_of_Z 4; byte_of_Z 1] ++
             bytes_of "kt" ++ [byte_of_Z 1; byte_of_Z 5] in
  decode_properties_basic ([byte_of_Z 0] ++ out ++ [byte_of_Z 7]) 1 =
    Ok ([("content_type", VStr (str_of "a/b"));
         ("application_headers", VDict [(KStr (str_of "k"), VBool true)]);
         ("priority", VInt 5)], 16).
Proof.
  intros out. replace 16 with (1 + zlen out) by reflexivity.
  apply (read_write_properties sample_props out _ [byte_of_Z 0] [byte_of_Z 7]).
  - apply sample_props_wf.
  - vm_compute. reflexivity.
  - vm_compute. reflexivity.
Defined.

(** ** Assembling a message *)

(** The message while its body is still incomplete. *)
Definition collecting (msg : message) (chunks : list bytes) : message :=
  Message (msg_frame_method msg) (msg_frame_args msg) (msg_properties msg)
    (msg_pending_chunks msg ++ chunks) (msg_body_received msg + zlen (concat chunks))
    (msg_body_size msg) (msg_ready msg) (msg_body msg) (msg_delivery_info msg) (msg_channel msg).

(** The message with its body. *)
Definition assembled (msg : message) (received : Z) (body : bytes) : message :=
  Message (msg_frame_method msg) (msg_frame_args msg) (msg_properties msg) [] received
    (msg_body_size msg) true (VBytes body) (msg_delivery_info msg) (msg_channel msg).

Lemma inbound_body_collect msg chunks :
  msg_body_received msg + zlen (concat chunks) < msg_body_size msg ->
  foldl inbound_body msg chunks = collecting msg chunks.
Proof.
  induction chunks as [|c chunks IH] using rev_ind; intros Hlt.
  - unfold collecting. cbn. rewrite app_nil_r, Z.add_0_r. by destruct msg.
  - rewrite concat_app, length_app in *. cbn [concat] in *. rewrite app_nil_r in *.
    rewrite foldl_app. cbn [foldl]. rewrite IH by lia. unfold inbound_body, collecting.
    cbn [msg_body_size msg_body_received msg_pending_chunks].
    rewrite (proj2 (Z.leb_gt _ _)) by lia. cbn.
    rewrite <- app_assoc, concat_app, length_app. cbn [concat]. rewrite app_nil_r. f_equal. lia.
Qed.

Lemma inbound_body_last msg buf :
  msg_body_size msg <= msg_body_received msg + zlen buf ->
  inbound_body msg buf =
    assembled msg (msg_body_received msg + zlen buf) (concat (msg_pending_chunks msg) ++ buf).
Proof.
  intros Hle. unfold inbound_body, assembled. rewrite (proj2 (Z.leb_le _ _)) by done.
  destruct (msg_pending_chunks msg); [done|]. rewrite concat_app. cbn [concat].
  by rewrite app_nil_r.
Qed.

(** C32: a message whose header announced [body_size] octets is not ready
    before that many octets of body frames came in, however they are cut into
    frames, and with the frame that completes it [body] is the concatenation
    of the frames and the chunk list is empty.  The length is not checked: a
    last frame that is too long becomes part of the body. *)
Theorem body_assembled msg chunks buf :
  msg_pending_chunks msg = [] -> msg_body_received msg = 0 -> msg_ready msg = false ->
  zlen (concat chunks) < msg_body_size msg <= zlen (concat chunks) + zlen buf ->
  (forall k, msg_ready (foldl inbound_body msg (take k chunks)) = false) /\
  foldl inbound_body msg (chunks ++ [buf]) =
    assembled msg (zlen (concat chunks) + zlen buf) (concat chunks ++ buf).
Proof.
  intros Hp Hr Hf [Hlt Hle]. split.
  - intros k. rewrite inbound_body_collect; [done|].
    rewrite <- (take_drop k chunks) in Hlt at 1. rewrite concat_app, length_app in Hlt.
    rewrite Hr. lia.
  - rewrite foldl_app. cbn [foldl]. rewrite inbound_body_collect by (rewrite Hr; lia).
    rewrite inbound_body_last; cbn; rewrite Hr; [by rewrite Hp|lia].
Qed.

Theorem body_assembled_witness :
  let msg := set_body_size (new_message None [] (VStr []) []) 5 in
  (forall k, msg_ready (foldl inbound_body msg (take k [bytes_of "ab"; []; bytes_of "c"])) = false) /\
  foldl inbound_body msg ([bytes_of "ab"; []; bytes_of "c"] ++ [bytes_of "def"]) =
    assembled msg 6 (bytes_of "abcdef").
Proof.
  apply (body_assembled (set_body_size (new_message None [] (VStr []) []) 5)
    [bytes_of "ab"; []; bytes_of "c"] (bytes_of "def")); [done..|by cbn].
Defined.

(** A content header frame of class [basic], as [frame_writer] lays it
    out, gives the message its size and its properties; the message is ready
    at once exactly when the size is zero.  The result is the offset of the
    property list. *)
Lemma inbound_header_holds msg body_size properties hdr out ps buf off :
  wf_props PROPERTIES properties ->
  pack_header Spec.Basic.CLASS_ID body_size = Ok hdr ->
  serialize_properties PROPERTIES properties = Ok out ->
  wire_props properties PROPERTIES = Ok ps ->
  holds_at buf off (hdr ++ out) -> msg_ready msg = false ->
  inbound_header msg buf off =
    (Message (msg_frame_method msg) (msg_frame_args msg) ps (msg_pending_chunks msg)
       (msg_body_received msg) body_size (body_size =? 0) (msg_body msg)
       (msg_delivery_info msg) (msg_channel msg), Ok (off + 12)).
Proof.
  intros Hwf Hh Hs Hw Hb Hr. unfold inbound_header. pose proof (holds_at_bound _ _ _ Hb) as Hbd.
  apply bind_ok_inv in Hh as (c & Hc & H). apply bind_ok_inv in H as (n & Hn & H).
  unfold mret, result_ret in H. injection H as <-.
  pose proof (pack_u_length _ _ _ Hc) as Hcl. pose proof (pack_u_length _ _ _ Hn) as Hnl.
  rewrite !length_app in Hbd. cbn [app length] in Hbd. rewrite Hcl, Hnl in Hbd.
  rewrite (proj2 (Z.leb_le _ _)) by lia.
  apply holds_at_app in Hb as [Hb Ho]. apply holds_at_app in Hb as [Hb1 Hb].
  apply (holds_at_app _ _ [_; _]) in Hb as [_ Hb2].
  rewrite !length_app in Ho. cbn [app length] in Hb2, Ho. rewrite Hcl, ?Hnl in Hb2, Ho.
  rewrite (unpack_pack_u _ _ _ _ _ Hb1 Hc). cbn [mbind result_bind].
  replace (off + Z.of_nat 2 + Z.of_nat 2) with (off + 4) in Hb2 by lia.
  rewrite (unpack_pack_u _ _ _ _ _ Hb2 Hn). py_simpl.
  unfold load_properties. cbn [dict_get PROPERTY_CLASSES of_option]. rewrite decide_True by done.
  cbn [of_option mbind result_bind].
  replace (off + _) with (off + 12) in Ho by lia.
  rewrite (decode_properties_holds properties out ps buf (off + 12) Hwf Hs Hw Ho).
  py_simpl. cbn. by destruct (body_size =? 0); rewrite ?Hr.
Qed.
