(* ===== verification/Framing.v ===== *)
(** * Frames and methods ([amqp/method_framing.py])

    [frame_handler] turns the frames of a connection into calls of the
    method callback; [frame_writer] writes the frames of a method, through
    the preallocated buffer where they fit. *)

From S2P Require Import Prelude Exceptions State Struct Utf8 Datetime Values Table Codec Content.
From S2P Require Spec.

Open Scope Z_scope.

(** A frame: type, channel and payload. *)
Record frame : Type := Frame { f_type : Z; f_channel : Z; f_payload : bytes }.

(** Methods that a content header and body follow. *)
Definition CONTENT_METHODS : list method_sig :=
  [Spec.Basic.Return; Spec.Basic.Deliver; Spec.Basic.GetOk].

Definition FRAME_OVERHEAD : Z := 40.

(** ** frame_handler *)

(** The cells of the closure; [h_bytes_recv] is [connection.bytes_recv]. *)
Record handler : Type := Handler {
  h_expected : gmap Z Z;
  h_partial : gmap Z message;
  h_bytes_recv : Z;
}.

Definition frame_handler : handler := Handler ∅ ∅ 0.

(** [expected_types[channel]] of a [defaultdict(lambda: 1)]. *)
Definition expected (h : handler) (channel : Z) : Z := default 1 (h_expected h !! channel).

(** [callback(channel, method_sig, buf, content)]. *)
Record call : Type := Call {
  c_channel : Z; c_method : option method_sig; c_args : bytes; c_content : option message;
}.

(** The message of [partial_messages] is changed in place. *)
Definition set_partial (h : handler) (channel : Z) (msg : message) : handler :=
  Handler (h_expected h) (<[channel := msg]> (h_partial h)) (h_bytes_recv h).

Definition set_expected (h : handler) (channel ty : Z) : handler :=
  Handler (<[channel := ty]> (h_expected h)) (h_partial h) (h_bytes_recv h).

Definition pop_partial (h : handler) (channel : Z) : handler :=
  Handler (h_expected h) (delete channel (h_partial h)) (h_bytes_recv h).

Definition count_frame (h : handler) : handler :=
  Handler (h_expected h) (h_partial h) (h_bytes_recv h + 1).

(** [expected_types[channel] = 1; partial_messages.pop(channel, None);
    callback(...)]. *)
Definition deliver (h : handler) (channel : Z) (msg : message)
    : handler * py (option call * bool) :=
  (pop_partial (set_expected h channel 1) channel,
   Ok (Some (Call channel (msg_frame_method msg) (msg_frame_args msg) (Some msg)), true)).

(** [on_frame]: the call of the callback, which comes last in every branch
    that has one, and the returned value. *)
Definition on_frame (h : handler) (f : frame) : handler * py (option call * bool) :=
  let 'Frame frame_type channel buf := f in
  let h := count_frame h in
  if negb ((frame_type =? expected h channel) || (frame_type =? 8)) then
    (h, raise_amqp UnexpectedFrame "Received frame {} while expecting type: {}" None)
  else if frame_type =? 1 then
    match (c ← unpack_u 2 buf 0; m ← unpack_u 2 buf 2; mret (c, m)) with
    | Ok method_sig =>
        if decide (method_sig ∈ CONTENT_METHODS) then
          (set_expected
             (set_partial h channel (new_message (Some method_sig) buf (VStr []) [])) channel 2,
           Ok (None, false))
        else (h, Ok (Some (Call channel (Some method_sig) buf None), true))
    | Raise e => (h, Raise e)
    | OutOfFuel => (h, OutOfFuel)
    end
  else if frame_type =? 2 then
    match h_partial h !! channel with
    | None => (h, Raise KeyError)
    | Some msg =>
        let '(msg, r) := inbound_header msg buf 0 in
        let h := set_partial h channel msg in
        match r with
        | Ok _ =>
            if negb (msg_ready msg) then (set_expected h channel 3, Ok (None, false))
            else deliver h channel msg
        | Raise e => (h, Raise e)
        | OutOfFuel => (h, OutOfFuel)
        end
    end
  else if frame_type =? 3 then
    match h_partial h !! channel with
    | None => (h, Raise KeyError)
    | Some msg =>
        let msg := inbound_body msg buf in
        let h := set_partial h channel msg in
        if negb (msg_ready msg) then (h, Ok (None, false)) else deliver h channel msg
    end
  else if frame_type =? 8 then (h, Ok (None, false))
  else (h, Ok (None, true)).

(** ** Reading: channels do not interfere *)

(** All the handler knows of a channel. *)
Definition chan_state (h : handler) (channel : Z) : Z * option message :=
  (expected h channel, h_partial h !! channel).

Lemma chan_state_count h ch : chan_state (count_frame h) ch = chan_state h ch.
Proof. done. Qed.

Lemma chan_state_set_partial h ch msg ch' :
  chan_state (set_partial h ch msg) ch' =
    if decide (ch = ch') then ((chan_state h ch').1, Some msg) else chan_state h ch'.
Proof. unfold chan_state. cbn. rewrite lookup_insert. by case_decide. Qed.

Lemma chan_state_set_expected h ch ty ch' :
  chan_state (set_expected h ch ty) ch' =
    if decide (ch = ch') then (ty, (chan_state h ch').2) else chan_state h ch'.
Proof. unfold chan_state, expected. cbn. rewrite lookup_insert. by case_decide. Qed.

Lemma chan_state_pop h ch ch' :
  chan_state (pop_partial h ch) ch' =
    if decide (ch = ch') then ((chan_state h ch').1, None) else chan_state h ch'.
Proof. unfold chan_state. cbn. rewrite lookup_delete. by case_decide. Qed.

Lemma chan_state_partial h ch : h_partial h !! ch = (chan_state h ch).2.
Proof. done. Qed.
Lemma chan_state_expected h ch : expected h ch = (chan_state h ch).1.
Proof. done. Qed.

(** One channel of the handler, alone. *)
Definition chan_step (s : Z * option message) (ty ch : Z) (buf : bytes)
    : (Z * option message) * py (option call * bool) :=
  let done msg := ((1, None), Ok (Some (Call ch (msg_frame_method msg) (msg_frame_args msg)
                                          (Some msg)), true)) in
  if negb ((ty =? s.1) || (ty =? 8)) then
    (s, raise_amqp UnexpectedFrame "Received frame {} while expecting type: {}" None)
  else if ty =? 1 then
    match (c ← unpack_u 2 buf 0; m ← unpack_u 2 buf 2; mret (c, m)) with
    | Ok sig =>
        if decide (sig ∈ CONTENT_METHODS)
        then ((2, Some (new_message (Some sig) buf (VStr []) [])), Ok (None, false))
        else (s, Ok (Some (Call ch (Some sig) buf None), true))
    | Raise e => (s, Raise e)
    | OutOfFuel => (s, OutOfFuel)
    end
  else if ty =? 2 then
    match s.2 with
    | None => (s, Raise KeyError)
    | Some msg =>
        let '(msg, r) := inbound_header msg buf 0 in
        match r with
        | Ok _ => if negb (msg_ready msg) then ((3, Some msg), Ok (None, false)) else done msg
        | Raise e => ((s.1, Some msg), Raise e)
        | OutOfFuel => ((s.1, Some msg), OutOfFuel)
        end
    end
  else if ty =? 3 then
    match s.2 with
    | None => (s, Raise KeyError)
    | Some msg =>
        let msg := inbound_body msg buf in
        if negb (msg_ready msg) then ((s.1, Some msg), Ok (None, false)) else done msg
    end
  else if ty =? 8 then (s, Ok (None, false))
  else (s, Ok (None, true)).

Ltac chan_simpl :=
  unfold deliver; cbn [fst snd];
  rewrite ?chan_state_count, ?chan_state_pop, ?chan_state_set_expected,
    ?chan_state_set_partial, ?chan_state_count;
  repeat case_decide; cbn [fst snd] in *; try congruence; try done.

(** The handler is the product of its channels. *)
Lemma on_frame_chan h ty ch buf ch' :
  chan_state (on_frame h (Frame ty ch buf)).1 ch' =
    (if decide (ch = ch') then (chan_step (chan_state h ch) ty ch buf).1 else chan_state h ch') /\
  (on_frame h (Frame ty ch buf)).2 = (chan_step (chan_state h ch) ty ch buf).2.
Proof.
  unfold on_frame, chan_step. rewrite (chan_state_partial _ ch), chan_state_count.
  rewrite (chan_state_expected (count_frame h)), chan_state_count.
  destruct (negb _); [split; by chan_simpl|].
  destruct (ty =? 1).
  { destruct (_ ≫= _) as [sig| |]; [|split; by chan_simpl..].
    destruct (decide (sig ∈ CONTENT_METHODS)); split; chan_simpl. }
  destruct (ty =? 2).
  { destruct (chan_state h ch).2 as [msg|] eqn:Hm; [|split; by chan_simpl].
    destruct (inbound_header msg buf 0) as [msg' [o|e|]]; [|split; chan_simpl..].
    destruct (negb _); split; chan_simpl. }
  destruct (ty =? 3).
  { destruct (chan_state h ch).2 as [msg|] eqn:Hm; [|split; by chan_simpl].
    cbv zeta. destruct (negb _); split; chan_simpl. }
  destruct (ty =? 8); split; by chan_simpl.
Qed.

(** ** Reading: the state machine of a channel *)

(** A channel waits for a method and holds no message, or for the header of
    a fresh message, or for the rest of the body of one. *)
Definition chan_ok (s : Z * option message) : Prop :=
  match s with
  | (ty, None) => ty = 1
  | (ty, Some msg) =>
      msg_ready msg = false /\
      (exists sig, msg_frame_method msg = Some sig /\ sig ∈ CONTENT_METHODS) /\
      ((ty = 2 /\ msg_pending_chunks msg = [] /\ msg_body_received msg = 0) \/
       (ty = 3 /\ msg_body_received msg = zlen (concat (msg_pending_chunks msg)) /\
        msg_body_received msg < msg_body_size msg))
  end.

Definition handler_ok (h : handler) : Prop := forall ch, chan_ok (chan_state h ch).

(** What [inbound_header] can change. *)
Lemma inbound_header_frame msg buf off msg' r :
  inbound_header msg buf off = (msg', r) ->
  msg_frame_method msg' = msg_frame_method msg /\ msg_frame_args msg' = msg_frame_args msg /\
  msg_pending_chunks msg' = msg_pending_chunks msg /\
  msg_body_received msg' = msg_body_received msg /\
  (msg_ready msg = false ->
   msg_ready msg' = match r with Ok _ => msg_body_size msg' =? 0 | _ => false end /\
   (is_ok r = true -> 0 <= msg_body_size msg')).
Proof.
  unfold inbound_header.
  destruct (if off + 12 <=? zlen buf then _ else _) as [[c n]| |] eqn:Hh; intros; simplify_eq; [|by cbn..].
  assert (0 <= n).
  { destruct (off + 12 <=? zlen buf); [|done]. apply bind_ok_inv in Hh as (c' & _ & Hh).
    apply bind_ok_inv in Hh as (n' & Hn & Hh). unfold mret, result_ret in Hh. simplify_eq.
    by apply unpack_u_range in Hn as [? _]. }
  destruct (load_properties _ _ _ _) as [[m o]| |] eqn:Hl; simplify_eq; [|by cbn..].
  unfold load_properties in Hl. apply bind_ok_inv in Hl as (d & _ & Hl).
  apply bind_ok_inv in Hl as ([ps o'] & _ & Hl). unfold mret, result_ret in Hl. simplify_eq.
  cbn. destruct (n =? 0) eqn:Hn; cbn; rewrite ?Hn; done.
Qed.

Lemma chan_step_ok s ty ch buf :
  chan_ok s -> chan_ok (chan_step s ty ch buf).1.
Proof.
  destruct s as [e p]. intros Hok. unfold chan_step. cbn [fst snd].
  destruct (ty =? e) eqn:He; cbn [negb orb]; [|destruct (ty =? 8) eqn:H8; cbn [negb]; [|done]].
  2: { apply Z.eqb_eq in H8 as ->. done. }
  apply Z.eqb_eq in He as ->. destruct p as [msg|]; cbn in Hok.
  - destruct Hok as (Hr & Hsig & [(-> & Hp & Hb)|(-> & Hb & Hlt)]); cbn.
    + destruct (inbound_header msg buf 0) as [msg' r] eqn:Hh.
      apply inbound_header_frame in Hh as (Hm & _ & Hp' & Hb' & Hrdy).
      destruct (Hrdy Hr) as [Hr' Hsz].
      destruct r as [o|e|]; cbn [fst snd chan_ok]; rewrite ?Hm, ?Hr';
        [|split_and!; [done..|left; split_and!; congruence]..].
      destruct (msg_body_size msg' =? 0) eqn:H0; cbn; [done|].
      rewrite Hm, Hr', Hp', Hb', Hp, Hb. apply Z.eqb_neq in H0. specialize (Hsz eq_refl).
      split_and!; [done..|]. right. cbn. split_and!; [done..|lia].
    + destruct (msg_ready (inbound_body msg buf)) eqn:Hr'; cbn; [done|].
      unfold inbound_body in *. destruct (_ <=? _) eqn:Hle; [by destruct (msg_pending_chunks msg)|].
      cbn in *. apply Z.leb_gt in Hle. split_and!; [done..|]. right.
      rewrite concat_app, length_app. cbn. rewrite app_nil_r. lia.
  - subst e. cbn. destruct (_ ≫= _) as [sig| |]; [|done..]. case_decide; [|done]. cbn.
    split_and!; [done|by eexists|by left].
Qed.

(** C25: whatever frames the peer sends, well formed or not, every channel is
    always in one of the three states: it waits for a method frame and no
    partial message exists for it, it waits for the header of a message whose
    method announces content, or it waits for the body of one and the chunks
    received so far are shorter than the announced size.  In particular no
    exception leaves a channel with a finished or a stale message. *)
Theorem handler_invariant h f : handler_ok h -> handler_ok (on_frame h f).1.
Proof.
  destruct f as [ty ch buf]. intros Hok ch'.
  destruct (on_frame_chan h ty ch buf ch') as [-> _]. case_decide; [|done]. by apply chan_step_ok.
Qed.

Lemma frame_handler_ok : handler_ok frame_handler.
Proof. intros ch. unfold chan_state, expected. cbn. by rewrite !lookup_empty. Qed.

Theorem handler_invariant_witness :
  handler_ok (on_frame frame_handler (Frame 1 1 [byte_of_Z 0; byte_of_Z 60; byte_of_Z 0; byte_of_Z 60])).1.
Proof. apply handler_invariant, frame_handler_ok. Defined.

(** The outcomes of a sequence of frames; a frame that raises leaves the
    connection able to read the next one. *)
Fixpoint run (h : handler) (fs : list frame) : handler * list (frame * py (option call * bool)) :=
  match fs with
  | [] => (h, [])
  | f :: fs =>
      let '(h, r) := on_frame h f in
      let '(h, rs) := run h fs in
      (h, (f, r) :: rs)
  end.

Definition on_channel (ch : Z) (f : frame) : Prop := f_channel f = ch.
#[export] Instance on_channel_dec ch f : Decision (on_channel ch f) := decide (f_channel f = ch).

Lemma run_chan h1 h2 ch fs :
  chan_state h1 ch = chan_state h2 ch ->
  filter (fun p => on_channel ch p.1) (run h1 fs).2 = (run h2 (filter (on_channel ch) fs)).2 /\
  chan_state (run h1 fs).1 ch = chan_state (run h2 (filter (on_channel ch) fs)).1 ch.
Proof.
  revert h1 h2. induction fs as [|[ty c buf] fs IH]; intros h1 h2 Heq; [done|]. cbn [run].
  destruct (on_frame_chan h1 ty c buf ch) as [Hs1 Hr1].
  destruct (on_frame h1 (Frame ty c buf)) as [h1' r1]. cbn [fst snd] in Hs1, Hr1.
  destruct (decide (c = ch)) as [->|Hne].
  - rewrite (filter_cons_True (on_channel ch)) by done. cbn [run].
    destruct (on_frame_chan h2 ty ch buf ch) as [Hs2 Hr2].
    destruct (on_frame h2 (Frame ty ch buf)) as [h2' r2]. cbn [fst snd] in Hs2, Hr2.
    rewrite decide_True in Hs2 by done.
    destruct (IH h1' h2') as [IH1 IH2]; [congruence|].
    destruct (run h1' fs) as [h1'' rs1]. destruct (run h2' (filter _ fs)) as [h2'' rs2].
    cbn [fst snd] in *. split; [|done]. rewrite filter_cons_True by done. congruence.
  - rewrite (filter_cons_False (on_channel ch)) by done. destruct (IH h1' h2) as [IH1 IH2]; [congruence|].
    destruct (run h1' fs) as [h1'' rs1]. cbn [fst snd] in *. split; [|done].
    by rewrite filter_cons_False.
Qed.

(** C24: channels do not interfere.  In any sequence of frames the calls,
    results and exceptions of one channel, and the state it is left in, are
    those of its own frames alone, so the frames of a message may be
    interleaved with the frames of any other channel. *)
Theorem channels_independent h ch fs :
  filter (fun p => on_channel ch p.1) (run h fs).2 = (run h (filter (on_channel ch) fs)).2 /\
  chan_state (run h fs).1 ch = chan_state (run h (filter (on_channel ch) fs)).1 ch.
Proof. by apply run_chan. Qed.

(** ** Reading: messages are reassembled *)

Fixpoint chan_run (s : Z * option message) (ch : Z) (fs : list (Z * bytes))
    : (Z * option message) * list (py (option call * bool)) :=
  match fs with
  | [] => (s, [])
  | (ty, buf) :: fs =>
      let '(s, r) := chan_step s ty ch buf in
      let '(s, rs) := chan_run s ch fs in (s, r :: rs)
  end.

Definition on (ch : Z) (p : Z * bytes) : frame := Frame p.1 ch p.2.

Lemma run_chan_run h ch fs :
  (run h (on ch <$> fs)).2.*2 = (chan_run (chan_state h ch) ch fs).2 /\
  chan_state (run h (on ch <$> fs)).1 ch = (chan_run (chan_state h ch) ch fs).1.
Proof.
  revert h. induction fs as [|[ty buf] fs IH]; intros h; [done|].
  rewrite fmap_cons. change (on ch (ty, buf)) with (Frame ty ch buf). cbn [run chan_run].
  destruct (on_frame_chan h ty ch buf ch) as [Hs Hr]. rewrite decide_True in Hs by done.
  destruct (on_frame h (Frame ty ch buf)) as [h' r].
  destruct (chan_step _ _ _ _) as [s' r']. cbn [fst snd] in Hs, Hr. subst s' r'.
  destruct (IH h') as [IH1 IH2]. destruct (run h' _) as [h'' rs].
  destruct (chan_run _ _ _) as [s'' rs']. cbn [fst snd] in *. rewrite fmap_cons. by rewrite IH1.
Qed.

Lemma chan_run_app s ch fs gs :
  chan_run s ch (fs ++ gs) =
    ((chan_run (chan_run s ch fs).1 ch gs).1,
     (chan_run s ch fs).2 ++ (chan_run (chan_run s ch fs).1 ch gs).2).
Proof.
  revert s. induction fs as [|[ty buf] fs IH]; intros s; cbn; [by destruct (chan_run s ch gs)|].
  destruct (chan_step s ty ch buf) as [s' r]. rewrite IH. by destruct (chan_run s' ch fs).
Qed.

(** Body frames that do not complete the message. *)
Lemma chan_run_body msg ch cs :
  msg_ready msg = false -> msg_body_received msg + zlen (concat cs) < msg_body_size msg ->
  chan_run (3, Some msg) ch ((fun c => (3, c)) <$> cs) =
    ((3, Some (collecting msg cs)), replicate (length cs) (Ok (None, false))).
Proof.
  intros Hr. induction cs as [|c cs IH] using rev_ind; intros Hlt.
  - rewrite <- (inbound_body_collect msg []) by done. done.
  - rewrite concat_app, length_app in Hlt. rewrite fmap_app, chan_run_app, IH by lia.
    cbn [fst snd chan_run fmap list_fmap]. unfold chan_step. cbn [fst snd Z.eqb orb negb].
    replace (inbound_body (collecting msg cs) c) with (collecting msg (cs ++ [c])).
    2: { rewrite <- !inbound_body_collect by (rewrite ?concat_app, ?length_app; lia).
         by rewrite foldl_app. }
    cbn. rewrite Hr. cbn. by rewrite length_app, replicate_add.
Qed.

(** [pack('>HH', *method_sig)]. *)
Definition pack_sig (sig : method_sig) : py bytes :=
  c ← pack_u 2 sig.1; m ← pack_u 2 sig.2; mret (c ++ m).

Lemma unpack_sig sig sb buf :
  pack_sig sig = Ok sb -> holds_at buf 0 sb ->
  (c ← unpack_u 2 buf 0; m ← unpack_u 2 buf 2; mret (c, m)) = Ok sig.
Proof.
  intros Hs Hb. apply bind_ok_inv in Hs as (c & Hc & H). apply bind_ok_inv in H as (m & Hm & H).
  unfold mret, result_ret in H. injection H as <-. apply holds_at_app in Hb as [Hb1 Hb2].
  rewrite (pack_u_length _ _ _ Hc) in Hb2.
  rewrite (unpack_pack_u _ _ _ _ _ Hb1 Hc). cbn [mbind result_bind].
  change (0 + Z.of_nat 2) with 2 in Hb2. rewrite (unpack_pack_u _ _ _ _ _ Hb2 Hm).
  by destruct sig.
Qed.

Lemma chan_step_method sig sb args ch :
  pack_sig sig = Ok sb -> sig ∈ CONTENT_METHODS ->
  chan_step (1, None) 1 ch (sb ++ args) =
    ((2, Some (new_message (Some sig) (sb ++ args) (VStr []) [])), Ok (None, false)).
Proof.
  intros Hsb Hsig. unfold chan_step. cbn [fst snd Z.eqb Pos.eqb orb negb].
  rewrite (unpack_sig sig sb); [by rewrite decide_True|done|by exists [], args].
Qed.

Lemma chan_step_header msg buf msg' off ch :
  inbound_header msg buf 0 = (msg', Ok off) ->
  chan_step (2, Some msg) 2 ch buf =
    if msg_ready msg'
    then ((1, None), Ok (Some (Call ch (msg_frame_method msg') (msg_frame_args msg') (Some msg')), true))
    else ((3, Some msg'), Ok (None, false)).
Proof.
  intros Hh. unfold chan_step. cbn [fst snd Z.eqb Pos.eqb orb negb]. rewrite Hh.
  by destruct (msg_ready msg').
Qed.

(** The message that the callback gets. *)
Definition received_message (sig : method_sig) (margs : bytes) (ps : props) (body : bytes)
    : message :=
  Message (Some sig) margs ps [] (zlen body) (zlen body) true
    (match body with [] => VStr [] | _ => VBytes body end) None None.

Lemma run_content h ch sig sb args properties hdr out ps chunks :
  chan_state h ch = (1, None) ->
  pack_sig sig = Ok sb -> sig ∈ CONTENT_METHODS ->
  wf_props PROPERTIES properties ->
  pack_header Spec.Basic.CLASS_ID (zlen (concat chunks)) = Ok hdr ->
  serialize_properties PROPERTIES properties = Ok out ->
  wire_props properties PROPERTIES = Ok ps ->
  Forall (.≠ []) chunks ->
  let fs := Frame 1 ch (sb ++ args) :: Frame 2 ch (hdr ++ out) :: (Frame 3 ch <$> chunks) in
  let msg := received_message sig (sb ++ args) ps (concat chunks) in
  (run h fs).2.*2 =
    replicate (S (length chunks)) (Ok (None, false)) ++
    [Ok (Some (Call ch (Some sig) (sb ++ args) (Some msg)), true)] /\
  chan_state (run h fs).1 ch = (1, None).
Proof.
  intros Hs Hsb Hsig Hwf Hh Ho Hw Hne fs msg.
  set (gs := (1, sb ++ args) :: (2, hdr ++ out) :: ((fun c => (3, c)) <$> chunks)).
  assert (fs = on ch <$> gs) as ->.
  { subst fs gs. cbn [fmap list_fmap]. do 2 f_equal. by rewrite <- list_fmap_compose. }
  destruct (run_chan_run h ch gs) as [-> ->]. rewrite Hs. clear Hs h.
  set (outs := replicate _ _ ++ _).
  cut (chan_run (1, None) ch gs = ((1, None), outs)); [by intros ->|]. subst gs outs.
  cbn [chan_run]. rewrite (chan_step_method sig sb args ch Hsb Hsig).
  pose proof (inbound_header_holds (new_message (Some sig) (sb ++ args) (VStr []) []) _
    properties hdr out ps _ 0 Hwf Hh Ho Hw (holds_at_whole _) ltac:(done)) as Hi.
  rewrite (chan_step_header _ _ _ _ ch Hi). clear Hi.
  cbn [msg_ready]. destruct chunks as [|last cs _] using rev_ind.
  { cbn. done. }
  apply Forall_app in Hne as [_ Hl]. rewrite Forall_singleton in Hl.
  assert (0 < zlen last) by (destruct last; [done|cbn; lia]).
  assert (zlen (concat (cs ++ [last])) = zlen (concat cs) + zlen last) as Hlen.
  { rewrite concat_app, length_app. cbn. rewrite app_nil_r. lia. }
  rewrite (proj2 (Z.eqb_neq _ 0)) by lia. rewrite fmap_app, chan_run_app, chan_run_body; [|done|cbn; lia].
  cbn [fst snd chan_run fmap list_fmap]. unfold chan_step. cbn [fst snd Z.eqb orb negb].
  rewrite inbound_body_last; [|cbn; lia]. cbn.
  rewrite length_app, Nat.add_comm. cbn. do 8 f_equal.
  subst msg. unfold received_message, assembled. cbn.
  rewrite Hlen, concat_app. cbn. rewrite app_nil_r.
  destruct (concat cs ++ last) eqn:Hcs; [|done].
  apply app_eq_nil in Hcs as [_ ->]. done.
Qed.

(** C23: a method that announces content, its header frame and its body
    frames, cut anywhere into non-empty chunks, make exactly one call of the
    callback, at the last frame, with the method, its arguments, the
    properties and the whole body; every earlier frame returns [False].  The
    channel is then ready for the next method.  (An empty body stays the [str]
    that the constructor sets.) *)
Theorem content_reassembled h ch sig sb args properties hdr out ps chunks :
  chan_state h ch = (1, None) ->
  pack_sig sig = Ok sb -> sig ∈ CONTENT_METHODS ->
  wf_props PROPERTIES properties ->
  pack_header Spec.Basic.CLASS_ID (zlen (concat chunks)) = Ok hdr ->
  serialize_properties PROPERTIES properties = Ok out ->
  wire_props properties PROPERTIES = Ok ps ->
  Forall (.≠ []) chunks ->
  let fs := Frame 1 ch (sb ++ args) :: Frame 2 ch (hdr ++ out) :: (Frame 3 ch <$> chunks) in
  let msg := received_message sig (sb ++ args) ps (concat chunks) in
  (run h fs).2.*2 =
    replicate (S (length chunks)) (Ok (None, false)) ++
    [Ok (Some (Call ch (Some sig) (sb ++ args) (Some msg)), true)] /\
  chan_state (run h fs).1 ch = (1, None).
Proof. apply run_content. Qed.

Lemma content_reassembled_witness :
  let sb := [byte_of_Z 0; byte_of_Z 60; byte_of_Z 0; byte_of_Z 60] in
  let hdr := [byte_of_Z 0; byte_of_Z 60; byte_of_Z 0; byte_of_Z 0] ++ be_encode 8 3 in
  let out := [byte_of_Z 8; byte_of_Z 0; byte_of_Z 9] in
  let args := bytes_of "args" in
  let fs := [Frame 1 7 (sb ++ args); Frame 2 7 (hdr ++ out); Frame 3 7 (bytes_of "ab");
             Frame 3 7 (bytes_of "c")] in
  let msg := received_message Spec.Basic.Deliver (sb ++ args) [("priority", VInt 9)]
               (bytes_of "abc") in
  (run frame_handler fs).2.*2 =
    [Ok (None, false); Ok (None, false); Ok (None, false);
     Ok (Some (Call 7 (Some Spec.Basic.Deliver) (sb ++ args) (Some msg)), true)] /\
  chan_state (run frame_handler fs).1 7 = (1, None).
Proof.
  intros sb hdr out args.
  apply (content_reassembled frame_handler 7 Spec.Basic.Deliver sb args [("priority", VInt 9)]
           hdr out [("priority", VInt 9)] [bytes_of "ab"; bytes_of "c"]).
  - reflexivity.
  - reflexivity.
  - right. left.
  - intros key t v _ Hp. unfold present, dict_get in Hp. repeat case_decide; simplify_eq.
    destruct (fmt_of_type t); try done; intros d Hd; cbn in Hd; discriminate Hd.
  - vm_compute. reflexivity.
  - vm_compute. reflexivity.
  - vm_compute. reflexivity.
  - repeat constructor; discriminate.
Defined.

(** ** frame_writer *)

(** [str_to_bytes(args)]. *)
Definition arg_str_to_bytes (args : value) : value :=
  match args with VStr s => VBytes (str_to_bytes s) | v => v end.

(** [pack('>BHI%dsB' % len(payload), type, channel, len(payload), payload, 0xce)]. *)
Definition pack_frame (f : frame) : py bytes :=
  t ← pack_u 1 (f_type f); c ← pack_u 2 (f_channel f); n ← pack_u 4 (zlen (f_payload f));
  mret (t ++ c ++ n ++ f_payload f ++ [byte_of_Z 0xce]).

(** [range(0, n, step)]. *)
Definition range0 (n step : Z) : py (list Z) :=
  if step =? 0 then Raise ValueError
  else if step <? 0 then Ok []
  else Ok ((fun k => k * step) <$> seqZ 0 ((n + step - 1) / step)).

(** [bytearray(n)]. *)
Definition bytearray (n : Z) : py bytes :=
  if n <? 0 then Raise ValueError else Ok (replicate (Z.to_nat n) (byte_of_Z 0)).

(** The body of a content must be packed as bytes; slices of it too. *)
Definition body_payload (body : value) : py bytes :=
  match body with VBytes b => Ok b | _ => Raise StructError end.

Definition body_slice (body : value) (i j : Z) : py bytes :=
  match body with
  | VBytes b => Ok (slice b i j)
  | VDict _ => Raise TypeError
  | _ => Raise StructError
  end.

Section frame_writer.
Context {W : Type} `{!ByteSink W}.
(** [s.encode(encoding)] for encodings other than the default of the code. *)
Context (other_codec : pystr -> pystr -> py bytes).

(** The cells of the closure: the transport, [buffer_store.buf] and
    [connection.bytes_sent]. *)
Record writer : Type := Writer {
  w_transport : W;
  w_buf : bytes;
  w_bytes_sent : Z;
}.

Definition frame_writer (frame_max : Z) (transport : W) : py writer :=
  buf ← bytearray (frame_max - 8); mret (Writer transport buf 0).

Definition write (bs : bytes) : st writer unit :=
  zoom w_transport (fun t w => Writer t (w_buf w) (w_bytes_sent w)) (sink_write bs).

Definition str_encode (s : pystr) (encoding : value) : py bytes :=
  match encoding with
  | VStr e => if decide (e = str_of "utf-8") then encode_utf8_strict s else other_codec s e
  | _ => Raise TypeError
  end.

Definition set_properties (msg : message) (ps : props) : message :=
  Message (msg_frame_method msg) (msg_frame_args msg) ps (msg_pending_chunks msg)
    (msg_body_received msg) (msg_body_size msg) (msg_ready msg) (msg_body msg)
    (msg_delivery_info msg) (msg_channel msg).

(** [encoding = content.properties.setdefault('content_encoding', 'utf-8');
    body = body.encode(encoding)]: the message keeps the new property. *)
Definition encode_body (content : message) : message * py value :=
  match msg_body content with
  | VStr s =>
      let '(ps, encoding) :=
        match dict_get (msg_properties content) "content_encoding" with
        | Some e => (msg_properties content, e)
        | None => let e := VStr (str_of "utf-8") in
                  (dict_set (msg_properties content) "content_encoding" e, e)
        end in
      (set_properties content ps, VBytes <$> str_encode s encoding)
  | body => (content, Ok body)
  end.

(** [b''.join([pack('>HH', *method_sig), args]) if type_ == 1 else b'']. *)
Definition method_frame (type_ : Z) (method_sig : option method_sig) (args : value) : py bytes :=
  if type_ =? 1 then
    sig ← of_option TypeError method_sig;
    sb ← pack_sig sig; a ← buffer_of args; mret (sb ++ a)
  else mret [].

(** [b''.join([pack('>HHQ', method_sig[0], 0, len(body)), properties])]. *)
Definition header_frame (method_sig : option method_sig) (bodylen : Z) (properties : bytes)
    : py bytes :=
  sig ← of_option TypeError method_sig;
  hdr ← pack_header sig.1 bodylen; mret (hdr ++ properties).

Definition write_slow_frame (f : frame) : st writer unit :=
  bs ← lift (pack_frame f); write bs.

Definition write_slow (chunk_size type_ channel : Z) (method_sig : option method_sig)
    (args body : value) (bodylen : Z) (properties : bytes) : st writer unit :=
  frame ← lift (method_frame type_ method_sig args);
  write_slow_frame (Frame type_ channel frame) ;;
  when (truthy body)
    (frame ← lift (header_frame method_sig bodylen properties);
     write_slow_frame (Frame 2 channel frame) ;;
     starts ← lift (range0 bodylen chunk_size);
     st_iter (fun i => frame ← lift (body_slice body i (i + chunk_size));
                       write_slow_frame (Frame 3 channel frame)) starts).

(** [pack_into(..., buf, offset, ...); offset += 8 + framelen]: the buffer
    is changed only when everything fits. *)
Definition pack_into (offset : Z) (f : frame) : st writer Z := fun w =>
  match pack_frame f with
  | Ok bs =>
      if offset + zlen bs <=? zlen (w_buf w) then
        (Writer (w_transport w)
           (take (Z.to_nat offset) (w_buf w) ++ bs ++
            drop (Z.to_nat offset + length bs) (w_buf w)) (w_bytes_sent w),
         Ok (offset + (8 + zlen (f_payload f))))
      else (w, Raise StructError)
  | Raise e => (w, Raise e)
  | OutOfFuel => (w, OutOfFuel)
  end.

(** [if chunk_size > len(buffer_store.buf): buffer_store.buf = bytearray(chunk_size)]. *)
Definition resize (chunk_size : Z) : st writer unit := fun w =>
  if zlen (w_buf w) <? chunk_size
  then (Writer (w_transport w) (replicate (Z.to_nat chunk_size) (byte_of_Z 0)) (w_bytes_sent w),
        Ok tt)
  else (w, Ok tt).

(** The body and the serialized properties, when there is content. *)
Definition write_fast (chunk_size type_ channel : Z) (method_sig : option method_sig)
    (args : value) (content : option (value * bytes)) : st writer unit :=
  resize chunk_size ;;
  frame ← lift (method_frame type_ method_sig args);
  offset ← pack_into 0 (Frame type_ channel frame);
  offset ← (match content with
            | None => mret offset
            | Some (body, properties) =>
                bodylen ← lift (py_len body);
                frame ← lift (header_frame method_sig bodylen properties);
                offset ← pack_into offset (Frame 2 channel frame);
                if 0 <? bodylen
                then payload ← lift (body_payload body); pack_into offset (Frame 3 channel payload)
                else mret offset
            end);
  buf ← gets w_buf;
  write (take (Z.to_nat offset) buf).

(** [connection.bytes_sent += 1]. *)
Definition count_sent : st writer unit :=
  modify (fun w => Writer (w_transport w) (w_buf w) (w_bytes_sent w + 1)).

Definition write_frame (frame_max type_ channel : Z) (method_sig : option method_sig)
    (args : value) (content : option message) : st writer unit :=
  let chunk_size := frame_max - 8 in
  let args := arg_str_to_bytes args in
  match content with
  | Some content =>
      let '(content, body) := encode_body content in
      body ← lift body;
      properties ← lift (serialize_properties PROPERTIES (msg_properties content));
      bodylen ← lift (py_len body);
      arglen ← lift (py_len args);
      let framelen := arglen + zlen properties + bodylen + FRAME_OVERHEAD in
      if chunk_size <? framelen
      then write_slow chunk_size type_ channel method_sig args body bodylen properties
      else write_fast chunk_size type_ channel method_sig args (Some (body, properties))
  | None => write_fast chunk_size type_ channel method_sig args None
  end ;;
  count_sent.
End frame_writer.

Arguments writer : clear implicits.

(** ** Writing: what reaches the transport *)

Fixpoint pack_frames (fs : list frame) : py bytes :=
  match fs with
  | [] => mret []
  | f :: fs => b ← pack_frame f; bs ← pack_frames fs; mret (b ++ bs)
  end.

Lemma pack_frame_length f bs : pack_frame f = Ok bs -> zlen bs = 8 + zlen (f_payload f).
Proof.
  unfold pack_frame. intros H. apply bind_ok_inv in H as (t & Ht & H).
  apply bind_ok_inv in H as (c & Hc & H). apply bind_ok_inv in H as (n & Hn & H).
  unfold mret, result_ret in H. injection H as <-.
  rewrite !length_app, (pack_u_length _ _ _ Ht), (pack_u_length _ _ _ Hc), (pack_u_length _ _ _ Hn).
  cbn [length]. lia.
Qed.

Lemma pack_frames_app fs gs bs cs :
  pack_frames fs = Ok bs -> pack_frames gs = Ok cs -> pack_frames (fs ++ gs) = Ok (bs ++ cs).
Proof.
  revert bs. induction fs as [|f fs IH]; intros bs Hf Hg; cbn in *.
  - unfold mret, result_ret in Hf. by injection Hf as <-.
  - apply bind_ok_inv in Hf as (b & -> & Hf). apply bind_ok_inv in Hf as (bs' & Hbs & Hf).
    unfold mret, result_ret in Hf. injection Hf as <-. cbn [mbind result_bind].
    rewrite (IH bs' Hbs Hg). cbn. by rewrite <- app_assoc.
Qed.

(** [range(0, n, step)] cuts a sequence into non-empty pieces. *)
Lemma slice_take_drop {A} (l : list A) (a n : nat) :
  slice l (Z.of_nat a) (Z.of_nat (a + n)) = take n (drop a l).
Proof.
  unfold slice. destruct (decide (a <= length l)%nat).
  - rewrite (Z.min_l (Z.of_nat a)), Nat2Z.id by lia.
    destruct (decide (a + n <= length l)%nat); [f_equal; lia|].
    rewrite !take_ge; [done|rewrite length_drop; lia..].
  - rewrite !drop_ge by lia. by rewrite !take_nil.
Qed.

Lemma concat_chunks {A} (l : list A) (cs m : nat) :
  concat ((fun k => take cs (drop (k * cs) l)) <$> seq 0 m) = take (m * cs) l.
Proof.
  induction m as [|m IH]; [done|].
  rewrite seq_S, fmap_app, concat_app, IH. cbn [fmap list_fmap concat Nat.add].
  by rewrite app_nil_r, take_take_drop, Nat.add_comm.
Qed.

Lemma range0_chunks (body : bytes) (cs : Z) :
  0 < cs -> exists starts, range0 (zlen body) cs = Ok starts /\
    let chunks := (fun i => slice body i (i + cs)) <$> starts in
    concat chunks = body /\ Forall (fun c => 0 < zlen c <= cs) chunks.
Proof.
  intros Hcs. unfold range0.
  rewrite (proj2 (Z.eqb_neq _ _)), (proj2 (Z.ltb_ge _ _)) by lia.
  eexists. split; [done|]. set (m := Z.to_nat ((zlen body + cs - 1) / cs)).
  set (c := Z.to_nat cs). assert (Z.of_nat c = cs) as Hc by lia. clearbody c. subst cs.
  assert ((fun i => slice body i (i + Z.of_nat c)) <$>
            ((fun k => k * Z.of_nat c) <$> seqZ 0 ((zlen body + Z.of_nat c - 1) / Z.of_nat c))
          = (fun k => take c (drop (k * c) body)) <$> seq 0 m) as ->.
  { unfold seqZ. rewrite <- !list_fmap_compose. apply list_fmap_ext. intros _ k _. cbn.
    rewrite Z.add_0_r. rewrite <- slice_take_drop, Nat2Z.inj_add, Nat2Z.inj_mul. done. }
  cbn zeta. split.
  - rewrite concat_chunks. apply take_ge. subst m.
    pose proof (Z.mul_succ_div_gt (zlen body + Z.of_nat c - 1) (Z.of_nat c) ltac:(lia)).
    pose proof (Z.div_pos (zlen body + Z.of_nat c - 1) (Z.of_nat c) ltac:(lia) ltac:(lia)). nia.
  - apply Forall_fmap, Forall_forall. intros k Hk%elem_of_seq. cbn.
    rewrite length_take, length_drop.
    assert (Z.of_nat k < (zlen body + Z.of_nat c - 1) / Z.of_nat c) as Hlt by (subst m; lia).
    assert (k * c < length body)%nat; [|lia].
    pose proof (Z.mul_div_le (zlen body + Z.of_nat c - 1) (Z.of_nat c) ltac:(lia)). nia.
Qed.

Section writer_lemmas.
Context {W : Type} `{!ByteSink W}.

(** What the transport has sent. *)
Definition sent (w : writer W) : bytes := sink_out (w_transport w).

Lemma write_ok bs w w' u :
  write bs w = (w', Ok u) ->
  sent w' = sent w ++ bs /\ w_buf w' = w_buf w /\ w_bytes_sent w' = w_bytes_sent w.
Proof.
  unfold write, zoom, sent. destruct (sink_write bs (w_transport w)) as [t r] eqn:Hw.
  intros; simplify_eq. cbn. split_and!; [|done..]. by eapply sink_write_ok.
Qed.

Lemma write_slow_frame_ok f w w' u :
  write_slow_frame f w = (w', Ok u) ->
  exists bs, pack_frame f = Ok bs /\ sent w' = sent w ++ bs /\
    w_bytes_sent w' = w_bytes_sent w.
Proof.
  unfold write_slow_frame. intros H. apply st_bind_ok_inv in H as (w1 & bs & Hl & H).
  unfold lift in Hl. simplify_eq. apply write_ok in H as (? & _ & ?). eauto.
Qed.

Lemma write_chunks_ok ch body cs starts w w' u :
  st_iter (fun i => frame ← lift (body_slice (VBytes body) i (i + cs));
                    write_slow_frame (Frame 3 ch frame)) starts w = (w', Ok u) ->
  exists bs, pack_frames (Frame 3 ch <$> ((fun i => slice body i (i + cs)) <$> starts)) = Ok bs /\
    sent w' = sent w ++ bs /\ w_bytes_sent w' = w_bytes_sent w.
Proof.
  revert w. induction starts as [|i starts IH]; intros w H; cbn [st_iter] in H.
  - unfold mret, st_ret in H. simplify_eq. exists []. by rewrite app_nil_r.
  - apply st_bind_ok_inv in H as (w1 & ? & H1 & H2).
    apply st_bind_ok_inv in H1 as (w2 & c & Hl & H1). unfold lift in Hl. cbn in Hl. simplify_eq.
    apply write_slow_frame_ok in H1 as (b & Hb & Hs1 & Hc1).
    destruct (IH _ H2) as (bs & Hbs & Hs2 & Hc2). exists (b ++ bs).
    rewrite !fmap_cons. cbn [pack_frames]. rewrite Hb. cbn [mbind result_bind]. rewrite Hbs.
    split_and!; [done| |congruence]. by rewrite Hs2, Hs1, app_assoc.
Qed.

Lemma pack_into_ok off f (w w' : writer W) off' :
  0 <= off -> pack_into off f w = (w', Ok off') ->
  exists bs, pack_frame f = Ok bs /\ off' = off + zlen bs /\ off' <= zlen (w_buf w') /\
    w_transport w' = w_transport w /\ w_bytes_sent w' = w_bytes_sent w /\
    take (Z.to_nat off') (w_buf w') = take (Z.to_nat off) (w_buf w) ++ bs.
Proof.
  intros Hoff. unfold pack_into. destruct (pack_frame f) as [bs| |] eqn:Hf; intros H; simplify_eq.
  destruct (_ <=? _) eqn:Hle; simplify_eq. apply Z.leb_le in Hle.
  pose proof (pack_frame_length _ _ Hf) as Hl. exists bs. cbn.
  assert (length (take (Z.to_nat off) (w_buf w)) = Z.to_nat off) as Ht by (rewrite length_take; lia).
  split_and!; try done.
  - lia.
  - rewrite !length_app, length_drop, Ht. lia.
  - rewrite app_assoc. apply take_app_length'. rewrite length_app, Ht. lia.
Qed.

Lemma pack_into_fits off f (w : writer W) bs :
  0 <= off -> pack_frame f = Ok bs -> off + zlen bs <= zlen (w_buf w) ->
  exists w', pack_into off f w = (w', Ok (off + zlen bs)) /\ length (w_buf w') = length (w_buf w).
Proof.
  intros Hoff Hf Hle. unfold pack_into. rewrite Hf, (proj2 (Z.leb_le _ _)) by done.
  rewrite (pack_frame_length _ _ Hf). eexists. split; [done|]. cbn.
  rewrite !length_app, length_drop, length_take. lia.
Qed.
End writer_lemmas.

(** The frames of a method with content, its body cut into [chunks]. *)
Definition content_frames (ch : Z) (sig : method_sig) (args properties : bytes)
    (chunks : list bytes) : py (list frame) :=
  m ← method_frame 1 (Some sig) (VBytes args);
  h ← header_frame (Some sig) (zlen (concat chunks)) properties;
  mret (Frame 1 ch m :: Frame 2 ch h :: (Frame 3 ch <$> chunks)).

(** The chunks of the fast path. *)
Definition one_chunk (body : bytes) : list bytes :=
  match body with [] => [] | _ => [body] end.

Lemma concat_one_chunk body : concat (one_chunk body) = body.
Proof. destruct body; cbn; by rewrite ?app_nil_r. Qed.

Section writer_theorems.
Context {W : Type} `{!ByteSink W} (other_codec : pystr -> pystr -> py bytes).

Lemma write_slow_ok cs ch sig args body props (w w' : writer W) u :
  0 < cs -> body <> [] ->
  write_slow cs 1 ch (Some sig) (VBytes args) (VBytes body) (zlen body) props w = (w', Ok u) ->
  exists chunks frames wire,
    content_frames ch sig args props chunks = Ok frames /\
    concat chunks = body /\ Forall (fun c => 0 < zlen c <= cs) chunks /\
    pack_frames frames = Ok wire /\ sent w' = sent w ++ wire /\ w_bytes_sent w' = w_bytes_sent w.
Proof.
  intros Hcs Hne H. unfold write_slow in H.
  apply st_bind_ok_inv in H as (w1 & m & Hm & H). unfold lift in Hm. injection Hm as <- Hm.
  apply st_bind_ok_inv in H as (w1 & ? & H1 & H).
  apply write_slow_frame_ok in H1 as (b1 & Hb1 & Hs1 & Hc1).
  replace (truthy (VBytes body)) with true in H by (by destruct body). cbn [when] in H.
  apply st_bind_ok_inv in H as (w2 & h & Hh & H). unfold lift in Hh. injection Hh as <- Hh.
  apply st_bind_ok_inv in H as (w2 & ? & H2 & H).
  apply write_slow_frame_ok in H2 as (b2 & Hb2 & Hs2 & Hc2).
  destruct (range0_chunks body cs Hcs) as (starts & Hst & Hcat & Hall).
  rewrite Hst in H. apply st_bind_ok_inv in H as (w3 & ? & Hl & H). unfold lift in Hl.
  injection Hl as <- <-. apply write_chunks_ok in H as (b3 & Hb3 & Hs3 & Hc3).
  eexists _, _, (b1 ++ b2 ++ b3). split_and!; [|exact Hcat|exact Hall| | |congruence].
  - unfold content_frames. rewrite Hm. cbn [mbind result_bind]. rewrite Hcat, Hh. done.
  - cbn [pack_frames]. rewrite Hb1. cbn [mbind result_bind]. rewrite Hb2.
    cbn [mbind result_bind]. rewrite Hb3. done.
  - by rewrite Hs3, Hs2, Hs1, !app_assoc.
Qed.

Lemma write_fast_ok cs ch sig args body props (w w' : writer W) u :
  write_fast cs 1 ch (Some sig) (VBytes args) (Some (VBytes body, props)) w = (w', Ok u) ->
  exists frames wire,
    content_frames ch sig args props (one_chunk body) = Ok frames /\
    pack_frames frames = Ok wire /\ sent w' = sent w ++ wire /\ w_bytes_sent w' = w_bytes_sent w.
Proof.
  intros H. unfold write_fast in H. apply st_bind_ok_inv in H as (w0 & ? & Hr & H).
  assert (sent w0 = sent w /\ w_bytes_sent w0 = w_bytes_sent w) as [<- <-].
  { unfold resize in Hr. destruct (_ <? _); by simplify_eq. }
  clear Hr w. apply st_bind_ok_inv in H as (w1 & m & Hm & H). unfold lift in Hm. injection Hm as <- Hm.
  apply st_bind_ok_inv in H as (w1 & off1 & H1 & H).
  apply pack_into_ok in H1 as (b1 & Hb1 & -> & _ & Ht1 & Hc1 & Hk1); [|done].
  apply st_bind_ok_inv in H as (w2 & off & H2 & H).
  apply st_bind_ok_inv in H2 as (? & n & Hn & H2). unfold lift in Hn. cbn in Hn. simplify_eq.
  apply st_bind_ok_inv in H2 as (? & h & Hh & H2). unfold lift in Hh. injection Hh as <- Hh.
  apply st_bind_ok_inv in H2 as (w3 & off2 & H2 & H3).
  apply pack_into_ok in H2 as (b2 & Hb2 & -> & _ & Ht2 & Hc2 & Hk2); [|lia].
  apply st_bind_ok_inv in H as (? & buf & Hg & H). unfold gets in Hg. injection Hg as <- <-.
  apply write_ok in H as (Hs & _ & Hc).
  assert (exists bs, pack_frames (Frame 3 ch <$> one_chunk body) = Ok bs /\
    w_transport w2 = w_transport w3 /\ w_bytes_sent w2 = w_bytes_sent w3 /\
    take (Z.to_nat off) (w_buf w2) = b1 ++ b2 ++ bs) as (b3 & Hb3 & Ht3 & Hc3 & Hk3).
  { rewrite Hk1 in Hk2. destruct body as [|b body]; cbn in H3.
    - injection H3 as <- <-. exists []. by rewrite app_nil_r.
    - apply pack_into_ok in H3 as (b3 & Hb3 & -> & _ & Ht3 & Hc3 & Hk3); [|lia].
      exists b3. cbn [one_chunk fmap list_fmap pack_frames]. rewrite Hb3. cbn.
      rewrite app_nil_r. split_and!; [done..|]. rewrite Hk3, Hk2. cbn. by rewrite <- app_assoc. }
  eexists _, (b1 ++ b2 ++ b3). split_and!.
  - unfold content_frames. rewrite concat_one_chunk, Hm. cbn [mbind result_bind]. by rewrite Hh.
  - cbn [pack_frames]. rewrite Hb1. cbn [mbind result_bind]. rewrite Hb2.
    cbn [mbind result_bind]. by rewrite Hb3.
  - unfold sent in *. by rewrite Hs, Hk3, Ht3, Ht2, Ht1.
  - congruence.
Qed.

(** A method without content that is sent is one frame. *)
Lemma write_frame_none_ok frame_max ch sig args (w w' : writer W) u :
  write_frame other_codec frame_max 1 ch (Some sig) (VBytes args) None w = (w', Ok u) ->
  exists sb wire, pack_sig sig = Ok sb /\ pack_frame (Frame 1 ch (sb ++ args)) = Ok wire /\
    sent w' = sent w ++ wire /\ w_bytes_sent w' = w_bytes_sent w + 1.
Proof.
  intros H. unfold write_frame, write_fast in H. cbn [arg_str_to_bytes] in H.
  apply st_bind_ok_inv in H as (w4 & ? & H & Hc). apply st_bind_ok_inv in H as (w0 & ? & Hr & H).
  assert (sent w0 = sent w /\ w_bytes_sent w0 = w_bytes_sent w) as [<- <-].
  { unfold resize in Hr. destruct (_ <? _); by simplify_eq. }
  clear Hr w. apply st_bind_ok_inv in H as (w1 & m & Hm & H). unfold lift in Hm. injection Hm as <- Hm.
  apply st_bind_ok_inv in H as (w1 & off1 & H1 & H).
  apply pack_into_ok in H1 as (b1 & Hb1 & -> & _ & Ht1 & Hc1 & Hk1); [|done].
  apply st_bind_ok_inv in H as (w2 & off & H2 & H). unfold mret, st_ret in H2. simplify_eq.
  apply st_bind_ok_inv in H as (? & buf & Hg & H). unfold gets in Hg. injection Hg as <- <-.
  apply write_ok in H as (Hs & _ & Hcs). unfold count_sent, modify in Hc. injection Hc as <- _.
  unfold method_frame in Hm. cbn in Hm. apply bind_ok_inv in Hm as (sb & Hsb & Hm).
  unfold mret, result_ret in Hm. injection Hm as <-.
  exists sb, b1. split_and!; [done|done| |cbn; lia]. unfold sent in *. cbn [w_transport].
  rewrite Hs, Ht1. f_equal. cbn in Hk1. exact Hk1.
Qed.
End writer_theorems.

Section writer_properties.
Context {W : Type} `{!ByteSink W} (other_codec : pystr -> pystr -> py bytes).

Lemma write_frame_content_eq frame_max ch sig args content content' body props (w : writer W) :
  encode_body other_codec content = (content', Ok (VBytes body)) ->
  serialize_properties PROPERTIES (msg_properties content') = Ok props ->
  write_frame other_codec frame_max 1 ch (Some sig) (VBytes args) (Some content) w =
    ((if frame_max - 8 <? zlen args + zlen props + zlen body + FRAME_OVERHEAD
      then write_slow (frame_max - 8) 1 ch (Some sig) (VBytes args) (VBytes body) (zlen body) props
      else write_fast (frame_max - 8) 1 ch (Some sig) (VBytes args) (Some (VBytes body, props))) ;;
     count_sent) w.
Proof. intros He Hp. unfold write_frame. rewrite He, Hp. reflexivity. Qed.

Lemma write_content_frames frame_max ch sig args content content' body props (w w' : writer W) u :
  8 < frame_max ->
  encode_body other_codec content = (content', Ok (VBytes body)) ->
  serialize_properties PROPERTIES (msg_properties content') = Ok props ->
  body <> [] \/ zlen args + zlen props + FRAME_OVERHEAD <= frame_max - 8 ->
  write_frame other_codec frame_max 1 ch (Some sig) (VBytes args) (Some content) w = (w', Ok u) ->
  exists chunks frames wire,
    content_frames ch sig args props chunks = Ok frames /\
    concat chunks = body /\ Forall (fun c => 0 < zlen c <= frame_max - 8) chunks /\
    pack_frames frames = Ok wire /\
    sent w' = sent w ++ wire /\ w_bytes_sent w' = w_bytes_sent w + 1.
Proof.
  intros Hfm He Hp Hor H. rewrite (write_frame_content_eq _ _ _ _ _ _ _ _ _ He Hp) in H.
  apply st_bind_ok_inv in H as (w1 & ? & H & Hc). unfold count_sent, modify in Hc.
  injection Hc as <- _. unfold sent. cbn [w_transport w_bytes_sent]. fold (sent w1) (sent w).
  destruct (_ <? _) eqn:Hb.
  - apply Z.ltb_lt in Hb. destruct (decide (body = [])) as [->|Hne].
    { destruct Hor as [?|Hor]; [done|]. cbn in Hb. lia. }
    apply write_slow_ok in H as (chunks & frames & wire & ? & ? & ? & ? & ? & ?); [|lia|done].
    exists chunks, frames, wire. split_and!; try done. lia.
  - apply Z.ltb_ge in Hb. apply write_fast_ok in H as (frames & wire & ? & ? & ? & ?).
    exists (one_chunk body), frames, wire.
    split_and!; [done|apply concat_one_chunk| |done|done|lia].
    unfold FRAME_OVERHEAD in Hb. destruct body; cbn [one_chunk]; [constructor|].
    repeat constructor; cbn in *; lia.
Qed.

(** C29: when [write_frame] returns for a method with content, the transport
    has sent exactly the method frame, the content header frame with the
    body length and the serialized properties, and the body cut into
    non-empty frames of at most [frame_max - 8] octets that concatenate to
    it, on the slow path as on the fast one.  The exception is the case of
    [write_frame_no_header]: an empty body on the slow path. *)
Theorem write_frame_content frame_max ch sig args content content' body props (w w' : writer W) u :
  8 < frame_max ->
  encode_body other_codec content = (content', Ok (VBytes body)) ->
  serialize_properties PROPERTIES (msg_properties content') = Ok props ->
  body <> [] \/ zlen args + zlen props + FRAME_OVERHEAD <= frame_max - 8 ->
  write_frame other_codec frame_max 1 ch (Some sig) (VBytes args) (Some content) w = (w', Ok u) ->
  exists chunks frames wire,
    content_frames ch sig args props chunks = Ok frames /\
    concat chunks = body /\ Forall (fun c => 0 < zlen c <= frame_max - 8) chunks /\
    pack_frames frames = Ok wire /\
    sent w' = sent w ++ wire /\ w_bytes_sent w' = w_bytes_sent w + 1.
Proof. apply write_content_frames. Qed.
End writer_properties.

Lemma method_frame_length sig args m :
  method_frame 1 (Some sig) (VBytes args) = Ok m -> zlen m = 4 + zlen args.
Proof.
  unfold method_frame. cbn. intros H. apply bind_ok_inv in H as (sb & Hs & H).
  unfold mret, result_ret in H. injection H as <-.
  apply bind_ok_inv in Hs as (c & Hc & Hs). apply bind_ok_inv in Hs as (x & Hx & Hs).
  unfold mret, result_ret in Hs. injection Hs as <-.
  apply pack_u_length in Hc, Hx. rewrite !length_app. lia.
Qed.

Lemma pack_header_length c n hdr : pack_header c n = Ok hdr -> zlen hdr = 12.
Proof.
  unfold pack_header. intros H. apply bind_ok_inv in H as (b & Hb & H).
  apply bind_ok_inv in H as (x & Hx & H). unfold mret, result_ret in H. injection H as <-.
  apply pack_u_length in Hb, Hx. rewrite !length_app. cbn [length]. lia.
Qed.

Lemma header_frame_length sig n props h :
  header_frame (Some sig) n props = Ok h -> zlen h = 12 + zlen props.
Proof.
  unfold header_frame. cbn. intros H. apply bind_ok_inv in H as (hdr & Hh & H).
  unfold mret, result_ret in H. injection H as <-.
  rewrite length_app, Nat2Z.inj_add, (pack_header_length _ _ _ Hh). done.
Qed.

(** The octets of the frames of an unsplit content. *)
Lemma content_frames_length ch sig args props body frames wire :
  content_frames ch sig args props (one_chunk body) = Ok frames ->
  pack_frames frames = Ok wire ->
  zlen wire = zlen args + zlen props + zlen body +
              (if decide (body = []) then 32 else FRAME_OVERHEAD).
Proof.
  unfold content_frames, FRAME_OVERHEAD. intros H Hp. apply bind_ok_inv in H as (m & Hm & H).
  apply bind_ok_inv in H as (h & Hh & H). unfold mret, result_ret in H. injection H as <-.
  apply method_frame_length in Hm. apply header_frame_length in Hh.
  cbn [pack_frames] in Hp. apply bind_ok_inv in Hp as (b1 & H1 & Hp).
  apply bind_ok_inv in Hp as (bs & Hbs & Hp). unfold mret, result_ret in Hp. injection Hp as <-.
  apply bind_ok_inv in Hbs as (b2 & H2 & Hbs). apply bind_ok_inv in Hbs as (b3 & H3 & Hbs).
  unfold mret, result_ret in Hbs. injection Hbs as <-.
  apply pack_frame_length in H1, H2. cbn [f_payload] in H1, H2. rewrite !length_app.
  destruct body as [|b body].
  - cbn in H3. injection H3 as <-. rewrite decide_True by done. cbn. lia.
  - rewrite decide_False by done. cbn [one_chunk fmap list_fmap pack_frames] in H3.
    apply bind_ok_inv in H3 as (b4 & H4 & H3). cbn in H3. injection H3 as <-.
    apply pack_frame_length in H4. cbn [f_payload] in H4. rewrite app_nil_r. lia.
Qed.

Section writer_properties_fast.
Context {W : Type} `{!ByteSink W} (other_codec : pystr -> pystr -> py bytes).

Lemma resize_spec cs (w : writer W) :
  exists buf, resize cs w = (Writer (w_transport w) buf (w_bytes_sent w), Ok tt) /\
    cs <= zlen buf /\ zlen (w_buf w) <= zlen buf /\
    (zlen buf = zlen (w_buf w) \/ zlen buf = cs).
Proof.
  unfold resize. destruct (_ <? _) eqn:Hlt; bool_to_prop.
  - eexists. split; [done|]. rewrite length_replicate. lia.
  - exists (w_buf w). destruct w. split; [done|]. cbn in *. lia.
Qed.

Lemma pack_into_step off f (w : writer W) bs :
  0 <= off -> pack_frame f = Ok bs -> off + zlen bs <= zlen (w_buf w) ->
  exists buf', pack_into off f w =
      (Writer (w_transport w) buf' (w_bytes_sent w), Ok (off + zlen bs)) /\
    length buf' = length (w_buf w) /\
    take (Z.to_nat (off + zlen bs)) buf' = take (Z.to_nat off) (w_buf w) ++ bs.
Proof.
  intros Hoff Hf Hle. destruct (pack_into_fits off f w bs Hoff Hf Hle) as ([t b c] & Hp & Hl).
  destruct (pack_into_ok off f w _ _ Hoff Hp) as (bs' & Hf' & _ & _ & Ht & Hc & Hk).
  cbn in Ht, Hc, Hk, Hl. rewrite Hf in Hf'. injection Hf' as <-. subst t c.
  by exists b.
Qed.

Lemma write_fast_fits cs ch sig args body props frames wire (w : writer W) :
  content_frames ch sig args props (one_chunk body) = Ok frames ->
  pack_frames frames = Ok wire -> zlen wire <= cs ->
  exists buf, zlen (w_buf w) <= zlen buf /\
    write_fast cs 1 ch (Some sig) (VBytes args) (Some (VBytes body, props)) w =
      write wire (Writer (w_transport w) buf (w_bytes_sent w)).
Proof.
  intros Hf Hw Hle. unfold content_frames in Hf. apply bind_ok_inv in Hf as (m & Hm & H).
  apply bind_ok_inv in H as (h & Hh & H). unfold mret, result_ret in H. injection H as <-.
  cbn [pack_frames] in Hw. apply bind_ok_inv in Hw as (b1 & H1 & Hw).
  apply bind_ok_inv in Hw as (bs & Hbs & Hw). unfold mret, result_ret in Hw. injection Hw as <-.
  apply bind_ok_inv in Hbs as (b2 & H2 & Hbs). apply bind_ok_inv in Hbs as (b3 & H3 & Hbs).
  unfold mret, result_ret in Hbs. injection Hbs as <-. rewrite !length_app in Hle.
  rewrite concat_one_chunk in Hh.
  destruct (resize_spec cs w) as (buf & Hr & Hb1 & Hb2 & _).
  unfold write_fast. rewrite (st_bind_ok _ _ _ _ _ Hr), Hm.
  rewrite (st_bind_lift _ m) by done.
  destruct (pack_into_step 0 (Frame 1 ch m) (Writer (w_transport w) buf (w_bytes_sent w)) b1)
    as (buf1 & E1 & Hl1 & Hk1); [done|done|cbn; lia|]. cbn [w_buf w_transport w_bytes_sent] in *.
  rewrite (st_bind_ok _ _ _ _ _ E1).
  rewrite st_bind_bind, (st_bind_lift _ (zlen body)) by done.
  rewrite st_bind_bind, (st_bind_lift _ h) by done. rewrite st_bind_bind.
  destruct (pack_into_step (0 + zlen b1) (Frame 2 ch h)
    (Writer (w_transport w) buf1 (w_bytes_sent w)) b2)
    as (buf2 & E2 & Hl2 & Hk2); [lia|done|cbn; lia|]. cbn [w_buf w_transport w_bytes_sent] in *.
  rewrite (st_bind_ok _ _ _ _ _ E2).
  rewrite Hk1 in Hk2. destruct body as [|b body].
  - cbn in H3. injection H3 as <-. exists buf2. split; [lia|].
    change (0 <? zlen []) with false. cbv iota. rewrite st_bind_ret, st_bind_gets. cbn [w_buf].
    by rewrite Hk2, app_nil_r.
  - cbn [one_chunk fmap list_fmap pack_frames] in H3.
    apply bind_ok_inv in H3 as (b4 & H4 & H3). cbn in H3. injection H3 as <-.
    rewrite app_nil_r in *. rewrite (proj2 (Z.ltb_lt 0 _)) by (cbn; lia).
    rewrite st_bind_bind, (st_bind_lift _ (b :: body)) by done.
    destruct (pack_into_step (0 + zlen b1 + zlen b2) (Frame 3 ch (b :: body))
      (Writer (w_transport w) buf2 (w_bytes_sent w)) b4)
      as (buf3 & E3 & Hl3 & Hk3); [lia|done|cbn; lia|]. cbn [w_buf w_transport w_bytes_sent] in *.
    rewrite (st_bind_ok _ _ _ _ _ E3).
    exists buf3. split; [lia|]. rewrite st_bind_gets. cbn [w_buf].
    by rewrite Hk3, Hk2, <- app_assoc.
Qed.

(** C30: the fast path never overflows the preallocated buffer: when the
    frames can be packed at all and the estimate [FRAME_OVERHEAD] fits, the
    frames are packed into the buffer and sent by one [write]; only that
    write can raise.  The estimate is exact for a non-empty body. *)
Theorem write_frame_fast frame_max ch sig args content content' body props frames wire
    (w : writer W) :
  encode_body other_codec content = (content', Ok (VBytes body)) ->
  serialize_properties PROPERTIES (msg_properties content') = Ok props ->
  content_frames ch sig args props (one_chunk body) = Ok frames ->
  pack_frames frames = Ok wire ->
  zlen args + zlen props + zlen body + FRAME_OVERHEAD <= frame_max - 8 ->
  (exists buf, zlen (w_buf w) <= zlen buf /\
    write_frame other_codec frame_max 1 ch (Some sig) (VBytes args) (Some content) w =
      (write wire ;; count_sent) (Writer (w_transport w) buf (w_bytes_sent w))) /\
  (body <> [] -> zlen wire = zlen args + zlen props + zlen body + FRAME_OVERHEAD).
Proof.
  intros He Hp Hf Hw Hfit. pose proof (content_frames_length _ _ _ _ _ _ _ Hf Hw) as Hl.
  split; [|intros; by rewrite decide_False in Hl].
  rewrite (write_frame_content_eq _ _ _ _ _ _ _ _ _ _ He Hp).
  rewrite (proj2 (Z.ltb_ge (frame_max - 8) _)) by lia.
  destruct (write_fast_fits (frame_max - 8) ch sig args body props frames wire w Hf Hw)
    as (buf & Hb & E); [unfold FRAME_OVERHEAD in *; case_decide; lia|].
  exists buf. split; [done|]. unfold mbind, st_bind. by rewrite E.
Qed.

(** On the slow path the content header belongs to [if body:], so for an
    empty body only the method frame is sent, although the method announces
    content and the fast path sends the header. *)
Theorem write_frame_no_header frame_max ch sig args content content' props (w w' : writer W) u :
  encode_body other_codec content = (content', Ok (VBytes [])) ->
  serialize_properties PROPERTIES (msg_properties content') = Ok props ->
  frame_max - 8 < zlen args + zlen props + FRAME_OVERHEAD ->
  write_frame other_codec frame_max 1 ch (Some sig) (VBytes args) (Some content) w = (w', Ok u) ->
  exists m wire,
    method_frame 1 (Some sig) (VBytes args) = Ok m /\ pack_frame (Frame 1 ch m) = Ok wire /\
    sent w' = sent w ++ wire.
Proof.
  intros He Hp Hlt H. rewrite (write_frame_content_eq _ _ _ _ _ _ _ _ _ _ He Hp) in H.
  rewrite (proj2 (Z.ltb_lt (frame_max - 8) _)) in H by (cbn; lia).
  apply st_bind_ok_inv in H as (w1 & ? & H & Hc). injection Hc as <- _.
  unfold write_slow in H. apply st_bind_ok_inv in H as (w2 & m & Hm & H).
  unfold lift in Hm. injection Hm as <- Hm. exists m.
  apply st_bind_ok_inv in H as (w3 & ? & H & Hr). cbn in Hr. injection Hr as <- _.
  apply write_slow_frame_ok in H as (bs & Hbs & Hs & _). exists bs. split_and!; [done..|].
  unfold sent in *. cbn. done.
Qed.
End writer_properties_fast.

Section writer_property_method.
Context {W : Type} `{!ByteSink W} (other_codec : pystr -> pystr -> py bytes).

Lemma write_frame_one frame_max ch sig args m wire (w : writer W) :
  method_frame 1 (Some sig) (VBytes args) = Ok m -> pack_frame (Frame 1 ch m) = Ok wire ->
  if zlen args + 12 <=? Z.max (zlen (w_buf w)) (frame_max - 8)
  then exists buf, write_frame other_codec frame_max 1 ch (Some sig) (VBytes args) None w =
         (write wire ;; count_sent) (Writer (w_transport w) buf (w_bytes_sent w))
  else exists buf, write_frame other_codec frame_max 1 ch (Some sig) (VBytes args) None w =
         (Writer (w_transport w) buf (w_bytes_sent w), Raise StructError).
Proof.
  intros Hm Hp. pose proof (method_frame_length _ _ _ Hm) as Hl.
  pose proof (pack_frame_length _ _ Hp) as Hl'. cbn [f_payload] in Hl'.
  unfold write_frame. cbn [arg_str_to_bytes]. unfold write_fast. rewrite Hm.
  destruct (resize_spec (frame_max - 8) w) as (buf & Hr & Hb1 & Hb2 & Hb3).
  destruct (_ <=? _) eqn:Hle; bool_to_prop.
  - destruct (pack_into_step 0 (Frame 1 ch m) (Writer (w_transport w) buf (w_bytes_sent w)) wire)
      as (buf1 & E & Hl1 & Hk1); [done|done|cbn; lia|]. exists buf1.
    rewrite st_bind_bind, (st_bind_ok _ _ _ _ _ Hr), st_bind_bind, (st_bind_lift _ m) by done.
    rewrite st_bind_bind, (st_bind_ok _ _ _ _ _ E), st_bind_bind, st_bind_ret, st_bind_bind.
    rewrite st_bind_gets. cbn [w_buf] in *. by rewrite Hk1.
  - exists buf.
    rewrite st_bind_bind, (st_bind_ok _ _ _ _ _ Hr), st_bind_bind, (st_bind_lift _ m) by done.
    rewrite st_bind_bind. apply st_bind_raise. unfold pack_into. rewrite Hp.
    rewrite (proj2 (Z.leb_gt _ _)); [done|]. cbn. lia.
Qed.

(** A method without content is one frame, never split.  It is sent by
    one [write] when it fits the buffer, and when it is longer than both the
    buffer and [frame_max - 8], [pack_into] raises [struct.error] and nothing
    is sent or counted. *)
Theorem write_frame_method frame_max ch sig args m wire (w : writer W) :
  method_frame 1 (Some sig) (VBytes args) = Ok m -> pack_frame (Frame 1 ch m) = Ok wire ->
  if zlen args + 12 <=? Z.max (zlen (w_buf w)) (frame_max - 8)
  then exists buf, write_frame other_codec frame_max 1 ch (Some sig) (VBytes args) None w =
         (write wire ;; count_sent) (Writer (w_transport w) buf (w_bytes_sent w))
  else exists buf, write_frame other_codec frame_max 1 ch (Some sig) (VBytes args) None w =
         (Writer (w_transport w) buf (w_bytes_sent w), Raise StructError).
Proof. apply write_frame_one. Qed.
End writer_property_method.

(** ** Witnesses *)

Definition no_codec : pystr -> pystr -> py bytes := fun _ _ => Raise KeyError.

(** A [basic.publish] with a text body. *)
Definition sample_content : message := new_message None [] (VStr (str_of "hello")) [("priority", VInt 4)].

Definition sample_sent : message :=
  set_properties sample_content
    [("priority", VInt 4); ("content_encoding", VStr (str_of "utf-8"))].

Definition sample_writer : writer bytes := Writer [] (replicate 60 (byte_of_Z 0)) 0.

Definition sample_serialized : bytes :=
  [byte_of_Z 72; byte_of_Z 0; byte_of_Z 5] ++ bytes_of "utf-8" ++ [byte_of_Z 4].

(** The slow path: [frame_max] leaves room for three octets of body. *)
Lemma write_frame_content_witness :
  exists w', write_frame no_codec 11 1 2 (Some Spec.Basic.Publish) (VBytes (bytes_of "a"))
               (Some sample_content) sample_writer = (w', Ok tt) /\
  exists chunks frames wire,
    content_frames 2 Spec.Basic.Publish (bytes_of "a") sample_serialized chunks = Ok frames /\
    concat chunks = bytes_of "hello" /\ Forall (fun c => 0 < zlen c <= 11 - 8) chunks /\
    pack_frames frames = Ok wire /\
    sent w' = sent sample_writer ++ wire /\ w_bytes_sent w' = w_bytes_sent sample_writer + 1.
Proof.
  eexists. split; [vm_compute; reflexivity|].
  eapply (write_frame_content no_codec 11 2 Spec.Basic.Publish (bytes_of "a") sample_content
    sample_sent (bytes_of "hello") sample_serialized sample_writer);
    [lia|reflexivity|vm_compute; reflexivity|left; discriminate|vm_compute; reflexivity].
Defined.

Lemma write_frame_fast_witness :
  exists frames wire,
    content_frames 2 Spec.Basic.Publish (bytes_of "a") sample_serialized
      (one_chunk (bytes_of "hello")) = Ok frames /\ pack_frames frames = Ok wire /\
  ((exists buf, zlen (w_buf sample_writer) <= zlen buf /\
    write_frame no_codec 100 1 2 (Some Spec.Basic.Publish) (VBytes (bytes_of "a"))
      (Some sample_content) sample_writer =
      (write wire ;; count_sent) (Writer (w_transport sample_writer) buf 0)) /\
   (bytes_of "hello" <> [] -> zlen wire = 55)).
Proof.
  eexists _, _. split; [vm_compute; reflexivity|]. split; [vm_compute; reflexivity|].
  eapply (write_frame_fast no_codec 100 2 Spec.Basic.Publish (bytes_of "a") sample_content
    sample_sent (bytes_of "hello") sample_serialized _ _ sample_writer);
    [reflexivity|vm_compute; reflexivity|vm_compute; reflexivity|vm_compute; reflexivity|].
  vm_compute. discriminate.
Defined.

Lemma write_frame_no_header_witness :
  exists w' m wire,
    write_frame no_codec 40 1 2 (Some Spec.Basic.Publish) (VBytes (bytes_of "a"))
      (Some (new_message None [] (VStr []) [])) sample_writer = (w', Ok tt) /\
    method_frame 1 (Some Spec.Basic.Publish) (VBytes (bytes_of "a")) = Ok m /\
    pack_frame (Frame 1 2 m) = Ok wire /\ sent w' = sent sample_writer ++ wire.
Proof.
  destruct (write_frame_no_header no_codec 40 2 Spec.Basic.Publish (bytes_of "a")
    (new_message None [] (VStr []) [])
    (set_properties (new_message None [] (VStr []) [])
       [("content_encoding", VStr (str_of "utf-8"))])
    ([byte_of_Z 64; byte_of_Z 0; byte_of_Z 5] ++ bytes_of "utf-8") sample_writer
    (Writer [byte_of_Z 1; byte_of_Z 0; byte_of_Z 2; byte_of_Z 0; byte_of_Z 0; byte_of_Z 0; byte_of_Z 5;
             byte_of_Z 0; byte_of_Z 60; byte_of_Z 0; byte_of_Z 40; byte_of_Z 97; byte_of_Z 206]
       (replicate 60 (byte_of_Z 0)) 1) tt)
    as (m & wire & H); [reflexivity|vm_compute; reflexivity|reflexivity|vm_compute; reflexivity|].
  eexists _, m, wire. split; [vm_compute; reflexivity|exact H].
Defined.

Lemma write_frame_method_witness :
  exists buf, write_frame no_codec 20 1 2 (Some Spec.Basic.Publish)
      (VBytes (replicate 60 (byte_of_Z 1))) None sample_writer =
    (Writer [] buf 0, Raise StructError).
Proof.
  apply (write_frame_method no_codec 20 2 Spec.Basic.Publish (replicate 60 (byte_of_Z 1))
    _ _ sample_writer eq_refl eq_refl).
Defined.
