(* ===== verification/Transport.v ===== *)
(** * The transport ([amqp/transport.py])

    Exact reads from a socket that delivers its data in pieces and fails now
    and then ([_read] of [TCPTransport] and [SSLTransport]), the reader of
    frames with its [_read_buffer], the writers, and the life of the
    connection.

    The operating system is the environment of the model: what the peer sends
    and every failure of [recv] come from a list of events, and the calls
    that write consume a list of outcomes.  A call that finds its list empty
    blocks; the model then returns [OutOfFuel]. *)

From S2P Require Import Prelude Exceptions State Struct Values Codec Framing.

Open Scope Z_scope.

(** ** The socket *)

Inductive event : Type :=
  | Data (bs : bytes)  (* bytes that arrive; none at all is the end of the stream *)
  | Err (e : exc).     (* the call fails *)

(** [sock.recv(n)], [sock.read(n)]: at most [n] of the bytes that are there. *)
Definition recv (n : Z) : st (list event) bytes := fun evs =>
  match evs with
  | [] => ([], OutOfFuel)
  | Err e :: evs => (evs, Raise e)
  | Data bs :: evs =>
      if zlen bs <=? n then (evs, Ok bs)
      else (Data (drop (Z.to_nat n) bs) :: evs, Ok (take (Z.to_nat n) bs))
  end.

(** Outcomes of the calls that write: how much was accepted, or a failure. *)
Inductive wevent : Type :=
  | Accept (n : nat)
  | WErr (e : exc).

(** ** State *)

Inductive kind : Set := TCP | SSL.

Record transport : Type := Transport {
  t_kind : kind;
  t_raise_on_initial_eintr : bool;
  t_connected : bool;
  t_open : bool;             (* self.sock is not None *)
  t_read_buffer : bytes;
  t_timeout : option Z;      (* sock.gettimeout() *)
  t_in : list event;         (* what recv will meet *)
  t_outcomes : list wevent;  (* what the writing calls will meet *)
  t_out : bytes;             (* what was written to the socket *)
}.

Definition set_read_buffer (b : bytes) (t : transport) : transport :=
  Transport (t_kind t) (t_raise_on_initial_eintr t) (t_connected t) (t_open t) b (t_timeout t)
    (t_in t) (t_outcomes t) (t_out t).

Definition set_connected (c : bool) (t : transport) : transport :=
  Transport (t_kind t) (t_raise_on_initial_eintr t) c (t_open t) (t_read_buffer t) (t_timeout t)
    (t_in t) (t_outcomes t) (t_out t).

Definition set_open (o : bool) (t : transport) : transport :=
  Transport (t_kind t) (t_raise_on_initial_eintr t) (t_connected t) o (t_read_buffer t)
    (t_timeout t) (t_in t) (t_outcomes t) (t_out t).

Definition set_timeout (x : option Z) (t : transport) : transport :=
  Transport (t_kind t) (t_raise_on_initial_eintr t) (t_connected t) (t_open t) (t_read_buffer t) x
    (t_in t) (t_outcomes t) (t_out t).

Definition set_in (evs : list event) (t : transport) : transport :=
  Transport (t_kind t) (t_raise_on_initial_eintr t) (t_connected t) (t_open t) (t_read_buffer t)
    (t_timeout t) evs (t_outcomes t) (t_out t).

Definition set_out (ws : list wevent) (out : bytes) (t : transport) : transport :=
  Transport (t_kind t) (t_raise_on_initial_eintr t) (t_connected t) (t_open t) (t_read_buffer t)
    (t_timeout t) (t_in t) ws out.

(** ** Constants *)

Definition EINTR : Z := 4.
Definition EAGAIN : Z := 11.
Definition ENOENT : Z := 2.
Definition EWOULDBLOCK : Z := 11.

Definition UNAVAIL : list Z := [EAGAIN; EINTR; ENOENT; EWOULDBLOCK].
Definition SIGNED_INT_MAX : Z := 0x7FFFFFFF.
Definition AMQP_PROTOCOL_HEADER : bytes :=
  bytes_of "AMQP" ++ [byte_of_Z 0; byte_of_Z 0; byte_of_Z 9; byte_of_Z 1].

(** The default of [_errnos] in the two [_read] methods. *)
Definition read_errnos (k : kind) : list Z :=
  match k with TCP => [EAGAIN; EINTR] | SSL => [ENOENT; EAGAIN; EINTR] end.

(** [exc.errno in errnos] of an [OSError]. *)
Definition errno_in (e : exc) (errnos : list Z) : bool :=
  match exc_errno e with Some n => bool_decide (n ∈ errnos) | None => false end.

(** ** _read *)

(** Every call of [recv] takes an event off the list, or part of one. *)
Fixpoint events_size (evs : list event) : nat :=
  match evs with
  | [] => 0
  | Data bs :: evs => S (length bs + events_size evs)
  | Err _ :: evs => S (events_size evs)
  end.

(** [while len(rbuf) < n: ...]: the new [rbuf] in every case. *)
Fixpoint read_loop (fuel : nat) (errnos : list Z) (raise_eintr : bool) (n : Z) (rbuf : bytes)
    (evs : list event) : list event * bytes * py unit :=
  match fuel with
  | O => (evs, rbuf, OutOfFuel)
  | S fuel =>
      if zlen rbuf <? n then
        match recv (n - zlen rbuf) evs with
        | (evs, Ok []) => (evs, rbuf, Raise (OSErr None))
        | (evs, Ok s) => read_loop fuel errnos raise_eintr n (rbuf ++ s) evs
        | (evs, Raise e) =>
            if is_os_error e && errno_in e errnos then
              if raise_eintr then (evs, rbuf, Raise SockTimeout)
              else read_loop fuel errnos raise_eintr n rbuf evs
            else (evs, rbuf, Raise e)
        | (evs, OutOfFuel) => (evs, rbuf, OutOfFuel)
        end
      else (evs, rbuf, Ok tt)
  end.

Definition read (n : Z) (initial : bool) : st transport bytes := fun t =>
  let '(evs, rbuf, r) :=
    read_loop (S (events_size (t_in t))) (read_errnos (t_kind t))
      (initial && t_raise_on_initial_eintr t) n (t_read_buffer t) (t_in t) in
  match r with
  | Ok _ => (set_read_buffer (drop (Z.to_nat n) rbuf) (set_in evs t),
             Ok (take (Z.to_nat n) rbuf))
  | Raise e => (set_read_buffer rbuf (set_in evs t), Raise e)
  | OutOfFuel => (set_read_buffer rbuf (set_in evs t), OutOfFuel)
  end.

(** ** read_frame *)

Section read_frame.
(** [os.name == 'nt'] *)
Context (os_nt : bool).

(** [self._read_buffer = read_frame_buffer + self._read_buffer]. *)
Definition restore (read_frame_buffer : bytes) : st transport unit :=
  modify (fun t => set_read_buffer (read_frame_buffer ++ t_read_buffer t) t).

(** The [except] clauses of [read_frame]. *)
Definition read_frame_except {A} (read_frame_buffer : bytes) (e : exc) : st transport A :=
  match e with
  | SockTimeout => restore read_frame_buffer ;; raise SockTimeout
  | OSErr n =>
      if os_nt && bool_decide (n = Some EWOULDBLOCK) then
        restore read_frame_buffer ;; raise SockTimeout
      else
        when (negb (errno_in e UNAVAIL)) (modify (set_connected false)) ;; raise e
  | SSLErr msg n =>
      if os_nt && bool_decide (n = Some EWOULDBLOCK) then
        restore read_frame_buffer ;; raise SockTimeout
      else if (match msg with SslTimedOut => true | _ => false end) then
        restore read_frame_buffer ;; raise SockTimeout
      else
        when (negb (errno_in e UNAVAIL)) (modify (set_connected false)) ;; raise e
  | e => raise e
  end.

(** A step of the [try] block: its exceptions meet the clauses above, with
    the buffer collected so far. *)
Definition guarded {A} (read_frame_buffer : bytes) (m : st transport A) : st transport A :=
  st_try m (fun _ => true) (fun e => read_frame_except read_frame_buffer e).

(** [unpack('>BHI', frame_header)] of exactly seven bytes. *)
Definition unpack_BHI (buf : bytes) : py (Z * Z * Z) :=
  if zlen buf =? 7 then
    t ← unpack_u 1 buf 0; c ← unpack_u 2 buf 1; n ← unpack_u 4 buf 3; mret (t, c, n)
  else Raise StructError.

(** The payload, in two reads when its size does not fit a signed int.  When
    the second read fails, [part1] joins the collected bytes. *)
Definition read_payload (read_frame_buffer : bytes) (size : Z) : st transport bytes :=
  if SIGNED_INT_MAX <? size then
    part1 ← guarded read_frame_buffer (read SIGNED_INT_MAX false);
    part2 ← st_try (read (size - SIGNED_INT_MAX) false) (fun _ => true)
              (fun e => read_frame_except
                          (if is_os_error e then read_frame_buffer ++ part1
                           else read_frame_buffer) e);
    mret (part1 ++ part2)
  else guarded read_frame_buffer (read size false).

Definition read_frame : st transport frame :=
  frame_header ← guarded [] (read 7 true);
  '(frame_type, channel, size) ← guarded frame_header (lift (unpack_BHI frame_header));
  payload ← read_payload frame_header size;
  b ← guarded (frame_header ++ payload) (read 1 false);
  frame_end ← guarded (frame_header ++ payload)
    (lift (match b with [b] => Ok (byte_to_Z b) | _ => Raise TypeError end));
  if frame_end =? 206 then mret (Frame frame_type channel payload)
  else lift (raise_amqp UnexpectedFrame "Received frame_end {} while expecting 0xce" None).
End read_frame.

(** ** No byte is lost *)

(** The bytes that will still arrive, and those not consumed yet. *)
Fixpoint data (evs : list event) : bytes :=
  match evs with
  | [] => []
  | Data bs :: evs => bs ++ data evs
  | Err _ :: evs => data evs
  end.

Definition stream (t : transport) : bytes := t_read_buffer t ++ data (t_in t).

Lemma recv_data n evs evs' r :
  0 <= n -> recv n evs = (evs', r) ->
  match r with
  | Ok bs => data evs = bs ++ data evs' /\ zlen bs <= n /\
             (bs <> [] \/ evs = Data [] :: evs' \/ n = 0) /\
             (0 < n -> (events_size evs' < events_size evs)%nat)
  | Raise _ => data evs = data evs' /\ (events_size evs' < events_size evs)%nat
  | OutOfFuel => evs = [] /\ evs' = []
  end.
Proof.
  intros Hn. unfold recv. destruct evs as [|[bs|e] evs].
  - intros; by simplify_eq.
  - destruct (_ <=? _) eqn:Hle; intros; simplify_eq; bool_to_prop; cbn.
    + split_and!; [done..| |lia]. destruct bs; auto.
    + rewrite app_assoc, take_drop, length_take, length_drop.
      split_and!; [done|lia| |lia].
      destruct (decide (n = 0)); [auto|]. left. intros E%(f_equal length).
      rewrite length_take in E. cbn in E. lia.
  - intros; simplify_eq; cbn; auto.
Qed.

(** The buffer and the coming bytes make the same stream after every outcome,
    and a loop that does not end blocks in [recv]. *)
Lemma read_loop_spec fuel errnos b n rbuf evs evs' rbuf' r :
  read_loop fuel errnos b n rbuf evs = (evs', rbuf', r) ->
  rbuf' ++ data evs' = rbuf ++ data evs /\
  (r = Ok tt -> n <= zlen rbuf') /\
  ((events_size evs < fuel)%nat -> r = OutOfFuel -> evs' = []).
Proof.
  revert rbuf evs. induction fuel as [|fuel IH]; intros rbuf evs H; cbn [read_loop] in H.
  { simplify_eq. split_and!; [done|done|lia]. }
  destruct (zlen rbuf <? n) eqn:Hlt; bool_to_prop; [|simplify_eq; split_and!; done].
  destruct (recv (n - zlen rbuf) evs) as [evs1 rr] eqn:Hr.
  apply recv_data in Hr; [|lia]. destruct rr as [s|e|].
  - destruct Hr as (Hd & Hs & _ & Hm). specialize (Hm ltac:(lia)).
    destruct s as [|c s]; [simplify_eq; split_and!; try done; by rewrite Hd|].
    destruct (IH _ _ H) as (H1 & H2 & H3). split_and!; [|done|intros; apply H3; [lia|done]].
    by rewrite H1, Hd, app_assoc.
  - destruct Hr as (Hd & Hm). destruct (is_os_error e && errno_in e errnos);
      [destruct b|]; try (simplify_eq; split_and!; try done; by rewrite Hd).
    destruct (IH _ _ H) as (H1 & H2 & H3). split_and!; [|done|intros; apply H3; [lia|done]].
    by rewrite H1, Hd.
  - destruct Hr as (-> & ->). simplify_eq. done.
Qed.

Lemma read_spec n i t t' r :
  0 <= n -> read n i t = (t', r) ->
  match r with
  | Ok bs => zlen bs = n /\ stream t = bs ++ stream t'
  | Raise _ => stream t' = stream t
  | OutOfFuel => stream t' = stream t /\ t_in t' = []
  end.
Proof.
  intros Hn. unfold read.
  destruct (read_loop _ _ _ _ _ _) as [[evs rbuf] rr] eqn:Hl.
  apply read_loop_spec in Hl as (H1 & H2 & H3).
  destruct rr as [[]|e|]; intros; simplify_eq; unfold stream; cbn.
  - specialize (H2 eq_refl). rewrite length_take. split; [lia|].
    by rewrite app_assoc, take_drop.
  - done.
  - split; [done|]. apply H3; [lia|done].
Qed.

Section read_frame_stream.
Context (os_nt : bool).

Lemma except_no_ok {A} buf e t t' (a : A) : read_frame_except os_nt buf e t <> (t', Ok a).
Proof.
  intros H. unfold read_frame_except, restore, when, modify, raise, mbind, st_bind in H.
  repeat case_match; simplify_eq.
Qed.

Lemma guarded_ok {A} buf (m : st transport A) t t' a :
  guarded os_nt buf m t = (t', Ok a) -> m t = (t', Ok a).
Proof.
  unfold guarded, st_try. destruct (m t) as [t1 [a'|e|]]; intros H; simplify_eq; [done|].
  exfalso. by apply except_no_ok in H.
Qed.

(** A timeout puts the collected bytes back in front of the stream. *)
Lemma except_timeout {A} buf e t t' :
  read_frame_except (A := A) os_nt buf e t = (t', Raise SockTimeout) ->
  stream t' = buf ++ stream t.
Proof.
  intros H. unfold read_frame_except, restore, when, modify, raise, mbind, st_bind in H.
  repeat case_match; simplify_eq; unfold stream; cbn; by rewrite app_assoc.
Qed.

Lemma guarded_timeout {A} buf (m : st transport A) t t' :
  (forall t1 e, m t = (t1, Raise e) -> stream t1 = stream t) ->
  guarded os_nt buf m t = (t', Raise SockTimeout) -> stream t' = buf ++ stream t.
Proof.
  intros Hm. unfold guarded, st_try. destruct (m t) as [t1 [a'|e|]] eqn:Ht; intros H; simplify_eq.
  apply except_timeout in H. by rewrite H, (Hm t1 e).
Qed.
End read_frame_stream.

Lemma unpack_BHI_pack h ty ch n :
  unpack_BHI h = Ok (ty, ch, n) ->
  zlen h = 7 /\ 0 <= n /\
  exists t c s, pack_u 1 ty = Ok t /\ pack_u 2 ch = Ok c /\ pack_u 4 n = Ok s /\ h = t ++ c ++ s.
Proof.
  unfold unpack_BHI. destruct (zlen h =? 7) eqn:Hl; [|done]. apply Z.eqb_eq in Hl.
  destruct h as [|b0 [|b1 [|b2 [|b3 [|b4 [|b5 [|b6 [|]]]]]]]]; cbn in Hl; try lia.
  intros H. injection H as <- <- <-.
  assert (forall bs, pack_u (length bs) (be_decode bs) = Ok bs) as Hp.
  { intros bs. rewrite pack_u_in_range by apply be_decode_range. by rewrite be_encode_decode. }
  split; [done|]. split; [apply (be_decode_range [b3; b4; b5; b6])|].
  exists [b0], [b1; b2], [b3; b4; b5; b6].
  split_and!; [apply (Hp [b0])|apply (Hp [b1; b2])|apply (Hp [b3; b4; b5; b6])|done].
Qed.

Section read_frame_spec.
Context (os_nt : bool).

Lemma guarded_read_ok buf n i t t' bs :
  0 <= n -> guarded os_nt buf (read n i) t = (t', Ok bs) ->
  zlen bs = n /\ stream t = bs ++ stream t'.
Proof. intros Hn H%guarded_ok. by apply read_spec in H. Qed.

Lemma guarded_read_timeout buf n i t t' :
  0 <= n -> guarded os_nt buf (read n i) t = (t', Raise SockTimeout) ->
  stream t' = buf ++ stream t.
Proof.
  intros Hn. apply guarded_timeout. intros t1 e H. by apply read_spec in H.
Qed.

Lemma guarded_lift_timeout {A} buf (m : py A) t t' :
  m <> Raise SockTimeout -> guarded os_nt buf (lift m) t = (t', Raise SockTimeout) ->
  stream t' = buf ++ stream t.
Proof. intros Hm. apply guarded_timeout. intros t1 e H. unfold lift in H. by simplify_eq. Qed.

Lemma read_payload_ok buf size t t' p :
  0 <= size -> read_payload os_nt buf size t = (t', Ok p) ->
  zlen p = size /\ stream t = p ++ stream t'.
Proof.
  intros Hs. unfold read_payload. destruct (SIGNED_INT_MAX <? size) eqn:Hlt;
    [|by apply guarded_read_ok]. apply Z.ltb_lt in Hlt. unfold SIGNED_INT_MAX in *.
  intros H. apply st_bind_ok_inv in H as (t1 & p1 & H1 & H).
  apply st_bind_ok_inv in H as (t2 & p2 & H2 & H). unfold mret, st_ret in H. simplify_eq.
  apply guarded_read_ok in H1 as [Hl1 Hs1]; [|done].
  unfold st_try in H2. destruct (read _ false t1) as [t3 [p|e|]] eqn:Hr; simplify_eq.
  - apply read_spec in Hr as [Hl2 Hs2]; [|lia]. rewrite length_app, Hs1, Hs2, app_assoc. split; [lia|done].
  - by apply except_no_ok in H2.
Qed.

Lemma read_payload_timeout buf size t t' :
  0 <= size -> read_payload os_nt buf size t = (t', Raise SockTimeout) ->
  stream t' = buf ++ stream t.
Proof.
  intros Hs. unfold read_payload. destruct (SIGNED_INT_MAX <? size) eqn:Hlt;
    [|by apply guarded_read_timeout]. apply Z.ltb_lt in Hlt. unfold SIGNED_INT_MAX in *.
  intros H. apply st_bind_inv in H as [(t1 & p1 & H1 & H)|[(e & H1 & He)|[_ ?]]]; [| |done].
  - apply guarded_read_ok in H1 as [Hl1 Hs1]; [|done].
    apply st_bind_inv in H as [(t2 & p2 & _ & H)|[(e & H2 & He)|[_ ?]]]; [done| |done].
    injection He as <-. unfold st_try in H2.
    destruct (read _ false t1) as [t3 [p|e|]] eqn:Hr; simplify_eq.
    apply read_spec in Hr; [|lia]. pose proof (except_timeout os_nt _ _ _ _ H2) as Ht.
    rewrite Ht, Hr, Hs1.
    destruct e; try discriminate H2; cbn; by rewrite <- app_assoc.
  - injection He as <-. by apply guarded_read_timeout in H1.
Qed.

Lemma read_frame_ok t t' f :
  read_frame os_nt t = (t', Ok f) ->
  exists raw, pack_frame f = Ok raw /\ stream t = raw ++ stream t'.
Proof.
  unfold read_frame. intros H.
  apply st_bind_ok_inv in H as (t1 & h & H1 & H). apply guarded_read_ok in H1 as [_ Hs1]; [|done].
  apply st_bind_ok_inv in H as (t2 & [[ty ch] n] & H2 & H). apply guarded_ok in H2.
  unfold lift in H2. injection H2 as <- H2.
  apply unpack_BHI_pack in H2 as (_ & Hn & tb & cb & sb & Ht & Hc & Hs & ->).
  apply st_bind_ok_inv in H as (t2 & p & H2 & H). apply read_payload_ok in H2 as [Hp Hs2]; [|done].
  apply st_bind_ok_inv in H as (t3 & b & H3 & H). apply guarded_read_ok in H3 as [Hb Hs3]; [|done].
  apply st_bind_ok_inv in H as (t4 & e & H4 & H). apply guarded_ok in H4.
  unfold lift in H4. injection H4 as <- H4. destruct b as [|b [|]]; simplify_eq.
  destruct (byte_to_Z b =? 206) eqn:He; [|done]. apply Z.eqb_eq in He.
  unfold mret, st_ret in H. simplify_eq.
  exists (tb ++ cb ++ sb ++ p ++ [byte_of_Z 0xce]). unfold pack_frame. cbn [f_type f_channel f_payload].
  rewrite Ht, Hc, Hs. split; [done|]. rewrite Hs1, Hs2, Hs3.
  replace [byte_of_Z 206] with [b] by (by rewrite <- He, byte_of_to). by rewrite <- !app_assoc.
Qed.

Lemma read_frame_timeout t t' :
  read_frame os_nt t = (t', Raise SockTimeout) -> stream t' = stream t.
Proof.
  unfold read_frame. intros H.
  apply st_bind_inv in H as [(t1 & h & H1 & H)|[(e & H1 & He)|[_ ?]]]; [| |done].
  2: { injection He as <-. by apply guarded_read_timeout in H1. }
  apply guarded_read_ok in H1 as [_ Hs1]; [|done]. rewrite Hs1.
  apply st_bind_inv in H as [(t2 & [[ty ch] n] & H2 & H)|[(e & H2 & He)|[_ ?]]]; [| |done].
  2: { injection He as <-. apply guarded_lift_timeout in H2; [done|].
       unfold unpack_BHI, unpack_u. by repeat case_match. }
  apply guarded_ok in H2. unfold lift in H2. injection H2 as <- H2.
  apply unpack_BHI_pack in H2 as (_ & Hn & _).
  apply st_bind_inv in H as [(t2 & p & H2 & H)|[(e & H2 & He)|[_ ?]]]; [| |done].
  2: { injection He as <-. by apply read_payload_timeout in H2. }
  apply read_payload_ok in H2 as [Hp Hs2]; [|done]. rewrite Hs2, app_assoc.
  apply st_bind_inv in H as [(t3 & b & H3 & H)|[(e & H3 & He)|[_ ?]]]; [| |done].
  2: { injection He as <-. by apply guarded_read_timeout in H3. }
  apply guarded_read_ok in H3 as [Hb Hs3]; [|done]. destruct b as [|b [|]]; try (cbn in Hb; lia).
  apply st_bind_inv in H as [(t4 & e & _ & H)|[(e & H4 & He)|[_ ?]]]; [| |done].
  { by destruct (e =? 206). }
  injection He as <-. unfold guarded, st_try, lift in H4. done.
Qed.
End read_frame_spec.

(** ** Frames on the stream *)

(** The frame at the front of a stream is determined. *)
Lemma pack_frame_prefix f g wf wg r1 r2 :
  pack_frame f = Ok wf -> pack_frame g = Ok wg -> wf ++ r1 = wg ++ r2 -> f = g /\ r1 = r2.
Proof.
  destruct f as [ty ch p], g as [ty' ch' p']. unfold pack_frame. cbn [f_type f_channel f_payload].
  intros H H'.
  apply bind_ok_inv in H as (t & Ht & H). apply bind_ok_inv in H as (c & Hc & H).
  apply bind_ok_inv in H as (n & Hn & H). unfold mret, result_ret in H. injection H as <-.
  apply bind_ok_inv in H' as (t' & Ht' & H'). apply bind_ok_inv in H' as (c' & Hc' & H').
  apply bind_ok_inv in H' as (n' & Hn' & H'). unfold mret, result_ret in H'. injection H' as <-.
  rewrite <- !app_assoc. intros E.
  pose proof (pack_u_length _ _ _ Ht) as L1. pose proof (pack_u_length _ _ _ Ht') as L1'.
  pose proof (pack_u_length _ _ _ Hc) as L2. pose proof (pack_u_length _ _ _ Hc') as L2'.
  pose proof (pack_u_length _ _ _ Hn) as L3. pose proof (pack_u_length _ _ _ Hn') as L3'.
  apply app_inj_1 in E as [<- E]; [|congruence]. apply app_inj_1 in E as [<- E]; [|congruence].
  apply app_inj_1 in E as [<- E]; [|congruence].
  assert (forall w x y b, pack_u w x = Ok b -> pack_u w y = Ok b -> x = y) as Hinj.
  { intros w x y b Hx Hy. rewrite <- (be_decode_encode w x), <- (be_decode_encode w y).
    - apply pack_u_ok in Hx as [_ <-], Hy as [_ <-]. done.
    - by apply pack_u_ok in Hy as [? _].
    - by apply pack_u_ok in Hx as [? _]. }
  rewrite (Hinj _ _ _ _ Ht Ht'), (Hinj _ _ _ _ Hc Hc').
  pose proof (Hinj _ _ _ _ Hn Hn') as Hp.
  apply app_inj_1 in E as [<- E]; [|lia]. apply app_inj_1 in E as [_ E]; done.
Qed.

Lemma unpack_BHI_packed ty ch n t c s :
  pack_u 1 ty = Ok t -> pack_u 2 ch = Ok c -> pack_u 4 n = Ok s ->
  unpack_BHI (t ++ c ++ s) = Ok (ty, ch, n).
Proof.
  intros Ht Hc Hs. pose proof (pack_u_length _ _ _ Ht) as Lt.
  pose proof (pack_u_length _ _ _ Hc) as Lc. pose proof (pack_u_length _ _ _ Hs) as Ls.
  unfold unpack_BHI. rewrite (proj2 (Z.eqb_eq _ _)) by (rewrite !length_app; lia).
  rewrite (unpack_pack_u 1 ty t), (unpack_pack_u 2 ch c), (unpack_pack_u 4 n s); try done.
  - exists (t ++ c), []. rewrite app_nil_r, length_app, app_assoc. split; [done|lia].
  - exists t, s. split; [done|lia].
  - by exists [], (c ++ s).
Qed.

Section read_frame_live.
Context (os_nt : bool).

(** [Connection.blocking_read] after a timeout: [read_frame] again. *)
Fixpoint retry (k : nat) : st transport frame :=
  match k with
  | O => raise SockTimeout
  | S k => st_try (read_frame os_nt)
             (fun e => match e with SockTimeout => true | _ => false end) (fun _ => retry k)
  end.

Lemma retry_ok k t t' f :
  retry k t = (t', Ok f) -> exists raw, pack_frame f = Ok raw /\ stream t = raw ++ stream t'.
Proof.
  revert t. induction k as [|k IH]; intros t; cbn [retry]; [done|]. unfold st_try.
  destruct (read_frame os_nt t) as [t1 [g|e|]] eqn:H; [| |done].
  - intros. simplify_eq. by apply read_frame_ok in H.
  - destruct e; try done. intros Hr. apply read_frame_timeout in H. rewrite <- H. by apply IH.
Qed.

(** What a peer that stays connected and sends enough can cause: pieces of
    data, timeouts and interrupted calls. *)
Definition benign (k : kind) (ev : event) : bool :=
  match ev with
  | Data bs => negb (bool_decide (bs = []))
  | Err SockTimeout => true
  | Err (OSErr (Some n)) => bool_decide (n ∈ read_errnos k)
  | Err (SSLErr SslTimedOut _) => true
  | Err _ => false
  end.

Definition timed_out (e : exc) : bool :=
  match e with SockTimeout | SSLErr SslTimedOut _ => true | _ => false end.

Definition calm (t : transport) : Prop := forallb (benign (t_kind t)) (t_in t) = true.

Lemma read_loop_live k b n fuel rbuf evs evs' rbuf' r :
  forallb (benign k) evs = true -> (events_size evs < fuel)%nat ->
  n <= zlen (rbuf ++ data evs) ->
  read_loop fuel (read_errnos k) b n rbuf evs = (evs', rbuf', r) ->
  forallb (benign k) evs' = true /\
  match r with
  | Ok _ => (events_size evs' <= events_size evs)%nat
  | Raise e => timed_out e = true /\ (events_size evs' < events_size evs)%nat
  | OutOfFuel => False
  end.
Proof.
  revert rbuf evs. induction fuel as [|fuel IH]; intros rbuf evs Hb Hf Hn H; [lia|].
  cbn [read_loop] in H. destruct (zlen rbuf <? n) eqn:Hlt; bool_to_prop; [|by simplify_eq].
  destruct (recv (n - zlen rbuf) evs) as [evs1 rr] eqn:Hr.
  assert (forallb (benign k) evs1 = true) as Hb1.
  { unfold recv in Hr. destruct evs as [|[bs|e] evs]; simplify_eq; [done| |].
    - cbn in Hb. apply andb_true_iff in Hb as [Hb0 Hb]. destruct (_ <=? _) eqn:Hle; simplify_eq; [done|].
      cbn. rewrite Hb, andb_true_r. apply negb_true_iff, bool_decide_eq_false_2.
      intros E%(f_equal length). rewrite length_drop in E. bool_to_prop. cbn in E. lia.
    - cbn in Hb. by apply andb_true_iff in Hb as [_ Hb]. }
  pose proof Hr as Hr0. apply recv_data in Hr; [|lia]. destruct rr as [s|e|].
  - destruct Hr as (Hd & Hs & Hne & Hm). specialize (Hm ltac:(lia)).
    assert (s <> []) as Hs0.
    { destruct Hne as [?|[->|?]]; [done| |lia]. cbn in Hb. done. }
    destruct s as [|c s]; [done|].
    apply IH in H as [? H]; [|done|lia|by rewrite <- app_assoc, <- Hd]. split; [done|].
    destruct r; [lia|destruct H; split; [done|lia]|done].
  - destruct Hr as (Hd & Hm). destruct (is_os_error e && errno_in e (read_errnos k)) eqn:He.
    + destruct b; [by simplify_eq|].
      apply IH in H as [? H]; [|done|lia|by rewrite <- Hd]. split; [done|].
      destruct r; [lia|destruct H; split; [done|lia]|done].
    + simplify_eq. split_and!; [done| |done].
      unfold recv in Hr0. destruct evs as [|[bs|e'] evs]; [done|by destruct (_ <=? _)|].
      simplify_eq. cbn in Hb. apply andb_true_iff in Hb as [Hb _]. destruct e as [| | | | | | | | | | | | |[?|]| |[]| | |];
        try done. cbn in Hb, He. unfold errno_in in He. cbn in He. congruence.
  - destruct Hr as [-> ->]. simplify_eq. cbn in Hn. rewrite app_nil_r in Hn. lia.
Qed.

Lemma read_live n i t t' r :
  calm t -> 0 <= n <= zlen (stream t) -> read n i t = (t', r) ->
  calm t' /\ t_kind t' = t_kind t /\
  match r with
  | Ok _ => (events_size (t_in t') <= events_size (t_in t))%nat
  | Raise e => timed_out e = true /\ (events_size (t_in t') < events_size (t_in t))%nat
  | OutOfFuel => False
  end.
Proof.
  intros Hc Hn. unfold read. destruct (read_loop _ _ _ _ _ _) as [[evs rbuf] rr] eqn:Hl.
  apply (read_loop_live (t_kind t)) in Hl as [Hb Hl]; [|done|lia|apply Hn].
  destruct rr as [u|e|]; intros; simplify_eq; done.
Qed.
End read_frame_live.

Section read_frame_progress.
Context (os_nt : bool).

(** A computation that makes progress: it returns, or it times out and has
    used up an event. *)
Definition settles {A} (n : nat) (x : transport * py A) : Prop :=
  calm x.1 /\
  match x.2 with
  | Ok _ => (events_size (t_in x.1) <= n)%nat
  | Raise SockTimeout => (events_size (t_in x.1) < n)%nat
  | _ => False
  end.

Lemma settles_bind {A B} n (m : st transport A) (f : A -> st transport B) t :
  settles n (m t) ->
  (forall t1 a, m t = (t1, Ok a) -> calm t1 -> (events_size (t_in t1) <= n)%nat ->
     settles n (f a t1)) ->
  settles n ((m ≫= f) t).
Proof.
  unfold settles, mbind, st_bind. destruct (m t) as [t1 [a|e|]]; cbn; intros [H1 H2] Hf.
  - by apply Hf.
  - done.
  - done.
Qed.

Lemma except_settles {A} buf e t n :
  calm t -> timed_out e = true -> (events_size (t_in t) < n)%nat ->
  settles (A := A) n (read_frame_except os_nt buf e t).
Proof.
  intros Hc He Hn. unfold settles, read_frame_except.
  destruct e as [| | | | | | | | | | | | | | |[]| | |]; try done. by destruct (os_nt && _).
Qed.

Lemma guarded_read_settles buf k i t n :
  calm t -> 0 <= k <= zlen (stream t) -> (events_size (t_in t) <= n)%nat ->
  settles n (guarded os_nt buf (read k i) t).
Proof.
  intros Hc Hk Hn. unfold guarded, st_try. destruct (read k i t) as [t1 r] eqn:Hr.
  apply read_live in Hr as (Hc1 & Hk1 & Hr); [|done..]. destruct r as [bs|e|]; [|
    destruct Hr; apply except_settles; [done..|lia]|done].
  split; [done|]. cbn. lia.
Qed.

Lemma read_payload_settles buf size t n :
  calm t -> 0 <= size <= zlen (stream t) -> (events_size (t_in t) <= n)%nat ->
  settles n (read_payload os_nt buf size t).
Proof.
  intros Hc Hk Hn. unfold read_payload.
  destruct (SIGNED_INT_MAX <? size) eqn:Hlt; [|by apply guarded_read_settles].
  apply Z.ltb_lt in Hlt. unfold SIGNED_INT_MAX in *.
  apply settles_bind; [apply guarded_read_settles; [done|lia|done]|].
  intros t1 p1 H1 Hc1 Hn1. apply guarded_read_ok in H1 as [Hl1 Hs1]; [|done].
  rewrite Hs1, length_app in Hk.
  apply settles_bind; [|intros t2 p2 _ Hc2 Hn2; done].
  unfold st_try. destruct (read _ false t1) as [t2 r] eqn:Hr.
  apply read_live in Hr as (Hc2 & Hk2 & Hr); [|done|lia]. destruct r as [bs|e|]; [|
    destruct Hr; apply except_settles; [done..|lia]|done].
  split; [done|]. cbn. lia.
Qed.

Lemma read_frame_settles t f raw rest :
  calm t -> pack_frame f = Ok raw -> stream t = raw ++ rest ->
  settles (events_size (t_in t)) (read_frame os_nt t).
Proof.
  intros Hc Hf Hs. destruct f as [ty ch p]. unfold pack_frame in Hf.
  cbn [f_type f_channel f_payload] in Hf.
  apply bind_ok_inv in Hf as (tb & Ht & H). apply bind_ok_inv in H as (cb & Hcb & H).
  apply bind_ok_inv in H as (sb & Hsb & H). unfold mret, result_ret in H. injection H as <-.
  pose proof (pack_u_length _ _ _ Ht) as Lt. pose proof (pack_u_length _ _ _ Hcb) as Lc.
  pose proof (pack_u_length _ _ _ Hsb) as Ls.
  rewrite <- !app_assoc in Hs. rewrite (app_assoc tb), (app_assoc (tb ++ cb)) in Hs.
  unfold read_frame. apply settles_bind.
  { apply guarded_read_settles; [done| |done]. rewrite Hs, !length_app. lia. }
  intros t1 h H1 Hc1 Hn1. apply guarded_read_ok in H1 as [Hl1 Hs1]; [|done].
  rewrite Hs1 in Hs. apply app_inj_1 in Hs as [-> Hs]; [|rewrite !length_app in *; lia].
  rewrite <- app_assoc, (unpack_BHI_packed ty ch (zlen p)) by done.
  apply settles_bind; [done|]. intros t2 [[ty' ch'] n'] E Hc2 Hn2. cbn in E.
  injection E as <- <- <- <-. apply settles_bind.
  { apply read_payload_settles; [done| |done]. rewrite Hs, length_app. lia. }
  intros t2 p' H2 Hc3 Hn3. apply read_payload_ok in H2 as [Hl2 Hs2]; [|lia].
  rewrite Hs2 in Hs. apply app_inj_1 in Hs as [-> Hs]; [|lia]. apply settles_bind.
  { apply guarded_read_settles; [done| |done]. rewrite Hs, length_app. cbn. lia. }
  intros t3 b H3 Hc4 Hn4. apply guarded_read_ok in H3 as [Hl3 Hs3]; [|done].
  rewrite Hs3 in Hs. destruct b as [|b [|]]; try (cbn in Hl3; lia). injection Hs as -> Hs.
  apply settles_bind; [done|]. intros t4 e E Hc5 Hn5. cbn in E. injection E as <- <-.
  rewrite byte_to_of_small by lia. done.
Qed.

(** C21: no byte of the stream is lost or invented.  When [read_frame]
    returns, the bytes it consumed are the encoding of the returned frame;
    when it times out, wherever the timeout falls (in the header, between the
    two parts of a payload too large for a signed int, before the frame end),
    [_read_buffer] and the bytes still to come make the same stream as
    before. *)
Theorem read_frame_lossless t :
  match read_frame os_nt t with
  | (t', Ok f) => exists raw, pack_frame f = Ok raw /\ stream t = raw ++ stream t'
  | (t', Raise SockTimeout) => stream t' = stream t
  | _ => True
  end.
Proof.
  destruct (read_frame os_nt t) as [t' [f|e|]] eqn:H; [by apply read_frame_ok in H| |done].
  destruct e; try done. by apply read_frame_timeout in H.
Qed.

Lemma retry_complete t f raw rest :
  calm t -> pack_frame f = Ok raw -> stream t = raw ++ rest ->
  exists t', retry os_nt (S (events_size (t_in t))) t = (t', Ok f) /\ stream t' = rest.
Proof.
  intros Hc Hf Hs.
  cut (exists t' g, retry os_nt (S (events_size (t_in t))) t = (t', Ok g)).
  { intros (t' & g & Hr). exists t'. destruct (retry_ok _ _ _ _ _ Hr) as (raw' & Hg & Hs').
    rewrite Hs in Hs'. by destruct (pack_frame_prefix _ _ _ _ _ _ Hf Hg Hs') as [<- <-]. }
  remember (events_size (t_in t)) as k eqn:Hk. assert (events_size (t_in t) <= k)%nat as Hle by lia.
  clear Hk. revert t Hc Hs Hle. induction k as [|k IH]; intros t Hc Hs Hle;
    pose proof (read_frame_settles t f raw rest Hc Hf Hs) as [Hc' Hx];
    cbn [retry]; unfold st_try; destruct (read_frame os_nt t) as [t1 [g|e|]] eqn:Hr; cbn in *;
    try done; try (by eexists _, _); destruct e; try done; [lia|].
  apply read_frame_timeout in Hr. apply IH; [done|congruence|lia].
Qed.

(** C22: the reader gets every frame.  If the stream starts with the encoding
    of a frame and all that happens on the socket is data in pieces of any
    size, timeouts and interrupted calls, then calling [read_frame] again
    after each timeout returns that frame after finitely many calls, and
    leaves exactly the rest of the stream. *)
Theorem read_frame_retry t f raw rest :
  calm t -> pack_frame f = Ok raw -> stream t = raw ++ rest ->
  exists t', retry os_nt (S (events_size (t_in t))) t = (t', Ok f) /\ stream t' = rest.
Proof. apply retry_complete. Qed.
End read_frame_progress.

Definition demo_transport (evs : list event) : transport :=
  Transport TCP true true true [] None evs [] [].

Lemma read_frame_retry_witness :
  let raw := [byte_of_Z 1; byte_of_Z 0; byte_of_Z 7; byte_of_Z 0; byte_of_Z 0; byte_of_Z 0;
              byte_of_Z 2] ++ bytes_of "hi" ++ [byte_of_Z 206] in
  let t := demo_transport [Err (OSErr (Some EINTR)); Data (take 3 raw); Err SockTimeout;
                           Data (take 5 (drop 3 raw)); Err (OSErr (Some EAGAIN)); Err SockTimeout;
                           Data (drop 8 raw ++ bytes_of "rest")] in
  exists t', retry false (S (events_size (t_in t))) t = (t', Ok (Frame 1 7 (bytes_of "hi"))) /\
    stream t' = bytes_of "rest".
Proof.
  intros raw t. apply (read_frame_retry false t (Frame 1 7 (bytes_of "hi")) raw); reflexivity.
Defined.

(** ** Errors of the reader *)

Section read_frame_errors.
Context (os_nt : bool).

Lemma read_connected n i t t' r : read n i t = (t', r) -> t_connected t' = t_connected t.
Proof. unfold read. destruct (read_loop _ _ _ _ _ _) as [[evs rbuf] []]; intros; by simplify_eq. Qed.

(** What the [except] clauses leave in [connected]. *)
Definition connected_after {A} (c : bool) (x : transport * py A) : Prop :=
  match x.2 with
  | Raise e => if is_os_error e && negb (errno_in e UNAVAIL) &&
                  match e with SockTimeout => false | _ => true end
               then t_connected x.1 = false else t_connected x.1 = c
  | _ => t_connected x.1 = c
  end.

Lemma except_connected {A} buf e t c :
  t_connected t = c -> connected_after (A := A) c (read_frame_except os_nt buf e t).
Proof.
  intros <-. unfold connected_after, read_frame_except, when, modify, raise, mbind, st_bind, mret,
    st_ret.
  destruct e as [| | | | | | | | | | | | |n| |msg n| | |]; try done.
  - destruct (os_nt && _); [done|].
    destruct (errno_in (OSErr n) UNAVAIL) eqn:He; cbn -[errno_in UNAVAIL]; by rewrite He.
  - destruct (os_nt && _); [done|].
    destruct (errno_in (SSLErr msg n) UNAVAIL) eqn:He; destruct msg;
      cbn -[errno_in UNAVAIL]; rewrite ?He; done.
Qed.

Lemma guarded_connected {A} buf (m : st transport A) t c :
  t_connected t = c -> (forall t' r, m t = (t', r) -> t_connected t' = t_connected t) ->
  connected_after c (guarded os_nt buf m t).
Proof.
  intros Hc Hm. unfold guarded, st_try. destruct (m t) as [t1 [a|e|]] eqn:Ht.
  - cbn. by rewrite (Hm _ _ eq_refl).
  - apply except_connected. by rewrite (Hm _ _ eq_refl).
  - cbn. by rewrite (Hm _ _ eq_refl).
Qed.

Lemma connected_bind {A B} c (m : st transport A) (f : A -> st transport B) t :
  connected_after c (m t) ->
  (forall t1 a, m t = (t1, Ok a) -> t_connected t1 = c -> connected_after c (f a t1)) ->
  connected_after c ((m ≫= f) t).
Proof.
  unfold mbind, st_bind. destruct (m t) as [t1 [a|e|]]; intros H1 Hf; [|done..]. by apply Hf.
Qed.

Lemma guarded_read_connected buf n i t c :
  t_connected t = c -> connected_after c (guarded os_nt buf (read n i) t).
Proof. intros Hc. apply guarded_connected; [done|]. apply read_connected. Qed.

Lemma guarded_lift_connected {A} buf (m : py A) t c :
  t_connected t = c -> connected_after c (guarded os_nt buf (lift m) t).
Proof. intros Hc. apply guarded_connected; [done|]. intros t' r H. unfold lift in H. by simplify_eq. Qed.

Lemma read_frame_keeps_connected t : connected_after (t_connected t) (read_frame os_nt t).
Proof.
  unfold read_frame. apply connected_bind; [by apply guarded_read_connected|].
  intros t1 h _ H1. apply connected_bind; [by apply guarded_lift_connected|].
  intros t2 [[ty ch] n] _ H2. apply connected_bind.
  - unfold read_payload. case_if; [|by apply guarded_read_connected].
    apply connected_bind; [by apply guarded_read_connected|]. intros t3 p1 _ H3.
    apply connected_bind; [|done]. unfold st_try.
    destruct (read _ false t3) as [t4 [a|e|]] eqn:Ht; apply read_connected in Ht.
    + cbn. congruence.
    + apply except_connected. congruence.
    + cbn. congruence.
  - intros t3 p _ H3. apply connected_bind; [by apply guarded_read_connected|].
    intros t4 b _ H4. apply connected_bind; [by apply guarded_lift_connected|].
    intros t5 e _ H5. by case_if.
Qed.

(** The state of the transport after a failed read.  An [OSError] (or
    [SSLError]) that is not a timeout and whose errno is not one of
    [_UNAVAIL] leaves [connected] false; every other outcome, timeouts and
    [UnexpectedFrame] included, leaves it as it was. *)
Theorem read_frame_connected t : connected_after (t_connected t) (read_frame os_nt t).
Proof. apply read_frame_keeps_connected. Qed.
End read_frame_errors.

(** The errors of [_UNAVAIL] are not all restarted by [_read]: an
    [ENOENT] that meets a [TCPTransport] between the header and the payload
    of a frame leaves the transport connected, but the seven header bytes are
    in neither buffer. *)
Theorem read_frame_unavail_drops :
  let hdr := [byte_of_Z 1; byte_of_Z 0; byte_of_Z 7; byte_of_Z 0; byte_of_Z 0; byte_of_Z 0;
              byte_of_Z 2] in
  let t := demo_transport [Data hdr; Err (OSErr (Some ENOENT)); Data (bytes_of "hi")] in
  exists t', read_frame false t = (t', Raise (OSErr (Some ENOENT))) /\
    t_connected t' = true /\ stream t = hdr ++ stream t' /\ stream t' = bytes_of "hi".
Proof. eexists. split; [vm_compute; reflexivity|]. by split_and!. Qed.

(** ** Writing *)

(** [sock.sendall(s)]: goes on until everything is accepted. *)
Fixpoint sendall (ws : list wevent) (s out : bytes) : list wevent * bytes * py unit :=
  match s with
  | [] => (ws, out, Ok tt)
  | _ =>
      match ws with
      | [] => ([], out, OutOfFuel)
      | WErr e :: ws => (ws, out, Raise e)
      | Accept n :: ws => sendall ws (drop n s) (out ++ take n s)
      end
  end.

(** [SSLTransport._write]: [while s: ...]. *)
Fixpoint ssl_write (ws : list wevent) (s out : bytes) : list wevent * bytes * py unit :=
  match s with
  | [] => (ws, out, Ok tt)
  | _ =>
      match ws with
      | [] => ([], out, OutOfFuel)
      | WErr ValueError :: ws => (ws, out, Raise (OSErr None))
      | WErr e :: ws => (ws, out, Raise e)
      | Accept O :: ws => (ws, out, Raise (OSErr None))
      | Accept n :: ws => ssl_write ws (drop n s) (out ++ take n s)
      end
  end.

Definition raw_write (s : bytes) : st transport unit := fun t =>
  let '(ws, out, r) :=
    (match t_kind t with TCP => sendall | SSL => ssl_write end) (t_outcomes t) s (t_out t) in
  (set_out ws out t, r).

(** [write]. *)
Definition write (s : bytes) : st transport unit :=
  st_try (raw_write s) is_os_error (fun e =>
    match e with
    | SockTimeout => raise SockTimeout
    | e => when (negb (errno_in e UNAVAIL)) (modify (set_connected false)) ;; raise e
    end).

Lemma sendall_spec ws s out ws' out' r :
  sendall ws s out = (ws', out', r) ->
  exists k, out' = out ++ take k s /\ (is_ok r = true -> take k s = s) /\
    (r = OutOfFuel -> ws' = []).
Proof.
  revert s out. induction ws as [|[n|e] ws IH]; intros [|c s] out H; cbn [sendall] in H; simplify_eq;
    try (exists 0%nat; rewrite take_0, app_nil_r; by split_and!).
  destruct (IH _ _ H) as (k & -> & Hok & Hf). exists (n + k)%nat.
  rewrite <- app_assoc, take_take_drop. split_and!; [done| |done].
  intros Hr. rewrite <- take_take_drop, (Hok Hr). apply take_drop.
Qed.

Lemma ssl_write_spec ws s out ws' out' r :
  ssl_write ws s out = (ws', out', r) ->
  exists k, out' = out ++ take k s /\ (is_ok r = true -> take k s = s) /\
    (r = OutOfFuel -> ws' = []).
Proof.
  revert s out. induction ws as [|[n|e] ws IH]; intros [|c s] out H; cbn [ssl_write] in H; simplify_eq;
    try (exists 0%nat; rewrite take_0, app_nil_r; by split_and!).
  - destruct n as [|n]; [simplify_eq; exists 0%nat; rewrite take_0, app_nil_r; by split_and!|].
    destruct (IH _ _ H) as (k & -> & Hok & Hf). exists (S n + k)%nat.
    rewrite <- app_assoc, take_take_drop. split_and!; [done| |done].
    intros Hr. rewrite <- take_take_drop, (Hok Hr). apply take_drop.
  - exists 0%nat; rewrite take_0, app_nil_r. destruct e; simplify_eq; by split_and!.
Qed.

Lemma write_spec s t t' r :
  write s t = (t', r) ->
  exists k, t_out t' = t_out t ++ take k s /\ (is_ok r = true -> take k s = s) /\
    (r = OutOfFuel -> t_outcomes t' = []) /\
    t_connected t' = match r with
                     | Raise e => t_connected t && negb (is_os_error e && negb (errno_in e UNAVAIL) &&
                                    match e with SockTimeout => false | _ => true end)
                     | _ => t_connected t
                     end.
Proof.
  unfold write, st_try, raw_write.
  destruct ((match t_kind t with TCP => sendall | SSL => ssl_write end) (t_outcomes t) s (t_out t))
    as [[ws out] rr] eqn:Hw.
  assert (exists k, out = t_out t ++ take k s /\ (is_ok rr = true -> take k s = s) /\
    (rr = OutOfFuel -> ws = [])) as (k & -> & Hok & Hf).
  { destruct (t_kind t); [by eapply sendall_spec|by eapply ssl_write_spec]. }
  intros H. exists k. destruct rr as [u|e|].
  - simplify_eq. by split_and!.
  - destruct (is_os_error e) eqn:He; [|simplify_eq; cbn; rewrite He; by rewrite andb_true_r].
    unfold when, modify, raise, mbind, st_bind, mret, st_ret in H.
    destruct (errno_in e UNAVAIL) eqn:Hu; destruct e; cbn -[errno_in UNAVAIL] in H; simplify_eq;
      cbn -[errno_in UNAVAIL]; rewrite ?Hu; cbn; by rewrite ?andb_true_r, ?andb_false_r.
  - simplify_eq. by split_and!.
Qed.

(** The transport as the output of [frame_writer]. *)
#[export] Program Instance transport_sink : ByteSink transport := {|
  sink_write := write;
  sink_out := t_out;
|}.
Next Obligation.
  intros bs t t' u H. apply write_spec in H as (k & -> & Hok & _). by rewrite Hok.
Qed.

(** [write] of both transports, whatever the socket accepts per call:
    when it returns, all of the bytes are written, and in any case a prefix
    of them; it does not return only while the socket accepts no data (every
    turn of the SSL loop consumes some bytes or raises); and [connected]
    becomes false exactly at an [OSError] that is not a timeout and whose
    errno is not one of [_UNAVAIL]. *)
Theorem write_all s t :
  let '(t', r) := write s t in
  exists k, t_out t' = t_out t ++ take k s /\ (is_ok r = true -> take k s = s) /\
    (r = OutOfFuel -> t_outcomes t' = []) /\
    t_connected t' = match r with
                     | Raise e => t_connected t && negb (is_os_error e && negb (errno_in e UNAVAIL) &&
                                    match e with SockTimeout => false | _ => true end)
                     | _ => t_connected t
                     end.
Proof. destruct (write s t) as [t' r] eqn:H. by apply write_spec in H. Qed.

(** ** Timeouts *)

(** The [except] clauses of [having_timeout]. *)
Definition timeout_except (e : exc) : exc :=
  match e with
  | SSLErr SslTimedOut _ | SSLErr SslDidNotComplete _ => SockTimeout
  | OSErr (Some n) => if n =? EWOULDBLOCK then SockTimeout else e
  | e => e
  end.

(** [with transport.having_timeout(timeout): m], where [m] runs on a state
    that holds the transport. *)
Definition having_timeout_in {S A} (get : S -> transport) (set : transport -> S -> S)
    (timeout : option Z) (m : st S A) : st S A :=
  match timeout with
  | None => m
  | Some _ =>
      is_open ← gets (fun s => t_open (get s));
      if negb is_open then raise AttributeError
      else
        prev ← gets (fun s => t_timeout (get s));
        when (negb (bool_decide (prev = timeout)))
          (modify (fun s => set (set_timeout timeout (get s)) s)) ;;
        st_finally (st_try m (fun _ => true) (fun e => raise (timeout_except e)))
          (when (negb (bool_decide (timeout = prev)))
             (modify (fun s => set (set_timeout prev (get s)) s)))
  end.

Definition having_timeout {A} (timeout : option Z) (m : st transport A) : st transport A :=
  having_timeout_in (fun t => t) (fun t _ => t) timeout m.

(** [having_timeout] restores the timeout of the socket whenever its body
    ends, with a result or an exception, and turns the exceptions that mean a timeout, and no
    others, into [socket.timeout]. *)
Theorem having_timeout_restores {A} timeout (m : st transport A) t :
  (forall t1, t_timeout (m t1).1 = t_timeout t1) ->
  ((having_timeout timeout m t).2 <> OutOfFuel ->
   t_timeout (having_timeout timeout m t).1 = t_timeout t) /\
  (is_Some timeout -> t_open t = true ->
   exists t1, t_timeout t1 = timeout /\
     (having_timeout timeout m t).2 =
       match (m t1).2 with Raise e => Raise (timeout_except e) | r => r end).
Proof.
  intros Hm. destruct timeout as [x|]; [|split; [intros _; apply Hm|by intros []]].
  unfold having_timeout, having_timeout_in, gets, raise, when, modify, st_finally, st_try, mbind, st_bind, mret, st_ret.
  destruct (t_open t) eqn:Ho; cbn [negb]; [|done].
  destruct (decide (t_timeout t = Some x)) as [E|E].
  - rewrite !bool_decide_eq_true_2 by done. cbn [negb].
    pose proof (Hm t) as H. destruct (m t) as [t2 [a|e|]] eqn:Hmt; cbn in *;
      (split; [done|intros _ _; exists t; by rewrite Hmt]).
  - rewrite !bool_decide_eq_false_2 by congruence. cbn [negb].
    destruct (m (set_timeout (Some x) t)) as [t2 [a|e|]] eqn:Hmt; cbn in *;
      (split; [done|intros _ _; exists (set_timeout (Some x) t); by rewrite Hmt]).
Qed.

Lemma having_timeout_restores_witness :
  let t := demo_transport [Err (OSErr (Some EWOULDBLOCK))] in
  let m := fun t1 => (set_in [] t1, Raise (A := unit) (OSErr (Some EWOULDBLOCK))) in
  ((having_timeout (Some 3) m t).2 <> OutOfFuel ->
   t_timeout (having_timeout (Some 3) m t).1 = t_timeout t) /\
  (is_Some (Some 3) -> t_open t = true ->
   exists t1, t_timeout t1 = Some 3 /\
     (having_timeout (Some 3) m t).2 = match (m t1).2 with Raise e => Raise (timeout_except e) | r => r end).
Proof. intros t m. apply (having_timeout_restores (Some 3) m t). reflexivity. Defined.

(** ** The life of the connection *)

(** [except OSError: pass]. *)
Definition ignoring_os {A} (m : st transport A) : st transport unit :=
  st_try (m ;; mret tt) is_os_error (fun _ => mret tt).

(** [close]: [unwrap], [shutdown] and [close'] are the outcomes of the calls
    on the socket. *)
Definition close (unwrap shutdown close' : py unit) : st transport unit :=
  is_open ← gets t_open;
  when is_open
    (k ← gets t_kind;
     ignoring_os (match k with TCP => mret tt | SSL => lift unwrap end) ;;
     ignoring_os (lift shutdown) ;;
     ignoring_os (lift close') ;;
     modify (set_open false)) ;;
  modify (set_connected false).

Definition fails_os (r : py unit) : Prop := raises_only is_os_error r /\ r <> OutOfFuel.

Lemma close_ends unwrap shutdown close' t :
  fails_os unwrap -> fails_os shutdown -> fails_os close' ->
  exists t', close unwrap shutdown close' t = (t', Ok tt) /\
    t_open t' = false /\ t_connected t' = false /\ t_out t' = t_out t /\ stream t' = stream t.
Proof.
  intros Hu Hs Hc.
  assert (forall r (s : transport), fails_os r -> ignoring_os (lift r) s = (s, Ok tt)) as Hig.
  { intros [u|e|] s [H1 H2]; [done| |done]. unfold ignoring_os, st_try, lift, mbind, st_bind. cbn in *.
    by rewrite H1. }
  unfold close. rewrite st_bind_gets. destruct (t_open t) eqn:Ho; cbn [when].
  - rewrite st_bind_bind, st_bind_gets, st_bind_bind.
    rewrite (st_bind_ok _ _ t t tt).
    2: { destruct (t_kind t); [done|by apply Hig]. }
    rewrite st_bind_bind, (st_bind_ok _ _ t t tt) by (by apply Hig).
    rewrite st_bind_bind, (st_bind_ok _ _ t t tt) by (by apply Hig).
    eexists. split; [done|]. done.
  - eexists. split; [done|]. by cbn.
Qed.

(** [close] always ends disconnected and without a socket when the
    socket calls fail with [OSError] or not at all, from any state, so it can
    be repeated. *)
Theorem close_closes unwrap shutdown close' t :
  fails_os unwrap -> fails_os shutdown -> fails_os close' ->
  exists t', close unwrap shutdown close' t = (t', Ok tt) /\
    t_open t' = false /\ t_connected t' = false /\ t_out t' = t_out t /\ stream t' = stream t.
Proof. apply close_ends. Qed.

Lemma close_closes_witness :
  exists t', close (Ok tt) (Raise (OSErr (Some 107))) (Ok tt) (demo_transport []) = (t', Ok tt) /\
    t_open t' = false /\ t_connected t' = false /\ t_out t' = [] /\ stream t' = [].
Proof. apply close_closes; by split. Defined.

(** What happens for one address of [getaddrinfo]: whether the socket was
    created, the outcome of creating and connecting it, and that of closing
    the socket when this failed. *)
Record attempt : Type := Attempt {
  at_created : bool;
  at_result : py unit;
  at_close : py unit;
}.

Fixpoint connect_entries (entries : list attempt) : st transport unit :=
  match entries with
  | [] => mret tt
  | a :: rest =>
      (if at_created a then modify (set_open true) else mret tt) ;;
      st_try (lift (at_result a) ;; mret true) is_os_error
        (fun e =>
           is_open ← gets t_open;
           when is_open (lift (at_close a)) ;;
           modify (set_open false) ;;
           if bool_decide (rest = []) then raise e else mret false) ≫=
      fun (ok : bool) => if ok then mret tt else connect_entries rest
  end.

(** [_setup_transport] and [_init_socket]; [options] are the [setsockopt]
    calls, [handshake] is the wrapping and handshake of TLS. *)
Definition setup_transport (handshake : py unit) (connect_timeout : option Z)
    : st transport unit :=
  k ← gets t_kind;
  match k with
  | TCP => modify (set_read_buffer [])
  | SSL => modify (set_timeout connect_timeout) ;; lift handshake
  end.

Definition init_socket (options handshake : py unit) (connect_timeout : option Z)
    : st transport unit :=
  is_open ← gets t_open;
  when (negb is_open) (raise AttributeError) ;;
  modify (set_timeout None) ;;
  lift options ;;
  setup_transport handshake connect_timeout ;;
  raw_write AMQP_PROTOCOL_HEADER.

(** [close'] is the outcome of closing the socket that was not fully
    connected. *)
Definition connect (entries : py (list attempt)) (options handshake close' : py unit)
    (connect_timeout : option Z) : st transport unit :=
  st_try
    (c ← gets t_connected;
     if (c : bool) then mret tt
     else
       es ← lift entries;
       connect_entries es ;;
       init_socket options handshake connect_timeout ;;
       modify (set_connected true))
    is_os_error
    (fun e =>
       is_open ← gets t_open;
       c ← gets t_connected;
       when (is_open && negb c) (lift close' ;; modify (set_open false)) ;;
       raise e).

Definition offline (t : transport) : Prop := t_connected t = false.

Lemma connect_entries_offline es : preserves offline (connect_entries es).
Proof.
  induction es as [|a es IH]; [apply preserves_ret|]. cbn [connect_entries].
  apply preserves_bind; [destruct (at_created a); [by apply preserves_modify|apply preserves_ret]|].
  intros _. apply preserves_bind.
  - apply preserves_try.
    + apply preserves_bind; [apply preserves_lift|]. intros _. apply preserves_ret.
    + intros e. apply preserves_bind; [apply preserves_gets|]. intros is_open.
      apply preserves_bind; [apply preserves_when, preserves_lift|]. intros _.
      apply preserves_bind; [by apply preserves_modify|]. intros _.
      case_match; [apply preserves_raise|apply preserves_ret].
  - intros []; [apply preserves_ret|done].
Qed.

Lemma init_socket_offline o h ct : preserves offline (init_socket o h ct).
Proof.
  unfold init_socket, setup_transport.
  repeat first
    [ apply preserves_gets | apply preserves_lift | apply preserves_raise
    | apply preserves_when | apply preserves_modify; done
    | apply preserves_bind; [|intros] | case_match ].
  intros t Ht. unfold raw_write. by destruct ((match t_kind t with TCP => sendall | SSL => ssl_write end) _ _ _)
    as [[? ?] ?].
Qed.

(** C37: [connect] either returns connected, or raises and is not connected,
    whatever fails: name resolution, all of the addresses, a socket option, the
    handshake, the protocol header or the closing of a socket.  A socket is left
    behind only in two ways: the closing of it raised, and then this is the
    exception of [connect], or the exception is no [OSError].  A transport
    that is already connected is not touched. *)
Theorem connect_outcome entries options handshake close' connect_timeout t :
  match connect entries options handshake close' connect_timeout t with
  | (t', Ok _) => t_connected t' = true /\ (t_connected t = true -> t' = t)
  | (t', Raise e) => t_connected t = false /\ t_connected t' = false /\
      (t_open t' = true -> close' = Raise e \/ is_os_error e = false)
  | (t', OutOfFuel) => t_connected t = false
  end.
Proof.
  unfold connect. unfold st_try. rewrite st_bind_gets.
  destruct (t_connected t) eqn:Hc; [done|].
  destruct ((es ← lift entries; _) t) as [t1 r] eqn:Hr.
  assert (match r with Ok _ => t_connected t1 = true | _ => t_connected t1 = false end) as Hc1.
  { destruct entries as [es|e|]; [|by injection Hr as <- <-..].
    rewrite (st_bind_lift _ es) in Hr by done.
    pose proof (connect_entries_offline es t Hc) as H1.
    unfold mbind at 1, st_bind at 1 in Hr. destruct (connect_entries es t) as [t2 [u|e|]];
      [|by injection Hr as <- <-..].
    pose proof (init_socket_offline options handshake connect_timeout t2 H1) as H2.
    unfold mbind at 1, st_bind at 1 in Hr.
    destruct (init_socket _ _ _ t2) as [t3 [v|e|]]; [|by injection Hr as <- <-..].
    unfold modify in Hr. by injection Hr as <- <-. }
  destruct r as [u|e|]; [done| |done].
  destruct (is_os_error e) eqn:He; [|split_and!; [done..|by right]].
  rewrite st_bind_gets, st_bind_gets, Hc1. unfold when, modify, raise, lift, mbind, st_bind, mret, st_ret.
  destruct (t_open t1) eqn:Ho; cbn; [|split_and!; [done..|congruence]].
  destruct close' as [[]|e'|]; cbn; [by split_and!| |done]. split_and!; [done..|by left].
Qed.

(** Both ways occur: an option that cannot be packed, and a socket that cannot
    be closed. *)
Theorem connect_leaks :
  let t := Transport TCP true false false [] None [] [Accept 8] [] in
  let run options close' := connect (Ok [Attempt true (Ok tt) (Ok tt)]) options (Ok tt) close' None t in
  (run (Raise StructError) (Ok tt)).2 = Raise StructError /\ t_open (run (Raise StructError) (Ok tt)).1 = true /\
  (run (Raise (OSErr None)) (Raise (OSErr (Some 5)))).2 = Raise (OSErr (Some 5)) /\
  t_open (run (Raise (OSErr None)) (Raise (OSErr (Some 5)))).1 = true.
Proof. vm_compute. by split_and!. Qed.

(** ** Addresses *)

(** [to_host_port]. The digits of the port are ASCII. *)
Definition AMQP_PORT : Z := 5672.

(** The class [[\.0-9a-f:]] of [IPV6_LITERAL]. *)
Definition ipv6_char (c : Z) : bool :=
  (c =? 46) || ((48 <=? c) && (c <=? 58)) || ((97 <=? c) && (c <=? 102)).

Fixpoint span (p : Z -> bool) (s : pystr) : pystr * pystr :=
  match s with
  | c :: s' => if p c then let '(a, b) := span p s' in (c :: a, b) else ([], s)
  | [] => ([], [])
  end.

(** [IPV6_LITERAL.match(host)]: the two groups. *)
Definition ipv6_match (host : pystr) : option (pystr * option pystr) :=
  match host with
  | 91 :: s =>
      match span ipv6_char s with
      | (c :: h, 93 :: rest) =>
          Some (c :: h, match rest with
                        | 58 :: rest =>
                            match span is_digit rest with ([], _) => None | (ds, _) => Some ds end
                        | _ => None
                        end)
      | _ => None
      end
  | _ => None
  end.

(** [host.rsplit(':', 1)]. *)
Fixpoint rsplit_colon (s : pystr) : option (pystr * pystr) :=
  match s with
  | [] => None
  | c :: s =>
      match rsplit_colon s with
      | Some (a, b) => Some (c :: a, b)
      | None => if c =? 58 then Some ([], s) else None
      end
  end.

Definition to_host_port (host : pystr) : py (pystr * Z) :=
  match ipv6_match host with
  | Some (h, Some ds) => port ← int_of_str ds; mret (h, port)
  | Some (h, None) => mret (h, AMQP_PORT)
  | None =>
      match rsplit_colon host with
      | Some (h, p) => port ← int_of_str p; mret (h, port)
      | None => mret (host, AMQP_PORT)
      end
  end.

Example to_host_port_examples :
  to_host_port (str_of "broker") = Ok (str_of "broker", 5672) /\
  to_host_port (str_of "broker:5671") = Ok (str_of "broker", 5671) /\
  to_host_port (str_of "[fe80::1]:5432") = Ok (str_of "fe80::1", 5432) /\
  to_host_port (str_of "[fe80::1]") = Ok (str_of "fe80::1", 5672) /\
  to_host_port (str_of "broker:") = Raise ValueError.
Proof. repeat split; reflexivity. Qed.

Lemma rsplit_colon_app h p :
  forallb (fun c => negb (c =? 58)) p = true -> rsplit_colon (h ++ 58 :: p) = Some (h, p).
Proof.
  intros Hp. assert (rsplit_colon p = None) as Hn.
  { induction p as [|c p IH]; [done|]. cbn in *. apply andb_true_iff in Hp as [Hc Hp].
    rewrite (IH Hp). by apply negb_true_iff in Hc as ->. }
  induction h as [|c h IH]; cbn; [by rewrite Hn|]. by rewrite IH.
Qed.

Lemma span_app p s c rest :
  forallb p s = true -> p c = false -> span p (s ++ c :: rest) = (s, c :: rest).
Proof.
  induction s as [|x s IH]; cbn; intros Hs Hc; [by rewrite Hc|].
  apply andb_true_iff in Hs as [-> Hs]. by rewrite IH.
Qed.

(** A host name that is not an IPv6 literal gives the host before its
    last colon and the port after it, and the default port without a colon;
    an IPv6 address in brackets gives the address between them. *)
Theorem to_host_port_parts host port addr p :
  head host <> Some 91 ->
  forallb (fun c => negb (c =? 58)) port = true -> int_of_str port = Ok p ->
  addr <> [] -> forallb ipv6_char addr = true ->
  to_host_port (host ++ 58 :: port) = Ok (host, p) /\
  (forallb (fun c => negb (c =? 58)) host = true -> to_host_port host = Ok (host, AMQP_PORT)) /\
  to_host_port (91 :: addr ++ [93]) = Ok (addr, AMQP_PORT).
Proof.
  intros Hh Hp Hi Ha Hc.
  assert (forall s, head s <> Some 91 -> ipv6_match s = None) as Hm.
  { intros [|c s] Hs; [done|]. unfold ipv6_match. cbn in Hs. repeat case_match; congruence. }
  split_and!.
  - unfold to_host_port. rewrite Hm, rsplit_colon_app, Hi by (done || by destruct host). done.
  - intros Hhc. unfold to_host_port. rewrite Hm by done.
    assert (rsplit_colon host = None) as ->; [|done].
    clear Hh. induction host as [|c h IH]; [done|]. cbn in *. apply andb_true_iff in Hhc as [Hx Hhc].
    rewrite (IH Hhc). by apply negb_true_iff in Hx as ->.
  - unfold to_host_port, ipv6_match. rewrite span_app by done. by destruct addr.
Qed.

Lemma to_host_port_parts_witness :
  to_host_port (str_of "mq.example" ++ 58 :: str_of "80") = Ok (str_of "mq.example", 80) /\
  (forallb (fun c => negb (c =? 58)) (str_of "mq.example") = true ->
     to_host_port (str_of "mq.example") = Ok (str_of "mq.example", AMQP_PORT)) /\
  to_host_port (91 :: str_of "::1" ++ [93]) = Ok (str_of "::1", AMQP_PORT).
Proof. apply to_host_port_parts; done. Defined.
