(* ===== verification/Network.v ===== *)
(** * The network cuts the bytes as it likes

    [recv] gives the bytes of the peer in pieces of any size.  Two transports
    are the same up to that when the same octets, ends and failures arrive in
    the same order, however the octets are cut into pieces; reading a frame,
    with or without a timeout, writing, connecting and closing cannot tell them
    apart.  The reference is a reader that takes the octets one by one. *)

From S2P Require Import Prelude Exceptions State Struct Values Codec Content Framing Transport.

Open Scope Z_scope.

(** ** What arrives, octet by octet *)

Inductive cell : Type :=
  | Octet (b : byte)
  | End              (* [recv] returns no bytes *)
  | Failure (e : exc).

Definition cells_of (ev : event) : list cell :=
  match ev with
  | Data [] => [End]
  | Data bs => Octet <$> bs
  | Err e => [Failure e]
  end.
Definition cells (evs : list event) : list cell := evs ≫= cells_of.

(** [_read], an octet at a time. *)
Fixpoint read_cells (errnos : list Z) (raise_eintr : bool) (n : Z) (rbuf : bytes) (cs : list cell)
    : list cell * bytes * py unit :=
  if zlen rbuf <? n then
    match cs with
    | [] => ([], rbuf, OutOfFuel)
    | Octet b :: cs => read_cells errnos raise_eintr n (rbuf ++ [b]) cs
    | End :: cs => (cs, rbuf, Raise (OSErr None))
    | Failure e :: cs =>
        if is_os_error e && errno_in e errnos then
          if raise_eintr then (cs, rbuf, Raise SockTimeout)
          else read_cells errnos raise_eintr n rbuf cs
        else (cs, rbuf, Raise e)
    end
  else (cs, rbuf, Ok tt).

(** A piece that fits is taken octet by octet. *)
Lemma read_cells_octets errnos b n rbuf bs cs :
  zlen rbuf + zlen bs <= n ->
  read_cells errnos b n rbuf ((Octet <$> bs) ++ cs) = read_cells errnos b n (rbuf ++ bs) cs.
Proof.
  revert rbuf. induction bs as [|x bs IH]; intros rbuf Hn; [by rewrite app_nil_r|].
  cbn [fmap list_fmap app read_cells]. cbn [length] in Hn. rewrite (proj2 (Z.ltb_lt _ _)) by lia.
  replace (Octet <$> bs) with (list_fmap _ _ Octet bs) in IH by done.
  rewrite IH, <- app_assoc by (rewrite length_app; cbn; lia). done.
Qed.

(** [read_loop] is the reference. *)
Lemma read_loop_cells fuel errnos b n rbuf evs :
  (events_size evs < fuel)%nat ->
  let '(evs', rbuf', r) := read_loop fuel errnos b n rbuf evs in
  read_cells errnos b n rbuf (cells evs) = (cells evs', rbuf', r).
Proof.
  revert rbuf evs. induction fuel as [|fuel IH]; intros rbuf evs Hf; [lia|]. cbn [read_loop].
  destruct (zlen rbuf <? n) eqn:Hlt.
  2: { destruct (cells evs); cbn [read_cells]; by rewrite Hlt. }
  bool_to_prop. pose proof (proj2 (Z.ltb_lt _ _) Hlt) as Hlt'.
  destruct (recv (n - zlen rbuf) evs) as [evs1 rr] eqn:Hr. pose proof (recv_data _ evs evs1 rr (ltac:(lia) : 0 <= n - zlen rbuf) Hr) as Hd.
  unfold recv in Hr. destruct evs as [|[bs|e] evs].
  - injection Hr as <- <-. change (cells []) with (@nil cell). cbn [read_cells]. by rewrite Hlt'.
  - assert (exists s cs, rr = Ok s /\ cells (Data bs :: evs) = cs ++ cells evs1 /\
      (if decide (s = []) then cs = [End] else cs = Octet <$> s)) as (s & cs & -> & -> & Hcs).
    { destruct (zlen bs <=? _) eqn:Hle; injection Hr as <- <-; [apply Z.leb_le in Hle|apply Z.leb_gt in Hle].
      - exists bs, (cells_of (Data bs)). split_and!; [done|done|]. by destruct bs.
      - exists (take (Z.to_nat (n - zlen rbuf)) bs), (Octet <$> take (Z.to_nat (n - zlen rbuf)) bs).
        assert (take (Z.to_nat (n - zlen rbuf)) bs <> []) as Hne.
        { intros E%(f_equal length). rewrite length_take in E. cbn in E. lia. }
        assert (drop (Z.to_nat (n - zlen rbuf)) bs <> []) as Hne'.
        { intros E%(f_equal length). rewrite length_drop in E. cbn in E. lia. }
        rewrite decide_False by done. split_and!; [done| |done]. unfold cells. cbn [mbind list_bind].
        assert (forall c, c <> [] -> cells_of (Data c) = Octet <$> c) as Hc by (by intros []).
        rewrite (Hc (drop _ _)), app_assoc, <- fmap_app, take_drop by done. rewrite Hc; [done|].
        intros ->. by rewrite take_nil in Hne. }
    destruct Hd as (_ & Hlen & _ & Hm). destruct s as [|c s].
    + rewrite decide_True in Hcs by done. subst cs. cbn [app read_cells]. by rewrite Hlt'.
    + rewrite decide_False in Hcs by done. subst cs. rewrite read_cells_octets by lia.
      apply IH. specialize (Hm ltac:(lia)). lia.
  - injection Hr as <- <-. cbn [cells mbind list_bind cells_of app read_cells]. rewrite Hlt'.
    destruct (is_os_error e && errno_in e errnos); [|done]. destruct b; [done|].
    apply IH. cbn in Hf. lia.
Qed.

(** ** The same transport, up to the pieces *)

Record same_network (t1 t2 : transport) : Prop := SameNetwork {
  sn_kind : t_kind t1 = t_kind t2;
  sn_eintr : t_raise_on_initial_eintr t1 = t_raise_on_initial_eintr t2;
  sn_connected : t_connected t1 = t_connected t2;
  sn_open : t_open t1 = t_open t2;
  sn_buffer : t_read_buffer t1 = t_read_buffer t2;
  sn_timeout : t_timeout t1 = t_timeout t2;
  sn_in : cells (t_in t1) = cells (t_in t2);
  sn_outcomes : t_outcomes t1 = t_outcomes t2;
  sn_out : t_out t1 = t_out t2;
}.

#[export] Instance same_network_equivalence : Equivalence same_network.
Proof.
  split; [by split|by intros t1 t2 []; split|]. intros t1 t2 t3 [] []. split; congruence.
Qed.

(** The attributes, and their changes. *)
#[export] Instance kind_proper : Proper (same_network ==> eq) t_kind.
Proof. by intros t1 t2 []. Qed.
#[export] Instance connected_proper : Proper (same_network ==> eq) t_connected.
Proof. by intros t1 t2 []. Qed.
#[export] Instance open_proper : Proper (same_network ==> eq) t_open.
Proof. by intros t1 t2 []. Qed.
#[export] Instance read_buffer_proper : Proper (same_network ==> eq) t_read_buffer.
Proof. by intros t1 t2 []. Qed.
#[export] Instance timeout_proper : Proper (same_network ==> eq) t_timeout.
Proof. by intros t1 t2 []. Qed.

#[export] Instance set_read_buffer_proper : Proper (eq ==> same_network ==> same_network) set_read_buffer.
Proof. by intros b ? <- t1 t2 []; split. Qed.
#[export] Instance set_connected_proper : Proper (eq ==> same_network ==> same_network) set_connected.
Proof. by intros b ? <- t1 t2 []; split. Qed.
#[export] Instance set_open_proper : Proper (eq ==> same_network ==> same_network) set_open.
Proof. by intros b ? <- t1 t2 []; split. Qed.
#[export] Instance set_timeout_proper : Proper (eq ==> same_network ==> same_network) set_timeout.
Proof. by intros b ? <- t1 t2 []; split. Qed.
#[export] Instance set_out_proper : Proper (eq ==> eq ==> same_network ==> same_network) set_out.
Proof. by intros ws ? <- out ? <- t1 t2 []; split. Qed.

Abbreviation blind := (respects same_network).
#[export] Hint Extern 1 (blind (gets _)) => apply respects_gets; intros ?? []; congruence : py_respects.
#[export] Hint Extern 1 (blind (modify _)) => apply respects_modify; intros ?? []; split; cbn -[cells]; congruence : py_respects.

(** [_read] of either transport. *)
Lemma read_blind n initial : blind (read n initial).
Proof.
  intros t1 t2 [Hk He Hc Ho Hb Ht Hi Hw Hout]. unfold read.
  pose proof (read_loop_cells (S (events_size (t_in t1))) (read_errnos (t_kind t1))
    (initial && t_raise_on_initial_eintr t1) n (t_read_buffer t1) (t_in t1) ltac:(lia)) as H1.
  pose proof (read_loop_cells (S (events_size (t_in t2))) (read_errnos (t_kind t2))
    (initial && t_raise_on_initial_eintr t2) n (t_read_buffer t2) (t_in t2) ltac:(lia)) as H2.
  rewrite Hk, He, Hb, Hi in *.
  destruct (read_loop _ _ _ _ _ (t_in t1)) as [[evs1 rbuf1] r1].
  destruct (read_loop _ _ _ _ _ (t_in t2)) as [[evs2 rbuf2] r2].
  rewrite H1 in H2. injection H2 as Hcs -> ->.
  destruct r2; (split; [by split|done]).
Qed.
#[export] Hint Resolve read_blind : py_respects.

Section read_frame.
Context (os_nt : bool).

Lemma except_blind {A} buf e : blind (read_frame_except (A := A) os_nt buf e).
Proof.
  unfold read_frame_except, restore. respects_tac.
Qed.
Hint Resolve except_blind : py_respects.

Lemma guarded_blind {A} buf (m : st transport A) : blind m -> blind (guarded os_nt buf m).
Proof. intros. unfold guarded. respects_tac. Qed.

Lemma read_payload_blind buf n : blind (read_payload os_nt buf n).
Proof. unfold read_payload, guarded. respects_tac. Qed.
Hint Resolve read_payload_blind : py_respects.

Lemma read_frame_blind : blind (read_frame os_nt).
Proof. unfold read_frame, guarded. respects_tac. Qed.
End read_frame.
#[export] Hint Resolve read_frame_blind : py_respects.

Lemma having_timeout_in_respects {S A} (R : relation S) get set timeout (m : st S A) :
  Proper (R ==> same_network) get -> Proper (same_network ==> R ==> R) set ->
  respects R m -> respects R (having_timeout_in get set timeout m).
Proof.
  intros Hget Hset Hm. unfold having_timeout_in.
  assert (respects R (gets (fun s => t_open (get s)))) as H1.
  { apply respects_gets. intros s1 s2 Hs. by apply open_proper, Hget. }
  assert (respects R (gets (fun s => t_timeout (get s)))) as H2.
  { apply respects_gets. intros s1 s2 Hs. by apply timeout_proper, Hget. }
  assert (forall x, respects R (modify (fun s => set (set_timeout x (get s)) s))) as H3.
  { intros x. apply respects_modify. intros s1 s2 Hs. apply Hset; [|done].
    by apply (set_timeout_proper x x eq_refl), Hget. }
  respects_tac; auto.
Qed.

Lemma having_timeout_blind {A} timeout (m : st transport A) : blind m -> blind (having_timeout timeout m).
Proof. intros Hm. apply having_timeout_in_respects; [by intros t1 t2 H|by intros t1 t2 H u1 u2 _|done]. Qed.

Lemma raw_write_blind bs : blind (raw_write bs).
Proof.
  intros t1 t2 H. pose proof H as [Hk _ _ _ _ _ _ Hw Hout]. unfold raw_write. rewrite Hk, Hw, Hout.
  destruct ((match t_kind t2 with TCP => sendall | SSL => ssl_write end) (t_outcomes t2) bs (t_out t2))
    as [[ws out] r]. split; [|done]. by apply set_out_proper.
Qed.
#[export] Hint Resolve raw_write_blind : py_respects.

Lemma write_blind bs : blind (Transport.write bs).
Proof. unfold Transport.write. respects_tac. Qed.

Lemma close_blind u s c : blind (Transport.close u s c).
Proof. unfold Transport.close, ignoring_os. respects_tac. Qed.

Lemma connect_blind entries options handshake close' timeout :
  blind (Transport.connect entries options handshake close' timeout).
Proof.
  assert (forall es, blind (connect_entries es)) as Hes.
  { induction es as [|a es IH]; cbn [connect_entries]; respects_tac. }
  unfold Transport.connect, init_socket, setup_transport. respects_tac.
Qed.

(** ** The writer of frames *)

Record same_writer (w1 w2 : writer transport) : Prop := SameWriter {
  sw_transport : same_network (w_transport w1) (w_transport w2);
  sw_buf : w_buf w1 = w_buf w2;
  sw_bytes_sent : w_bytes_sent w1 = w_bytes_sent w2;
}.

Section write_frame.
Context (other_codec : pystr -> pystr -> py bytes).
Abbreviation wblind := (respects same_writer).

Lemma framing_write_blind bs : wblind (Framing.write bs).
Proof.
  apply (respects_zoom same_writer same_network); [by intros w1 w2 []| |apply write_blind].
  intros t1 t2 Ht w1 w2 []. by split.
Qed.

Lemma pack_into_blind o f : wblind (pack_into o f).
Proof.
  intros w1 w2 Hw. pose proof Hw as [Ht Hb Hs]. unfold pack_into. rewrite Hb, Hs.
  destruct (pack_frame f); [|by split..]. destruct (_ <=? _); by split.
Qed.

Lemma resize_blind n : wblind (resize n).
Proof.
  intros w1 w2 Hw. pose proof Hw as [Ht Hb Hs]. unfold resize. rewrite Hb, Hs. destruct (_ <? _); by split.
Qed.

Lemma count_sent_blind : wblind count_sent.
Proof. apply respects_modify. intros w1 w2 [Ht Hb Hs]. rewrite Hb, Hs. by split. Qed.

Lemma w_buf_blind : wblind (gets w_buf).
Proof. apply respects_gets. by intros w1 w2 []. Qed.
Hint Resolve framing_write_blind pack_into_blind resize_blind count_sent_blind w_buf_blind : py_respects.

Lemma write_frame_blind frame_max ty ch sig args content :
  wblind (write_frame other_codec frame_max ty ch sig args content).
Proof. unfold write_frame, write_slow, write_fast, write_slow_frame. respects_tac. Qed.
End write_frame.

(** Where the network cuts makes no difference. *)
Lemma cells_cut a b evs1 evs2 :
  a <> [] -> b <> [] -> cells (evs1 ++ Data (a ++ b) :: evs2) = cells (evs1 ++ Data a :: Data b :: evs2).
Proof.
  intros Ha Hb. unfold cells. rewrite !bind_app. f_equal. cbn [mbind list_bind].
  destruct a as [|x a]; [done|]. destruct b as [|y b]; [done|].
  cbn [app cells_of]. by rewrite app_assoc, <- fmap_app.
Qed.
