(* ===== verification/Platform.v ===== *)
(** * The platform and the options of sockets ([amqp/platform.py], and
    [_set_socket_options] of [amqp/transport.py])

    Which TCP options exist where, and the calls of [setsockopt] a new
    connection makes.  The platform is the environment of the model: the names
    [sys.platform] and [platform.release()], the constants of the module
    [socket], and what [getsockopt] answers. *)

From S2P Require Import Prelude Exceptions Values Transport.

Open Scope Z_scope.

(** ** Text *)

Definition startswith (prefix s : pystr) : bool := bool_decide (take (length prefix) s = prefix).
Definition endswith (suffix s : pystr) : bool :=
  bool_decide (drop (length s - length suffix) s = suffix).
(** [part in s]. *)
Definition contains (part s : pystr) : bool :=
  existsb (fun i => startswith part (drop i s)) (seq 0 (S (length s))).

Definition isdigit (s : pystr) : bool := negb (bool_decide (s = [])) && forallb is_digit s.
(** [int(s)] of digits. *)
Definition int_of_digits (s : pystr) : Z := digits_value ((fun c => c - 48) <$> s).

(** ** Versions *)

(** The group of [RE_NUM.match(s)], the pattern [(\d+).+]: all leading digits
    when something but a line break follows, else all but the last. *)
Definition re_num (s : pystr) : option pystr :=
  let '(digits, rest) := span is_digit s in
  match rest, digits with
  | c :: _, [] => None
  | c :: _, _ => if c =? 10 then (if (1 <? zlen digits) then Some (removelast digits) else None)
                 else Some digits
  | [], _ => if (1 <? zlen digits) then Some (removelast digits) else None
  end.

Definition versionatom (s : pystr) : Z :=
  if isdigit s then int_of_digits s
  else match re_num s with Some digits => int_of_digits digits | None => 0 end.

Definition linux_version_to_tuple (s : pystr) : list Z := versionatom <$> take 3 (split_at (Z.eqb 46) s).

(** [<] of tuples. *)
Fixpoint tuple_lt (a b : list Z) : bool :=
  match a, b with
  | _, [] => false
  | [], _ :: _ => true
  | x :: a, y :: b => if x =? y then tuple_lt a b else x <? y
  end.

(** ** [KNOWN_TCP_OPTS] *)

Definition all_tcp_opts : list string :=
  [ "TCP_CORK"; "TCP_DEFER_ACCEPT"; "TCP_KEEPCNT";
    "TCP_KEEPIDLE"; "TCP_KEEPINTVL"; "TCP_LINGER2";
    "TCP_MAXSEG"; "TCP_NODELAY"; "TCP_QUICKACK";
    "TCP_SYNCNT"; "TCP_USER_TIMEOUT"; "TCP_WINDOW_CLAMP" ].

(** [KNOWN_TCP_OPTS.remove(opt)]. *)
Definition without (opt : string) (opts : list string) : list string := filter (fun o => o <> opt) opts.

(** The set after the module was loaded with [sys.platform] and
    [platform.release()]. *)
Definition KNOWN_TCP_OPTS (platform release : pystr) : list string :=
  if startswith (str_of "linux") platform then
    let opts := if tuple_lt (linux_version_to_tuple release) [2; 6; 37]
                then without "TCP_USER_TIMEOUT" all_tcp_opts else all_tcp_opts in
    if endswith (str_of "Microsoft") release
    then ["TCP_NODELAY"; "TCP_KEEPIDLE"; "TCP_KEEPINTVL"; "TCP_KEEPCNT"]
    else opts
  else if startswith (str_of "darwin") platform then without "TCP_USER_TIMEOUT" all_tcp_opts
  else if contains (str_of "bsd") platform then without "TCP_USER_TIMEOUT" all_tcp_opts
  else if startswith (str_of "win") platform then ["TCP_NODELAY"]
  else if startswith (str_of "cygwin") platform then ["TCP_NODELAY"]
  else if startswith (str_of "sunos") platform
  then without "TCP_USER_TIMEOUT" (without "TCP_MAXSEG" all_tcp_opts)
  else if startswith (str_of "aix") platform
  then without "TCP_USER_TIMEOUT" (without "TCP_MAXSEG" all_tcp_opts)
  else all_tcp_opts.

(** ** The options of a socket *)

Definition DEFAULT_SOCKET_SETTINGS : list (string * Z) :=
  [ ("TCP_NODELAY", 1);
    ("TCP_USER_TIMEOUT", 1000);
    ("TCP_KEEPIDLE", 60);
    ("TCP_KEEPINTVL", 10);
    ("TCP_KEEPCNT", 9) ].

Section socket.
(** The constants of the module [socket], and [sock.getsockopt(SOL_TCP, _)]. *)
Context (socket_attr : string -> option Z) (getsockopt : Z -> Z).

(** The number of an option; that of [TCP_USER_TIMEOUT] is known. *)
Definition tcp_enum (opt : string) : option Z :=
  if decide (opt = "TCP_USER_TIMEOUT") then Some (default 18 (socket_attr opt)) else socket_attr opt.

(** [_get_tcp_socket_defaults]; [known] is [KNOWN_TCP_OPTS] in the order in
    which the set is visited. *)
Definition get_tcp_socket_defaults (known : list string) : list (Z * Z) :=
  foldl (fun tcp_opts opt =>
    match tcp_enum opt with
    | Some enum =>
        if enum =? 0 then tcp_opts
        else match dict_get DEFAULT_SOCKET_SETTINGS opt with
             | Some v => dict_set tcp_opts enum v
             | None => match socket_attr opt with
                       | Some o => dict_set tcp_opts enum (getsockopt o)
                       | None => tcp_opts
                       end
             end
    | None => tcp_opts
    end) [] known.

(** The calls of [sock.setsockopt(SOL_TCP, opt, val)] in [_set_socket_options]. *)
Definition set_socket_options (known : list string) (socket_settings : list (Z * Z)) : list (Z * Z) :=
  let tcp_opts := get_tcp_socket_defaults known in
  foldl (fun d p => dict_set d p.1 p.2) tcp_opts socket_settings.
End socket.

(** ** [set_cloexec] of [amqp/utils.py] *)

(** The flags that [F_SETFD] gets, from what [F_GETFD] gave; [None] when the
    module [fcntl] is missing and nothing is done.  [FD_CLOEXEC] may be missing
    from the module. *)
Definition set_cloexec (has_fcntl : bool) (FD_CLOEXEC : option Z) (flags : Z) (cloexec : bool) : py (option Z) :=
  if negb has_fcntl then Ok None
  else match FD_CLOEXEC with
       | None => Raise NotImplementedError
       | Some flag => Ok (Some (if cloexec then Z.lor flags flag else Z.land flags (Z.lnot flag)))
       end.

(** Only the one bit changes. *)
Lemma set_cloexec_bits k flags cloexec flags' i :
  0 <= k -> 0 <= i -> set_cloexec true (Some (2 ^ k)) flags cloexec = Ok (Some flags') ->
  Z.testbit flags' i = if i =? k then cloexec else Z.testbit flags i.
Proof.
  intros Hk Hi [= <-]. destruct cloexec.
  - rewrite Z.lor_spec, Z.pow2_bits_eqb, (Z.eqb_sym k) by done. destruct (i =? k); [apply orb_true_r|apply orb_false_r].
  - rewrite Z.land_spec, Z.lnot_spec, Z.pow2_bits_eqb, (Z.eqb_sym k) by done.
    destruct (i =? k); [apply andb_false_r|apply andb_true_r].
Qed.

(** ** Versions are read *)

(** The decimal numeral of a number. *)
Definition numeral (n : Z) : pystr := (fun d => d + 48) <$> digits_of n.

Lemma numeral_digits n : 0 <= n -> Forall (fun c => is_digit c = true) (numeral n).
Proof.
  intros Hn. unfold numeral, digits_of. generalize (S (Z.to_nat (Z.log2 n))). intros fuel.
  revert n Hn. induction fuel as [|fuel IH]; intros n Hn; cbn [digits_fuel]; [constructor|].
  assert (forall d, 0 <= d < 10 -> is_digit (d + 48) = true) as Hd by (intros d ?; unfold is_digit; lia).
  destruct (n <? 10) eqn:H10; bool_to_prop; [by constructor; [apply Hd; lia|]|].
  rewrite fmap_app. apply Forall_app. split; [apply IH, Z.div_pos; lia|].
  constructor; [|done]. apply Hd, Z.mod_pos_bound. lia.
Qed.

Lemma numeral_nonempty n : numeral n <> [].
Proof.
  unfold numeral, digits_of. cbn [digits_fuel]. destruct (n <? 10); [done|].
  by intros [_ [=]]%fmap_nil_inv%app_nil.
Qed.

Lemma int_of_numeral n : 0 <= n -> int_of_digits (numeral n) = n.
Proof.
  intros Hn. unfold int_of_digits, numeral. rewrite <- list_fmap_compose.
  rewrite (list_fmap_ext _ id), list_fmap_id; [by apply digits_of_value|].
  intros i d _. cbn. lia.
Qed.

Lemma isdigit_digits s : s <> [] -> Forall (fun c => is_digit c = true) s -> isdigit s = true.
Proof.
  intros Hne Hs. unfold isdigit. rewrite bool_decide_eq_false_2 by done. cbn.
  apply forallb_forall. intros c Hc%list_elem_of_In. by rewrite Forall_forall in Hs; apply Hs.
Qed.

Lemma span_exact p a s :
  Forall (fun c => p c = true) a -> match s with [] => True | c :: _ => p c = false end -> span p (a ++ s) = (a, s).
Proof.
  intros Ha Hs. induction Ha as [|c a Hc _ IH]; cbn [app span].
  - destruct s as [|c s]; cbn; [done|]. by rewrite Hs.
  - by rewrite Hc, IH.
Qed.

Lemma span_digits s rest :
  Forall (fun c => is_digit c = true) s -> match rest with [] => True | c :: _ => is_digit c = false end ->
  span is_digit (s ++ rest) = (s, rest).
Proof. apply span_exact. Qed.

(** A numeral, and anything behind it that is not a digit or a line break. *)
Lemma versionatom_numeral n rest :
  0 <= n -> match rest with [] => True | c :: _ => is_digit c = false /\ c <> 10 end ->
  versionatom (numeral n ++ rest) = n.
Proof.
  intros Hn Hr. pose proof (numeral_digits n Hn) as Hd. pose proof (numeral_nonempty n) as Hne.
  unfold versionatom. destruct rest as [|c rest].
  - rewrite app_nil_r, isdigit_digits by done. by apply int_of_numeral.
  - destruct Hr as [Hc H10].
    assert (isdigit (numeral n ++ c :: rest) = false) as ->.
    { unfold isdigit. rewrite forallb_app. cbn. rewrite Hc. cbn. by rewrite andb_false_r, andb_false_r. }
    unfold re_num. rewrite span_digits by done. destruct (numeral n) eqn:E; [done|]. rewrite <- E.
    rewrite (proj2 (Z.eqb_neq _ _)) by done. by apply int_of_numeral.
Qed.

Lemma split_at_part {A} (sep : A -> bool) part c s :
  Forall (fun x => sep x = false) part -> sep c = true ->
  split_at sep (part ++ c :: s) = part :: split_at sep s.
Proof.
  intros Hp Hc. induction Hp as [|x part Hx _ IH]; cbn [app split_at]; [by rewrite Hc|]. by rewrite Hx, IH.
Qed.

Lemma split_at_head {A} (sep : A -> bool) s :
  exists head rest, split_at sep s = head :: rest /\ Forall (fun x => sep x = false) head /\
    exists tl, s = head ++ tl /\ match tl with [] => True | c :: _ => sep c = true end.
Proof.
  induction s as [|x s (head & rest & Hs & Hh & tl & -> & Htl)]; cbn [split_at].
  - exists [], []. split_and!; [done..|]. by exists [].
  - destruct (sep x) eqn:Hx.
    + exists [], (split_at sep (head ++ tl)). split_and!; [done..|]. exists (x :: head ++ tl). by split.
    + exists (x :: head), rest. rewrite Hs. split_and!; [done|by constructor|]. exists tl. by split.
Qed.

Lemma numeral_no_dot n : 0 <= n -> Forall (fun c => Z.eqb 46 c = false) (numeral n).
Proof.
  intros Hn. apply (Forall_impl _ _ _ (numeral_digits n Hn)). intros c Hc. unfold is_digit in Hc. lia.
Qed.

(** The release [a.b.c], with any suffix such as [-91-generic], is the version
    [(a, b, c)]. *)
Lemma linux_version_parses a b c suffix :
  0 <= a -> 0 <= b -> 0 <= c ->
  match suffix with [] => True | x :: _ => is_digit x = false /\ x <> 10 end ->
  linux_version_to_tuple (numeral a ++ 46 :: numeral b ++ 46 :: numeral c ++ suffix) = [a; b; c].
Proof.
  intros Ha Hb Hc Hs. unfold linux_version_to_tuple.
  rewrite split_at_part, split_at_part by (done || by apply numeral_no_dot).
  destruct (split_at_head (Z.eqb 46) suffix) as (head & rest & _ & Hh & tl & -> & Htl).
  assert (exists rest', split_at (Z.eqb 46) (numeral c ++ head ++ tl) = (numeral c ++ head) :: rest') as [rest' ->].
  { rewrite app_assoc. assert (Forall (fun x => Z.eqb 46 x = false) (numeral c ++ head)) as Hf.
    { apply Forall_app. split; [by apply numeral_no_dot|done]. }
    destruct tl as [|x tl]; [|by rewrite split_at_part by done; eexists].
    rewrite app_nil_r. clear -Hf. induction Hf as [|x s Hx _ [r IH]]; cbn [split_at]; [by exists []|].
    rewrite Hx, IH. by eexists. }
  cbn [take fmap list_fmap].
  rewrite <- (app_nil_r (numeral a)), <- (app_nil_r (numeral b)), !versionatom_numeral; try done.
  destruct head; [done|]. cbn in Hs. done.
Qed.

Example wsl_example :
  KNOWN_TCP_OPTS (str_of "linux") (str_of "4.4.0-19041-Microsoft") =
    ["TCP_NODELAY"; "TCP_KEEPIDLE"; "TCP_KEEPINTVL"; "TCP_KEEPCNT"] /\
  linux_version_to_tuple (str_of "4.4.0-19041-Microsoft") = [4; 4; 0] /\
  "TCP_USER_TIMEOUT" ∉ KNOWN_TCP_OPTS (str_of "linux") (str_of "2.6.32").
Proof. vm_compute. split_and!; [done..|]. intros H. repeat (apply elem_of_cons in H as [[=]|H]). by apply elem_of_nil in H. Qed.

(** ** What is set *)

Lemma dict_update_get {K V} `{!EqDecision K} (d upd : list (K * V)) k :
  NoDup upd.*1 ->
  dict_get (foldl (fun d p => dict_set d p.1 p.2) d upd) k =
    match dict_get upd k with Some v => Some v | None => dict_get d k end.
Proof.
  revert d. induction upd as [|[k' v'] upd IH]; intros d Hnd; cbn [foldl]; [done|].
  cbn in Hnd. apply NoDup_cons in Hnd as [Hk' Hnd]. rewrite IH, dict_get_set by done. cbn [dict_get fst snd].
  case_decide as Hk; [subst|done]. by rewrite (proj2 (dict_get_None _ _) Hk').
Qed.

Lemma dict_update_nodup {K V} `{!EqDecision K} (d upd : list (K * V)) :
  NoDup d.*1 -> NoDup (foldl (fun d p => dict_set d p.1 p.2) d upd).*1.
Proof. revert d. induction upd; intros d Hd; cbn [foldl]; [done|]. by apply IHupd, dict_set_nodup. Qed.

Section options.
Context (socket_attr : string -> option Z) (getsockopt : Z -> Z).
Abbreviation enum := (tcp_enum socket_attr).
Abbreviation defaults := (get_tcp_socket_defaults socket_attr getsockopt).

(** What a default is set to. *)
Definition default_value (opt : string) : option Z :=
  match dict_get DEFAULT_SOCKET_SETTINGS opt with
  | Some v => Some v
  | None => getsockopt <$> socket_attr opt
  end.

Lemma defaults_snoc known opt :
  defaults (known ++ [opt]) =
    match enum opt with
    | Some e =>
        if e =? 0 then defaults known
        else match default_value opt with Some v => dict_set (defaults known) e v | None => defaults known end
    | None => defaults known
    end.
Proof.
  unfold get_tcp_socket_defaults at 1. rewrite foldl_app. cbn [foldl]. fold (defaults known).
  unfold default_value. destruct (enum opt) as [e|]; [|done]. destruct (e =? 0); [done|].
  destruct (dict_get _ opt); [done|]. by destruct (socket_attr opt).
Qed.

Lemma defaults_nodup known : NoDup (defaults known).*1.
Proof.
  induction known as [|opt known IH] using rev_ind; [constructor|]. rewrite defaults_snoc.
  destruct (enum opt); [|done]. destruct (_ =? 0); [done|].
  destruct (default_value opt); [by apply dict_set_nodup|done].
Qed.

(** The options of the platform have numbers of their own. *)
Definition distinct (known : list string) : Prop := forall o o' e,
  o ∈ known -> o' ∈ known -> enum o = Some e -> enum o' = Some e -> o = o'.

Lemma defaults_get known opt e :
  distinct known -> opt ∈ known -> enum opt = Some e -> e <> 0 ->
  dict_get (defaults known) e = default_value opt.
Proof.
  intros Hd Hin He He0. induction known as [|o known IH] using rev_ind; [by apply elem_of_nil in Hin|].
  assert (distinct known) as Hd' by (intros o1 o2 e' H1 H2; apply Hd; apply elem_of_app; by left).
  rewrite defaults_snoc. destruct (decide (o = opt)) as [->|Hne].
  - rewrite He, (proj2 (Z.eqb_neq _ _)) by done. destruct (default_value opt) as [v|] eqn:Hv.
    + by rewrite dict_get_set, decide_True.
    + unfold default_value in Hv. destruct (dict_get _ opt) eqn:Hdef; [done|].
      destruct (socket_attr opt) eqn:Ha; [done|]. unfold tcp_enum in He.
      case_decide as Ho; [subst; by vm_compute in Hdef|congruence].
  - apply elem_of_app in Hin as [Hin|Hin%list_elem_of_singleton]; [|by subst].
    destruct (enum o) as [e'|] eqn:He'; [|by apply IH]. destruct (e' =? 0); [by apply IH|].
    destruct (default_value o); [|by apply IH]. rewrite dict_get_set. case_decide as Hee; [|by apply IH].
    subst e'. exfalso. apply Hne. apply (Hd o opt e); try done; apply elem_of_app; [right; left|by left].
Qed.

(** Every TCP option is set at most once: to the value of the user's
    [socket_settings] if it has one, else, for an option that the platform
    knows, to the default of the library or to the value it already has. *)
Lemma socket_options known settings :
  NoDup settings.*1 -> distinct known ->
  let opts := set_socket_options socket_attr getsockopt known settings in
  NoDup opts.*1 /\
  (forall e v, dict_get settings e = Some v -> dict_get opts e = Some v) /\
  (forall opt e, opt ∈ known -> enum opt = Some e -> e <> 0 -> dict_get settings e = None ->
     dict_get opts e = default_value opt).
Proof.
  intros Hnd Hd opts. subst opts. unfold set_socket_options. split_and!.
  - apply dict_update_nodup, defaults_nodup.
  - intros e v He. by rewrite dict_update_get, He.
  - intros opt e Hin He He0 Hs. rewrite dict_update_get, Hs by done. by apply defaults_get.
Qed.
End options.
