(* ===== verification/Package.v ===== *)
(** * The package ([amqp/__init__.py], [setup.py], [amqp/utils.py])

    The version of the package, what [setup.py] reads from the package and
    from the files of requirements, and the two helpers of [amqp/utils.py] that
    the protocol does not need, [get_logger] and [coro].  The texts are ASCII,
    without the separators 28 to 31. *)

From S2P Require Import Prelude Exceptions Values Transport Platform.

Open Scope Z_scope.

(** ** The version *)

Record version_info_t : Set := VersionInfo {
  major : Z;
  minor : Z;
  micro : Z;
  releaselevel : pystr;
  serial : pystr;
}.

Definition __version__ : pystr := str_of "5.3.1".

(** The groups of [re.match(r'(\d+)\.(\d+).(\d+)(.+)?', s)].  The dot after the
    second group is any character, so that group gives back digits until a
    digit follows it; the last group ends at a line break. *)
Definition not_newline (c : Z) : bool := negb (c =? 10).

Fixpoint minor_micro (n : nat) (s : pystr) : option (pystr * pystr * pystr) :=
  match n with
  | O => None
  | S n' =>
      match drop n s with
      | c :: s' =>
          let '(micro, rest) := span is_digit s' in
          if not_newline c && bool_decide (micro <> [])
          then Some (take n s, micro, (span not_newline rest).1)
          else minor_micro n' s
      | [] => minor_micro n' s
      end
  end.

Definition version_groups (s : pystr) : option (pystr * pystr * pystr * pystr) :=
  let '(major, rest) := span is_digit s in
  match major, rest with
  | _ :: _, 46 :: s =>
      '(minor, micro, level) ← minor_micro (length (span is_digit s).1) s;
      Some (major, minor, micro, level)
  | _, _ => None
  end.

(** [version_info]; no match is [None], which has no groups. *)
Definition version_info (s : pystr) : py version_info_t :=
  '(major, minor, micro, level) ← of_option AttributeError (version_groups s);
  mret (VersionInfo (int_of_digits major) (int_of_digits minor) (int_of_digits micro) level []).

Example version_info_example : version_info __version__ = Ok (VersionInfo 5 3 1 [] []).
Proof. reflexivity. Qed.

Example version_info_level : version_info (str_of "5.3.10rc1") = Ok (VersionInfo 5 3 10 (str_of "rc1") []).
Proof. reflexivity. Qed.

(** Without a dot before the last number the middle one loses digits to it. *)
Example version_info_two : version_info (str_of "5.312") = Ok (VersionInfo 5 3 2 [] []).
Proof. reflexivity. Qed.

(** A version of three numbers is read as these numbers; what follows them, up
    to a line break, is the release level. *)
Theorem version_info_of a b c level :
  0 <= a -> 0 <= b -> 0 <= c -> Forall (fun x => not_newline x = true) level ->
  match level with x :: _ => is_digit x = false | [] => True end ->
  version_info (numeral a ++ 46 :: numeral b ++ 46 :: numeral c ++ level) = Ok (VersionInfo a b c level []).
Proof.
  intros Ha Hb Hc Hl Hd. unfold version_info, version_groups.
  rewrite span_digits by (done || by apply numeral_digits).
  pose proof (numeral_nonempty a) as Hna. destruct (numeral a) as [|a0 as_] eqn:Ea; [done|]. rewrite <- Ea.
  cbn [Z.eqb Pos.eqb]. rewrite span_digits by (done || by apply numeral_digits). cbn [fst].
  pose proof (numeral_nonempty b) as Hnb. destruct (length (numeral b)) as [|n] eqn:En.
  { by apply nil_length_inv in En. }
  cbn [minor_micro]. rewrite <- En, drop_app_length, take_app_length. cbn [minor_micro].
  rewrite span_digits by (done || by apply numeral_digits).
  assert (span not_newline level = (level, [])) as ->.
  { rewrite <- (app_nil_r level) at 1. by apply span_exact. }
  rewrite bool_decide_eq_true_2 by apply numeral_nonempty.
  change ((Ok (VersionInfo (int_of_digits (numeral a)) (int_of_digits (numeral b)) (int_of_digits (numeral c)) level []) : py version_info_t) =
          Ok (VersionInfo a b c level [])).
  by rewrite !int_of_numeral.
Qed.

(** ** [get_logger] and [coro]

    Loggers are objects, known by numbers: [logging.getLogger] gives the same
    one for the same name, and makes it when the name is new.  A handler is any
    object; [NullHandler()] makes one. *)

Section logging.
Context {handler : Type} (NullHandler : handler).

Record loggers : Type := Loggers {
  named : list (pystr * nat);
  handlers_of : list (list handler);
}.

Variant logger_arg : Type := LoggerName (name : pystr) | LoggerObject (l : nat).

Definition getLogger (w : loggers) (name : pystr) : nat * loggers :=
  match dict_get (named w) name with
  | Some l => (l, w)
  | None =>
      let l := length (handlers_of w) in
      (l, Loggers (dict_set (named w) name l) (handlers_of w ++ [[]]))
  end.

Definition get_logger (w : loggers) (logger : logger_arg) : nat * loggers :=
  let '(logger, w) := match logger with LoggerName name => getLogger w name | LoggerObject l => (l, w) end in
  match handlers_of w !! logger with
  | Some [] => (logger, Loggers (named w) (<[logger := [NullHandler]]> (handlers_of w)))
  | _ => (logger, w)
  end.

(** The names lead to loggers that are there. *)
Definition wf_loggers (w : loggers) : Prop :=
  Forall (fun p => (p.2 < length (handlers_of w))%nat) (named w).

Definition is_logger (w : loggers) (a : logger_arg) : Prop :=
  match a with LoggerName _ => True | LoggerObject l => (l < length (handlers_of w))%nat end.

Lemma getLogger_spec w name :
  wf_loggers w ->
  let '(l, w') := getLogger w name in
  wf_loggers w' /\ (l < length (handlers_of w'))%nat /\ getLogger w' name = (l, w') /\
  exists new, handlers_of w' = handlers_of w ++ new.
Proof.
  intros Hw. unfold getLogger. destruct (dict_get (named w) name) as [l|] eqn:E.
  - rewrite E. split_and!; [done| |done|exists []; by rewrite app_nil_r].
    by apply (dict_get_Forall _ _ _ _ Hw) in E.
  - cbn. rewrite dict_get_set, decide_True by done. rewrite length_app. cbn. split_and!; [|lia|done|eauto].
    unfold wf_loggers. cbn. rewrite length_app. cbn. apply dict_set_Forall; [|cbn; lia].
    eapply Forall_impl; [apply Hw|]. cbn. lia.
Qed.

(** The logger that is returned has a handler, so that it never reports that
    there is none; a logger that has handlers keeps them as they are, and the
    second call changes nothing. *)
Theorem get_logger_spec w a :
  wf_loggers w -> is_logger w a ->
  let '(l, w') := get_logger w a in
  wf_loggers w' /\ (exists h hs, handlers_of w' !! l = Some (h :: hs)) /\
  (forall l' h hs, handlers_of w !! l' = Some (h :: hs) -> handlers_of w' !! l' = Some (h :: hs)) /\
  get_logger w' a = (l, w').
Proof.
  intros Hw Ha.
  assert (exists l w1, match a with LoggerName name => getLogger w name | LoggerObject l => (l, w) end = (l, w1) /\
    wf_loggers w1 /\ (l < length (handlers_of w1))%nat /\ (exists new, handlers_of w1 = handlers_of w ++ new) /\
    forall w2, named w2 = named w1 ->
      match a with LoggerName name => getLogger w2 name | LoggerObject l => (l, w2) end = (l, w2))
    as (l & w1 & E & Hw1 & Hl & (new & Hnew) & Hagain).
  { destruct a as [name|l]; cbn in Ha.
    - pose proof (getLogger_spec w name Hw) as H. destruct (getLogger w name) as [l w1].
      destruct H as (? & ? & Hg & ?). exists l, w1. split_and!; [done..|]. intros w2 Hn.
      unfold getLogger in *. rewrite Hn. destruct (dict_get (named w1) name); [congruence|].
      apply (f_equal (fun p => length (handlers_of p.2))) in Hg. cbn in Hg. rewrite length_app in Hg. cbn in Hg. lia.
    - exists l, w. split_and!; [done..| |done]. exists []. by rewrite app_nil_r. }
  unfold get_logger. rewrite E. destruct (lookup_lt_is_Some_2 _ _ Hl) as [hs Hhs]. rewrite Hhs.
  assert (Hkeep : forall l' h hs, handlers_of w !! l' = Some (h :: hs) -> handlers_of w1 !! l' = Some (h :: hs)).
  { intros l' h hs' H. rewrite Hnew. by apply lookup_app_l_Some. }
  destruct hs as [|h hs]; [|rewrite Hagain by done; rewrite Hhs; split_and!; eauto].
  cbn. rewrite Hagain by done. cbn. rewrite list_lookup_insert_eq by done. split_and!; [| by eauto | |done].
  - unfold wf_loggers. cbn. by rewrite length_insert.
  - intros l' h hs' H. apply Hkeep in H. rewrite list_lookup_insert_ne; [done|]. intros <-. congruence.
Qed.

End logging.

(** The generator is started: it stands at its first [yield]. *)
Definition coro {A G V : Type} (gen : A -> py G) (next : G -> py (V * G)) (args : A) : py G :=
  co ← gen args; '(_, co) ← next co; mret co.

(** ** [setup.py] *)

(** [s.strip(chars)]. *)
Fixpoint lstrip_chars (chars : pystr) (s : pystr) : pystr :=
  match s with
  | c :: s' => if bool_decide (c ∈ chars) then lstrip_chars chars s' else s
  | [] => []
  end.
Definition strip_chars (chars s : pystr) : pystr := rev (lstrip_chars chars (rev (lstrip_chars chars s))).

(** [s.splitlines()]: ['\r\n'] is one boundary, and no empty line follows the
    last one. *)
Definition line_boundary (c : Z) : bool := (10 <=? c) && (c <=? 13).
Fixpoint splitlines_from (line : pystr) (s : pystr) : list pystr :=
  match s with
  | [] => match line with [] => [] | _ => [line] end
  | 13 :: 10 :: s => line :: splitlines_from [] s
  | c :: s => if line_boundary c then line :: splitlines_from [] s else splitlines_from (line ++ [c]) s
  end.
Definition splitlines (s : pystr) : list pystr := splitlines_from [] s.

(** [\w]. *)
Definition is_word (c : Z) : bool :=
  is_digit c || ((65 <=? c) && (c <=? 90)) || ((97 <=? c) && (c <=? 122)) || (c =? 95).

(** The end of [re_meta] after the name: two underscores, white space, [=],
    white space, and the value up to a line break. *)
Definition meta_value (s : pystr) : option pystr :=
  match s with
  | 95 :: 95 :: s =>
      match lstrip s with
      | 61 :: s => Some (span not_newline (lstrip s)).1
      | _ => None
      end
  | _ => None
  end.

(** [(\w+?)]: the shortest name that is followed by a value. *)
Fixpoint meta_name (name : pystr) (s : pystr) : option (pystr * pystr) :=
  match s with
  | c :: s =>
      if is_word c
      then match meta_value s with
           | Some v => Some (name ++ [c], v)
           | None => meta_name (name ++ [c]) s
           end
      else None
  | [] => None
  end.

(** The groups of [re_meta.match] and of [re_doc.match]. *)
Definition re_meta (s : pystr) : option (pystr * pystr) :=
  match s with 95 :: 95 :: s => meta_name [] s | _ => None end.

Fixpoint doc_text (text : pystr) (s : pystr) : option pystr :=
  match s with
  | c :: s =>
      if not_newline c then
        if startswith [34; 34; 34] s then Some (text ++ [c]) else doc_text (text ++ [c]) s
      else None
  | [] => None
  end.
Definition re_doc (s : pystr) : option pystr :=
  if startswith [34; 34; 34] s then doc_text [] (drop 3 s) else None.

Definition add_default (m : pystr * pystr) : list (pystr * pystr) := [(m.1, strip_chars [34; 39] m.2)].
Definition add_doc (m : pystr) : list (pystr * pystr) := [(str_of "doc", m)].

(** [meta.update(...)]. *)
Definition update (meta items : list (pystr * pystr)) : list (pystr * pystr) :=
  foldl (fun d p => dict_set d p.1 p.2) meta items.

(** The loop over the patterns, and the one over the lines. *)
Definition meta_line (meta : list (pystr * pystr)) (line : pystr) : list (pystr * pystr) :=
  let meta := match re_meta (strip line) with Some m => update meta (add_default m) | None => meta end in
  match re_doc (strip line) with Some m => update meta (add_doc m) | None => meta end.

Fixpoint read_meta (meta : list (pystr * pystr)) (lines : list pystr) : list (pystr * pystr) :=
  match lines with
  | [] => meta
  | line :: lines =>
      if bool_decide (strip line = str_of "# -eof meta-") then meta else read_meta (meta_line meta line) lines
  end.

Definition strip_comments (l : pystr) : pystr := strip (default [] (head (split_at (Z.eqb 35) l))).

(** [reqs(f)], of the text of the file. *)
Definition reqs (text : pystr) : list pystr :=
  filter (fun r => r <> []) (strip_comments <$> splitlines text).

(** Of the lines of a file of requirements the comments and the blank lines go. *)
Example reqs_example :
  reqs (str_of "# tests" ++ [10] ++ str_of "pytest>=3.0,<=9.0  # the runner" ++ [13; 10; 10] ++ str_of "  vine==5.1.0 ") =
  [str_of "pytest>=3.0,<=9.0"; str_of "vine==5.1.0"].
Proof. reflexivity. Qed.

(** No white space at either end. *)
Definition stripped (s : pystr) : Prop :=
  (forall c, head s = Some c -> is_space c = false) /\ (forall c, last s = Some c -> is_space c = false).

Lemma lstrip_suffix s : exists p, s = p ++ lstrip s.
Proof.
  induction s as [|c s [p IH]]; cbn; [by exists []|].
  destruct (is_space c); [exists (c :: p); cbn; congruence|by exists []].
Qed.

Lemma lstrip_head s c : head (lstrip s) = Some c -> is_space c = false.
Proof.
  induction s as [|x s IH]; cbn; [done|].
  destruct (is_space x) eqn:E; [done|]. by intros [= <-].
Qed.

Lemma last_rev (s : pystr) : last (rev s) = head s.
Proof. rewrite rev_alt. apply (last_reverse s). Qed.

Lemma strip_stripped s : stripped (strip s).
Proof.
  unfold stripped, strip. split; intros c Hc.
  - destruct (lstrip_suffix (rev (lstrip s))) as [p Hp].
    apply (f_equal (@rev Z)) in Hp. rewrite rev_involutive, rev_app_distr in Hp.
    apply (lstrip_head s). rewrite Hp. by destruct (rev (lstrip (rev (lstrip s)))).
  - apply (lstrip_head (rev (lstrip s))). by rewrite <- Hc, last_rev.
Qed.

Lemma strip_subset s : strip s ⊆ s.
Proof.
  intros c Hc. unfold strip in Hc. destruct (lstrip_suffix s) as [p Hp].
  destruct (lstrip_suffix (rev (lstrip s))) as [q Hq].
  rewrite Hp. apply elem_of_app. right. apply list_elem_of_In, in_rev. rewrite Hq.
  apply in_app_iff. right. by apply in_rev, list_elem_of_In.
Qed.

(** A requirement that [setup.py] gives to [setuptools] is not empty, holds no
    comment and no white space at its ends. *)
Theorem reqs_clean text : Forall (fun r => r <> [] /\ (35 ∉ r) /\ stripped r) (reqs text).
Proof.
  apply Forall_forall. intros r Hr. unfold reqs in Hr. apply list_elem_of_filter in Hr as [Hne Hr].
  apply list_elem_of_fmap in Hr as (l & -> & _). split; [done|]. split; [|apply strip_stripped].
  unfold strip_comments. destruct (split_at_head (Z.eqb 35) l) as (h & rest & -> & Hh & _). cbn.
  intros Hin. apply strip_subset in Hin. rewrite Forall_forall in Hh. by apply Hh in Hin.
Qed.

Definition classifiers (classes : pystr) : list pystr :=
  strip <$> filter (fun s => s <> []) (split_at (Z.eqb 10) classes).

(** ** The package as it is

    The lines that [setup.py] reads of [amqp/__init__.py]; the distribution has
    the version that the package computes for itself. *)
Definition init_lines : list pystr :=
  [ ([34; 34; 34] ++ str_of "Low-level AMQP client for Python (fork of amqplib)." ++ [34; 34; 34]);
    str_of "# Copyright (C) 2007-2008 Barry Pederson <bp@barryp.org>";
    [];
    str_of "import re";
    str_of "from collections import namedtuple";
    [];
    (str_of "__version__ = '" ++ __version__ ++ str_of "'");
    str_of "__author__ = 'Barry Pederson'";
    str_of "__maintainer__ = 'Asif Saif Uddin, Matus Valo'";
    str_of "__contact__ = 'auvipy@gmail.com'";
    str_of "__homepage__ = 'http://github.com/celery/py-amqp'";
    str_of "__docformat__ = 'restructuredtext'";
    [];
    str_of "# -eof meta-";
    [];
    str_of "version_info_t = namedtuple('version_info_t', (" ].

Definition meta : list (pystr * pystr) := read_meta [] init_lines.

Theorem meta_of_package :
  meta =
  [ (str_of "doc", str_of "Low-level AMQP client for Python (fork of amqplib).");
    (str_of "version", __version__);
    (str_of "author", str_of "Barry Pederson");
    (str_of "maintainer", str_of "Asif Saif Uddin, Matus Valo");
    (str_of "contact", str_of "auvipy@gmail.com");
    (str_of "homepage", str_of "http://github.com/celery/py-amqp");
    (str_of "docformat", str_of "restructuredtext") ].
Proof. reflexivity. Qed.

(** ** The call of [setuptools.setup] *)

Definition NAME : pystr := str_of "amqp".

Definition classes : pystr :=
  [10] ++ concat ((fun l => str_of "    " ++ str_of l ++ [10]) <$>
    [ "Development Status :: 5 - Production/Stable";
      "Programming Language :: Python";
      "Programming Language :: Python :: 3 :: Only";
      "Programming Language :: Python :: 3";
      "Programming Language :: Python :: 3.9";
      "Programming Language :: Python :: 3.10";
      "Programming Language :: Python :: 3.11";
      "Programming Language :: Python :: 3.12";
      "Programming Language :: Python :: 3.13";
      "Programming Language :: Python :: Implementation :: CPython";
      "Programming Language :: Python :: Implementation :: PyPy";
      "License :: OSI Approved :: BSD License";
      "Intended Audience :: Developers";
      "Operating System :: OS Independent" ]).

(** Each line is a classifier, without its indentation. *)
Example classifiers_example :
  length (classifiers classes) = 14%nat /\ head (classifiers classes) = Some (str_of "Development Status :: 5 - Production/Stable").
Proof. by vm_compute. Qed.

(** [setup_requires] and [ext_modules], from the value of
    [CELERY_ENABLE_SPEEDUPS]; a module and its sources. *)
Definition speedups (variable : option pystr) : list pystr * list (string * list string) :=
  match variable with
  | Some (_ :: _) =>
      ([str_of "Cython"],
       [ ("amqp.serialization", ["amqp/serialization.py"]);
         ("amqp.basic_message", ["amqp/basic_message.py"]);
         ("amqp.method_framing", ["amqp/method_framing.py"]);
         ("amqp.abstract_channel", ["amqp/abstract_channel.py"]);
         ("amqp.utils", ["amqp/utils.py"]) ])
  | _ => ([], [])
  end.

(** The arguments that are computed. *)
Record distribution : Type := Distribution {
  dist_name : pystr;
  dist_packages : list pystr;
  dist_version : pystr;
  dist_description : pystr;
  dist_long_description : pystr;
  dist_author : pystr;
  dist_author_email : pystr;
  dist_maintainer : pystr;
  dist_url : pystr;
  dist_classifiers : list pystr;
  dist_install_requires : list pystr;
  dist_setup_requires : list pystr;
  dist_tests_require : list pystr;
  dist_ext_modules : list (string * list string);
}.

(** [setup]: from the dictionary, the texts of [README.rst],
    [requirements/default.txt] and [requirements/test.txt], the environment
    variable, and what [setuptools.find_packages] finds without the names it is
    told to leave out. *)
Definition setup (meta : list (pystr * pystr)) (readme default_txt test_txt : pystr) (variable : option pystr)
    (find_packages : list string -> list pystr) : py distribution :=
  let meta_at key := of_option KeyError (dict_get meta (str_of key)) in
  let '(setup_requires, ext_modules) := speedups variable in
  let packages := find_packages ["ez_setup"; "t"; "t.*"] in
  version ← meta_at "version";
  description ← meta_at "doc";
  author ← meta_at "author";
  author_email ← meta_at "contact";
  maintainer ← meta_at "maintainer";
  url ← meta_at "homepage";
  mret (Distribution NAME packages version description readme author author_email maintainer url
    (classifiers classes) (reqs default_txt) setup_requires (reqs test_txt) ext_modules).

(** The package as it is can be built, whatever the other files hold, under
    the version that [amqp.VERSION] is made of. *)
Theorem setup_builds readme default_txt test_txt variable find_packages :
  exists d, setup meta readme default_txt test_txt variable find_packages = Ok d /\
    dist_version d = __version__ /\
    version_info (dist_version d) = Ok (VersionInfo 5 3 1 [] []) /\
    Forall (fun r => r <> [] /\ (35 ∉ r) /\ stripped r) (dist_install_requires d).
Proof.
  unfold setup. rewrite meta_of_package. destruct (speedups variable) as [sr em].
  eexists. split; [reflexivity|]. split_and!; [done|done|apply reqs_clean].
Qed.

(** [pytest.run_tests]: the exit status that [pytest.main] gives.  The default
    of the option is split into one empty argument. *)
Definition pytest_args : pystr := [].
Definition run_tests (pytest_main : list pystr -> Z) (pytest_args : pystr) : Z :=
  pytest_main (split_at (Z.eqb 32) pytest_args).

Example run_tests_default pytest_main : run_tests pytest_main pytest_args = pytest_main [[]].
Proof. done. Qed.
