(* ===== verification/Scripts.v ===== *)
(** * The script of the comments ([extra/update_comments_from_spec.py])

    The script takes the comments of the methods from one file and puts them
    into another.  The two regular expressions are matched by functions: every
    lazy repetition stops at the first place where the rest of the expression
    can go on, and after it nothing fails that a later place would mend, since
    a triple quote that ends a later match ends the earlier one as well.  The
    texts are ASCII. *)

From S2P Require Import Prelude Exceptions Values Transport Platform Package.

Open Scope Z_scope.

Definition quotes : pystr := [34; 34; 34].

(** ** Matching *)

(** The beginning of a definition: [def], white space, a name and a
    parenthesis. The name, the text and what follows it. *)
Definition match_def_name (s : pystr) : option (pystr * pystr * pystr) :=
  if startswith (str_of "def") s then
    let '(w, r) := span is_space (drop 3 s) in
    let '(name, r) := span is_word r in
    match w, name, r with
    | _ :: _, _ :: _, 40 :: r => Some (name, str_of "def" ++ w ++ name ++ [40], r)
    | _, _, _ => None
    end
  else None.

(** The parenthesis and the colon, line breaks, white space, and the quotes. *)
Definition match_body (s : pystr) : option (pystr * pystr) :=
  match s with
  | 41 :: 58 :: s =>
      let '(w, r) := span is_space s in
      match w with
      | 10 :: _ :: _ => if startswith quotes r then Some ([41; 58] ++ w ++ quotes, drop 3 r) else None
      | _ => None
      end
  | _ => None
  end.

(** Any text, as short as possible, before a match of [stop]. *)
Fixpoint lazily {A} (stop : pystr -> option (A * pystr)) (s : pystr) : option (pystr * A * pystr) :=
  match stop s with
  | Some (a, r) => Some ([], a, r)
  | None =>
      match s with
      | c :: s => '(t, a, r) ← lazily stop s; Some (c :: t, a, r)
      | [] => None
      end
  end.

(** The lookahead for the quotes takes nothing. *)
Definition before_quotes (s : pystr) : option (unit * pystr) :=
  if startswith quotes s then Some (tt, s) else None.
Definition newline (s : pystr) : option (unit * pystr) :=
  match s with 10 :: s => Some (tt, s) | _ => None end.

(** [RE_COMMENTS] at the beginning of a text: the name, the comment, and what
    follows the match. *)
Definition match_comment (s : pystr) : option (pystr * pystr * pystr) :=
  '(name, _, r) ← match_def_name s;
  '(_, _, r) ← lazily match_body r;
  '(comment, _, r) ← lazily before_quotes r;
  Some (name, comment, r).

(** The expression of [replace_comment_per_def] for one name: the group
    [methodsig], which goes on to the end of the first line of the comment. *)
Definition match_def (def_name : pystr) (s : pystr) : option (pystr * pystr) :=
  '(name, d, r) ← match_def_name s;
  if bool_decide (name = def_name) then
    '(args, body, r) ← lazily match_body r;
    '(line, _, r) ← lazily newline r;
    '(_, _, r) ← lazily before_quotes r;
    Some (d ++ args ++ body ++ line ++ [10], r)
  else None.

(** ** The functions of the script *)

(** [RE_COMMENTS.finditer(source)]. *)
Fixpoint finditer (fuel : nat) (s : pystr) : list (pystr * pystr) :=
  match fuel with
  | O => []
  | S fuel =>
      match match_comment s with
      | Some (name, comment, r) => (name, comment) :: finditer fuel r
      | None => match s with _ :: s => finditer fuel s | [] => [] end
      end
  end.

(** [get_comments], of the text of the file. *)
Definition get_comments (whole_source : pystr) : list (pystr * pystr) :=
  foldl (fun comments m => dict_set comments m.1 m.2) [] (finditer (S (length whole_source)) whole_source).

(** [re.sub(regex, r'\g<methodsig>' + new_comment, source)] with a comment
    that holds no backslash. *)
Fixpoint sub (fuel : nat) (def_name new_comment s : pystr) : pystr :=
  match fuel with
  | O => []
  | S fuel =>
      match match_def def_name s with
      | Some (methodsig, r) => methodsig ++ new_comment ++ sub fuel def_name new_comment r
      | None => match s with c :: s => c :: sub fuel def_name new_comment s | [] => [] end
      end
  end.

(** [replace_comment_per_def]; [None] where [re] would read the backslashes of
    the comment as escapes of its template. *)
Definition replace_comment_per_def (source def_name new_comment : pystr) : option pystr :=
  if bool_decide (92 ∈ new_comment) then None
  else Some (sub (S (length source)) def_name new_comment source).

(** [update_comments], from the texts of the two files to the text written. *)
Definition update_comments (comments_file impl_file : pystr) : option pystr :=
  foldl (fun source c => source ← source; replace_comment_per_def source c.1 c.2) (Some impl_file)
    (get_comments comments_file).

(** [main]: the three files, or the exit status of the usage message. *)
Definition main (default_source_file : pystr) (argv : list pystr) : py (pystr * pystr * pystr + Z) :=
  if (length argv <? 3)%nat then
    match argv with [] => Raise IndexError | _ => Ok (inr 1) end
  else
    match argv with
    | _ :: comments :: result :: rest =>
        Ok (inl (comments, match rest with f :: _ => f | [] => default_source_file end, result))
    | _ => Raise IndexError
    end.

(** ** The loops end *)

(** A lazy repetition stops at the first place where it can. *)
Lemma lazily_ok {A} (stop : pystr -> option (A * pystr)) s t a r :
  lazily stop s = Some (t, a, r) -> exists s', s = t ++ s' /\ stop s' = Some (a, r).
Proof.
  revert t. induction s as [|c s IH]; intros t; cbn [lazily].
  - destruct (stop []) as [[a' r']|] eqn:E; intros; simplify_eq. by exists [].
  - destruct (stop (c :: s)) as [[a' r']|] eqn:E; intros; simplify_eq; [by exists (c :: s)|].
    destruct (lazily stop s) as [[[t' a'] r']|]; [|done]. cbn in *. simplify_eq.
    destruct (IH t' eq_refl) as (s' & -> & Hs). by exists s'.
Qed.

Lemma lazily_app {A} (stop : pystr -> option (A * pystr)) t s a r :
  (forall u v, t = u ++ v -> v <> [] -> stop (v ++ s) = None) -> stop s = Some (a, r) ->
  lazily stop (t ++ s) = Some (t, a, r).
Proof.
  intros Ht Hs. induction t as [|c t IH]; cbn [app].
  - destruct s; cbn [lazily]; by rewrite Hs.
  - cbn [lazily]. change (c :: t ++ s) with ((c :: t) ++ s). rewrite (Ht [] (c :: t)) by done.
    rewrite IH; [done|]. intros u v Huv Hv. apply (Ht (c :: u)); [by rewrite Huv|done].
Qed.

Lemma span_parts p s : let '(a, b) := span p s in s = a ++ b.
Proof. induction s as [|c s IH]; cbn; [done|]. destruct (p c); [|done]. destruct (span p s). cbn. congruence. Qed.

Lemma match_def_name_shorter s name d r : match_def_name s = Some (name, d, r) -> (length r < length s)%nat.
Proof.
  unfold match_def_name. destruct (startswith _ s); [|done].
  pose proof (span_parts is_space (drop 3 s)) as H1. destruct (span is_space (drop 3 s)) as [w r1].
  pose proof (span_parts is_word r1) as H2. destruct (span is_word r1) as [n r2].
  intros H. repeat case_match; simplify_eq. apply (f_equal length) in H1. rewrite length_drop, length_app in H1.
  rewrite length_app in H1. cbn in H1. lia.
Qed.

Lemma lazily_shorter {A} (stop : pystr -> option (A * pystr)) s t a r :
  (forall s' a' r', stop s' = Some (a', r') -> (length r' <= length s')%nat) ->
  lazily stop s = Some (t, a, r) -> (length r <= length s)%nat.
Proof.
  intros Hstop H. apply lazily_ok in H as (s' & -> & H). apply Hstop in H. rewrite length_app. lia.
Qed.

Lemma match_body_shorter s a r : match_body s = Some (a, r) -> (length r <= length s)%nat.
Proof.
  unfold match_body. destruct s as [|c1 [|c2 s]]; [done|by repeat case_match|].
  pose proof (span_parts is_space s) as H1. destruct (span is_space s) as [w r1].
  intros H. repeat case_match; simplify_eq. rewrite length_drop. cbn [length]. rewrite length_app. lia.
Qed.

Lemma before_quotes_shorter s a r : before_quotes s = Some (a, r) -> (length r <= length s)%nat.
Proof. unfold before_quotes. case_match; intros; by simplify_eq. Qed.

Lemma newline_shorter s a r : newline s = Some (a, r) -> (length r <= length s)%nat.
Proof. unfold newline. intros H. repeat case_match; simplify_eq. cbn. lia. Qed.

Lemma match_comment_shorter s name c r : match_comment s = Some (name, c, r) -> (length r < length s)%nat.
Proof.
  unfold match_comment. intros H.
  destruct (match_def_name s) as [[[n d] r1]|] eqn:H1; [|done]. cbn [mbind option_bind] in H.
  destruct (lazily match_body r1) as [[[t b] r2]|] eqn:H2; [|done]. cbn [mbind option_bind] in H.
  destruct (lazily before_quotes r2) as [[[t' u] r3]|] eqn:H3; [|done]. cbn in H. simplify_eq.
  apply match_def_name_shorter in H1. apply (lazily_shorter _ _ _ _ _ match_body_shorter) in H2.
  apply (lazily_shorter _ _ _ _ _ before_quotes_shorter) in H3. lia.
Qed.

Lemma match_def_shorter name s sig r : match_def name s = Some (sig, r) -> (length r < length s)%nat.
Proof.
  unfold match_def. intros H.
  destruct (match_def_name s) as [[[n d] r1]|] eqn:H1; [|done]. cbn [mbind option_bind] in H.
  case_bool_decide; [|done].
  destruct (lazily match_body r1) as [[[t b] r2]|] eqn:H2; [|done]. cbn [mbind option_bind] in H.
  destruct (lazily newline r2) as [[[l u] r3]|] eqn:H3; [|done]. cbn [mbind option_bind] in H.
  destruct (lazily before_quotes r3) as [[[t' u'] r4]|] eqn:H4; [|done]. cbn in H. simplify_eq.
  apply match_def_name_shorter in H1. apply (lazily_shorter _ _ _ _ _ match_body_shorter) in H2.
  apply (lazily_shorter _ _ _ _ _ newline_shorter) in H3.
  apply (lazily_shorter _ _ _ _ _ before_quotes_shorter) in H4. lia.
Qed.

(** One unit of fuel more than the length is enough. *)
Lemma finditer_fuel n s : (length s < n)%nat -> finditer n s = finditer (S (length s)) s.
Proof.
  revert s. induction n as [n IH] using lt_wf_ind. intros s Hn. destruct n as [|n]; [lia|]. cbn [finditer].
  destruct (match_comment s) as [[[name c] r]|] eqn:E.
  - apply match_comment_shorter in E. rewrite (IH n), (IH (length s)) by lia. done.
  - destruct s as [|c s]; [done|]. cbn in Hn. rewrite (IH n) by lia. done.
Qed.

Lemma sub_fuel n name c s : (length s < n)%nat -> sub n name c s = sub (S (length s)) name c s.
Proof.
  revert s. induction n as [n IH] using lt_wf_ind. intros s Hn. destruct n as [|n]; [lia|]. cbn [sub].
  destruct (match_def name s) as [[sig r]|] eqn:E.
  - apply match_def_shorter in E. rewrite (IH n), (IH (length s)) by lia. done.
  - destruct s as [|x s]; [done|]. cbn in Hn. rewrite (IH n) by lia. done.
Qed.

(** ** A method with a comment *)

(** A definition whose comment has a first line and further text. *)
Definition head_of (name args indent : pystr) : pystr :=
  (str_of "def " ++ name ++ [40] ++ args ++ [41; 58; 10] ++ indent ++ quotes).
Definition method_text (name args indent line rest : pystr) : pystr :=
  head_of name args indent ++ (line ++ [10] ++ rest ++ quotes).

Record plain_method (name args indent line rest : pystr) : Prop := PlainMethod {
  pm_name : (name <> []) /\ Forall (fun c => is_word c = true) name;
  pm_args : 41 ∉ args;
  pm_indent : (indent <> []) /\ Forall (fun c => is_space c = true) indent;
  pm_line : (10 ∉ line) /\ (34 ∉ line);
  pm_rest : 34 ∉ rest;
}.

Lemma match_def_name_head name s :
  name <> [] -> Forall (fun c => is_word c = true) name ->
  match_def_name (str_of "def " ++ name ++ [40] ++ s) = Some (name, str_of "def " ++ name ++ [40], s).
Proof.
  intros Hne Hn. unfold match_def_name. change (startswith _ _) with true. cbn iota.
  change (drop 3 (str_of "def " ++ name ++ [40] ++ s)) with ([32] ++ (name ++ [40] ++ s)).
  rewrite (span_exact is_space [32]); [|by repeat constructor|].
  2: { destruct name as [|c name]; [done|]. cbn. apply Forall_cons_1 in Hn as [Hc _].
       unfold is_word, is_digit in Hc. unfold is_space. lia. }
  rewrite (span_exact is_word name) by done. by destruct name.
Qed.

Lemma lazily_body args indent s :
  41 ∉ args -> indent <> [] -> Forall (fun c => is_space c = true) indent ->
  lazily match_body (args ++ [41; 58; 10] ++ indent ++ quotes ++ s) =
    Some (args, [41; 58; 10] ++ indent ++ quotes, s).
Proof.
  intros Ha Hne Hi. apply lazily_app.
  - intros u v Huv Hv. destruct v as [|c v]; [done|]. unfold match_body. cbn [app].
    assert (c <> 41) as Hc. { intros ->. apply Ha. rewrite Huv. set_solver. }
    by repeat case_match.
  - unfold match_body. cbn [app]. change (10 :: indent ++ quotes ++ s) with ((10 :: indent) ++ quotes ++ s).
    rewrite (span_exact is_space) by (done || by constructor). by destruct indent.
Qed.

(** Text without the first character of the stop is passed over. *)
Lemma lazily_skip {A} (stop : pystr -> option (A * pystr)) x t s a r :
  (forall c s', c <> x -> stop (c :: s') = None) -> x ∉ t -> stop s = Some (a, r) ->
  lazily stop (t ++ s) = Some (t, a, r).
Proof.
  intros Hstop Ht Hs. apply lazily_app; [|done]. intros u v Huv Hv. destruct v as [|c v]; [done|].
  apply Hstop. intros ->. apply Ht. rewrite Huv. set_solver.
Qed.

Lemma before_quotes_skip c s : c <> 34 -> before_quotes (c :: s) = None.
Proof. intros Hc. unfold before_quotes, startswith. rewrite bool_decide_eq_false_2; [done|]. by intros [= ->]. Qed.

Lemma newline_skip c s : c <> 10 -> newline (c :: s) = None.
Proof. intros Hc. unfold newline. by repeat case_match. Qed.

Lemma before_quotes_here s : before_quotes (quotes ++ s) = Some (tt, quotes ++ s).
Proof. done. Qed.

(** Its name and its comment are found. *)
Lemma match_comment_method name args indent line rest s :
  plain_method name args indent line rest ->
  match_comment (method_text name args indent line rest ++ s) = Some (name, line ++ [10] ++ rest, quotes ++ s).
Proof.
  intros [[Hne Hn] Ha [Hine Hi] [Hl10 Hl34] Hr]. unfold match_comment, method_text, head_of. rewrite <- !app_assoc.
  rewrite match_def_name_head by done. cbn [mbind option_bind].
  rewrite lazily_body by done. cbn [mbind option_bind].
  replace (line ++ [10] ++ rest ++ quotes ++ s) with ((line ++ [10] ++ rest) ++ quotes ++ s) by (by rewrite <- !app_assoc).
  rewrite (lazily_skip before_quotes 34 (line ++ [10] ++ rest) (quotes ++ s) tt (quotes ++ s) before_quotes_skip);
    [done| |done].
  rewrite !not_elem_of_app. split_and!; [done| |done]. by intros [=]%list_elem_of_singleton.
Qed.

(** The group [methodsig] goes up to the end of the first line. *)
Lemma match_def_method name args indent line rest s :
  plain_method name args indent line rest ->
  match_def name (method_text name args indent line rest ++ s) =
    Some (head_of name args indent ++ line ++ [10], quotes ++ s).
Proof.
  intros [[Hne Hn] Ha [Hine Hi] [Hl10 Hl34] Hr]. unfold match_def, method_text, head_of. rewrite <- !app_assoc.
  rewrite match_def_name_head by done. cbn [mbind option_bind]. rewrite bool_decide_eq_true_2 by done.
  rewrite lazily_body by done. cbn [mbind option_bind].
  rewrite (lazily_skip newline 10 line ([10] ++ rest ++ quotes ++ s) tt (rest ++ quotes ++ s) newline_skip) by done. cbn [mbind option_bind].
  rewrite (lazily_skip before_quotes 34 rest (quotes ++ s) tt (quotes ++ s) before_quotes_skip) by done. cbn. by rewrite <- !app_assoc.
Qed.

(** No match of the expression begins in the text. *)
Definition no_def (name s : pystr) : Prop := forall u v, s = u ++ v -> match_def name v = None.

Lemma sub_no_def n name c s : (length s < n)%nat -> no_def name s -> sub n name c s = s.
Proof.
  revert s. induction n as [|n IH]; intros s Hn Hs; [lia|]. cbn [sub]. rewrite (Hs [] s eq_refl).
  destruct s as [|x s]; [done|]. cbn in Hn. rewrite IH; [done|lia|].
  intros u v ->. by apply (Hs (x :: u)).
Qed.

(** [replace_comment_per_def] keeps the definition and the first line of the
    comment, puts the new comment in the place of the rest of it, and changes
    nothing before and after. *)
Theorem replace_comment name args indent line rest comment pre post :
  plain_method name args indent line rest -> 92 ∉ comment ->
  (forall u v, pre = u ++ v -> v <> [] -> match_def name (v ++ method_text name args indent line rest ++ post) = None) ->
  no_def name (quotes ++ post) ->
  replace_comment_per_def (pre ++ method_text name args indent line rest ++ post) name comment =
    Some (pre ++ method_text name args indent line comment ++ post).
Proof.
  intros Hm Hc Hpre Hpost. unfold replace_comment_per_def. rewrite bool_decide_eq_false_2 by done. f_equal.
  set (s := method_text name args indent line rest ++ post) in *.
  assert (forall n, (length s < n)%nat -> sub n name comment s = method_text name args indent line comment ++ post) as Hs.
  { intros [|n] Hn; [lia|]. cbn [sub]. pose proof (match_def_method _ _ _ _ _ post Hm) as E. fold s in E. rewrite E.
    apply match_def_shorter in E. rewrite (sub_no_def n) by (try done; lia).
    unfold method_text. by rewrite <- !app_assoc. }
  clear Hpost. generalize (S (length (pre ++ s))), (Nat.lt_succ_diag_r (length (pre ++ s))). intros n Hn.
  revert n Hn. induction pre as [|c p IH]; intros n Hn; [by apply Hs|]. destruct n as [|n]; [lia|].
  cbn [sub app]. change (c :: p ++ s) with ((c :: p) ++ s). rewrite (Hpre [] (c :: p)) by done.
  cbn [app] in *. rewrite IH; [done| |cbn [length] in Hn; lia]. intros u v -> Hv. by apply (Hpre (c :: u)).
Qed.

(** On a file with one method, between other text. *)
Definition demo_source : pystr :=
  str_of "class Channel:" ++ [10] ++
  method_text (str_of "flow") (str_of "self, active") (str_of "        ") (str_of "Flow.")
    ([10] ++ str_of "        Old text." ++ [10]) ++ [10] ++ str_of "        return active" ++ [10].
Definition demo_comments : pystr :=
  method_text (str_of "flow") (str_of "self") (str_of "  ") [] (str_of "        New text." ++ [10]).

Example update_comments_example :
  update_comments demo_comments demo_source =
    Some (str_of "class Channel:" ++ [10] ++
      method_text (str_of "flow") (str_of "self, active") (str_of "        ") (str_of "Flow.")
        ([10] ++ str_of "        New text." ++ [10]) ++ [10] ++ str_of "        return active" ++ [10]).
Proof. vm_compute. reflexivity. Qed.

(** A comment of one line is not the comment of [plain_method]: the expression
    passes its quotes, and everything up to the next triple quote, the code of
    the method included, is replaced. *)
Definition one_line_source : pystr :=
  head_of (str_of "is_open") (str_of "self") (str_of "    ") ++ str_of "State." ++ quotes ++ [10] ++
  str_of "    return self._open" ++ [10] ++
  head_of (str_of "close") (str_of "self") (str_of "    ") ++ str_of "Close." ++ quotes ++ [10].

Theorem one_line_comment_eats_code :
  replace_comment_per_def one_line_source (str_of "is_open") (str_of "New." ++ [10]) =
    Some (head_of (str_of "is_open") (str_of "self") (str_of "    ") ++ str_of "State." ++ quotes ++ [10] ++
          str_of "New." ++ [10] ++ quotes ++ str_of "Close." ++ quotes ++ [10]).
Proof. vm_compute. reflexivity. Qed.

(** A method without a comment takes the name away from the next one that has
    one. *)
Theorem comment_of_another_method :
  get_comments (str_of "def close(self):" ++ [10] ++ str_of "    pass" ++ [10] ++
    method_text (str_of "open") (str_of "self") (str_of "    ") (str_of "Open.") (str_of "    ")) =
  [(str_of "close", str_of "Open." ++ [10] ++ str_of "    ")].
Proof. vm_compute. reflexivity. Qed.
