(* ===== verification/Show.v ===== *)
(** * The texts of objects ([__str__] and [__repr__])

    What errors, transports and connections print.  The messages of the
    library's own errors, which the other files know by their templates, and
    the texts of other exceptions are parameters. *)

From S2P Require Import Prelude Exceptions Values Transport Platform.

Open Scope Z_scope.

(** ** Numbers *)

(** [str(z)]. *)
Definition int_str (z : Z) : pystr := if z <? 0 then 45 :: numeral (- z) else numeral z.

(** [f'{n:#x}'] of a number that is not negative. *)
Definition hex_digit (d : Z) : Z := if d <? 10 then d + 48 else d + 87.
Fixpoint hex_fuel (fuel : nat) (n : Z) : pystr :=
  match fuel with
  | O => []
  | S fuel => if n <? 16 then [hex_digit n] else hex_fuel fuel (n / 16) ++ [hex_digit (n mod 16)]
  end.
Definition hex_str (n : Z) : pystr := str_of "0x" ++ hex_fuel (S (Z.to_nat (Z.log2 n))) n.

Example int_str_example : int_str 0 = str_of "0" /\ int_str (-320) = str_of "-320".
Proof. done. Qed.
Example hex_str_example : hex_str 0 = str_of "0x0" /\ hex_str 0x7f3a9c = str_of "0x7f3a9c".
Proof. done. Qed.

(** ** Errors *)

Section errors.
(** What [str.format] made of the template of a message. *)
Context (message : string -> pystr).

(** [type(self).__name__]. *)
Definition class_name (c : amqp_class) : string :=
  match c with
  | AMQPError => "AMQPError" | ConnectionError => "ConnectionError" | ChannelError => "ChannelError"
  | RecoverableChannelError => "RecoverableChannelError"
  | IrrecoverableChannelError => "IrrecoverableChannelError"
  | RecoverableConnectionError => "RecoverableConnectionError"
  | IrrecoverableConnectionError => "IrrecoverableConnectionError"
  | Blocked => "Blocked" | ConsumerCancelled => "ConsumerCancelled" | ContentTooLarge => "ContentTooLarge"
  | NoConsumers => "NoConsumers" | ConnectionForced => "ConnectionForced" | InvalidPath => "InvalidPath"
  | AccessRefused => "AccessRefused" | NotFound => "NotFound" | ResourceLocked => "ResourceLocked"
  | PreconditionFailed => "PreconditionFailed" | FrameError => "FrameError"
  | FrameSyntaxError => "FrameSyntaxError" | InvalidCommand => "InvalidCommand"
  | ChannelNotOpen => "ChannelNotOpen" | UnexpectedFrame => "UnexpectedFrame"
  | ResourceError => "ResourceError" | NotAllowed => "NotAllowed"
  | AMQPNotImplementedError => "AMQPNotImplementedError" | InternalError => "InternalError"
  end.

Definition text_str (t : text) : pystr := match t with TStr s => s | TMsg template => message template end.

(** What [format] makes of [self.method]: a name, a pair or a number. *)
Definition method_str (m : string + option method_key) : pystr :=
  match m with
  | inl name => str_of name
  | inr (Some (inl (c, m))) => str_of "(" ++ int_str c ++ str_of ", " ++ int_str m ++ str_of ")"
  | inr (Some (inr z)) => int_str z
  | inr None => str_of "None"
  end.

(** [if self.method]. *)
Definition method_truthy (m : string + option method_key) : bool :=
  match m with inl _ => true | inr m => sig_truthy m end.

(** [AMQPError.__str__]. *)
Definition error_str (e : amqp_error) : pystr :=
  let m := amqp_error_method e in
  let text := default (str_of "None") (text_str <$> err_reply_text e) in
  if method_truthy m
  then method_str m ++ str_of ": (" ++ int_str (err_reply_code e) ++ str_of ") " ++ text
  else match text_str <$> err_reply_text e with
       | Some ((_ :: _) as s) => s
       | _ => str_of "<" ++ str_of (class_name (err_class e)) ++ str_of ": unknown error>"
       end.

(** An error always says something. *)
Theorem error_str_nonempty e : error_str e <> [].
Proof.
  unfold error_str. case_match eqn:Hm.
  - intros [_ H]%app_nil. done.
  - by repeat case_match.
Qed.

(** The close that a broker sends is shown with the method, the code and the
    text. *)
Example error_str_close :
  error_str (error_for_code 404 (Some (TStr (str_of "NOT_FOUND - no queue 'q'"))) (Some (inl (50, 10))) ChannelError) =
    str_of "Queue.declare: (404) NOT_FOUND - no queue 'q'".
Proof. vm_compute. reflexivity. Qed.

Example error_str_unknown : error_str (amqp_error_init ConnectionError None None None None) =
  str_of "<ConnectionError: unknown error>".
Proof. done. Qed.
End errors.

(** ** Transports and connections *)

Section reprs.
(** [str(e)] of an exception of the socket; what the socket says of its two
    ends, an address and a port. *)
Context (exc_str : exc -> pystr) (getsockname getpeername : py (pystr * Z)).

Definition end_str (e : pystr * Z) : pystr := e.1 ++ str_of ":" ++ int_str e.2.

Definition kind_name (k : kind) : string := match k with TCP => "TCPTransport" | SSL => "SSLTransport" end.

(** [_AbstractTransport.__repr__]; [id] is [id(self)]. *)
Definition transport_repr (id : Z) (t : transport) : py pystr :=
  if t_open t then
    src ← getsockname;
    dst ← match getpeername with
          | Ok e => Ok (end_str e)
          | Raise e => if is_os_error e then Ok (str_of "ERROR: " ++ exc_str e) else Raise e
          | OutOfFuel => OutOfFuel
          end;
    mret (str_of "<" ++ str_of (kind_name (t_kind t)) ++ str_of ": " ++ end_str src ++ str_of " -> " ++ dst ++
          str_of " at " ++ hex_str id ++ str_of ">")
  else mret (str_of "<" ++ str_of (kind_name (t_kind t)) ++ str_of ": (disconnected) at " ++ hex_str id ++ str_of ">").

(** [Connection.__repr__]: the transport is [None] or has an identity. *)
Definition connection_repr (id : Z) (host virtual_host : pystr) (transport : option (Z * transport)) : py pystr :=
  match transport with
  | Some (tid, t) =>
      r ← transport_repr tid t;
      mret (str_of "<AMQP Connection: " ++ host ++ str_of "/" ++ virtual_host ++ str_of " using " ++ r ++
            str_of " at " ++ hex_str id ++ str_of ">")
  | None =>
      mret (str_of "<AMQP Connection: " ++ host ++ str_of "/" ++ virtual_host ++
            str_of " (disconnected) at " ++ hex_str id ++ str_of ">")
  end.

(** A failing peer does not keep a transport from being shown; only the
    address of the socket itself can. *)
Theorem transport_repr_ok id t :
  raises_only is_os_error getpeername -> getpeername <> OutOfFuel -> is_ok getsockname = true ->
  is_ok (transport_repr id t) = true.
Proof.
  intros Hp Hf Hs. unfold transport_repr. destruct (t_open t); [|done].
  destruct getsockname as [src|e|]; [|done..]. destruct getpeername as [dst|e|]; [done| |done].
  cbn in *. by rewrite Hp.
Qed.

(** After [close] the socket is not asked at all. *)
Theorem transport_repr_closed id t : t_open t = false -> is_ok (transport_repr id t) = true.
Proof. intros Ho. unfold transport_repr. by rewrite Ho. Qed.
End reprs.

Example transport_repr_example :
  transport_repr (fun _ => []) (Ok (str_of "127.0.0.1", 40000)) (Ok (str_of "127.0.0.1", 5672)) 0x7f00
    (Transport TCP true true true [] None [] [] []) =
  Ok (str_of "<TCPTransport: 127.0.0.1:40000 -> 127.0.0.1:5672 at 0x7f00>").
Proof. vm_compute. reflexivity. Qed.
