(* ===== verification/Sockopts.v ===== *)
(** * The options that a new connection sets ([_init_socket] of
    [amqp/transport.py])

    The calls of [setsockopt], in order: keep-alive, the TCP options of
    [Platform.v], and the timeouts of sending and receiving, packed as a C
    [struct timeval] of two 64-bit numbers, little-endian as on Linux.  The
    value of [socket_options] is the argument [options] of [Transport.connect]. *)

From S2P Require Import Prelude Exceptions Struct Values Transport Platform.

Open Scope Z_scope.

(** ** The timeouts *)

(** A timeout in seconds: an [int], or a [float] as its 64-bit pattern. *)
Variant interval : Set := IntInterval (z : Z) | FloatInterval (bits : Z).

(** [sec] and [usec].  The difference of a float and its integral part is
    exact; the product is rounded. *)
Definition timeval (i : interval) : py (Z * Z) :=
  match i with
  | IntInterval z => Ok (z, 0)
  | FloatInterval b =>
      sec ← py_int (VFloat b);
      let '(s, num, den) := f64_ratio b in
      usec ← py_int (VFloat (f64_of_ratio s (num mod den * 1000000) den));
      mret (sec, usec)
  end.

(** [pack('l', z)]. *)
Definition pack_l (z : Z) : py bytes := (@rev byte) <$> pack_s 8 z.

(** [pack('ll', sec, usec)] of an interval. *)
Definition pack_ll (i : interval) : py bytes :=
  '(sec, usec) ← timeval i; s ← pack_l sec; u ← pack_l usec; mret (s ++ u).

(** ** [_init_socket] up to [_setup_transport] *)

Definition SOL_SOCKET : Z := 1.
Definition SO_KEEPALIVE : Z := 9.
Definition SO_RCVTIMEO : Z := 20.
Definition SO_SNDTIMEO : Z := 21.
Definition SOL_TCP : Z := 6.

Variant optval : Type := OptInt (z : Z) | OptBytes (bs : bytes).

Section options.
(** What [sock.setsockopt(level, opt, value)] answers. *)
Context (setsockopt : Z -> Z -> optval -> py unit).

Definition set_timeout_option (opt : Z) (i : option interval) : py unit :=
  match i with
  | Some i => tv ← pack_ll i; setsockopt SOL_SOCKET opt (OptBytes tv)
  | None => mret tt
  end.

Fixpoint set_tcp_options (opts : list (Z * Z)) : py unit :=
  match opts with
  | (opt, val) :: opts => setsockopt SOL_TCP opt (OptInt val) ;; set_tcp_options opts
  | [] => mret tt
  end.

Definition socket_options (tcp_opts : list (Z * Z)) (read_timeout write_timeout : option interval) : py unit :=
  setsockopt SOL_SOCKET SO_KEEPALIVE (OptInt 1) ;;
  set_tcp_options tcp_opts ;;
  set_timeout_option SO_SNDTIMEO write_timeout ;;
  set_timeout_option SO_RCVTIMEO read_timeout.
End options.

(** Half a second, two seconds, and 2.3 seconds, of which a microsecond is
    lost to rounding. *)
Example timeval_half : timeval (FloatInterval 0x3FE0000000000000) = Ok (0, 500000).
Proof. vm_compute. reflexivity. Qed.
Example pack_ll_two : pack_ll (IntInterval 2) = Ok (byte_of_Z <$> [2; 0; 0; 0; 0; 0; 0; 0; 0; 0; 0; 0; 0; 0; 0; 0]).
Proof. vm_compute. reflexivity. Qed.
Example timeval_rounding : timeval (FloatInterval 0x4002666666666666) = Ok (2, 299999).
Proof. vm_compute. reflexivity. Qed.

(** ** Rounding to a double loses less than one *)

Lemma round_even_near num den :
  0 < den -> num / den <= round_even num den <= num / den + 1.
Proof. intros. unfold round_even. destruct (_ ?= _); [case_match|..]; lia. Qed.

(** [e] of [float_bits]: the exponent of the leading bit. *)
Lemma exponent_spec a b num den e :
  0 <= a -> 0 <= b -> 2 ^ a <= num < 2 ^ (a + 1) -> 2 ^ b <= den < 2 ^ (b + 1) ->
  e = (if num * 2 ^ Z.max (- (a - b)) 0 <? den * 2 ^ Z.max (a - b) 0 then a - b - 1 else a - b) ->
  den * 2 ^ Z.max e 0 <= num * 2 ^ Z.max (- e) 0 /\ num * 2 ^ Z.max (- (e + 1)) 0 < den * 2 ^ Z.max (e + 1) 0.
Proof.
  intros Ha0 Hb0 Ha Hb ->. remember (a - b) as e0 eqn:He0. rewrite !Z.pow_add_r in * by lia.
  assert (Hsub : forall x y, 0 <= x -> 0 <= y -> 2 ^ (x + y) = 2 ^ x * 2 ^ y) by (intros; by apply Z.pow_add_r).
  destruct (Z_le_gt_dec b a) as [Hab|Hab].
  - pose proof (Hsub b e0 ltac:(lia) ltac:(lia)) as Hab2. replace (b + e0) with a in Hab2 by lia.
    rewrite (Z.max_r (- e0)), (Z.max_l e0), Z.mul_1_r by lia. destruct (Z.ltb_spec num (den * 2 ^ e0)).
    + destruct (decide (e0 = 0)) as [E0|]; [rewrite E0 in *; change (den * 1 <= num * 2 /\ num * 1 < den * 1); change (2 ^ 0) with 1 in *; lia|].
      rewrite Z.sub_add, (Z.max_l (e0 - 1)), (Z.max_r (- (e0 - 1))), (Z.max_r (- e0)), (Z.max_l e0) by lia.
      pose proof (Hsub (e0 - 1) 1 ltac:(lia) ltac:(lia)) as H1. rewrite Z.sub_add in H1. nia.
    + rewrite (Z.max_l e0), (Z.max_r (- e0)), (Z.max_r (- (e0 + 1))), (Z.max_l (e0 + 1)), Z.pow_add_r by lia. nia.
  - pose proof (Hsub a (- e0) ltac:(lia) ltac:(lia)) as Hab2. replace (a + - e0) with b in Hab2 by lia.
    rewrite (Z.max_l (- e0)), (Z.max_r e0), Z.mul_1_r by lia. destruct (Z.ltb_spec (num * 2 ^ (- e0)) den).
    + rewrite (Z.max_r (e0 - 1)), (Z.max_l (- (e0 - 1))), Z.sub_add, (Z.max_l (- e0)), Z.max_r by lia.
      replace (- (e0 - 1)) with (- e0 + 1) by lia. rewrite Z.pow_add_r by lia. nia.
    + rewrite (Z.max_r e0), (Z.max_l (- e0)), (Z.max_l (- (e0 + 1))), (Z.max_r (e0 + 1)) by lia.
      pose proof (Hsub (- (e0 + 1)) 1 ltac:(lia) ltac:(lia)) as H1.
      replace (- (e0 + 1) + 1) with (- e0) in H1 by lia. nia.
Qed.

(** The integral part of the double of mantissa [m] and exponent [q]. *)
Lemma py_int_mantissa s q m :
  -1074 <= q <= -1 -> 0 <= m <= 2 ^ 53 -> q = -1074 \/ 2 ^ 52 <= m ->
  py_int (VFloat (f64_signed s ((q + 1074) * 2 ^ 52 + m))) = Ok (if s then - (m / 2 ^ (- q)) else m / 2 ^ (- q)).
Proof.
  intros Hq Hm Hn. set (mag := (q + 1074) * 2 ^ 52 + m).
  assert (Hmag : 0 <= mag < F64_INF) by (unfold mag, F64_INF; lia).
  assert (Hs : (F64_SIGN <=? f64_signed s mag) = s).
  { unfold f64_signed, F64_SIGN, F64_INF in *. destruct s; lia. }
  assert (Hmod : f64_signed s mag mod F64_SIGN = mag).
  { unfold f64_signed, F64_SIGN, F64_INF in *. destruct s; dlia. }
  assert (He : f64_signed s mag / 2 ^ 52 mod 2048 = mag / 2 ^ 52).
  { clear Hs Hmod. unfold f64_signed, F64_SIGN, F64_INF in *. destruct s; dlia. }
  assert (Hl : f64_signed s mag mod 2 ^ 52 = m mod 2 ^ 52).
  { clear -Hm. unfold mag, f64_signed, F64_SIGN. destruct s; dlia. }
  unfold py_int, f64_is_finite, f64_ratio. rewrite Hmod, Hs, He, Hl.
  replace (mag <? F64_INF) with true by lia.
  assert (exists m' k', (if mag / 2 ^ 52 =? 0 then (m mod 2 ^ 52, -1074)
      else (m mod 2 ^ 52 + 2 ^ 52, mag / 2 ^ 52 - 1075)) = (m', - k') /\ 0 <= k' /\ m' / 2 ^ k' = m / 2 ^ (- q))
    as (m' & k' & -> & Hk & Hu).
  { destruct (decide (m < 2 ^ 52)) as [Hlt|Hge]; [|destruct (decide (m = 2 ^ 53)) as [->|Hne]].
    - assert (q = -1074) as -> by lia. exists m, 1074. replace (mag / 2 ^ 52 =? 0) with true by (subst mag; dlia).
      rewrite Z.mod_small by lia. done.
    - exists (2 ^ 52), (- (q + 1)). replace (mag / 2 ^ 52 =? 0) with false by (subst mag; dlia).
      split; [f_equal; subst mag; dlia|]. split; [lia|]. replace (- q) with (- (q + 1) + 1) by lia.
      rewrite (Z.pow_add_r 2 (- (q + 1))) by lia. change (2 ^ 53) with (2 ^ 52 * 2 ^ 1).
      rewrite Z.div_mul_cancel_r; lia.
    - exists m, (- q). replace (mag / 2 ^ 52 =? 0) with false by (subst mag; dlia).
      split; [f_equal; subst mag; dlia|]. split; [lia|done]. }
  rewrite Z.opp_involutive, (Z.max_r (- k')), (Z.max_l k'), Z.mul_1_r by lia. by rewrite Hu.
Qed.

(** The scaled quotient has at most 53 bits, and 53 when the exponent is not
    the least one. *)
Lemma mantissa_upper num den e q :
  0 < num -> 0 < den -> q = Z.max (e - 52) (-1074) /\ q <= -1 ->
  num * 2 ^ Z.max (- (e + 1)) 0 < den * 2 ^ Z.max (e + 1) 0 -> num * 2 ^ (- q) < 2 ^ 53 * den.
Proof.
  intros Hn Hd [Hq Hq1] H. destruct (Z_le_gt_dec (- q) (- (e + 1))) as [Hc|Hc].
  - rewrite Z.max_l, Z.max_r in H by lia.
    assert (2 ^ (- q) <= 2 ^ (- (e + 1))) by (apply Z.pow_le_mono_r; lia). change (2 ^ 0) with 1 in H. nia.
  - assert (2 ^ (e + 1 - q) <= 2 ^ 53) by (apply Z.pow_le_mono_r; lia).
    assert (num * 2 ^ (- q) < den * 2 ^ (e + 1 - q)); [|nia].
    destruct (Z_le_gt_dec 0 (e + 1)).
    + rewrite Z.max_r, Z.max_l in H by lia. change (2 ^ 0) with 1 in H.
      replace (e + 1 - q) with (e + 1 + - q) by lia. rewrite Z.pow_add_r by lia.
      assert (0 < 2 ^ (- q)) by (apply Z.pow_pos_nonneg; lia). nia.
    + rewrite Z.max_l, Z.max_r in H by lia. change (2 ^ 0) with 1 in H.
      replace (- q) with (- (e + 1) + (e + 1 - q)) by lia. rewrite Z.pow_add_r by lia.
      assert (0 < 2 ^ (e + 1 - q)) by (apply Z.pow_pos_nonneg; lia). nia.
Qed.

Lemma mantissa_lower num den e q :
  0 < num -> 0 < den -> q = Z.max (e - 52) (-1074) /\ q <= -1 ->
  den * 2 ^ Z.max e 0 <= num * 2 ^ Z.max (- e) 0 -> q = -1074 \/ 2 ^ 52 * den <= num * 2 ^ (- q).
Proof.
  intros Hn Hd [Hq Hq1] H. destruct (decide (q = -1074)) as [|Hne]; [by left|right].
  assert (q = e - 52) as -> by lia. destruct (Z_le_gt_dec 0 e).
  - rewrite Z.max_l, Z.max_r in H by lia. change (2 ^ 0) with 1 in H.
    replace 52 with (e + - (e - 52)) at 1 by lia. rewrite Z.pow_add_r by lia.
    assert (0 < 2 ^ (- (e - 52))) by (apply Z.pow_pos_nonneg; lia). nia.
  - rewrite Z.max_r, Z.max_l in H by lia. change (2 ^ 0) with 1 in H.
    replace (- (e - 52)) with (- e + 52) by lia. rewrite Z.pow_add_r by lia. lia.
Qed.

(** The integral part of a rounded quotient is that of the quotient, or one more. *)
Lemma py_int_of_ratio s num den :
  0 <= num -> 0 < den -> num < 2 ^ 52 * den ->
  exists u, py_int (VFloat (f64_of_ratio s num den)) = Ok (if s then - u else u) /\
    num / den <= u <= num / den + 1.
Proof.
  intros Hn Hd Hlt. unfold f64_of_ratio. destruct (Z.eqb_spec num 0) as [->|Hn0].
  { exists 0. rewrite Z.div_0_l by lia. by destruct s. }
  unfold float_bits. remember (if _ <? _ then _ else _) as e eqn:Ee.
  pose proof (Z.log2_spec num ltac:(lia)) as Hln. pose proof (Z.log2_spec den Hd) as Hld.
  destruct (exponent_spec _ _ num den e (Z.log2_nonneg num) (Z.log2_nonneg den) Hln Hld Ee) as [H1 H2].
  clear Hln Hld Ee. assert (He : e < 52).
  { destruct (Z_lt_le_dec e 52); [done|]. rewrite Z.max_l, Z.max_r in H1 by lia.
    assert (2 ^ 52 <= 2 ^ e) by (apply Z.pow_le_mono_r; lia). change (2 ^ 0) with 1 in H1. nia. }
  set (q := Z.max (e - (53 - 1)) (-1074)).
  assert (-1074 <= q <= -1) as Hq by lia.
  rewrite (Z.max_l (- q)), (Z.max_r q), Z.mul_1_r by lia.
  pose proof (round_even_near (num * 2 ^ (- q)) den Hd) as Hm. set (m := round_even _ _) in *.
  pose proof (mantissa_upper num den e q ltac:(lia) Hd ltac:(lia) H2) as Hu.
  pose proof (mantissa_lower num den e q ltac:(lia) Hd ltac:(lia) H1) as Hl.
  assert (0 < 2 ^ (- q)) as Hp by (apply Z.pow_pos_nonneg; lia).
  assert (0 <= num * 2 ^ (- q) / den) by (apply Z.div_pos; nia).
  assert (num * 2 ^ (- q) / den < 2 ^ 53) by (apply Z.div_lt_upper_bound; nia).
  assert (q = -1074 \/ 2 ^ 52 <= m).
  { destruct Hl as [|Hl]; [by left|right]. assert (2 ^ 52 <= num * 2 ^ (- q) / den); [|lia].
    apply Z.div_le_lower_bound; nia. }
  assert (num * 2 ^ (- q) / den / 2 ^ (- q) = num / den) as Hdiv.
  { rewrite Z.div_div, Z.div_mul_cancel_r by lia. done. }
  exists (m / 2 ^ (- q)). split.
  - replace (Z.min F64_INF _) with ((q + 1074) * 2 ^ 52 + m); [by apply py_int_mantissa; lia|].
    rewrite Z.min_r; [lia|]. unfold F64_INF. lia.
  - rewrite <- Hdiv. split; [apply Z.div_le_mono; lia|].
    rewrite <- Z.div_add by lia. apply Z.div_le_mono; lia.
Qed.

(** A finite number of seconds keeps its sign and its whole seconds; the
    microseconds are those of the exact value or one more, and at most a
    million. *)
Theorem timeval_near b s num den (exact := num mod den * 1000000 / den) :
  f64_is_finite b = true -> f64_ratio b = (s, num, den) ->
  exists usec, timeval (FloatInterval b) = Ok (if s then (- (num / den), - usec) else (num / den, usec)) /\
    exact <= usec <= exact + 1 /\ usec <= 1000000.
Proof.
  intros Hf Hr. destruct (f64_ratio_pos _ _ _ _ Hr) as [Hn Hd].
  pose proof (Z.mod_pos_bound num den Hd) as Hm.
  destruct (py_int_of_ratio s (num mod den * 1000000) den) as (u & Hu & Hb); [lia|lia|lia|].
  assert (exact < 1000000) by (apply Z.div_lt_upper_bound; lia).
  exists u. split; [|unfold exact in *; lia].
  unfold timeval. replace (py_int (VFloat b)) with (@Ok exc _ (if s then - (num / den) else num / den)).
  - cbn [mbind result_bind]. rewrite Hr. rewrite Hu. by destruct s.
  - unfold py_int. by rewrite Hf, Hr.
Qed.

(** The other floats are no timeout, and neither is a number of seconds beyond
    64 bits; these exceptions are no [OSError], so that [connect] leaves the
    socket as it is. *)
Example timeval_nan : timeval (FloatInterval F64_NAN) = Raise ValueError.
Proof. vm_compute. reflexivity. Qed.
Example timeval_inf : timeval (FloatInterval F64_INF) = Raise OverflowError.
Proof. vm_compute. reflexivity. Qed.
Example pack_ll_range : pack_ll (IntInterval (2 ^ 63)) = Raise StructError.
Proof. vm_compute. reflexivity. Qed.

(** Without timeouts, and when the socket takes every option, nothing raises. *)
Lemma socket_options_ok setsockopt tcp_opts :
  (forall level opt v, setsockopt level opt v = Ok tt) -> socket_options setsockopt tcp_opts None None = Ok tt.
Proof.
  intros H. unfold socket_options. rewrite H. cbn.
  replace (set_tcp_options setsockopt tcp_opts) with (@Ok exc unit tt); [done|].
  induction tcp_opts as [|[o v] opts IH]; cbn; [done|]. by rewrite H.
Qed.
