(* ===== verification/Tls.v ===== *)
(** * Wrapping a socket for TLS ([SSLTransport] of [amqp/transport.py])

    How the [SSLContext] of a connection is set up.  The context of the
    standard library is a state with the rules of its documentation: a client
    context starts with the checks on, turning on [check_hostname] turns on
    verification, and verification cannot be turned off under it.  Loading
    files and ciphers fails as the environment says. *)

From S2P Require Import Prelude Exceptions State Transport.

Open Scope Z_scope.

(** ** [ssl.SSLContext] *)

Inductive protocol : Set := PROTOCOL_TLS_CLIENT | PROTOCOL_TLS_SERVER | OtherProtocol (version : Z).
Inductive verify_mode : Set := CERT_NONE | CERT_OPTIONAL | CERT_REQUIRED.
Inductive purpose : Set := SERVER_AUTH | CLIENT_AUTH.

#[export] Instance verify_mode_eq_dec : EqDecision verify_mode.
Proof. solve_decision. Defined.

#[export] Instance protocol_eq_dec : EqDecision protocol.
Proof. solve_decision. Defined.

Record context : Set := Context {
  ctx_check_hostname : bool;
  ctx_verify_mode : verify_mode;
  ctx_cert_chain : option (pystr * option pystr);
  ctx_verify_locations : option pystr;
  ctx_ciphers : option pystr;
  ctx_default_certs : option purpose;
}.

(** [ssl.SSLContext(protocol)]. *)
Definition new_context (p : protocol) : context :=
  match p with
  | PROTOCOL_TLS_CLIENT => Context true CERT_REQUIRED None None None None
  | _ => Context false CERT_NONE None None None None
  end.

(** [context.check_hostname = b]. *)
Definition set_check_hostname (b : bool) : st context unit := modify (fun c =>
  Context b (if b && bool_decide (ctx_verify_mode c = CERT_NONE) then CERT_REQUIRED else ctx_verify_mode c)
    (ctx_cert_chain c) (ctx_verify_locations c) (ctx_ciphers c) (ctx_default_certs c)).

(** [context.verify_mode = m]. *)
Definition set_verify_mode (m : verify_mode) : st context unit := fun c =>
  if bool_decide (m = CERT_NONE) && ctx_check_hostname c then (c, Raise ValueError)
  else (Context (ctx_check_hostname c) m (ctx_cert_chain c) (ctx_verify_locations c) (ctx_ciphers c)
          (ctx_default_certs c), Ok tt).

Section wrap.
(** [ssl.HAS_SNI], and what the loading of files and ciphers meets. *)
Context (HAS_SNI : bool).
Context (cert_chain_result : pystr -> option pystr -> py unit).
Context (verify_locations_result ciphers_result : pystr -> py unit).

Definition load_cert_chain (certfile : pystr) (keyfile : option pystr) : st context unit :=
  lift (cert_chain_result certfile keyfile) ;;
  modify (fun c => Context (ctx_check_hostname c) (ctx_verify_mode c) (Some (certfile, keyfile))
                     (ctx_verify_locations c) (ctx_ciphers c) (ctx_default_certs c)).

Definition load_verify_locations (ca_certs : pystr) : st context unit :=
  lift (verify_locations_result ca_certs) ;;
  modify (fun c => Context (ctx_check_hostname c) (ctx_verify_mode c) (ctx_cert_chain c)
                     (Some ca_certs) (ctx_ciphers c) (ctx_default_certs c)).

Definition set_ciphers (ciphers : pystr) : st context unit :=
  lift (ciphers_result ciphers) ;;
  modify (fun c => Context (ctx_check_hostname c) (ctx_verify_mode c) (ctx_cert_chain c)
                     (ctx_verify_locations c) (Some ciphers) (ctx_default_certs c)).

Definition load_default_certs (p : purpose) : st context unit :=
  modify (fun c => Context (ctx_check_hostname c) (ctx_verify_mode c) (ctx_cert_chain c)
                     (ctx_verify_locations c) (ctx_ciphers c) (Some p)).

(** ** The wrapping *)

(** The arguments of [context.wrap_socket]. *)
Record wrap_opts : Set := WrapOpts {
  wo_server_side : bool;
  wo_do_handshake_on_connect : bool;
  wo_suppress_ragged_eofs : bool;
  wo_server_hostname : option pystr;
}.

(** The keyword arguments of [_wrap_socket_sni]. *)
Record sslopts : Set := SslOpts {
  so_keyfile : option pystr;
  so_certfile : option pystr;
  so_server_side : bool;
  so_cert_reqs : option verify_mode;
  so_ca_certs : option pystr;
  so_do_handshake_on_connect : bool;
  so_suppress_ragged_eofs : bool;
  so_server_hostname : option pystr;
  so_ciphers : option pystr;
  so_ssl_version : option protocol;
}.

(** Their defaults. *)
Definition default_sslopts : sslopts := SslOpts None None false None None false true None None None.

Definition when_some {S A} (x : option A) (f : A -> st S unit) : st S unit :=
  match x with Some a => f a | None => mret tt end.

(** The files and the ciphers. *)
Definition load_context (o : sslopts) : st context unit :=
  when_some (so_certfile o) (fun certfile => load_cert_chain certfile (so_keyfile o)) ;;
  when_some (so_ca_certs o) load_verify_locations ;;
  when_some (so_ciphers o) set_ciphers.

(** The part of [_wrap_socket_sni] that sets up the context. *)
Definition setup_context (o : sslopts) : st context unit :=
  load_context o ;;
  set_check_hostname (HAS_SNI && bool_decide (is_Some (so_server_hostname o))) ;;
  when_some (so_cert_reqs o) set_verify_mode ;;
  mode ← gets ctx_verify_mode;
  when (bool_decide (so_ca_certs o = None) && negb (bool_decide (mode = CERT_NONE)))
    (load_default_certs (if so_server_side o then CLIENT_AUTH else SERVER_AUTH)).

Definition ssl_version_or (o : sslopts) : protocol :=
  default (if so_server_side o then PROTOCOL_TLS_SERVER else PROTOCOL_TLS_CLIENT) (so_ssl_version o).

(** The context, and the arguments it wraps the socket with. *)
Definition wrap_socket_sni (o : sslopts) : py (context * wrap_opts) :=
  let '(ctx, r) := setup_context o (new_context (ssl_version_or o)) in
  r ;; mret (ctx, WrapOpts (so_server_side o) (so_do_handshake_on_connect o) (so_suppress_ragged_eofs o)
                    (so_server_hostname o)).

(** [_wrap_context]; [created] is the context of [ssl.create_default_context],
    and [None] for [check_hostname] counts as false. *)
Definition wrap_context (created : context) (check_hostname : option bool) : context :=
  (set_check_hostname (default false check_hostname) created).1.

(** [_wrap_socket]: [context] is the argument of that name, when it is given
    and not empty: what [ssl.create_default_context] makes of its options, and
    its [check_hostname]. *)
Definition wrap_socket (context : option (context * option bool)) (o : sslopts) : py Tls.context :=
  match context with
  | Some (created, check_hostname) => Ok (wrap_context created check_hostname)
  | None => '(ctx, _) ← wrap_socket_sni o; mret ctx
  end.

(** [Transport]. *)
Definition transport_class (ssl : bool) : kind := if ssl then SSL else TCP.
End wrap.

(** ** What is checked *)

Section checks.
Context (HAS_SNI : bool).
Context (cert_chain_result : pystr -> option pystr -> py unit).
Context (verify_locations_result ciphers_result : pystr -> py unit).
Abbreviation wrap :=
  (wrap_socket_sni HAS_SNI cert_chain_result verify_locations_result ciphers_result).

(** The files and the ciphers can be loaded. *)
Definition loadable (o : sslopts) : Prop :=
  (forall c, so_certfile o = Some c -> cert_chain_result c (so_keyfile o) = Ok tt) /\
  (forall c, so_ca_certs o = Some c -> verify_locations_result c = Ok tt) /\
  (forall c, so_ciphers o = Some c -> ciphers_result c = Ok tt).

Definition checks_hostname (o : sslopts) : bool :=
  HAS_SNI && bool_decide (is_Some (so_server_hostname o)).

Lemma setup_loaded o ctx : loadable o ->
  load_context cert_chain_result verify_locations_result ciphers_result o ctx =
    (Context (ctx_check_hostname ctx) (ctx_verify_mode ctx)
       (match so_certfile o with Some c => Some (c, so_keyfile o) | None => ctx_cert_chain ctx end)
       (match so_ca_certs o with Some c => Some c | None => ctx_verify_locations ctx end)
       (match so_ciphers o with Some c => Some c | None => ctx_ciphers ctx end)
       (ctx_default_certs ctx), Ok tt).
Proof.
  intros (Hcert & Hca & Hci). destruct ctx. unfold load_context, load_cert_chain, load_verify_locations, set_ciphers, when_some.
  destruct (so_certfile o) as [c1|]; [rewrite (Hcert c1) by done|];
    (destruct (so_ca_certs o) as [c2|]; [rewrite (Hca c2) by done|]);
    (destruct (so_ciphers o) as [c3|]; [rewrite (Hci c3) by done|]); done.
Qed.

(** C36: what a wrapped socket verifies.  The name of the server is checked
    exactly when one is given (and the [ssl] module has SNI), and then its
    certificate is always verified; without [cert_reqs] a client verifies the
    certificate of the server in any case.  Whenever there is verification
    there are certificates to verify against, the given ones or the defaults
    of the system for the side of the connection.  The only options that are
    refused ask for no verification together with a server name. *)
Theorem wrap_socket_checks o : loadable o ->
  match wrap o with
  | Ok (ctx, opts) =>
      ctx_check_hostname ctx = checks_hostname o /\
      ctx_verify_mode ctx =
        match so_cert_reqs o with
        | Some mode => mode
        | None => if checks_hostname o || bool_decide (ssl_version_or o = PROTOCOL_TLS_CLIENT)
                  then CERT_REQUIRED else CERT_NONE
        end /\
      (checks_hostname o = true -> ctx_verify_mode ctx <> CERT_NONE /\ wo_server_hostname opts = so_server_hostname o) /\
      (ctx_verify_mode ctx <> CERT_NONE ->
         is_Some (ctx_verify_locations ctx) \/
         ctx_default_certs ctx = Some (if so_server_side o then CLIENT_AUTH else SERVER_AUTH)) /\
      ctx_verify_locations ctx = so_ca_certs o /\ ctx_ciphers ctx = so_ciphers o /\
      ctx_cert_chain ctx = (fun c => (c, so_keyfile o)) <$> so_certfile o
  | Raise e => e = ValueError /\ so_cert_reqs o = Some CERT_NONE /\ checks_hostname o = true
  | OutOfFuel => False
  end.
Proof.
  intros Hl. unfold wrap_socket_sni, checks_hostname.
  unfold setup_context. rewrite (st_bind_ok _ _ _ _ _ (setup_loaded o _ Hl)).
  destruct o as [key cert side reqs ca hs ragged host ciphers version]. unfold ssl_version_or.
  cbn [so_keyfile so_certfile so_server_side so_cert_reqs so_ca_certs so_server_hostname so_ciphers so_ssl_version].
  assert ((match cert with Some c => Some (c, key) | None => None end) = (fun c => (c, key)) <$> cert) as Hchain
    by by destruct cert.
  assert ((match ciphers with Some c => Some c | None => None end) = ciphers) as Hciph by by destruct ciphers.
  set (version' := default _ version).
  assert (ctx_cert_chain (new_context version') = None /\ ctx_ciphers (new_context version') = None /\
    ctx_verify_locations (new_context version') = None) as (-> & -> & ->) by by destruct version'.
  rewrite Hchain, Hciph. generalize ((fun c => (c, key)) <$> cert) (if side then CLIENT_AUTH else SERVER_AUTH).
  intros chain side'. generalize (HAS_SNI && bool_decide (is_Some host)) version'. clear. intros checked proto.
  destruct checked, proto, reqs as [[]|], ca; cbn; split_and!; try done;
    try (intros _; split; done); try (intros _; right; done); intros _; left; by eexists.
Qed.
End checks.

Lemma wrap_socket_checks_witness :
  let o := SslOpts None None false None None false true (Some (str_of "broker")) None None in
  match wrap_socket_sni true (fun _ _ => Ok tt) (fun _ => Ok tt) (fun _ => Ok tt) o with
  | Ok (ctx, opts) =>
      ctx_check_hostname ctx = true /\ ctx_verify_mode ctx = CERT_REQUIRED /\
      (true = true -> ctx_verify_mode ctx <> CERT_NONE /\ wo_server_hostname opts = Some (str_of "broker")) /\
      (ctx_verify_mode ctx <> CERT_NONE ->
         is_Some (ctx_verify_locations ctx) \/ ctx_default_certs ctx = Some SERVER_AUTH) /\
      ctx_verify_locations ctx = None /\ ctx_ciphers ctx = None /\ ctx_cert_chain ctx = None
  | Raise e => e = ValueError /\ None = Some CERT_NONE /\ true = true
  | OutOfFuel => False
  end.
Proof.
  intros o. apply (wrap_socket_checks true (fun _ _ => Ok tt) (fun _ => Ok tt) (fun _ => Ok tt) o).
  by split_and!.
Defined.

(** [_wrap_context] turns the check of the name off, whatever
    [ssl.create_default_context] has set, unless [check_hostname] is given. *)
Lemma wrap_context_unchecked created :
  ctx_check_hostname (wrap_context created None) = false /\
  ctx_verify_mode (wrap_context created None) = ctx_verify_mode created.
Proof. done. Qed.
