(* ===== verification/Wire.v ===== *)
(** * From one peer to the other

    The pieces together: what [frame_writer] sends of a method with content
    ([Framing.v]), read by [read_frame] from a socket that delivers it in any
    pieces ([Transport.v]), reaches the method callback of [frame_handler] as
    one call with the same method, arguments, properties and body. *)

From S2P Require Import Prelude Exceptions State Struct Utf8 Values Table Codec Content Framing Transport.
From S2P Require Spec.

Open Scope Z_scope.

Section wire.
Context (os_nt : bool).

(** [read_frame] until it returns, [n] times. *)
Fixpoint read_frames (n : nat) : st transport (list frame) :=
  match n with
  | O => mret []
  | S n =>
      evs ← gets t_in;
      f ← retry os_nt (S (events_size evs));
      fs ← read_frames n;
      mret (f :: fs)
  end.

Lemma retry_calm k t t' f raw rest :
  calm t -> pack_frame f = Ok raw -> stream t = raw ++ rest ->
  retry os_nt k t = (t', Ok f) -> calm t'.
Proof.
  revert t. induction k as [|k IH]; intros t Hc Hf Hs; cbn [retry]; [done|]. unfold st_try.
  pose proof (read_frame_settles os_nt t f raw rest Hc Hf Hs) as [Hc' Hx].
  destruct (read_frame os_nt t) as [t1 [g|e|]] eqn:Hr; cbn in *; [by intros; simplify_eq| |done].
  destruct e; try done. apply IH; [done..|]. apply read_frame_timeout in Hr. congruence.
Qed.

Lemma read_frames_ok fs wire rest t :
  calm t -> pack_frames fs = Ok wire -> stream t = wire ++ rest ->
  exists t', read_frames (length fs) t = (t', Ok fs) /\ stream t' = rest /\ calm t'.
Proof.
  revert wire t. induction fs as [|f fs IH]; intros wire t Hc Hp Hs; cbn [pack_frames] in Hp.
  { unfold mret, result_ret in Hp. simplify_eq. by exists t. }
  apply bind_ok_inv in Hp as (b & Hb & Hp). apply bind_ok_inv in Hp as (bs & Hbs & Hp).
  unfold mret, result_ret in Hp. injection Hp as <-. rewrite <- app_assoc in Hs.
  destruct (retry_complete os_nt t f b (bs ++ rest) Hc Hb Hs) as (t1 & H1 & Hs1).
  pose proof (retry_calm _ _ _ _ _ _ Hc Hb Hs H1) as Hc1.
  destruct (IH bs t1 Hc1 Hbs Hs1) as (t2 & H2 & Hs2 & Hc2).
  exists t2. split; [|done]. cbn [length read_frames].
  rewrite st_bind_gets, (st_bind_ok _ _ _ _ _ H1), (st_bind_ok _ _ _ _ _ H2). done.
Qed.

(** The frames of a content make one call, however its body is cut. *)
Lemma content_frames_run h ch sig args properties props ps chunks frames m :
  chan_state h ch = (1, None) -> sig ∈ CONTENT_METHODS -> wf_props PROPERTIES properties ->
  serialize_properties PROPERTIES properties = Ok props -> wire_props properties PROPERTIES = Ok ps ->
  Forall (.≠ []) chunks -> content_frames ch sig args props chunks = Ok frames ->
  method_frame 1 (Some sig) (VBytes args) = Ok m ->
  length frames = S (S (length chunks)) /\
  (run h frames).2.*2 = replicate (S (length chunks)) (Ok (None, false)) ++
    [Ok (Some (Call ch (Some sig) m (Some (received_message sig m ps (concat chunks)))), true)] /\
  chan_state (run h frames).1 ch = (1, None).
Proof.
  intros Hh Hsig Hwf Hp Hw Hne Hf Hm.
  unfold content_frames in Hf. rewrite Hm in Hf. cbn [mbind result_bind] in Hf.
  apply bind_ok_inv in Hf as (hf & Hhf & H). unfold mret, result_ret in H. injection H as <-.
  unfold method_frame in Hm. cbn in Hm. apply bind_ok_inv in Hm as (sb & Hsb & Hm).
  unfold mret, result_ret in Hm. injection Hm as <-.
  unfold header_frame in Hhf. cbn in Hhf. apply bind_ok_inv in Hhf as (hdr & Hhdr & Hhf).
  unfold mret, result_ret in Hhf. injection Hhf as <-.
  assert (sig.1 = Spec.Basic.CLASS_ID) as Hcls.
  { unfold CONTENT_METHODS in Hsig.
    repeat (apply elem_of_cons in Hsig as [-> | Hsig]; [done|]). by apply elem_of_nil in Hsig. }
  rewrite Hcls in Hhdr. split; [cbn; by rewrite length_fmap|].
  by apply (run_content h ch sig sb args properties hdr props ps chunks).
Qed.

Lemma sized_nonempty n (chunks : list bytes) :
  Forall (fun c => 0 < zlen c <= n) chunks -> Forall (.≠ []) chunks.
Proof. intros H. apply (Forall_impl _ _ _ H). intros c [Hlt _] ->. done. Qed.

(** C1: what one peer publishes is what the other is given.  When
    [write_frame] returns for a method that announces content, the body of
    which is not empty or fits a single write (otherwise no header is sent, see
    [Framing.write_frame_no_header]), then a reader
    whose socket delivers the sent bytes in pieces of any size, with timeouts
    and interrupted calls anywhere, obtains the frames, and its handler makes
    exactly one call of the callback, at the last frame: the method, its
    argument bytes, the properties as the format transmits them and the whole
    body.  The bytes that follow on the stream are untouched. *)
Theorem publish_receive {W} `{!ByteSink W} other_codec frame_max ch sig args content content'
    body props ps (w w' : writer W) h t bs rest :
  (* the writer *)
  8 < frame_max -> sig ∈ CONTENT_METHODS ->
  encode_body other_codec content = (content', Ok (VBytes body)) ->
  wf_props PROPERTIES (msg_properties content') ->
  serialize_properties PROPERTIES (msg_properties content') = Ok props ->
  wire_props (msg_properties content') PROPERTIES = Ok ps ->
  body <> [] \/ zlen args + zlen props + FRAME_OVERHEAD <= frame_max - 8 ->
  write_frame other_codec frame_max 1 ch (Some sig) (VBytes args) (Some content) w = (w', Ok tt) ->
  (* the reader *)
  sent w' = sent w ++ bs -> stream t = bs ++ rest ->
  calm t -> chan_state h ch = (1, None) ->
  exists n t' fs margs,
    read_frames n t = (t', Ok fs) /\ stream t' = rest /\
    method_frame 1 (Some sig) (VBytes args) = Ok margs /\
    exists k, (run h fs).2.*2 = replicate k (Ok (None, false)) ++
      [Ok (Some (Call ch (Some sig) margs (Some (received_message sig margs ps body))), true)] /\
    chan_state (run h fs).1 ch = (1, None).
Proof.
  intros Hfm Hsig He Hwf Hp Hw Hor Hwr Hbs Hst Hc Hh.
  destruct (write_content_frames other_codec frame_max ch sig args content content' body props w w' tt
    Hfm He Hp Hor Hwr) as (chunks & frames & wire & Hf & Hcat & Hall & Hpk & Hs & _).
  rewrite Hs in Hbs. apply app_inv_head in Hbs as <-.
  destruct (read_frames_ok frames wire rest t Hc Hpk Hst) as (t' & Hr & Hs' & _).
  destruct (method_frame 1 (Some sig) (VBytes args)) as [m|e|] eqn:Hm.
  2, 3: unfold content_frames in Hf; rewrite Hm in Hf; done.
  destruct (content_frames_run h ch sig args (msg_properties content') props ps chunks frames m)
    as (_ & Hrun & Hend); try done; [by eapply sized_nonempty|].
  exists (length frames), t', frames, m. split_and!; [done..|].
  exists (S (length chunks)). by rewrite <- Hcat.
Qed.

(** The calls that a sequence of frames makes. *)
Definition called (r : py (option call * bool)) : option call :=
  match r with Ok (Some c, _) => Some c | _ => None end.
Definition calls (h : handler) (fs : list frame) : list call := omap called (run h fs).2.*2.

Lemma omap_called_content m c b :
  omap called (replicate m (Ok (None, false)) ++ [Ok (Some c, b)]) = [c].
Proof. induction m as [|m IH]; [done|exact IH]. Qed.

(** C20: the size of frames is invisible.  Sent with any two values of
    [frame_max], on the path with separate frames or on the one with a single
    write, a method with a body makes the same one call at the receiver, and
    each sending is counted once. *)
Theorem frame_max_invisible {W} `{!ByteSink W} other_codec fm1 fm2 ch sig args content content'
    body props ps (w1 w1' w2 w2' : writer W) h :
  8 < fm1 -> 8 < fm2 -> sig ∈ CONTENT_METHODS ->
  encode_body other_codec content = (content', Ok (VBytes body)) -> body <> [] ->
  wf_props PROPERTIES (msg_properties content') ->
  serialize_properties PROPERTIES (msg_properties content') = Ok props ->
  wire_props (msg_properties content') PROPERTIES = Ok ps ->
  write_frame other_codec fm1 1 ch (Some sig) (VBytes args) (Some content) w1 = (w1', Ok tt) ->
  write_frame other_codec fm2 1 ch (Some sig) (VBytes args) (Some content) w2 = (w2', Ok tt) ->
  chan_state h ch = (1, None) ->
  exists fs1 fs2 bs1 bs2,
    pack_frames fs1 = Ok bs1 /\ sent w1' = sent w1 ++ bs1 /\ w_bytes_sent w1' = w_bytes_sent w1 + 1 /\
    pack_frames fs2 = Ok bs2 /\ sent w2' = sent w2 ++ bs2 /\ w_bytes_sent w2' = w_bytes_sent w2 + 1 /\
    calls h fs1 = calls h fs2 /\ length (calls h fs1) = 1%nat /\
    chan_state (run h fs1).1 ch = chan_state (run h fs2).1 ch.
Proof.
  intros Hf1 Hf2 Hsig He Hne Hwf Hp Hps H1 H2 Hh.
  destruct (write_content_frames other_codec fm1 ch sig args content content' body props w1 w1' tt
    Hf1 He Hp (or_introl Hne) H1) as (cs1 & fs1 & bs1 & Hc1 & Hcat1 & Hall1 & Hpk1 & Hs1 & Hn1).
  destruct (write_content_frames other_codec fm2 ch sig args content content' body props w2 w2' tt
    Hf2 He Hp (or_introl Hne) H2) as (cs2 & fs2 & bs2 & Hc2 & Hcat2 & Hall2 & Hpk2 & Hs2 & Hn2).
  destruct (method_frame 1 (Some sig) (VBytes args)) as [m|e|] eqn:Hm.
  2, 3: unfold content_frames in Hc1; rewrite Hm in Hc1; done.
  destruct (content_frames_run h ch sig args (msg_properties content') props ps cs1 fs1 m)
    as (_ & Hr1 & He1); try done; [by eapply sized_nonempty|].
  destruct (content_frames_run h ch sig args (msg_properties content') props ps cs2 fs2 m)
    as (_ & Hr2 & He2); try done; [by eapply sized_nonempty|].
  exists fs1, fs2, bs1, bs2. unfold calls. rewrite Hr1, Hr2, !omap_called_content, Hcat1, Hcat2.
  by rewrite He1, He2.
Qed.
End wire.

(** A [basic.deliver] of a text, written with [frame_max] 11 into small frames
    and read back from single bytes with a timeout after each. *)
Definition wire_writer : st (writer bytes) unit :=
  write_frame no_codec 11 1 2 (Some Spec.Basic.Deliver) (VBytes (bytes_of "a")) (Some sample_content).

Definition wire_bytes : bytes := sent (wire_writer sample_writer).1.

Definition wire_events : list event :=
  mjoin ((fun b => [Data [b]; Err SockTimeout]) <$> wire_bytes).

Lemma sample_sent_wf : wf_props PROPERTIES (msg_properties sample_sent).
Proof.
  intros key ty v _ Hp. unfold present, dict_get in Hp. cbn [msg_properties sample_sent set_properties] in Hp.
  repeat case_decide; simplify_eq; destruct (fmt_of_type ty); try done; intros d Hd; cbn in Hd;
    try discriminate Hd.
  all: cbn in Hd; simplify_eq; split; cbn; unfold code_point; solve_wf.
Qed.

Lemma publish_receive_witness :
  exists n t' fs margs,
    read_frames false n (demo_transport wire_events) = (t', Ok fs) /\ stream t' = [] /\
    method_frame 1 (Some Spec.Basic.Deliver) (VBytes (bytes_of "a")) = Ok margs /\
    exists k, (run frame_handler fs).2.*2 = replicate k (Ok (None, false)) ++
      [Ok (Some (Call 2 (Some Spec.Basic.Deliver) margs
         (Some (received_message Spec.Basic.Deliver margs
            [("content_encoding", VStr (str_of "utf-8")); ("priority", VInt 4)]
            (bytes_of "hello")))), true)] /\
    chan_state (run frame_handler fs).1 2 = (1, None).
Proof.
  eapply (publish_receive false no_codec 11 2 Spec.Basic.Deliver (bytes_of "a") sample_content
    sample_sent (bytes_of "hello") sample_serialized _ sample_writer (wire_writer sample_writer).1
    frame_handler (demo_transport wire_events) wire_bytes []).
  - lia.
  - right. left.
  - reflexivity.
  - apply sample_sent_wf.
  - vm_compute. reflexivity.
  - vm_compute. reflexivity.
  - left. discriminate.
  - vm_compute. reflexivity.
  - reflexivity.
  - vm_compute. reflexivity.
  - vm_compute. reflexivity.
  - reflexivity.
Defined.

(** The same text in small frames, and with one write. *)
Definition wire_writer_large : st (writer bytes) unit :=
  write_frame no_codec 4096 1 2 (Some Spec.Basic.Deliver) (VBytes (bytes_of "a")) (Some sample_content).

Lemma frame_max_invisible_witness :
  exists fs1 fs2 bs1 bs2,
    pack_frames fs1 = Ok bs1 /\ sent (wire_writer sample_writer).1 = sent sample_writer ++ bs1 /\
    w_bytes_sent (wire_writer sample_writer).1 = w_bytes_sent sample_writer + 1 /\
    pack_frames fs2 = Ok bs2 /\ sent (wire_writer_large sample_writer).1 = sent sample_writer ++ bs2 /\
    w_bytes_sent (wire_writer_large sample_writer).1 = w_bytes_sent sample_writer + 1 /\
    calls frame_handler fs1 = calls frame_handler fs2 /\ length (calls frame_handler fs1) = 1%nat /\
    chan_state (run frame_handler fs1).1 2 = chan_state (run frame_handler fs2).1 2.
Proof.
  apply (frame_max_invisible no_codec 11 4096 2 Spec.Basic.Deliver (bytes_of "a") sample_content
    sample_sent (bytes_of "hello") sample_serialized
    [("content_encoding", VStr (str_of "utf-8")); ("priority", VInt 4)]
    sample_writer (wire_writer sample_writer).1 sample_writer (wire_writer_large sample_writer).1 frame_handler).
  - lia.
  - lia.
  - right. left.
  - reflexivity.
  - discriminate.
  - apply sample_sent_wf.
  - vm_compute. reflexivity.
  - vm_compute. reflexivity.
  - vm_compute. reflexivity.
  - vm_compute. reflexivity.
  - reflexivity.
Defined.
