(* ===== verification/Sasl.v ===== *)
(** * SASL mechanisms ([amqp/sasl.py]) and their choice

    The initial responses of the mechanisms and the loop of
    [Connection._on_start] that picks one the server offers. *)

From S2P Require Import Prelude Exceptions Struct Utf8 Values Table.

Open Scope Z_scope.

(** The subclasses of [SASL].  A class of the user, and [GSSAPI] where the
    library of that name is installed (see [gssapi_sasl]), are known by their
    mechanism and the result of [start]; [None] is [NotImplemented].  Without the library
    [GSSAPI] is the class whose mechanism is [None]. *)
Inductive sasl : Type :=
  | PLAIN (username password : option pystr)
  | AMQPLAIN (username password : option pystr)
  | EXTERNAL
  | RAW (mechanism response : bytes)
  | FakeGSSAPI
  | Custom (mechanism : bytes) (start : py (option bytes)).

Definition mechanism (a : sasl) : option bytes :=
  match a with
  | PLAIN _ _ => Some (bytes_of "PLAIN")
  | AMQPLAIN _ _ => Some (bytes_of "AMQPLAIN")
  | EXTERNAL => Some (bytes_of "EXTERNAL")
  | RAW m _ => Some m
  | FakeGSSAPI => None
  | Custom m _ => Some m
  end.

Definition plain_start (username password : option pystr) : py (option bytes) :=
  match username, password with
  | Some u, Some p =>
      u ← encode_utf8_strict u;
      p ← encode_utf8_strict p;
      mret (Some ([byte_of_Z 0] ++ u ++ [byte_of_Z 0] ++ p))
  | _, _ => mret None
  end.

Definition amqplain_start (username password : option pystr) : py (option bytes) :=
  match username, password with
  | Some u, Some p =>
      t ← write_table write_item
            [(KBytes (bytes_of "LOGIN"), VStr u); (KBytes (bytes_of "PASSWORD"), VStr p)];
      mret (Some (drop 4 t))
  | _, _ => mret None
  end.

(** [authentication.start(connection)]. *)
Definition start (a : sasl) : py (option bytes) :=
  match a with
  | PLAIN u p => plain_start u p
  | AMQPLAIN u p => amqplain_start u p
  | EXTERNAL => mret (Some [])
  | RAW _ r => mret (Some r)
  | FakeGSSAPI => Raise TypeError
  | Custom _ r => r
  end.

(** [for authentication in self.authentication: ... else: raise]. *)
Fixpoint choose_authentication (authentication : list sasl) (mechanisms : list bytes)
    : py (bytes * bytes) :=
  match authentication with
  | [] => raise_amqp ConnectionError "Couldn't find appropriate auth mechanism" None
  | a :: rest =>
      match mechanism a with
      | Some m =>
          if decide (m ∈ mechanisms) then
            r ← start a;
            match r with
            | Some response => mret (m, response)
            | None => choose_authentication rest mechanisms
            end
          else choose_authentication rest mechanisms
      | None => choose_authentication rest mechanisms
      end
  end.

(** The default list of [Connection.__init__]. *)
Definition default_authentication (userid password : option pystr) : list sasl :=
  [FakeGSSAPI; EXTERNAL; AMQPLAIN userid password; PLAIN userid password].

(** The choice of the authentication objects in [Connection.__init__], with
    the [GSSAPI] of an installation without the library. *)
Definition init_authentication (authentication : list sasl) (login_method : value)
    (userid password : option pystr) (login_response : value) : py (list sasl) :=
  match authentication with
  | _ :: _ => Ok authentication
  | [] =>
      let is_method name := if login_method is VStr s then bool_decide (s = str_of name) else false in
      let supplied := bool_decide (is_Some userid) && bool_decide (is_Some password) in
      if login_method is VNone then Ok (default_authentication userid password)
      else if is_method "GSSAPI" then Raise NotImplementedError
      else if is_method "EXTERNAL" then Ok [EXTERNAL]
      else if is_method "AMQPLAIN" then
        if negb supplied then Raise ValueError else Ok [AMQPLAIN userid password]
      else if is_method "PLAIN" then
        if negb supplied then Raise ValueError else Ok [PLAIN userid password]
      else match login_response with
           | VNone => Raise ValueError
           | _ => match login_method, login_response with
                  | VBytes m, VBytes r => Ok [RAW m r]
                  | _, _ => Raise AssertionError
                  end
           end
  end.

(** ** GSSAPI *)

(** [s.encode('ascii')]. *)
Definition encode_ascii (s : pystr) : py bytes :=
  if forallb (fun c => (0 <=? c) && (c <? 128)) s then Ok (byte_of_Z <$> s) else Raise UnicodeEncodeError.

(** What is [bytes] already stays. *)
Definition ascii_bytes (s : dict_key) : py bytes :=
  match s with KBytes b => Ok b | KStr s => encode_ascii s end.

(** The attributes of [GSSAPI]. *)
Record gssapi : Set := Gssapi {
  g_client_name : option bytes;
  g_service : bytes;
  g_rdns : bool;
  g_fail_soft : bool;
}.

(** [GSSAPI.__init__]; an empty name counts as none. *)
Definition gssapi_init (client_name : option dict_key) (service : bytes) (rdns fail_soft : bool) : py gssapi :=
  match client_name with
  | None | Some (KStr [] | KBytes []) => Ok (Gssapi None service rdns fail_soft)
  | Some name => b ← ascii_bytes name; mret (Gssapi (Some b) service rdns fail_soft)
  end.

(** [FakeGSSAPI.__init__], where the library is missing. *)
Definition fake_gssapi_init (fail_soft : bool) : py sasl :=
  if negb fail_soft then Raise NotImplementedError else Ok FakeGSSAPI.

(** The socket of the connection and its address: [sock.family] is one of
    [AF_INET] and [AF_INET6], [sock.getpeername()[0]], and [transport.host]. *)
Record endpoint : Type := Endpoint {
  ep_inet : bool;
  ep_peer : py pystr;
  ep_host : dict_key;
}.

Section gssapi.
(** [socket.gethostbyaddr(peer)[0]]. *)
Context (gethostbyaddr : pystr -> py dict_key).
(** The library [gssapi]; [Name_service] makes a name of the type
    [hostbased_service]. *)
Context {name credentials context : Type}.
Context (Name Name_service : bytes -> py name) (Credentials : name -> py credentials).
Context (SecurityContext : name -> option credentials -> py context) (step : context -> py bytes).

Definition get_hostname (g : gssapi) (ep : endpoint) : py bytes :=
  hostname ← (if g_rdns g && ep_inet ep then peer ← ep_peer ep; gethostbyaddr peer
              else mret (ep_host ep));
  ascii_bytes hostname.

Definition gssapi_creds (g : gssapi) : py (option credentials) :=
  match g_client_name g with
  | Some n => n ← Name n; c ← Credentials n; mret (Some c)
  | None => mret None
  end.

(** The body of the [try] in [GSSAPI.start]. *)
Definition gssapi_token (g : gssapi) (ep : endpoint) : py bytes :=
  creds ← gssapi_creds g;
  hostname ← get_hostname g ep;
  name ← Name_service (g_service g ++ bytes_of "@" ++ hostname);
  ctx ← SecurityContext name creds;
  step ctx.

(** [GSSAPI.start]; [None] is [NotImplemented]. *)
Definition gssapi_start (g : gssapi) (ep : endpoint) : py (option bytes) :=
  match gssapi_token g ep with
  | Ok token => Ok (Some token)
  | Raise GSSError => if g_fail_soft g then Ok None else Raise GSSError
  | Raise e => Raise e
  | OutOfFuel => OutOfFuel
  end.

Definition gssapi_sasl (g : gssapi) (ep : endpoint) : sasl :=
  Custom (bytes_of "GSSAPI") (gssapi_start g ep).

(** With [fail_soft], as in the default list, a failure of the library is not
    seen: the login goes on with the next authentication. *)
Lemma gssapi_falls_through g ep rest mechanisms :
  g_fail_soft g = true -> gssapi_token g ep = Raise GSSError ->
  choose_authentication (gssapi_sasl g ep :: rest) mechanisms = choose_authentication rest mechanisms.
Proof. intros Hs Ht. cbn. unfold gssapi_start. rewrite Ht, Hs. by case_decide. Qed.

(** The server is asked for by the name it was connected to, unless [rdns]. *)
Lemma gssapi_start_token g ep host n ctx token :
  g_rdns g = false -> g_client_name g = None -> ep_host ep = KBytes host ->
  Name_service (g_service g ++ bytes_of "@" ++ host) = Ok n -> SecurityContext n None = Ok ctx ->
  step ctx = Ok token -> gssapi_start g ep = Ok (Some token).
Proof.
  intros Hr Hc Hh Hn Hctx Ht. unfold gssapi_start, gssapi_token, gssapi_creds, get_hostname.
  rewrite Hr, Hc, Hh. cbn [andb ascii_bytes mret result_ret mbind result_bind].
  rewrite Hn. cbn [mbind result_bind]. rewrite Hctx. cbn [mbind result_bind]. by rewrite Ht.
Qed.
End gssapi.

(** ** The choice *)

(** A method that is a text, as the documentation has it, works only for the
    built-in mechanisms: [RAW] insists on bytes. *)
Lemma login_method_text name userid password r :
  name ∉ [str_of "GSSAPI"; str_of "EXTERNAL"; str_of "AMQPLAIN"; str_of "PLAIN"] -> r <> VNone ->
  init_authentication [] (VStr name) userid password r = Raise AssertionError.
Proof.
  intros Hname Hr. unfold init_authentication.
  assert (forall m, str_of m ∈ [str_of "GSSAPI"; str_of "EXTERNAL"; str_of "AMQPLAIN"; str_of "PLAIN"] ->
    bool_decide (name = str_of m) = false) as Hm.
  { intros m Hin. apply bool_decide_eq_false. by intros ->. }
  rewrite (Hm "GSSAPI"), (Hm "EXTERNAL"), (Hm "AMQPLAIN"), (Hm "PLAIN").
  - by destruct r.
  - do 3 right. left.
  - do 2 right. left.
  - right. left.
  - left.
Qed.

(** The other way round, what is chosen never lacks a user name or a password. *)
Lemma login_supplied login_method userid password r auths a u p :
  init_authentication [] login_method userid password r = Ok auths -> login_method <> VNone -> a ∈ auths ->
  a = PLAIN u p \/ a = AMQPLAIN u p -> is_Some u /\ is_Some p.
Proof.
  unfold init_authentication. intros H Hl Ha Hup.
  destruct login_method; try done; destruct userid as [u0|], password as [p0|]; cbn in H;
    repeat case_bool_decide; try discriminate H;
    try (destruct r; try discriminate H); injection H as <-;
    apply list_elem_of_singleton in Ha as ->; destruct Hup as [[=]|[=]]; subst; by split; eexists.
Qed.

Example plain_example :
  start (PLAIN (Some (str_of "guest")) (Some (str_of "pw"))) =
    Ok (Some ([byte_of_Z 0] ++ bytes_of "guest" ++ [byte_of_Z 0] ++ bytes_of "pw")).
Proof. reflexivity. Qed.

(** A mechanism that can be used: the server offers it and it has a response. *)
Definition usable (mechanisms : list bytes) (a : sasl) (m r : bytes) : Prop :=
  mechanism a = Some m /\ m ∈ mechanisms /\ start a = Ok (Some r).

Definition declines (mechanisms : list bytes) (a : sasl) : Prop :=
  (forall m, mechanism a = Some m -> m ∈ mechanisms -> start a = Ok None).

Lemma choose_authentication_skip declined rest mechanisms :
  Forall (declines mechanisms) declined ->
  choose_authentication (declined ++ rest) mechanisms = choose_authentication rest mechanisms.
Proof.
  induction 1 as [|a declined Ha _ IH]; [done|]. cbn.
  destruct (mechanism a) as [m|] eqn:Hm; [|done]. destruct (decide (m ∈ mechanisms)); [|done].
  by rewrite (Ha m).
Qed.

(** The connection logs in with the first of its authentications that
    the server offers and that has a response; the ones before it are not
    offered or decline.  It raises [ConnectionError] exactly when all of them
    do. *)
Theorem choose_first authentication mechanisms :
  match choose_authentication authentication mechanisms with
  | Ok (m, r) => exists declined a rest, authentication = declined ++ a :: rest /\
      Forall (declines mechanisms) declined /\ usable mechanisms a m r
  | Raise e => (Forall (declines mechanisms) authentication /\ is_amqp ConnectionError e = true) \/
      exists declined a rest, authentication = declined ++ a :: rest /\
        Forall (declines mechanisms) declined /\ start a = Raise e
  | OutOfFuel => exists a, a ∈ authentication /\ start a = OutOfFuel
  end.
Proof.
  induction authentication as [|a rest IH]; cbn; [left; by split|].
  assert (declines mechanisms a -> match choose_authentication rest mechanisms with
    | Ok (m, r) => exists declined b rest', a :: rest = declined ++ b :: rest' /\
        Forall (declines mechanisms) declined /\ usable mechanisms b m r
    | Raise e => (Forall (declines mechanisms) (a :: rest) /\ is_amqp ConnectionError e = true) \/
        exists declined b rest', a :: rest = declined ++ b :: rest' /\
          Forall (declines mechanisms) declined /\ start b = Raise e
    | OutOfFuel => exists b, b ∈ a :: rest /\ start b = OutOfFuel
    end) as Hskip.
  { intros Ha. destruct (choose_authentication rest mechanisms) as [[m r]|e|].
    - destruct IH as (d & b & rest' & -> & Hd & Hu). exists (a :: d), b, rest'. auto using Forall_cons_2.
    - destruct IH as [[Hall He]|(d & b & rest' & -> & Hd & Hs)]; [left; auto using Forall_cons_2|].
      right. exists (a :: d), b, rest'. auto using Forall_cons_2.
    - destruct IH as (b & Hb & Hs). exists b. split; [by right|done]. }
  destruct (mechanism a) as [m|] eqn:Hm; [|apply Hskip; intros m Hm' _; congruence].
  destruct (decide (m ∈ mechanisms)) as [Hin|Hin];
    [|apply Hskip; intros m' Hm' Hin'; simplify_eq; done].
  destruct (start a) as [[r|]|e|] eqn:Hs; cbn [mbind result_bind].
  - exists [], a, rest. split_and!; [done|constructor|done].
  - apply Hskip. intros m' _ _. exact Hs.
  - right. exists [], a, rest. split_and!; [done|constructor|done].
  - exists a. split; [left|done].
Qed.

Lemma amqplain_reads_back u p r :
  wf_str u -> wf_str p -> start (AMQPLAIN (Some u) (Some p)) = Ok (Some r) ->
  exists n, pack_u 4 (zlen r) = Ok n /\
    read_item (["F"%byte] ++ n ++ r) 0 =
      Ok (VDict [(KStr (str_of "LOGIN"), VStr u); (KStr (str_of "PASSWORD"), VStr p)], 5 + zlen r).
Proof.
  intros Hu Hp H. cbn [start amqplain_start] in H.
  set (d := [(KBytes (bytes_of "LOGIN"), VStr u); (KBytes (bytes_of "PASSWORD"), VStr p)]) in *.
  apply bind_ok_inv in H as (t & Ht & H). unfold mret, result_ret in H. injection H as <-.
  assert (write_item (VDict d) = Ok (["F"%byte] ++ t)) as Hw.
  { cbn [write_item]. change (write_table write_item d) with (write_table write_item d) in Ht.
    by rewrite Ht. }
  unfold write_table in Ht. apply bind_ok_inv in Ht as (body & _ & Ht).
  unfold write_long in Ht. apply bind_ok_inv in Ht as (n & Hn & Ht).
  unfold mret, result_ret in Ht. injection Ht as <-. pose proof (pack_u_length _ _ _ Hn) as Hl.
  assert (drop 4 (n ++ body) = body) as -> by (by apply drop_app_length').
  exists n. split; [done|].
  assert (wf_value (VDict d) /\ keys_decode (VDict d)) as [Hwf Hk].
  { subst d. split; cbn; unfold code_point; solve_wf. }
  destruct (write_item_reads_back (VDict d) _ Hwf Hk Hw) as [_ Hr].
  unfold read_item. rewrite Hr; [|apply holds_at_whole|unfold read_fuel; lia].
  f_equal. f_equal. rewrite !length_app, Hl. cbn [length]. lia.
Qed.

(** C40: the AMQPLAIN response is the content of a field table, without its
    length, that the server reads as the user name and the password. *)
Theorem amqplain_response u p r :
  wf_str u -> wf_str p -> start (AMQPLAIN (Some u) (Some p)) = Ok (Some r) ->
  exists n, pack_u 4 (zlen r) = Ok n /\
    read_item (["F"%byte] ++ n ++ r) 0 =
      Ok (VDict [(KStr (str_of "LOGIN"), VStr u); (KStr (str_of "PASSWORD"), VStr p)], 5 + zlen r).
Proof. apply amqplain_reads_back. Qed.

Lemma amqplain_response_witness :
  exists r n, pack_u 4 (zlen r) = Ok n /\
    read_item (["F"%byte] ++ n ++ r) 0 =
      Ok (VDict [(KStr (str_of "LOGIN"), VStr (str_of "guest"));
                 (KStr (str_of "PASSWORD"), VStr (str_of "pw"))], 5 + zlen r).
Proof.
  eexists. apply (amqplain_response (str_of "guest") (str_of "pw"));
    [solve_wf..|vm_compute; reflexivity].
Defined.
