(* ===== verification/Conn.v ===== *)
(** * The bookkeeping of a connection ([amqp/connection.py])

    Channel ids ([_get_free_channel_id], [_claim_channel_id] and the removal
    in [Channel.collect]), the values negotiated by [_on_tune], and the
    heartbeats.  The dispatch of methods is in [Session.v]. *)

From S2P Require Import Prelude Exceptions State Struct Values Codec Content Framing.
From S2P Require Spec.
From Stdlib Require Import QArith Qround Lqa.

Open Scope Z_scope.

(** ** Channel ids *)

(** [self._used_channel_ids] is an [array('H')]: an id that does not fit
    raises [OverflowError]. *)
Definition ids_append (used : list Z) (id : Z) : py (list Z) :=
  if (0 <=? id) && (id <? 2 ^ 16) then Ok (used ++ [id]) else Raise OverflowError.

(** [for channel_id in range(1, channel_max + 1)]. *)
Fixpoint first_free (ids used : list Z) : option Z :=
  match ids with
  | [] => None
  | id :: ids => if decide (id ∈ used) then first_free ids used else Some id
  end.

Definition get_free_channel_id (channel_max : Z) (used : list Z) : py (Z * list Z) :=
  match first_free (seqZ 1 channel_max) used with
  | Some id => used ← ids_append used id; mret (id, used)
  | None =>
      raise_amqp ResourceError "No free channel ids, current={}, channel_max={}"
        (Some (inl Spec.Channel.Open))
  end.

Definition claim_channel_id (used : list Z) (id : Z) : py (Z * list Z) :=
  if decide (id ∈ used)
  then raise_amqp ConnectionError "Channel {!r} already open" None
  else used ← ids_append used id; mret (id, used).

(** [connection._used_channel_ids.remove(channel_id)], a missing id ignored. *)
Fixpoint remove_channel_id (used : list Z) (id : Z) : list Z :=
  match used with
  | [] => []
  | x :: used => if decide (x = id) then used else x :: remove_channel_id used id
  end.

Lemma first_free_spec ids used :
  match first_free ids used with
  | Some id => exists before after, ids = before ++ id :: after /\
      Forall (fun x => x ∈ used) before /\ id ∉ used
  | None => Forall (fun x => x ∈ used) ids
  end.
Proof.
  induction ids as [|id ids IH]; cbn; [done|]. case_decide as Hin.
  - destruct (first_free ids used) as [x|]; [|by constructor].
    destruct IH as (b & a & -> & Hb & Hx). exists (id :: b), a. split_and!; [done|by constructor|done].
  - by exists [], ids.
Qed.

(** A new channel gets the smallest id from 1 to [channel_max] that is
    not in use, and the call fails with [ResourceError] exactly when all of
    them are. *)
Theorem free_channel_id channel_max used :
  0 <= channel_max < 2 ^ 16 ->
  match get_free_channel_id channel_max used with
  | Ok (id, used') => 1 <= id <= channel_max /\ (id ∉ used) /\ used' = used ++ [id] /\
      (forall x, 1 <= x < id -> x ∈ used)
  | Raise e => is_amqp ResourceError e = true /\ (forall x, 1 <= x <= channel_max -> x ∈ used)
  | OutOfFuel => False
  end.
Proof.
  intros Hm. unfold get_free_channel_id. pose proof (first_free_spec (seqZ 1 channel_max) used) as Hs.
  destruct (first_free _ used) as [id|].
  - destruct Hs as (b & a & Hseq & Hb & Hid).
    assert (id ∈ seqZ 1 channel_max) as Hin by (rewrite Hseq; set_solver).
    apply elem_of_seqZ in Hin. unfold ids_append.
    rewrite (proj2 (Z.leb_le 0 id)), (proj2 (Z.ltb_lt id _)) by lia. cbn.
    split_and!; try done; [lia..|]. intros x Hx.
    assert (x ∈ b) as Hxb; [|by rewrite Forall_forall in Hb; apply Hb].
    assert (seqZ 1 channel_max !! length b = Some id) as Hl by (rewrite Hseq; by apply list_lookup_middle).
    apply lookup_seqZ in Hl as [Hl1 Hl2].
    assert (seqZ 1 channel_max !! Z.to_nat (x - 1) = Some x) as Hl3 by (apply lookup_seqZ; lia).
    rewrite Hseq, lookup_app_l in Hl3 by lia. by eapply list_elem_of_lookup_2.
  - split; [done|]. intros x Hx. rewrite Forall_forall in Hs. apply Hs, elem_of_seqZ. lia.
Qed.

Lemma free_channel_id_witness :
  1 <= 2 <= 3 /\ (2 ∉ [1; 3]) /\ [1; 3; 2] = [1; 3] ++ [2] /\ (forall x, 1 <= x < 2 -> x ∈ [1; 3]).
Proof. exact (free_channel_id 3 [1; 3] (conj (Z.le_succ_diag_r 0 : 0 <= 3) eq_refl)). Defined.

(** Operations on the ids of a connection. *)
Inductive id_step (channel_max : Z) : list Z -> list Z -> Prop :=
  | id_free used id used' :
      get_free_channel_id channel_max used = Ok (id, used') -> id_step channel_max used used'
  | id_claim used id used' :
      claim_channel_id used id = Ok (id, used') -> id_step channel_max used used'
  | id_remove used id : id_step channel_max used (remove_channel_id used id).

Lemma ids_append_nodup used x id used' :
  (u ← ids_append used x; mret (x, u)) = Ok (id, used') -> x ∉ used -> NoDup used -> NoDup used'.
Proof.
  unfold ids_append. case_match; [|done]. cbn. unfold mret, result_ret. intros Hu Hx Hn. simplify_eq.
  apply NoDup_app. split_and!; [done|set_solver|apply NoDup_singleton].
Qed.

Lemma remove_channel_id_sub used id x : x ∈ remove_channel_id used id -> x ∈ used.
Proof. induction used as [|y used IH]; cbn; [done|]. case_decide; set_solver. Qed.

Lemma remove_channel_id_nodup used id :
  NoDup used -> NoDup (remove_channel_id used id) /\ id ∉ remove_channel_id used id.
Proof.
  induction 1 as [|y used Hy Hn [IH1 IH2]]; cbn; [split; [constructor|set_solver]|].
  case_decide; [by subst|]. split.
  - constructor; [|done]. by intros Hin%remove_channel_id_sub.
  - set_solver.
Qed.

(** Through any sequence of allocations, claims and removals no id is
    ever handed out twice while it is in use. *)
Theorem channel_ids_distinct channel_max used :
  rtc (id_step channel_max) [] used -> NoDup used.
Proof.
  assert (forall a b, rtc (id_step channel_max) a b -> NoDup a -> NoDup b) as H;
    [|intros Hr; apply (H _ _ Hr); constructor].
  induction 1 as [|a b c Hstep _ IH]; [done|]. intros Ha. apply IH. destruct Hstep as [u id u' Hf|u id u' Hc|u id].
  - unfold get_free_channel_id in Hf. pose proof (first_free_spec (seqZ 1 channel_max) u) as Hs.
    destruct (first_free _ u) as [x|]; [|done]. destruct Hs as (_ & _ & _ & _ & Hx).
    by eapply ids_append_nodup.
  - unfold claim_channel_id in Hc. case_decide; [done|]. by eapply ids_append_nodup.
  - by apply remove_channel_id_nodup.
Qed.

Lemma channel_ids_distinct_witness : NoDup [2; 1].
Proof.
  apply (channel_ids_distinct 10).
  apply rtc_l with [1]; [by apply (id_free 10 [] 1)|].
  apply rtc_l with [1; 2]; [by apply (id_claim 10 [1] 2)|].
  apply rtc_l with [2]; [by apply (id_remove 10 [1; 2] 1)|].
  apply rtc_l with [2; 1]; [by apply (id_free 10 [2] 1)|]. apply rtc_refl.
Defined.

(** ** Tuning *)

(** The attributes that [_on_tune] sets.  [t_client_heartbeat] is what the
    caller asked for, [None] being no heartbeats. *)
Record tuning : Type := Tuning {
  tu_channel_max : Z;
  tu_frame_max : Z;
  tu_client_heartbeat : option Z;
  tu_server_heartbeat : Z;
  tu_heartbeat : Z;
}.

(** [x or y] of numbers. *)
Definition num_or (x y : Z) : Z := if x =? 0 then y else x.

(** [_on_tune] up to the reply. *)
Definition tune (tu : tuning) (channel_max frame_max server_heartbeat : Z) : tuning :=
  let client_heartbeat := default 0 (tu_client_heartbeat tu) in
  let channel_max := num_or channel_max (tu_channel_max tu) in
  let frame_max := num_or frame_max (tu_frame_max tu) in
  let heartbeat :=
    if (server_heartbeat =? 0) || (client_heartbeat =? 0)
    then Z.max server_heartbeat client_heartbeat
    else Z.min server_heartbeat client_heartbeat in
  let heartbeat := if client_heartbeat =? 0 then 0 else heartbeat in
  Tuning channel_max frame_max (tu_client_heartbeat tu) server_heartbeat heartbeat.

(** The arguments of [TuneOk], with the format ['BlB']. *)
Definition tune_ok_args (tu : tuning) : list value :=
  [VInt (tu_channel_max tu); VInt (tu_frame_max tu); VInt (tu_heartbeat tu)].

(** What [_on_tune] agrees on.  A zero of the server means no limit and
    keeps the value of the client, any other limit of the server is taken as
    it is.  There are heartbeats only when the client wants them; then the
    interval is the smaller of the two, or the client's when the server
    proposes none, so it is never above what a side that wants heartbeats
    asked for. *)
Theorem tune_agrees tu channel_max frame_max server_heartbeat :
  0 <= server_heartbeat -> (forall c, tu_client_heartbeat tu = Some c -> 0 <= c) ->
  let tu' := tune tu channel_max frame_max server_heartbeat in
  tu_channel_max tu' = (if channel_max =? 0 then tu_channel_max tu else channel_max) /\
  tu_frame_max tu' = (if frame_max =? 0 then tu_frame_max tu else frame_max) /\
  tu_heartbeat tu' =
    match tu_client_heartbeat tu with
    | None => 0
    | Some c => if server_heartbeat =? 0 then c else Z.min server_heartbeat c
    end /\
  0 <= tu_heartbeat tu'.
Proof.
  intros Hs Hc. cbn. unfold num_or. split_and!; try done.
  - destruct (tu_client_heartbeat tu) as [c|]; cbn; [|done].
    specialize (Hc c eq_refl). destruct (Z.eqb_spec server_heartbeat 0), (Z.eqb_spec c 0); cbn; lia.
  - destruct (tu_client_heartbeat tu) as [c|]; cbn; [|done].
    specialize (Hc c eq_refl). destruct (Z.eqb_spec server_heartbeat 0), (Z.eqb_spec c 0); cbn; lia.
Qed.

Lemma tune_agrees_witness :
  let tu := Tuning 65535 131072 (Some 60) 0 0 in
  let tu' := tune tu 2047 0 20 in
  tu_channel_max tu' = 2047 /\ tu_frame_max tu' = 131072 /\ tu_heartbeat tu' = 20 /\
  0 <= tu_heartbeat tu'.
Proof.
  apply (tune_agrees (Tuning 65535 131072 (Some 60) 0 0) 2047 0 20); [lia|].
  intros c H. injection H as <-. lia.
Defined.

(** ** Heartbeats *)

Section heartbeat.
Context {W : Type} `{!ByteSink W} (other_codec : pystr -> pystr -> py bytes).
(** The successive readings of [monotonic()]; seconds as exact rationals. *)
Context (clock : nat -> Q).

(** The attributes that [heartbeat_tick] uses; [hb_writer] holds [bytes_sent]. *)
Record hb_state : Type := HbState {
  hb_writer : writer W;
  hb_frame_max : Z;
  hb_heartbeat : Z;
  hb_bytes_recv : Z;
  hb_prev_sent : option Z;
  hb_prev_recv : option Z;
  hb_last_sent : Q;
  hb_last_received : Q;
  hb_reading : nat;
}.

Definition monotonic : st hb_state Q := fun s =>
  (HbState (hb_writer s) (hb_frame_max s) (hb_heartbeat s) (hb_bytes_recv s) (hb_prev_sent s)
     (hb_prev_recv s) (hb_last_sent s) (hb_last_received s) (S (hb_reading s)),
   Ok (clock (hb_reading s))).

Definition set_last_sent (t : Q) (s : hb_state) : hb_state :=
  HbState (hb_writer s) (hb_frame_max s) (hb_heartbeat s) (hb_bytes_recv s) (hb_prev_sent s)
    (hb_prev_recv s) t (hb_last_received s) (hb_reading s).

Definition set_last_received (t : Q) (s : hb_state) : hb_state :=
  HbState (hb_writer s) (hb_frame_max s) (hb_heartbeat s) (hb_bytes_recv s) (hb_prev_sent s)
    (hb_prev_recv s) (hb_last_sent s) t (hb_reading s).

Definition set_prev (sent recv : Z) (s : hb_state) : hb_state :=
  HbState (hb_writer s) (hb_frame_max s) (hb_heartbeat s) (hb_bytes_recv s) (Some sent)
    (Some recv) (hb_last_sent s) (hb_last_received s) (hb_reading s).

Definition set_hb_writer (w : writer W) (s : hb_state) : hb_state :=
  HbState w (hb_frame_max s) (hb_heartbeat s) (hb_bytes_recv s) (hb_prev_sent s)
    (hb_prev_recv s) (hb_last_sent s) (hb_last_received s) (hb_reading s).

(** [self.frame_writer(8, 0, None, None, None)]. *)
Definition send_heartbeat : st hb_state unit := fun s =>
  zoom hb_writer set_hb_writer (write_frame other_codec (hb_frame_max s) 8 0 None VNone None) s.

(** [a < b] of floats. *)
Definition qlt (a b : Q) : bool := negb (Qle_bool b a).

(** [prev is None or prev != now]. *)
Definition changed (prev : option Z) (now : Z) : bool :=
  match prev with None => true | Some p => negb (p =? now) end.

(** [if now > self.last_heartbeat_sent + self.heartbeat / rate: ...]. *)
Definition beat_send (rate heartbeat : Z) (now : Q) : st hb_state unit :=
  last_sent ← gets hb_last_sent;
  when (qlt (last_sent + inject_Z heartbeat / inject_Z rate) now)
    (send_heartbeat ;; t ← monotonic; modify (set_last_sent t)).

(** Two missed intervals. *)
Definition beat_check (heartbeat : Z) : st hb_state unit :=
  last_received ← gets hb_last_received;
  t ← monotonic;
  if negb (Qeq_bool last_received 0) && qlt (last_received + inject_Z (2 * heartbeat)) t
  then lift (raise_amqp ConnectionForced "Too many heartbeats missed" None)
  else mret tt.

Definition heartbeat_tick (rate : Z) : st hb_state unit :=
  heartbeat ← gets hb_heartbeat;
  if heartbeat =? 0 then mret tt
  else
    let rate := if rate <=? 0 then 2 else rate in
    sent_now ← gets (fun s => w_bytes_sent (hb_writer s));
    recv_now ← gets hb_bytes_recv;
    prev_sent ← gets hb_prev_sent;
    when (changed prev_sent sent_now) (t ← monotonic; modify (set_last_sent t)) ;;
    prev_recv ← gets hb_prev_recv;
    when (changed prev_recv recv_now) (t ← monotonic; modify (set_last_received t)) ;;
    now ← monotonic;
    modify (set_prev sent_now recv_now) ;;
    beat_send rate heartbeat now ;;
    beat_check heartbeat.
End heartbeat.
Arguments hb_state : clear implicits.

Section heartbeat_properties.
Context {W : Type} `{!ByteSink W} (other_codec : pystr -> pystr -> py bytes) (clock : nat -> Q).
Implicit Types s : hb_state W.

Lemma qlt_spec a b : qlt a b = true <-> (a < b)%Q.
Proof.
  unfold qlt. rewrite negb_true_iff. split.
  - intros H. destruct (Qlt_le_dec a b) as [|Hle]; [done|]. apply Qle_bool_iff in Hle. congruence.
  - intros H. destruct (Qle_bool b a) eqn:E; [|done]. apply Qle_bool_iff in E. lra.
Qed.

(** The state in which the tick decides what to send. *)
Definition beat_state s : hb_state W :=
  let k := hb_reading s in
  let c1 := changed (hb_prev_sent s) (w_bytes_sent (hb_writer s)) in
  let c2 := changed (hb_prev_recv s) (hb_bytes_recv s) in
  let k1 := if c1 then S k else k in
  let k2 := if c2 then S k1 else k1 in
  HbState (hb_writer s) (hb_frame_max s) (hb_heartbeat s) (hb_bytes_recv s)
    (Some (w_bytes_sent (hb_writer s))) (Some (hb_bytes_recv s))
    (if c1 then clock k else hb_last_sent s) (if c2 then clock k1 else hb_last_received s) (S k2).

Lemma heartbeat_tick_eq rate s :
  hb_heartbeat s <> 0 ->
  heartbeat_tick other_codec clock rate s =
    (beat_send other_codec clock (if rate <=? 0 then 2 else rate) (hb_heartbeat s)
       (clock (pred (hb_reading (beat_state s)))) ;;
     beat_check clock (hb_heartbeat s)) (beat_state s).
Proof.
  intros Hh. destruct s as [w fm hb br ps pr ls lr k]. cbn [hb_heartbeat] in *.
  unfold heartbeat_tick. rewrite st_bind_gets. cbn [hb_heartbeat].
  rewrite (proj2 (Z.eqb_neq hb 0)) by done. unfold beat_state.
  cbn [hb_reading hb_prev_sent hb_writer hb_prev_recv hb_bytes_recv hb_last_sent hb_last_received
       hb_frame_max hb_heartbeat].
  rewrite !st_bind_gets. cbn [hb_writer hb_bytes_recv hb_prev_sent].
  destruct (changed ps (w_bytes_sent w)), (changed pr br) eqn:H2;
    unfold when, gets, modify, monotonic, mbind, st_bind, mret, st_ret; cbn; by rewrite H2.
Qed.

Definition heartbeat_bytes : bytes :=
  [byte_of_Z 8; byte_of_Z 0; byte_of_Z 0; byte_of_Z 0; byte_of_Z 0; byte_of_Z 0; byte_of_Z 0; byte_of_Z 206].

(** The heartbeat of this tick could not be sent: [r] is what writing it gave. *)
Definition send_failed s s' (r : py unit) : Prop :=
  r <> Ok tt /\ write_frame other_codec (hb_frame_max s) 8 0 None VNone None (hb_writer s) = (hb_writer s', r).

Definition too_many_missed : py unit := raise_amqp ConnectionForced "Too many heartbeats missed" None.

(** A heartbeat frame is written, and counted. *)
Definition beat s s' : Prop :=
  sent (hb_writer s') = sent (hb_writer s) ++ heartbeat_bytes /\
  w_bytes_sent (hb_writer s') = w_bytes_sent (hb_writer s) + 1.

Lemma write_heartbeat_ok fm (w w' : writer W) u :
  write_frame other_codec fm 8 0 None VNone None w = (w', Ok u) ->
  sent w' = sent w ++ heartbeat_bytes /\ w_bytes_sent w' = w_bytes_sent w + 1.
Proof.
  intros Hw. unfold write_frame in Hw. apply st_bind_ok_inv in Hw as (w1 & ? & Hw & Hc).
  unfold count_sent, modify in Hc. injection Hc as <- _.
  unfold sent. cbn [w_transport w_bytes_sent]. fold (sent w1) (sent w).
  unfold write_fast in Hw. apply st_bind_ok_inv in Hw as (w0 & ? & Hr & Hw).
  assert (sent w0 = sent w /\ w_bytes_sent w0 = w_bytes_sent w) as [<- <-].
  { unfold resize in Hr. destruct (_ <? _); by simplify_eq. }
  apply st_bind_ok_inv in Hw as (w2 & m & Hm & Hw). injection Hm as <- <-.
  apply st_bind_ok_inv in Hw as (w3 & off & Hp & Hw).
  apply pack_into_ok in Hp as (bs & Hbs & -> & _ & Ht & Hn & Hk); [|done].
  injection Hbs as <-. rewrite st_bind_ret, st_bind_gets in Hw.
  apply write_ok in Hw as (Hs & _ & Hn'). rewrite Hs, Hk, Hn', Hn. unfold sent. by rewrite Ht.
Qed.

(** What the rest of a tick keeps. *)
Record same_books s s' : Prop := SameBooks {
  sb_heartbeat : hb_heartbeat s' = hb_heartbeat s;
  sb_recv : hb_bytes_recv s' = hb_bytes_recv s;
  sb_prev_sent : hb_prev_sent s' = hb_prev_sent s;
  sb_prev_recv : hb_prev_recv s' = hb_prev_recv s;
  sb_received : hb_last_received s' = hb_last_received s;
}.

Lemma beat_send_spec rate heartbeat now s s' r :
  beat_send other_codec clock rate heartbeat now s = (s', r) ->
  same_books s s' /\ (hb_reading s <= hb_reading s' <= S (hb_reading s))%nat /\
  let due := (hb_last_sent s + inject_Z heartbeat / inject_Z rate < now)%Q in
  ((r = Ok tt /\ ~ due /\ hb_writer s' = hb_writer s /\ hb_last_sent s' = hb_last_sent s) \/
   (r = Ok tt /\ due /\ beat s s') \/ (due /\ send_failed s s' r)).
Proof.
  unfold beat_send. rewrite st_bind_gets. destruct (qlt _ now) eqn:Hq; cbn [when].
  - apply qlt_spec in Hq. unfold mbind, st_bind, send_heartbeat, zoom.
    destruct (write_frame _ _ _ _ _ _ _ _) as [w [u|e|]] eqn:Hw; intros H; injection H as <- <-; cbn;
      (split; [by split|split; [lia|]]).
    + right. left. split_and!; [done|done|]. by apply write_heartbeat_ok in Hw.
    + right. right. split; [done|]. by split.
    + right. right. split; [done|]. by split.
  - intros H. injection H as <- <-. split; [by split|split; [lia|]]. left.
    split_and!; [done| |done..]. intros Hlt%qlt_spec. congruence.
Qed.

Lemma beat_check_spec heartbeat s s' r :
  beat_check clock heartbeat s = (s', r) ->
  same_books s s' /\ hb_writer s' = hb_writer s /\ hb_last_sent s' = hb_last_sent s /\
  hb_reading s' = S (hb_reading s) /\
  ((r = Ok tt /\ ((hb_last_received s == 0)%Q \/
      (clock (hb_reading s) <= hb_last_received s + inject_Z (2 * heartbeat))%Q)) \/
   (r = too_many_missed /\ ~ (hb_last_received s == 0)%Q /\
      (hb_last_received s + inject_Z (2 * heartbeat) < clock (hb_reading s))%Q)).
Proof.
  unfold beat_check. rewrite st_bind_gets. unfold monotonic at 1, mbind at 1, st_bind at 1.
  destruct (Qeq_bool (hb_last_received s) 0) eqn:Hz; cbn [negb andb].
  - intros H. injection H as <- <-. split_and!; [by split|done..|]. left. split; [done|]. left.
    by apply Qeq_bool_iff.
  - destruct (qlt _ _) eqn:Hq; intros H; injection H as <- <-; (split_and!; [by split|done..|]).
    + right. split_and!; [done|by apply Qeq_bool_neq|by apply qlt_spec].
    + left. split; [done|]. right. unfold qlt in Hq. apply negb_false_iff in Hq.
      by apply Qle_bool_iff.
Qed.

(** A tick: the books are brought up to date; a heartbeat that is due is
    sent; and the last data is compared with the clock. *)
Lemma heartbeat_tick_spec rate s s' r :
  hb_heartbeat s <> 0 -> heartbeat_tick other_codec clock rate s = (s', r) ->
  let b := beat_state s in
  let due now := (hb_last_sent b + inject_Z (hb_heartbeat s) / inject_Z (if (rate <=? 0)%Z then 2 else rate) < now)%Q in
  same_books b s' /\ (hb_reading b <= hb_reading s' <= S (S (hb_reading b)))%nat /\
  (hb_reading s < hb_reading b <= hb_reading s + 3)%nat /\
  (exists i, (hb_reading s <= i < hb_reading b)%nat /\
    ((~ due (clock i) /\ hb_writer s' = hb_writer s /\ hb_last_sent s' = hb_last_sent b) \/
     (due (clock i) /\ beat s s') \/ send_failed s s' r)) /\
  (send_failed s s' r \/ exists j, (hb_reading b <= j <= S (hb_reading b))%nat /\
    ((r = Ok tt /\ ((hb_last_received b == 0)%Q \/ (clock j <= hb_last_received b + inject_Z (2 * hb_heartbeat s))%Q)) \/
     (r = too_many_missed /\ (hb_last_received b + inject_Z (2 * hb_heartbeat s) < clock j)%Q))).
Proof.
  intros Hh Ht b. rewrite heartbeat_tick_eq in Ht by done. fold b in Ht. cbv zeta.
  assert (hb_reading s < hb_reading b <= hb_reading s + 3)%nat as Hread.
  { unfold b, beat_state. cbn. repeat case_match; lia. }
  assert (forall s1, same_books b s1 -> hb_last_received s1 = hb_last_received b) as Hlr by (by intros ? []).
  apply st_bind_inv in Ht as [(s2 & [] & Hs & Hc)|Hbad].
  - apply beat_send_spec in Hs as (Hb & Hr & Hs). apply beat_check_spec in Hc as (Hb' & Hw & Hls & Hrd & Hc).
    rewrite (Hlr _ Hb) in Hc. split_and!.
    + destruct Hb, Hb'. split; congruence.
    + lia.
    + lia.
    + lia.
    + lia.
    + exists (pred (hb_reading b)). split; [lia|].
      destruct Hs as [(_ & Hd & Hw2 & Hls2)|[(_ & Hd & Hbt)|(_ & [? _])]]; [| |done].
      * left. split_and!; [done|by rewrite Hw, Hw2|congruence].
      * right. left. split; [done|]. unfold beat in *. by rewrite Hw.
    + right. exists (hb_reading s2). split; [lia|]. destruct Hc as [Hc|(? & _ & ?)]; [by left|by right].
  - assert (beat_send other_codec clock (if rate <=? 0 then 2 else rate) (hb_heartbeat s)
      (clock (pred (hb_reading b))) b = (s', r) /\ r <> Ok tt) as [Hs Hr]
      by (destruct Hbad as [(e & ? & ->)|[? ->]]; by split).
    apply beat_send_spec in Hs as (Hb & Hrd & Hs).
    assert (send_failed s s' r) as Hf by (by destruct Hs as [[? _]|[[? _]|[_ ?]]]).
    split_and!; [done|lia|lia|lia|lia| |by left]. exists (pred (hb_reading b)). split; [lia|]. by right; right.
Qed.

(** Time passes between two ticks, in which other frames are sent and
    received. *)
Record meanwhile s s' : Prop := Meanwhile {
  mw_heartbeat : hb_heartbeat s' = hb_heartbeat s;
  mw_prev_sent : hb_prev_sent s' = hb_prev_sent s;
  mw_prev_recv : hb_prev_recv s' = hb_prev_recv s;
  mw_last_sent : hb_last_sent s' = hb_last_sent s;
  mw_last_received : hb_last_received s' = hb_last_received s;
  mw_sent : w_bytes_sent (hb_writer s) <= w_bytes_sent (hb_writer s');
  mw_recv : hb_bytes_recv s <= hb_bytes_recv s';
  mw_reading : (hb_reading s <= hb_reading s')%nat;
}.

(** The life of the connection: ticks that return, and what is between. *)
Inductive life (rate : Z) : relation (hb_state W) :=
  | life_tick s s' : heartbeat_tick other_codec clock rate s = (s', Ok tt) -> life rate s s'
  | life_meanwhile s s' : meanwhile s s' -> life rate s s'.

(** After a tick at which [sent] and [recv] were the counts, as long as they
    are: the books are those of the tick. *)
Record books (heartbeat sent recv : Z) (last_sent last_received : Q) s : Prop := Books {
  bk_heartbeat : hb_heartbeat s = heartbeat;
  bk_sent : sent <= w_bytes_sent (hb_writer s);
  bk_recv : recv <= hb_bytes_recv s;
  bk_no_send : w_bytes_sent (hb_writer s) = sent -> hb_prev_sent s = Some sent /\ hb_last_sent s = last_sent;
  bk_silence : hb_bytes_recv s = recv -> hb_prev_recv s = Some recv /\ hb_last_received s = last_received;
}.

Lemma changed_same x : changed (Some x) x = false.
Proof. unfold changed. by rewrite Z.eqb_refl. Qed.

Lemma tick_sends rate s s' :
  hb_heartbeat s <> 0 -> heartbeat_tick other_codec clock rate s = (s', Ok tt) ->
  (hb_writer s' = hb_writer s /\ hb_last_sent s' = hb_last_sent (beat_state s)) \/ beat s s'.
Proof.
  intros Hh Ht. apply heartbeat_tick_spec in Ht as (_ & _ & _ & (i & _ & [(_ & ? & ?)|[[_ ?]|[? _]]]) & _);
    [by left|by right|done|done].
Qed.

Lemma tick_books rate s s' :
  hb_heartbeat s <> 0 -> heartbeat_tick other_codec clock rate s = (s', Ok tt) ->
  books (hb_heartbeat s) (w_bytes_sent (hb_writer s)) (hb_bytes_recv s)
    (hb_last_sent (beat_state s)) (hb_last_received (beat_state s)) s'.
Proof.
  intros Hh Ht. pose proof (tick_sends _ _ _ Hh Ht) as Hs.
  apply heartbeat_tick_spec in Ht as ([H1 H2 H3 H4 H5] & _); [|done]. cbn in H1, H2, H3, H4, H5.
  split; [done| |lia| |].
  - destruct Hs as [[-> _]|[_ ->]]; lia.
  - intros E. split; [done|]. destruct Hs as [[_ ?]|[_ E']]; [done|lia].
  - intros _. by split.
Qed.

Lemma life_books rate h m n ls lr s s' :
  h <> 0 -> life rate s s' -> books h m n ls lr s -> books h m n ls lr s'.
Proof.
  intros Hh [s0 s1 Ht|s0 s1 [E1 E2 E3 E4 E5 E6 E7 _]] [Hb Hm Hn Hs Hr].
  - rewrite <- Hb in Hh. pose proof (tick_books rate s0 s1 Hh Ht) as [H1 H2 H3 H4 H5]. split; [congruence|lia|lia| |].
    + intros E. assert (w_bytes_sent (hb_writer s0) = m) as E0 by lia. destruct (Hs E0) as [Hp <-].
      rewrite E0 in H4. destruct (H4 E) as [? ->]. split; [done|]. unfold beat_state. cbn.
      by rewrite Hp, E0, changed_same.
    + intros E. assert (hb_bytes_recv s0 = n) as E0 by lia. destruct (Hr E0) as [Hp <-].
      rewrite E0 in H5. destruct (H5 E) as [? ->]. split; [done|]. unfold beat_state. cbn.
      by rewrite Hp, E0, changed_same.
  - split; [congruence|lia|lia| |].
    + intros E. rewrite E2, E4. apply Hs. lia.
    + intros E. rewrite E3, E5. apply Hr. lia.
Qed.

Lemma lives_sent rate s s' :
  hb_heartbeat s <> 0 -> rtc (life rate) s s' ->
  w_bytes_sent (hb_writer s) <= w_bytes_sent (hb_writer s').
Proof.
  intros Hh H. induction H as [|s0 s1 s2 [? ? Ht|? ? [E _ _ _ _ Hm _ _]] _ IH]; [done|..].
  - pose proof (tick_books _ _ _ Hh Ht) as [E Hm _ _ _]. rewrite E in IH. specialize (IH Hh). lia.
  - rewrite E in IH. specialize (IH Hh). lia.
Qed.

Lemma lives_books rate h m n ls lr s s' :
  h <> 0 -> rtc (life rate) s s' -> books h m n ls lr s -> books h m n ls lr s'.
Proof. intros Hh. induction 1; [done|]. intros. by eauto using life_books. Qed.

(** C38: the contract of [heartbeat_tick] with heartbeats on.  A tick at which
    data has arrived since the last one, and which itself takes at most two
    intervals, returns, unless the heartbeat that it sends cannot be written.
    From then on the books tell silence from data and rest from sending, over
    any number of further ticks and whatever is between: as long as nothing
    arrives, a tick that is more than two intervals behind the last data raises
    [ConnectionForced], or the error of the heartbeat that it sends; and as long
    as nothing is sent, a tick that is more than [heartbeat / rate] seconds
    behind the last frame writes the eight octets of a heartbeat frame. *)
Theorem heartbeat_contract rate s s' r :
  hb_heartbeat s <> 0 -> heartbeat_tick other_codec clock rate s = (s', r) ->
  let interval := inject_Z (hb_heartbeat s) in
  (changed (hb_prev_recv s) (hb_bytes_recv s) = true ->
   (forall i j, (hb_reading s <= i <= j)%nat -> (j <= hb_reading s + 5)%nat -> (clock j <= clock i + 2 * interval)%Q) ->
   r = Ok tt \/ send_failed s s' r) /\
  (r = Ok tt ->
   forall s1 s2 r2, rtc (life rate) s' s1 -> heartbeat_tick other_codec clock rate s1 = (s2, r2) ->
   (hb_bytes_recv s1 = hb_bytes_recv s -> ~ (hb_last_received s' == 0)%Q ->
    (forall j, (hb_reading s1 <= j)%nat -> (hb_last_received s' + 2 * interval < clock j)%Q) ->
    r2 = too_many_missed \/ send_failed s1 s2 r2) /\
   (w_bytes_sent (hb_writer s1) = w_bytes_sent (hb_writer s) ->
    (forall j, (hb_reading s1 <= j)%nat ->
       (hb_last_sent s' + interval / inject_Z (if (rate <=? 0)%Z then 2 else rate) < clock j)%Q) ->
    beat s1 s2 \/ send_failed s1 s2 r2)).
Proof.
  intros Hh Ht interval.
  assert (inject_Z (2 * hb_heartbeat s) == 2 * interval)%Q as Hi by (unfold interval; by rewrite inject_Z_mult).
  split.
  - intros Hch Hclk. apply heartbeat_tick_spec in Ht as (_ & _ & Hr & _ & [?|(j & Hj & [[? _]|[_ Hlate]])]);
      [by right|by left| |done]. exfalso. revert Hlate. unfold beat_state at 1. cbn. rewrite Hch. rewrite Hi.
    unfold beat_state in Hr, Hj. cbn in Hr, Hj. rewrite Hch in Hr, Hj.
    set (k1 := if changed (hb_prev_sent s) _ then _ else _) in *.
    assert (hb_reading s <= k1)%nat by (subst k1; case_match; lia).
    intros Hlate. specialize (Hclk k1 j ltac:(lia) ltac:(lia)). lra.
  - intros -> s1 s2 r2 Hl Ht2. pose proof (tick_books _ _ _ Hh Ht) as Hb'.
    pose proof (heartbeat_tick_spec _ _ _ _ Hh Ht) as [[_ _ _ _ Elr] _].
    pose proof (lives_books _ _ _ _ _ _ _ _ Hh Hl Hb') as [E1 _ _ E2 E3].
    assert (hb_heartbeat s1 <> 0) as Hh1 by congruence.
    apply heartbeat_tick_spec in Ht2 as (_ & _ & Hr & (i & Hir & Hw) & Hc); [|done]. rewrite E1 in Hw, Hc.
    split.
    + intros E Hnz Hlate. destruct (E3 E) as [Hp Hlr]. destruct Hc as [?|(j & Hj & Hc)]; [by right|].
      assert (hb_last_received (beat_state s1) = hb_last_received s') as Eb.
      { unfold beat_state at 1. cbn. by rewrite Hp, E, changed_same, Hlr, Elr. }
      rewrite Eb in Hc. destruct Hc as [[_ [?|Hle]]|[-> _]]; [done| |by left].
      specialize (Hlate j ltac:(lia)). rewrite Hi in Hle. lra.
    + intros E Hdue. destruct (E2 E) as [Hp Hls].
      assert (hb_last_sent (beat_state s1) = hb_last_sent s') as Eb.
      { unfold beat_state at 1. cbn. rewrite Hp, E, changed_same, Hls.
        destruct (tick_sends _ _ _ Hh Ht) as [[_ ->]|[_ Hn]]; [done|].
        pose proof (lives_sent rate s' s1 ltac:(by rewrite (bk_heartbeat _ _ _ _ _ _ Hb')) Hl). lia. }
      rewrite Eb in Hw. destruct Hw as [(Hn & _)|[[_ ?]|?]]; [|by left|by right].
      destruct Hn. apply Hdue. lia.
Qed.
End heartbeat_properties.

(** Data arrives before the first tick, with an interval of ten seconds; the
    second tick is a hundred seconds later, and nothing came. *)
Definition demo_clock (k : nat) : Q := inject_Z (Z.of_nat k + if (k <? 6)%nat then 100 else 200).

Definition demo_hb : hb_state bytes :=
  HbState (Writer [] (replicate 20 (byte_of_Z 0)) 3) 4096 10 7 (Some 3) (Some 5) 50 60 0.

Definition demo_tick (s : hb_state bytes) : hb_state bytes * py unit := heartbeat_tick no_codec demo_clock 2 s.

(** Two readings later. *)
Definition demo_later (s : hb_state bytes) : hb_state bytes :=
  HbState (hb_writer s) (hb_frame_max s) (hb_heartbeat s) (hb_bytes_recv s) (hb_prev_sent s)
    (hb_prev_recv s) (hb_last_sent s) (hb_last_received s) (2 + hb_reading s).

Lemma heartbeat_contract_witness :
  let '(s', r) := demo_tick demo_hb in
  let '(s2, r2) := demo_tick (demo_later s') in
  (r = Ok tt \/ send_failed no_codec demo_hb s' r) /\
  (r2 = too_many_missed \/ send_failed no_codec (demo_later s') s2 r2).
Proof.
  destruct (demo_tick demo_hb) as [s' r] eqn:Ht. destruct (demo_tick (demo_later s')) as [s2 r2] eqn:Ht2.
  destruct (heartbeat_contract no_codec demo_clock 2 demo_hb s' r ltac:(done) Ht) as [H1 H2]. split.
  - apply H1; [done|]. intros i j Hij Hj. unfold demo_clock. cbn in Hj.
    rewrite !(proj2 (Nat.ltb_lt _ _)) by (cbn in *; lia). cbn in *. unfold Qle, Qplus, inject_Z. cbn. lia.
  - vm_compute in Ht. injection Ht as <- <-.
    destruct (H2 eq_refl _ s2 r2 (rtc_once _ _ (life_meanwhile _ _ _ _ (demo_later _) ltac:(split; cbn; done || lia))) Ht2)
      as [H _]. apply H; [done|done|].
    intros j Hj. cbn in Hj. unfold demo_clock. rewrite (proj2 (Nat.ltb_ge _ _)) by lia.
    unfold Qlt, Qplus, inject_Z. cbn. lia.
Defined.

Example demo_silence :
  (demo_tick demo_hb).2 = Ok tt /\ (demo_tick (demo_later (demo_tick demo_hb).1)).2 = too_many_missed.
Proof. by vm_compute. Qed.
