(* ===== verification/Rpc.v ===== *)
(** * The methods a client sends ([amqp/channel.py], [amqp/connection.py])

    Every operation of a channel, and every message of the connection, ends in
    one [send_method]: a signature, a format, the arguments and the methods to
    wait for.  Here each is the function from its parameters to that request.
    The tables [_METHODS] of the two classes, which say how incoming methods
    are read, follow. *)

From S2P Require Import Prelude Exceptions Struct Values Table Codec Content.
From S2P Require Spec.

Open Scope Z_scope.

(** The parameters of [send_method]. *)
Record request : Type := Request {
  rq_sig : method_sig;
  rq_format : option bytes;
  rq_args : list value;
  rq_content : option message;
  rq_wait : list method_sig;
}.

(** [wait=None if nowait else reply]. *)
Definition unless (nowait : value) (reply : method_sig) : list method_sig :=
  if truthy nowait then [] else [reply].

(** ** Requests *)

(** Channel.flow *)
Definition flow (active : value) : request :=
  Request Spec.Channel.Flow (Some (bytes_of "b"))
    [active]
    None [Spec.Channel.FlowOk].

(** Channel._x_flow_ok *)
Definition x_flow_ok (active : value) : request :=
  Request Spec.Channel.FlowOk (Some (bytes_of "b"))
    [active]
    None [].

(** Channel.open *)
Definition open_channel : request :=
  Request Spec.Channel.Open (Some (bytes_of "s"))
    [VStr []]
    None [Spec.Channel.OpenOk].

(** Channel.close *)
Definition close_channel (reply_code reply_text class_id method_id : value) : request :=
  Request Spec.Channel.Close (Some (bytes_of "BsBB"))
    [reply_code; reply_text; class_id; method_id]
    None [Spec.Channel.CloseOk].

Definition exchange_declare (exchange type_ passive durable auto_delete nowait arguments : value) : request :=
  Request Spec.Exchange.Declare_ (Some (bytes_of "BssbbbbbF"))
    [VInt 0; exchange; type_; passive; durable; auto_delete; VBool false; nowait; arguments]
    None (unless nowait Spec.Exchange.DeclareOk).

Definition exchange_delete (exchange if_unused nowait : value) : request :=
  Request Spec.Exchange.Delete (Some (bytes_of "Bsbb"))
    [VInt 0; exchange; if_unused; nowait]
    None (unless nowait Spec.Exchange.DeleteOk).

Definition exchange_bind (destination source routing_key nowait arguments : value) : request :=
  Request Spec.Exchange.Bind (Some (bytes_of "BsssbF"))
    [VInt 0; destination; source; routing_key; nowait; arguments]
    None (unless nowait Spec.Exchange.BindOk).

Definition exchange_unbind (destination source routing_key nowait arguments : value) : request :=
  Request Spec.Exchange.Unbind (Some (bytes_of "BsssbF"))
    [VInt 0; destination; source; routing_key; nowait; arguments]
    None (unless nowait Spec.Exchange.UnbindOk).

Definition queue_bind (queue exchange routing_key nowait arguments : value) : request :=
  Request Spec.Queue.Bind (Some (bytes_of "BsssbF"))
    [VInt 0; queue; exchange; routing_key; nowait; arguments]
    None (unless nowait Spec.Queue.BindOk).

Definition queue_unbind (queue exchange routing_key nowait arguments : value) : request :=
  Request Spec.Queue.Unbind (Some (bytes_of "BsssF"))
    [VInt 0; queue; exchange; routing_key; arguments]
    None (unless nowait Spec.Queue.UnbindOk).

Definition queue_declare (queue passive durable exclusive auto_delete nowait arguments : value) : request :=
  Request Spec.Queue.Declare_ (Some (bytes_of "BsbbbbbF"))
    [VInt 0; queue; passive; durable; exclusive; auto_delete; nowait; arguments]
    None (unless nowait Spec.Queue.DeclareOk).

Definition queue_delete (queue if_unused if_empty nowait : value) : request :=
  Request Spec.Queue.Delete (Some (bytes_of "Bsbbb"))
    [VInt 0; queue; if_unused; if_empty; nowait]
    None (unless nowait Spec.Queue.DeleteOk).

Definition queue_purge (queue nowait : value) : request :=
  Request Spec.Queue.Purge (Some (bytes_of "Bsb"))
    [VInt 0; queue; nowait]
    None (unless nowait Spec.Queue.PurgeOk).

Definition basic_ack (delivery_tag multiple : value) : request :=
  Request Spec.Basic.Ack (Some (bytes_of "Lb"))
    [delivery_tag; multiple]
    None [].

Definition basic_cancel (consumer_tag nowait : value) : request :=
  Request Spec.Basic.Cancel (Some (bytes_of "sb"))
    [consumer_tag; nowait]
    None (unless nowait Spec.Basic.CancelOk).

Definition basic_consume (queue consumer_tag no_local no_ack exclusive nowait arguments : value) : request :=
  Request Spec.Basic.Consume (Some (bytes_of "BssbbbbF"))
    [VInt 0; queue; consumer_tag; no_local; no_ack; exclusive; nowait; arguments]
    None (unless nowait Spec.Basic.ConsumeOk).

Definition basic_get (queue no_ack : value) : request :=
  Request Spec.Basic.Get (Some (bytes_of "Bsb"))
    [VInt 0; queue; no_ack]
    None [Spec.Basic.GetOk; Spec.Basic.GetEmpty].

(** Channel._basic_publish *)
Definition basic_publish (exchange routing_key mandatory immediate : value) (msg : message) : request :=
  Request Spec.Basic.Publish (Some (bytes_of "Bssbb"))
    [VInt 0; exchange; routing_key; mandatory; immediate]
    (Some msg) [].

Definition basic_qos (prefetch_size prefetch_count a_global : value) : request :=
  Request Spec.Basic.Qos (Some (bytes_of "lBb"))
    [prefetch_size; prefetch_count; a_global]
    None [Spec.Basic.QosOk].

Definition basic_recover (requeue : value) : request :=
  Request Spec.Basic.Recover (Some (bytes_of "b"))
    [requeue]
    None [].

Definition basic_recover_async (requeue : value) : request :=
  Request Spec.Basic.RecoverAsync (Some (bytes_of "b"))
    [requeue]
    None [].

Definition basic_reject (delivery_tag requeue : value) : request :=
  Request Spec.Basic.Reject (Some (bytes_of "Lb"))
    [delivery_tag; requeue]
    None [].

Definition tx_commit : request :=
  Request Spec.Tx.Commit None
    []
    None [Spec.Tx.CommitOk].

Definition tx_rollback : request :=
  Request Spec.Tx.Rollback None
    []
    None [Spec.Tx.RollbackOk].

Definition tx_select : request :=
  Request Spec.Tx.Select None
    []
    None [Spec.Tx.SelectOk].

Definition confirm_select (nowait : value) : request :=
  Request Spec.Confirm.Select (Some (bytes_of "b"))
    [nowait]
    None (unless nowait Spec.Confirm.SelectOk).

(** the reply in Channel._on_close *)
Definition channel_close_ok : request :=
  Request Spec.Channel.CloseOk None
    []
    None [].

(** the reply in Connection._on_start *)
Definition start_ok (client_properties mechanism_ login_response locale : value) : request :=
  Request Spec.Connection.StartOk (Some (bytes_of "FsSs"))
    [client_properties; mechanism_; login_response; locale]
    None [].

(** the reply in Connection._on_tune *)
Definition tune_ok (channel_max frame_max heartbeat : value) : request :=
  Request Spec.Connection.TuneOk (Some (bytes_of "BlB"))
    [channel_max; frame_max; heartbeat]
    None [].

(** Connection._on_tune_sent *)
Definition open_connection (virtual_host : value) : request :=
  Request Spec.Connection.Open (Some (bytes_of "ssb"))
    [virtual_host; VStr []; VBool false]
    None [].

(** Connection.close *)
Definition close_connection (reply_code reply_text class_id method_id : value) : request :=
  Request Spec.Connection.Close (Some (bytes_of "BsBB"))
    [reply_code; reply_text; class_id; method_id]
    None [Spec.Connection.CloseOk].

(** Connection._x_close_ok *)
Definition x_close_ok : request :=
  Request Spec.Connection.CloseOk None
    []
    None [].

(** The requests of the library. *)
Inductive client_request : request -> Prop :=
  | r_flow active : client_request (flow active)
  | r_x_flow_ok active : client_request (x_flow_ok active)
  | r_open_channel : client_request open_channel
  | r_close_channel reply_code reply_text class_id method_id : client_request (close_channel reply_code reply_text class_id method_id)
  | r_exchange_declare exchange type_ passive durable auto_delete nowait arguments : client_request (exchange_declare exchange type_ passive durable auto_delete nowait arguments)
  | r_exchange_delete exchange if_unused nowait : client_request (exchange_delete exchange if_unused nowait)
  | r_exchange_bind destination source routing_key nowait arguments : client_request (exchange_bind destination source routing_key nowait arguments)
  | r_exchange_unbind destination source routing_key nowait arguments : client_request (exchange_unbind destination source routing_key nowait arguments)
  | r_queue_bind queue exchange routing_key nowait arguments : client_request (queue_bind queue exchange routing_key nowait arguments)
  | r_queue_unbind queue exchange routing_key nowait arguments : client_request (queue_unbind queue exchange routing_key nowait arguments)
  | r_queue_declare queue passive durable exclusive auto_delete nowait arguments : client_request (queue_declare queue passive durable exclusive auto_delete nowait arguments)
  | r_queue_delete queue if_unused if_empty nowait : client_request (queue_delete queue if_unused if_empty nowait)
  | r_queue_purge queue nowait : client_request (queue_purge queue nowait)
  | r_basic_ack delivery_tag multiple : client_request (basic_ack delivery_tag multiple)
  | r_basic_cancel consumer_tag nowait : client_request (basic_cancel consumer_tag nowait)
  | r_basic_consume queue consumer_tag no_local no_ack exclusive nowait arguments : client_request (basic_consume queue consumer_tag no_local no_ack exclusive nowait arguments)
  | r_basic_get queue no_ack : client_request (basic_get queue no_ack)
  | r_basic_publish exchange routing_key mandatory immediate msg : client_request (basic_publish exchange routing_key mandatory immediate msg)
  | r_basic_qos prefetch_size prefetch_count a_global : client_request (basic_qos prefetch_size prefetch_count a_global)
  | r_basic_recover requeue : client_request (basic_recover requeue)
  | r_basic_recover_async requeue : client_request (basic_recover_async requeue)
  | r_basic_reject delivery_tag requeue : client_request (basic_reject delivery_tag requeue)
  | r_tx_commit : client_request tx_commit
  | r_tx_rollback : client_request tx_rollback
  | r_tx_select : client_request tx_select
  | r_confirm_select nowait : client_request (confirm_select nowait)
  | r_channel_close_ok : client_request channel_close_ok
  | r_start_ok client_properties mechanism_ login_response locale : client_request (start_ok client_properties mechanism_ login_response locale)
  | r_tune_ok channel_max frame_max heartbeat : client_request (tune_ok channel_max frame_max heartbeat)
  | r_open_connection virtual_host : client_request (open_connection virtual_host)
  | r_close_connection reply_code reply_text class_id method_id : client_request (close_connection reply_code reply_text class_id method_id)
  | r_x_close_ok : client_request x_close_ok.

(** ** Incoming methods *)

(** [Connection._METHODS]. *)
Definition CONNECTION_METHODS : list Spec.method_t :=
  [ Spec.method Spec.Connection.Start (Some "ooFSS") false;
    Spec.method Spec.Connection.OpenOk None false;
    Spec.method Spec.Connection.Secure (Some "s") false;
    Spec.method Spec.Connection.Tune (Some "BlB") false;
    Spec.method Spec.Connection.Close (Some "BsBB") false;
    Spec.method Spec.Connection.Blocked None false;
    Spec.method Spec.Connection.Unblocked None false;
    Spec.method Spec.Connection.CloseOk None false ].

(** [Channel._METHODS]. *)
Definition CHANNEL_METHODS : list Spec.method_t :=
  [ Spec.method Spec.Channel.Close (Some "BsBB") false;
    Spec.method Spec.Channel.CloseOk None false;
    Spec.method Spec.Channel.Flow (Some "b") false;
    Spec.method Spec.Channel.FlowOk (Some "b") false;
    Spec.method Spec.Channel.OpenOk None false;
    Spec.method Spec.Exchange.DeclareOk None false;
    Spec.method Spec.Exchange.DeleteOk None false;
    Spec.method Spec.Exchange.BindOk None false;
    Spec.method Spec.Exchange.UnbindOk None false;
    Spec.method Spec.Queue.BindOk None false;
    Spec.method Spec.Queue.UnbindOk None false;
    Spec.method Spec.Queue.DeclareOk (Some "sll") false;
    Spec.method Spec.Queue.DeleteOk (Some "l") false;
    Spec.method Spec.Queue.PurgeOk (Some "l") false;
    Spec.method Spec.Basic.Cancel (Some "s") false;
    Spec.method Spec.Basic.CancelOk (Some "s") false;
    Spec.method Spec.Basic.ConsumeOk (Some "s") false;
    Spec.method Spec.Basic.Deliver (Some "sLbss") true;
    Spec.method Spec.Basic.GetEmpty (Some "s") false;
    Spec.method Spec.Basic.GetOk (Some "Lbssl") true;
    Spec.method Spec.Basic.QosOk None false;
    Spec.method Spec.Basic.RecoverOk None false;
    Spec.method Spec.Basic.Return (Some "Bsss") true;
    Spec.method Spec.Tx.CommitOk None false;
    Spec.method Spec.Tx.RollbackOk None false;
    Spec.method Spec.Tx.SelectOk None false;
    Spec.method Spec.Confirm.SelectOk None false;
    Spec.method Spec.Basic.Ack (Some "Lb") false;
    Spec.method Spec.Basic.Nack (Some "Lb") false ].

(** [_METHODS[method_sig]]. *)
Definition find_method (methods : list Spec.method_t) (sig : method_sig) : option Spec.method_t :=
  list_find (fun m => Spec.m_sig m = sig) methods ≫= fun p => Some p.2.

(** The argument bytes that [send_method] passes to the frame writer. *)
Definition request_bytes (r : request) : py bytes :=
  match rq_format r with Some f => dumps f (rq_args r) | None => mret [] end.

(** ** Properties *)

(** A request whose arguments match its format. *)
Definition format_ok (r : request) : Prop :=
  match rq_format r with
  | Some f => length f = length (rq_args r) /\ bits_safe false f = true
  | None => rq_args r = []
  end.

Lemma client_request_format r : client_request r -> format_ok r.
Proof. by destruct 1. Qed.

(** Every reply a request of a channel waits for is a method of the same
    class that the channel can dispatch, so it is never an unknown method; and
    a [nowait] request waits for nothing. *)
Theorem replies_known r m :
  client_request r -> m ∈ rq_wait r ->
  m.1 = (rq_sig r).1 /\
  is_Some (find_method (if m.1 =? Spec.Connection.CLASS_ID then CONNECTION_METHODS
                        else CHANNEL_METHODS) m).
Proof.
  destruct 1; cbn; unfold unless; intros Hm;
    try match type of Hm with context [truthy ?x] => destruct (truthy x) end;
    repeat (apply elem_of_cons in Hm as [-> | Hm]; [split; [reflexivity|vm_compute; eexists; reflexivity]|]);
    by apply elem_of_nil in Hm.
Qed.

Lemma replies_known_witness :
  Spec.Basic.GetEmpty.1 = 60 /\ is_Some (find_method CHANNEL_METHODS Spec.Basic.GetEmpty).
Proof.
  apply (replies_known (basic_get (VStr []) (VBool false)) Spec.Basic.GetEmpty);
    [constructor|right; left].
Defined.
