(* ===== verification/Protocol.v ===== *)
(** * The requests, as the peer understands them

    The methods of AMQP 0-9-1 that a client sends, by their numbers, with the
    names and the types of their fields in the order of the protocol; a peer
    that reads a payload by this table; and the operations of the library with
    their parameters under the names of the protocol.  What the peer reads
    under a name is what the caller passed under it. *)

From S2P Require Import Prelude Exceptions Struct Utf8 Values Table Codec Content Framing Rpc.
From S2P Require Spec.

Open Scope Z_scope.

(** ** The protocol *)

(** The types of fields, as the letters of [loads]. *)
Definition bit : byte := "b"%byte.
Definition short : byte := "B"%byte.
Definition long : byte := "l"%byte.
Definition longlong : byte := "L"%byte.
Definition shortstr : byte := "s"%byte.
Definition longstr : byte := "S"%byte.
Definition table : byte := "F"%byte.

Abbreviation fields := (list (string * byte)).

(** The methods of the protocol (and the extensions of RabbitMQ) that a client
    sends: class and method id, name, fields. *)
Definition amqp : list (Z * Z * (string * fields)) :=
  let close := [("reply-code", short); ("reply-text", shortstr); ("class-id", short); ("method-id", short)] in
  let bind := [("reserved-1", short); ("destination", shortstr); ("source", shortstr);
               ("routing-key", shortstr); ("no-wait", bit); ("arguments", table)] in
  [ (10, 11, ("connection.start-ok", [("client-properties", table); ("mechanism", shortstr);
       ("response", longstr); ("locale", shortstr)]));
    (10, 31, ("connection.tune-ok", [("channel-max", short); ("frame-max", long); ("heartbeat", short)]));
    (10, 40, ("connection.open", [("virtual-host", shortstr); ("reserved-1", shortstr); ("reserved-2", bit)]));
    (10, 50, ("connection.close", close));
    (10, 51, ("connection.close-ok", []));
    (20, 10, ("channel.open", [("reserved-1", shortstr)]));
    (20, 20, ("channel.flow", [("active", bit)]));
    (20, 21, ("channel.flow-ok", [("active", bit)]));
    (20, 40, ("channel.close", close));
    (20, 41, ("channel.close-ok", []));
    (40, 10, ("exchange.declare", [("reserved-1", short); ("exchange", shortstr); ("type", shortstr);
       ("passive", bit); ("durable", bit); ("auto-delete", bit); ("internal", bit); ("no-wait", bit);
       ("arguments", table)]));
    (40, 20, ("exchange.delete", [("reserved-1", short); ("exchange", shortstr); ("if-unused", bit); ("no-wait", bit)]));
    (40, 30, ("exchange.bind", bind));
    (40, 40, ("exchange.unbind", bind));
    (50, 10, ("queue.declare", [("reserved-1", short); ("queue", shortstr); ("passive", bit); ("durable", bit);
       ("exclusive", bit); ("auto-delete", bit); ("no-wait", bit); ("arguments", table)]));
    (50, 20, ("queue.bind", [("reserved-1", short); ("queue", shortstr); ("exchange", shortstr);
       ("routing-key", shortstr); ("no-wait", bit); ("arguments", table)]));
    (50, 30, ("queue.purge", [("reserved-1", short); ("queue", shortstr); ("no-wait", bit)]));
    (50, 40, ("queue.delete", [("reserved-1", short); ("queue", shortstr); ("if-unused", bit); ("if-empty", bit);
       ("no-wait", bit)]));
    (50, 50, ("queue.unbind", [("reserved-1", short); ("queue", shortstr); ("exchange", shortstr);
       ("routing-key", shortstr); ("arguments", table)]));
    (60, 10, ("basic.qos", [("prefetch-size", long); ("prefetch-count", short); ("global", bit)]));
    (60, 20, ("basic.consume", [("reserved-1", short); ("queue", shortstr); ("consumer-tag", shortstr);
       ("no-local", bit); ("no-ack", bit); ("exclusive", bit); ("no-wait", bit); ("arguments", table)]));
    (60, 30, ("basic.cancel", [("consumer-tag", shortstr); ("no-wait", bit)]));
    (60, 40, ("basic.publish", [("reserved-1", short); ("exchange", shortstr); ("routing-key", shortstr);
       ("mandatory", bit); ("immediate", bit)]));
    (60, 70, ("basic.get", [("reserved-1", short); ("queue", shortstr); ("no-ack", bit)]));
    (60, 80, ("basic.ack", [("delivery-tag", longlong); ("multiple", bit)]));
    (60, 90, ("basic.reject", [("delivery-tag", longlong); ("requeue", bit)]));
    (60, 100, ("basic.recover-async", [("requeue", bit)]));
    (60, 110, ("basic.recover", [("requeue", bit)]));
    (85, 10, ("confirm.select", [("no-wait", bit)]));
    (90, 10, ("tx.select", []));
    (90, 20, ("tx.commit", []));
    (90, 30, ("tx.rollback", [])) ].

Definition amqp_method (class_id method_id : Z) : option (string * fields) :=
  list_find (fun m => m.1 = (class_id, method_id)) amqp ≫= fun x => Some x.2.2.

(** The peer: the name of the method and the value of each field; every byte of
    the payload belongs to one. *)
Definition peer_reads (payload : bytes) : py (string * list (string * value)) :=
  class_id ← unpack_u 2 payload 0;
  method_id ← unpack_u 2 payload 2;
  '(name, fs) ← of_option KeyError (amqp_method class_id method_id);
  '(values, offset) ← loads (fs.*2) payload 4;
  if offset =? zlen payload then mret (name, zip (fs.*1) values) else Raise ValueError.

(** ** The operations *)

(** What the library does when the user, or the protocol, asks for it. *)
Inductive operation : Type :=
  | OStartOk (client_properties mechanism login_response locale : value)
  | OTuneOk (channel_max frame_max heartbeat : value)
  | OOpenConnection (virtual_host : value)
  | OCloseConnection (reply_code reply_text class_id method_id : value)
  | OConnectionCloseOk
  | OOpenChannel
  | OFlow (active : value)
  | OFlowOk (active : value)
  | OCloseChannel (reply_code reply_text class_id method_id : value)
  | OChannelCloseOk
  | OExchangeDeclare (exchange type_ passive durable auto_delete nowait arguments : value)
  | OExchangeDelete (exchange if_unused nowait : value)
  | OExchangeBind (destination source routing_key nowait arguments : value)
  | OExchangeUnbind (destination source routing_key nowait arguments : value)
  | OQueueDeclare (queue passive durable exclusive auto_delete nowait arguments : value)
  | OQueueBind (queue exchange routing_key nowait arguments : value)
  | OQueuePurge (queue nowait : value)
  | OQueueDelete (queue if_unused if_empty nowait : value)
  | OQueueUnbind (queue exchange routing_key nowait arguments : value)
  | OBasicQos (prefetch_size prefetch_count a_global : value)
  | OBasicConsume (queue consumer_tag no_local no_ack exclusive nowait arguments : value)
  | OBasicCancel (consumer_tag nowait : value)
  | OBasicPublish (msg : message) (exchange routing_key mandatory immediate : value)
  | OBasicGet (queue no_ack : value)
  | OBasicAck (delivery_tag multiple : value)
  | OBasicReject (delivery_tag requeue : value)
  | OBasicRecoverAsync (requeue : value)
  | OBasicRecover (requeue : value)
  | OConfirmSelect (nowait : value)
  | OTxSelect
  | OTxCommit
  | OTxRollback.

Definition request_of (op : operation) : request :=
  match op with
  | OStartOk p m r l => start_ok p m r l
  | OTuneOk c f h => tune_ok c f h
  | OOpenConnection v => open_connection v
  | OCloseConnection c t k m => close_connection c t k m
  | OConnectionCloseOk => x_close_ok
  | OOpenChannel => open_channel
  | OFlow a => flow a
  | OFlowOk a => x_flow_ok a
  | OCloseChannel c t k m => close_channel c t k m
  | OChannelCloseOk => channel_close_ok
  | OExchangeDeclare e t p d a n args => exchange_declare e t p d a n args
  | OExchangeDelete e u n => exchange_delete e u n
  | OExchangeBind d s k n args => exchange_bind d s k n args
  | OExchangeUnbind d s k n args => exchange_unbind d s k n args
  | OQueueDeclare q p d e a n args => queue_declare q p d e a n args
  | OQueueBind q e k n args => queue_bind q e k n args
  | OQueuePurge q n => queue_purge q n
  | OQueueDelete q u e n => queue_delete q u e n
  | OQueueUnbind q e k n args => queue_unbind q e k n args
  | OBasicQos s c g => basic_qos s c g
  | OBasicConsume q t nl na e n args => basic_consume q t nl na e n args
  | OBasicCancel t n => basic_cancel t n
  | OBasicPublish msg e k m i => basic_publish e k m i msg
  | OBasicGet q n => basic_get q n
  | OBasicAck t m => basic_ack t m
  | OBasicReject t r => basic_reject t r
  | OBasicRecoverAsync r => basic_recover_async r
  | OBasicRecover r => basic_recover r
  | OConfirmSelect n => confirm_select n
  | OTxSelect => tx_select
  | OTxCommit => tx_commit
  | OTxRollback => tx_rollback
  end.

(** What the caller means: the method, and each parameter under the name of
    its field, in the order of the parameters; then the fields that the caller
    has no say in. *)
Definition meaning (op : operation) : string * list (string * value) :=
  let ticket := ("reserved-1", VInt 0) in
  let closing name c t k m :=
    (name, [("reply-code", c); ("reply-text", t); ("class-id", k); ("method-id", m)]) in
  let binding name d s k n args :=
    (name, [("destination", d); ("source", s); ("routing-key", k); ("no-wait", n); ("arguments", args); ticket]) in
  match op with
  | OStartOk p m r l =>
      ("connection.start-ok", [("client-properties", p); ("mechanism", m); ("response", r); ("locale", l)])
  | OTuneOk c f h => ("connection.tune-ok", [("channel-max", c); ("frame-max", f); ("heartbeat", h)])
  | OOpenConnection v =>
      ("connection.open", [("virtual-host", v); ("reserved-1", VStr []); ("reserved-2", VBool false)])
  | OCloseConnection c t k m => closing "connection.close" c t k m
  | OConnectionCloseOk => ("connection.close-ok", [])
  | OOpenChannel => ("channel.open", [("reserved-1", VStr [])])
  | OFlow a => ("channel.flow", [("active", a)])
  | OFlowOk a => ("channel.flow-ok", [("active", a)])
  | OCloseChannel c t k m => closing "channel.close" c t k m
  | OChannelCloseOk => ("channel.close-ok", [])
  | OExchangeDeclare e t p d a n args =>
      ("exchange.declare", [("exchange", e); ("type", t); ("passive", p); ("durable", d); ("auto-delete", a);
         ("no-wait", n); ("arguments", args); ("internal", VBool false); ticket])
  | OExchangeDelete e u n => ("exchange.delete", [("exchange", e); ("if-unused", u); ("no-wait", n); ticket])
  | OExchangeBind d s k n args => binding "exchange.bind" d s k n args
  | OExchangeUnbind d s k n args => binding "exchange.unbind" d s k n args
  | OQueueDeclare q p d e a n args =>
      ("queue.declare", [("queue", q); ("passive", p); ("durable", d); ("exclusive", e); ("auto-delete", a);
         ("no-wait", n); ("arguments", args); ticket])
  | OQueueBind q e k n args =>
      ("queue.bind", [("queue", q); ("exchange", e); ("routing-key", k); ("no-wait", n); ("arguments", args); ticket])
  | OQueuePurge q n => ("queue.purge", [("queue", q); ("no-wait", n); ticket])
  | OQueueDelete q u e n =>
      ("queue.delete", [("queue", q); ("if-unused", u); ("if-empty", e); ("no-wait", n); ticket])
  (* queue.unbind has no no-wait *)
  | OQueueUnbind q e k _ args =>
      ("queue.unbind", [("queue", q); ("exchange", e); ("routing-key", k); ("arguments", args); ticket])
  | OBasicQos s c g => ("basic.qos", [("prefetch-size", s); ("prefetch-count", c); ("global", g)])
  | OBasicConsume q t nl na e n args =>
      ("basic.consume", [("queue", q); ("consumer-tag", t); ("no-local", nl); ("no-ack", na); ("exclusive", e);
         ("no-wait", n); ("arguments", args); ticket])
  | OBasicCancel t n => ("basic.cancel", [("consumer-tag", t); ("no-wait", n)])
  | OBasicPublish _ e k m i =>
      ("basic.publish", [("exchange", e); ("routing-key", k); ("mandatory", m); ("immediate", i); ticket])
  | OBasicGet q n => ("basic.get", [("queue", q); ("no-ack", n); ticket])
  | OBasicAck t m => ("basic.ack", [("delivery-tag", t); ("multiple", m)])
  | OBasicReject t r => ("basic.reject", [("delivery-tag", t); ("requeue", r)])
  | OBasicRecoverAsync r => ("basic.recover-async", [("requeue", r)])
  | OBasicRecover r => ("basic.recover", [("requeue", r)])
  | OConfirmSelect n => ("confirm.select", [("no-wait", n)])
  | OTxSelect => ("tx.select", [])
  | OTxCommit => ("tx.commit", [])
  | OTxRollback => ("tx.rollback", [])
  end.

(** The operations are all of the requests. *)
Lemma client_request_operation r : client_request r <-> exists op, r = request_of op.
Proof.
  split.
  - destruct 1;
      [eexists (OFlow _)|eexists (OFlowOk _)|eexists OOpenChannel|eexists (OCloseChannel _ _ _ _)
      |eexists (OExchangeDeclare _ _ _ _ _ _ _)|eexists (OExchangeDelete _ _ _)|eexists (OExchangeBind _ _ _ _ _)
      |eexists (OExchangeUnbind _ _ _ _ _)|eexists (OQueueBind _ _ _ _ _)|eexists (OQueueUnbind _ _ _ _ _)
      |eexists (OQueueDeclare _ _ _ _ _ _ _)|eexists (OQueueDelete _ _ _ _)|eexists (OQueuePurge _ _)
      |eexists (OBasicAck _ _)|eexists (OBasicCancel _ _)|eexists (OBasicConsume _ _ _ _ _ _ _)
      |eexists (OBasicGet _ _)|eexists (OBasicPublish _ _ _ _ _)|eexists (OBasicQos _ _ _)|eexists (OBasicRecover _)
      |eexists (OBasicRecoverAsync _)|eexists (OBasicReject _ _)|eexists OTxCommit|eexists OTxRollback
      |eexists OTxSelect|eexists (OConfirmSelect _)|eexists OChannelCloseOk|eexists (OStartOk _ _ _ _)
      |eexists (OTuneOk _ _ _)|eexists (OOpenConnection _)|eexists (OCloseConnection _ _ _ _)
      |eexists OConnectionCloseOk]; reflexivity.
  - intros [op ->]. destruct op; constructor.
Qed.

(** ** The peer understands the caller *)

(** [w] is what the type of the field [n] transmits of [v]. *)
Definition transmits (fs : fields) (n : string) (v w : value) : Prop :=
  exists p f, (n, p) ∈ fs /\ fmt_of p = Some f /\ wire_arg f v = Ok w.

Lemma wire_args_names (fs : fields) args ws n v :
  wire_args (fs.*2) args = Ok ws -> (n, v) ∈ zip (fs.*1) args ->
  exists w, (n, w) ∈ zip (fs.*1) ws /\ transmits fs n v w.
Proof.
  revert args ws. induction fs as [|[n0 p] fs IH]; intros [|a args] ws Hw Hin; cbn in *; try done.
  { by apply elem_of_nil in Hin. }
  apply bind_ok_inv in Hw as (f & Hf & Hw). apply bind_ok_inv in Hw as (w & Hv & Hw).
  apply bind_ok_inv in Hw as (ws' & Hws & Hw). injection Hw as <-.
  apply of_option_ok in Hf. apply elem_of_cons in Hin as [[= -> ->]|Hin].
  - exists w. split; [left|]. exists p, f. split_and!; [left|done|done].
  - destruct (IH _ _ Hws Hin) as (w' & Hin' & p' & f' & ? & ? & ?). exists w'. split; [by right|].
    exists p', f'. split_and!; [by right|done|done].
Qed.

(** The fields of the request of an operation: their names are those of the
    protocol, and each parameter stands where its name does. *)
Lemma request_fields op :
  exists fs, let r := request_of op in
    amqp_method (rq_sig r).1 (rq_sig r).2 = Some ((meaning op).1, fs) /\
    default [] (rq_format r) = fs.*2 /\ length (rq_args r) = length fs /\
    NoDup (fs.*1) /\ length (meaning op).2 = length fs /\
    Forall (fun x => x ∈ zip (fs.*1) (rq_args r)) (meaning op).2.
Proof.
  destruct op; eexists; cbn [request_of meaning fst snd];
    (split; [vm_compute; reflexivity|]);
    (split; [reflexivity|split; [reflexivity|]]);
    (split; [apply (bool_decide_unpack _); vm_compute; reflexivity|]);
    (split; [reflexivity|]);
    repeat (apply Forall_cons; split; [cbn; repeat first [left; reflexivity|right]|]); apply Forall_nil_2.
Qed.

(** The payload of the method frame of a request. *)
Definition request_payload (r : request) : py bytes :=
  args ← request_bytes r; method_frame 1 (Some (rq_sig r)) (VBytes args).

(** C39: the peer understands the caller.  The payload that is written for an
    operation of the library, of any kind and with any parameters that can be
    written and have a form on the wire, is read by a peer that knows methods by
    their numbers and fields by their places, as AMQP defines them: it finds the
    method that was called, and under the name of each field what its type
    transmits of the parameter of that name, and nothing else. *)
Theorem request_understood op ws payload :
  let r := request_of op in
  let format := default [] (rq_format r) in
  wf_args format (rq_args r) -> wire_args format (rq_args r) = Ok ws ->
  request_payload r = Ok payload ->
  exists fs read,
    peer_reads payload = Ok ((meaning op).1, read) /\
    read.*1 = fs.*1 /\ NoDup (read.*1) /\ length read = length (meaning op).2 /\
    forall n v, (n, v) ∈ (meaning op).2 -> exists w, (n, w) ∈ read /\ transmits fs n v w.
Proof.
  cbv zeta. intros Hwf Hws Hp. destruct (request_fields op) as (fs & Hm & Hfmt & Hlen & Hnd & Hlm & Hfs).
  rewrite Hfmt in Hwf, Hws. unfold request_payload in Hp. apply bind_ok_inv in Hp as (args & Ha & Hp).
  unfold method_frame in Hp. cbn [Z.eqb Pos.eqb of_option mbind result_bind] in Hp.
  apply bind_ok_inv in Hp as (sb & Hsb & Hp). cbn in Hp. injection Hp as <-.
  unfold pack_sig in Hsb. apply bind_ok_inv in Hsb as (a & Hca & Hsb). apply bind_ok_inv in Hsb as (b & Hcb & Hsb).
  unfold mret, result_ret in Hsb. injection Hsb as <-.
  pose proof (pack_u_length _ _ _ Hca) as La. pose proof (pack_u_length _ _ _ Hcb) as Lb.
  assert (length ws = length fs) as Hlw.
  { apply wire_args_length in Hws. by rewrite length_fmap in Hws. }
  assert (loads (fs.*2) ((a ++ b) ++ args) 4 = Ok (ws, zlen ((a ++ b) ++ args))) as Hl.
  { pose proof (client_request_format _ (proj2 (client_request_operation _) (ex_intro _ op eq_refl))) as Hok.
    unfold request_bytes in Ha. unfold format_ok in Hok. destruct (rq_format (request_of op)) as [f|].
    - cbn in Hfmt. subst f. destruct Hok as [_ Hs].
      pose proof (loads_dumps_holds (fs.*2) _ args ws (a ++ b) [] Hs Hwf Hws Ha) as Hl.
      rewrite app_nil_r, length_app in Hl. rewrite !length_app.
      replace (Z.of_nat (length a + length b)) with 4 in Hl by lia. rewrite Hl. do 2 f_equal. lia.
    - cbn in Hfmt. injection Ha as <-. rewrite <- Hfmt in *. rewrite Hok in Hws. cbn in Hws. injection Hws as <-.
      rewrite app_nil_r, length_app. cbn. do 2 f_equal. lia. }
  exists fs, (zip (fs.*1) ws). split_and!.
  - assert (holds_at ((a ++ b) ++ args) 0 ((a ++ b) ++ args)) as H0 by apply holds_at_whole.
    apply holds_at_app in H0 as [H0 _]. apply holds_at_app in H0 as [H1 H2]. rewrite La in H2.
    change (0 + Z.of_nat 2) with 2 in H2.
    unfold peer_reads. rewrite (unpack_pack_u _ _ _ _ _ H1 Hca). cbn [mbind result_bind].
    rewrite (unpack_pack_u _ _ _ _ _ H2 Hcb). cbn [mbind result_bind]. rewrite Hm.
    cbn [of_option mbind result_bind]. rewrite Hl. cbn [mbind result_bind]. by rewrite Z.eqb_refl.
  - rewrite fst_zip; [done|]. rewrite length_fmap. lia.
  - rewrite fst_zip; [done|]. rewrite length_fmap. lia.
  - rewrite length_zip_with, length_fmap. lia.
  - intros n v Hin. rewrite Forall_forall in Hfs. apply Hfs in Hin. by eapply wire_args_names.
Qed.

(** A consumer that is not exclusive and does not acknowledge. *)
Definition sample_operation : operation :=
  OBasicConsume (VStr (str_of "q")) (VStr (str_of "c")) (VBool false) (VBool true) (VBool false) (VBool true)
    (VDict [(KStr (str_of "x"), VInt 5)]).

Lemma request_understood_witness :
  exists payload fs read, request_payload (request_of sample_operation) = Ok payload /\
    peer_reads payload = Ok ("basic.consume", read) /\
    (exists w, ("consumer-tag", w) ∈ read /\ transmits fs "consumer-tag" (VStr (str_of "c")) w) /\
    (exists w, ("no-ack", w) ∈ read /\ transmits fs "no-ack" (VBool true) w).
Proof.
  destruct (request_understood sample_operation (rq_args (request_of sample_operation))
    (ok_or [] (request_payload (request_of sample_operation)))) as (fs & read & Hr & _ & _ & _ & Hf).
  - repeat (apply Forall2_cons; split;
      [intros ? E; vm_compute in E; injection E as <-; try exact I|]); [|apply Forall2_nil_2].
    intros d [= <-]. split; cbn; unfold Utf8.code_point; cbn; solve_wf.
  - vm_compute. reflexivity.
  - vm_compute. reflexivity.
  - exists (ok_or [] (request_payload (request_of sample_operation))), fs, read.
    split; [vm_compute; reflexivity|split; [exact Hr|split]]; apply Hf; cbn; repeat first [left; reflexivity|right].
Defined.

Example peer_reads_consume :
  (payload ← request_payload (request_of sample_operation); peer_reads payload) =
  Ok ("basic.consume",
    [("reserved-1", VInt 0); ("queue", VStr (str_of "q")); ("consumer-tag", VStr (str_of "c"));
     ("no-local", VBool false); ("no-ack", VBool true); ("exclusive", VBool false); ("no-wait", VBool true);
     ("arguments", VDict [(KStr (str_of "x"), VInt 5)])]).
Proof. vm_compute. reflexivity. Qed.
