(* ===== verification/Session.v ===== *)
(** * The session ([amqp/abstract_channel.py], [amqp/connection.py],
    [amqp/channel.py])

    The connection and its channels as one state machine: sending a method,
    waiting for the reply while other methods are dispatched, the reactions to
    incoming methods, closing and collecting.

    Objects are referred to by number, since [_pending], [channels] and the
    listeners share them; the connection is object 0.  The functions of the
    user are known as the transitions of the session they make (they may call
    the library); each call of one is recorded in [s_log] first.  A promise of
    [vine] is known by the interface [Vine]; beyond it the code relies on a
    promise calling its function, and the callbacks given to [then], at once
    and with their exceptions. *)

From S2P Require Import Prelude Exceptions State Struct Utf8 Values Table Codec Content Framing.
From S2P Require Import Transport Sasl Conn Rpc.
From S2P Require Spec.

Open Scope Z_scope.

(** An argument of a listener: a decoded value, the message, or the method. *)
Inductive arg : Type :=
  | AVal (v : value)
  | AMsg (m : option message)
  | ASig (m : option method_sig).

(** What [AbstractChannel.wait] uses of [vine.promise]: it is not ready until
    it is called, and then holds the arguments of the call, or the result of
    its function. *)
Class Vine (P : Type) := {
  p_new : P;
  p_settle : list arg -> P -> P;
  p_ready : P -> bool;
  p_value : P -> option (list arg);
  p_ready_new : p_ready p_new = false;
  p_ready_settle : forall a p, p_ready (p_settle a p) = true;
  p_value_settle : forall a p, p_value (p_settle a p) = Some a;
}.

(** The interface can hold. *)
#[export] Program Instance option_vine : Vine (option (list arg)) := {|
  p_new := None; p_settle a _ := Some a; p_ready p := if p is Some _ then true else false; p_value p := p;
|}.
Solve All Obligations with done.

(** Calls of the user's functions. *)
Inductive user_call : Type :=
  | Connected (f : nat)
  | OnOpen (f : nat) (object : nat)
  | OnBlocked (f : nat)
  | OnUnblocked (f : nat)
  | Consumed (f : nat) (msg : message)
  | Cancelled (f : nat) (consumer_tag : dict_key)
  | Returned (f : nat) (e : amqp_error) (exchange routing_key : value) (msg : option message)
  | Confirmed (f : nat) (delivery_tag multiple : value).

(** ** State *)

(** The attributes of [AbstractChannel] and [Channel]. *)
Record object : Type := Object {
  o_is_closing : bool;
  o_connection : bool;             (* self.connection is not None *)
  o_channel_id : option Z;
  o_auto_decode : bool;
  o_pending : gmap method_sig nat; (* promises, by reference *)
  o_is_open : bool;
  o_active : value;
  o_callbacks : list (dict_key * option nat);
  o_cancel_callbacks : list (dict_key * nat);
  o_events : list (string * list nat);
  o_no_ack_consumers : list dict_key;
  o_confirm_selected : bool;
  o_on_open : option nat;
}.

(** A promise, and whether its function is the [confirm_handler] of
    [basic_publish_confirm]. *)
Record pending_promise (P : Type) : Type := Promise { pp_confirm : bool; pp_promise : P }.
Arguments Promise {P}. Arguments pp_promise {P}. Arguments pp_confirm {P}.

(** What a new [Transport] will meet: see [Transport.connect]. *)
Record dial : Type := Dial {
  d_transport : transport;
  d_entries : py (list attempt);
  d_options : py unit;
  d_handshake : py unit;
  d_close : py unit;
}.

(** The transport and the closures of the reader and the writer of frames.
    The closures keep the transport they were made for. *)
Record io : Type := Io {
  x_transport : transport;
  x_has_transport : bool;          (* self._transport is not None *)
  x_buffer : option bytes;         (* the buffer of frame_writer, when it is set *)
  x_bytes_sent : Z;
  x_handler : option handler;      (* the cells of frame_handler, when it is set *)
  x_dials : list dial;             (* the connections that can still be made *)
}.

(** The attributes set by [_on_start]. *)
Record server : Type := Server {
  sv_version_major : value;
  sv_version_minor : value;
  sv_properties : value;
  sv_mechanisms : list bytes;
  sv_locales : list pystr;
}.

Record session (P : Type) : Type := Session {
  s_io : io;
  s_objects : gmap nat object;
  s_promises : gmap nat (pending_promise P);
  s_next : nat;                    (* a number not used yet *)
  s_channels : option (gmap Z nat);
  s_used_ids : list Z;
  s_handshake_complete : bool;
  s_tuning : tuning;
  s_client_properties : list (dict_key * value);
  s_server : server;
  s_log : list user_call;
}.
Arguments Session {P}. Arguments s_io {P}. Arguments s_objects {P}. Arguments s_promises {P}.
Arguments s_next {P}. Arguments s_channels {P}. Arguments s_used_ids {P}.
Arguments s_handshake_complete {P}. Arguments s_tuning {P}. Arguments s_client_properties {P}.
Arguments s_server {P}. Arguments s_log {P}.

(** The arguments of [Connection.__init__] that do not change. *)
Record config : Type := Config {
  cf_authentication : list sasl;
  cf_locale : value;
  cf_virtual_host : value;
  cf_connect_timeout : option Z;
  cf_confirm_publish : bool;
  cf_on_blocked : option nat;
  cf_on_unblocked : option nat;
}.

(** [NEGOTIATE_CAPABILITIES]. *)
Definition NEGOTIATE_CAPABILITIES : list (dict_key * value) :=
  [ (KStr (str_of "consumer_cancel_notify"), VBool true);
    (KStr (str_of "connection.blocked"), VBool true);
    (KStr (str_of "authentication_failure_close"), VBool true) ].

(** ** Changing single attributes *)

Section setters.
Context {P : Type}.
Implicit Types s : session P.

Definition set_io (x : io) s : session P :=
  Session x (s_objects s) (s_promises s) (s_next s) (s_channels s) (s_used_ids s)
    (s_handshake_complete s) (s_tuning s) (s_client_properties s) (s_server s) (s_log s).

Definition set_objects (os : gmap nat object) s : session P :=
  Session (s_io s) os (s_promises s) (s_next s) (s_channels s) (s_used_ids s)
    (s_handshake_complete s) (s_tuning s) (s_client_properties s) (s_server s) (s_log s).

Definition set_promises (ps : gmap nat (pending_promise P)) s : session P :=
  Session (s_io s) (s_objects s) ps (s_next s) (s_channels s) (s_used_ids s)
    (s_handshake_complete s) (s_tuning s) (s_client_properties s) (s_server s) (s_log s).

Definition set_next (n : nat) s : session P :=
  Session (s_io s) (s_objects s) (s_promises s) n (s_channels s) (s_used_ids s)
    (s_handshake_complete s) (s_tuning s) (s_client_properties s) (s_server s) (s_log s).

Definition set_channels (c : option (gmap Z nat)) s : session P :=
  Session (s_io s) (s_objects s) (s_promises s) (s_next s) c (s_used_ids s)
    (s_handshake_complete s) (s_tuning s) (s_client_properties s) (s_server s) (s_log s).

Definition set_used_ids (ids : list Z) s : session P :=
  Session (s_io s) (s_objects s) (s_promises s) (s_next s) (s_channels s) ids
    (s_handshake_complete s) (s_tuning s) (s_client_properties s) (s_server s) (s_log s).

Definition set_handshake_complete s : session P :=
  Session (s_io s) (s_objects s) (s_promises s) (s_next s) (s_channels s) (s_used_ids s)
    true (s_tuning s) (s_client_properties s) (s_server s) (s_log s).

Definition set_tuning (t : tuning) s : session P :=
  Session (s_io s) (s_objects s) (s_promises s) (s_next s) (s_channels s) (s_used_ids s)
    (s_handshake_complete s) t (s_client_properties s) (s_server s) (s_log s).

Definition set_client_properties (ps : list (dict_key * value)) s : session P :=
  Session (s_io s) (s_objects s) (s_promises s) (s_next s) (s_channels s) (s_used_ids s)
    (s_handshake_complete s) (s_tuning s) ps (s_server s) (s_log s).

Definition set_server (v : server) s : session P :=
  Session (s_io s) (s_objects s) (s_promises s) (s_next s) (s_channels s) (s_used_ids s)
    (s_handshake_complete s) (s_tuning s) (s_client_properties s) v (s_log s).

Definition log_call (c : user_call) s : session P :=
  Session (s_io s) (s_objects s) (s_promises s) (s_next s) (s_channels s) (s_used_ids s)
    (s_handshake_complete s) (s_tuning s) (s_client_properties s) (s_server s) (s_log s ++ [c]).
End setters.

Definition set_x_transport (t : transport) (x : io) : io :=
  Io t (x_has_transport x) (x_buffer x) (x_bytes_sent x) (x_handler x) (x_dials x).
Definition set_x_has (b : bool) (x : io) : io :=
  Io (x_transport x) b (x_buffer x) (x_bytes_sent x) (x_handler x) (x_dials x).
Definition set_x_writer (w : writer transport) (x : io) : io :=
  Io (w_transport w) (x_has_transport x) (Some (w_buf w)) (w_bytes_sent w) (x_handler x) (x_dials x).
Definition set_x_buffer (b : bytes) (x : io) : io :=
  Io (x_transport x) (x_has_transport x) (Some b) (x_bytes_sent x) (x_handler x) (x_dials x).
Definition set_x_handler (h : handler) (x : io) : io :=
  Io (x_transport x) (x_has_transport x) (x_buffer x) (x_bytes_sent x) (Some h) (x_dials x).
Definition set_x_dials (ds : list dial) (x : io) : io :=
  Io (x_transport x) (x_has_transport x) (x_buffer x) (x_bytes_sent x) (x_handler x) ds.

Definition set_pending (p : gmap method_sig nat) (o : object) : object :=
  Object (o_is_closing o) (o_connection o) (o_channel_id o) (o_auto_decode o) p (o_is_open o)
    (o_active o) (o_callbacks o) (o_cancel_callbacks o) (o_events o) (o_no_ack_consumers o)
    (o_confirm_selected o) (o_on_open o).

Definition set_is_closing (c : bool) (o : object) : object :=
  Object c (o_connection o) (o_channel_id o) (o_auto_decode o) (o_pending o) (o_is_open o)
    (o_active o) (o_callbacks o) (o_cancel_callbacks o) (o_events o) (o_no_ack_consumers o)
    (o_confirm_selected o) (o_on_open o).

(** [self.channel_id, self.connection = id, connection]. *)
Definition set_connection (c : bool) (id : option Z) (o : object) : object :=
  Object (o_is_closing o) c id (o_auto_decode o) (o_pending o) (o_is_open o)
    (o_active o) (o_callbacks o) (o_cancel_callbacks o) (o_events o) (o_no_ack_consumers o)
    (o_confirm_selected o) (o_on_open o).

Definition set_is_open (b : bool) (o : object) : object :=
  Object (o_is_closing o) (o_connection o) (o_channel_id o) (o_auto_decode o) (o_pending o) b
    (o_active o) (o_callbacks o) (o_cancel_callbacks o) (o_events o) (o_no_ack_consumers o)
    (o_confirm_selected o) (o_on_open o).

Definition set_active (v : value) (o : object) : object :=
  Object (o_is_closing o) (o_connection o) (o_channel_id o) (o_auto_decode o) (o_pending o)
    (o_is_open o) v (o_callbacks o) (o_cancel_callbacks o) (o_events o) (o_no_ack_consumers o)
    (o_confirm_selected o) (o_on_open o).

(** The three attributes that hold consumers. *)
Definition set_consumers (c : list (dict_key * option nat)) (cc : list (dict_key * nat))
    (na : list dict_key) (o : object) : object :=
  Object (o_is_closing o) (o_connection o) (o_channel_id o) (o_auto_decode o) (o_pending o)
    (o_is_open o) (o_active o) c cc (o_events o) na (o_confirm_selected o) (o_on_open o).

Definition set_events (e : list (string * list nat)) (o : object) : object :=
  Object (o_is_closing o) (o_connection o) (o_channel_id o) (o_auto_decode o) (o_pending o)
    (o_is_open o) (o_active o) (o_callbacks o) (o_cancel_callbacks o) e (o_no_ack_consumers o)
    (o_confirm_selected o) (o_on_open o).

Definition set_confirm_selected (o : object) : object :=
  Object (o_is_closing o) (o_connection o) (o_channel_id o) (o_auto_decode o) (o_pending o)
    (o_is_open o) (o_active o) (o_callbacks o) (o_cancel_callbacks o) (o_events o)
    (o_no_ack_consumers o) true (o_on_open o).

(** [d.pop(key, None)]. *)
Definition dict_pop {V} (d : list (dict_key * V)) (k : dict_key) : list (dict_key * V) :=
  filter (fun p => p.1 <> k) d.

(** ** Operations *)

Section session.
Context {P : Type} `{!Vine P}.
(** [os.name == 'nt'] *)
Context (os_nt : bool).
(** [s.encode(e)] and [b.decode(e)] for the encodings other than UTF-8. *)
Context (other_codec : pystr -> pystr -> py bytes) (other_decode : bytes -> pystr -> py pystr).
(** The outcomes of the socket calls in [Transport.close]. *)
Context (unwrap shutdown sock_close : transport -> py unit).
(** What a function of the user does to the session. *)
Context (user : user_call -> st (session P) unit).
Context (cfg : config).

(** [self.f] and [self.f = ...] of object [n]; every number that occurs is
    that of an object. *)
Definition attr {A} (n : nat) (f : object -> A) : st (session P) A := fun s =>
  match s_objects s !! n with
  | Some o => (s, Ok (f o))
  | None => (s, Raise AttributeError)
  end.

Definition upd (n : nat) (f : object -> object) : st (session P) unit :=
  modify (fun s => set_objects (alter f n (s_objects s)) s).

Definition call_user (c : user_call) : st (session P) unit := modify (log_call c) ;; user c.

(** [if f: f(...)]. *)
Definition call_opt (f : option nat) (c : nat -> user_call) : st (session P) unit :=
  match f with Some f => call_user (c f) | None => mret tt end.

Definition zoom_io {A} (m : st io A) : st (session P) A := zoom s_io set_io m.
Definition zoom_transport {A} (m : st transport A) : st (session P) A :=
  zoom_io (zoom x_transport set_x_transport m).

Definition recoverable {A} (template : string) : st (session P) A :=
  lift (raise_amqp RecoverableConnectionError template None).

(** *** Closing ([Channel.collect], [Connection.collect]) *)

(** [events], [callbacks], ... [.clear()]. *)
Definition cleared (o : object) : object := set_events [] (set_consumers [] [] [] o).

(** [connection.channels.pop(channel_id, None);
    connection._used_channel_ids.remove(channel_id)], a missing id ignored. *)
Definition unregister (channel_id : option Z) : st (session P) unit :=
  channels ← gets s_channels;
  channels ← lift (of_option AttributeError channels);
  match channel_id with
  | Some id =>
      modify (set_channels (Some (delete id channels))) ;;
      modify (fun s => set_used_ids (remove_channel_id (s_used_ids s) id) s)
  | None => mret tt
  end.

Definition channel_collect (n : nat) : st (session P) unit :=
  upd n (set_is_open false) ;;
  channel_id ← attr n o_channel_id;
  connection ← attr n o_connection;
  upd n (set_connection false None) ;;
  when connection (unregister channel_id) ;;
  upd n cleared.

(** The channels other than the connection itself. *)
Definition other_channels (channels : gmap Z nat) : list nat :=
  filter (fun n => n <> O) (map_to_list channels).*2.

Definition connection_collect : st (session P) unit :=
  has ← gets (fun s => x_has_transport (s_io s));
  when has (zoom_transport (fun t => Transport.close (unwrap t) (shutdown t) (sock_close t) t)) ;;
  channels ← gets s_channels;
  match channels with
  | Some channels => st_iter channel_collect (other_channels channels)
  | None => mret tt
  end ;;
  zoom_io (modify (set_x_has false)) ;;
  upd 0 (fun o => set_connection false (o_channel_id o) o) ;;
  modify (set_channels None).

(** *** Promises *)

Definition new_promise (confirm : bool) : st (session P) nat :=
  n ← gets s_next;
  modify (set_next (S n)) ;;
  modify (fun s => set_promises (<[n := Promise confirm p_new]> (s_promises s)) s) ;;
  mret n.

Definition promise (p : nat) : st (session P) (pending_promise P) := fun s =>
  (s, of_option AttributeError (s_promises s !! p)).

Definition settle (p : nat) (vs : list arg) : st (session P) unit :=
  modify (fun s => set_promises
    (alter (fun pp => Promise (pp_confirm pp) (p_settle vs (pp_promise pp))) p (s_promises s)) s).

(** [confirm_handler] of [basic_publish_confirm]. *)
Definition confirm_handler (vs : list arg) : st (session P) unit :=
  match vs with
  | ASig m :: _ => if decide (m = Some Spec.Basic.Nack) then raise MessageNacked else mret tt
  | _ => raise TypeError
  end.

(** [one_shot(method_sig, *args)]: the value of a promise with a function is
    the result of the function. *)
Definition call_promise (p : nat) (vs : list arg) : st (session P) unit :=
  pp ← promise p;
  if pp_confirm pp
  then confirm_handler vs ;; settle p [AVal VNone]
  else settle p vs.

(** *** The loop of events *)

Section turn.
(** The calls of [drain_events] that the code makes while it runs; [fuel]
    bounds the turns of the loops around them. *)
Context (fuel : nat) (drain_events : option Z -> st (session P) unit).

(** [self.connected]. *)
Definition connected (s : session P) : bool :=
  x_has_transport (s_io s) && t_connected (x_transport (s_io s)).

(** [while not self._handshake_complete: self.drain_events(timeout)]. *)
Fixpoint handshake_loop (fuel : nat) (timeout : option Z) : st (session P) unit :=
  match fuel with
  | O => lift OutOfFuel
  | S fuel =>
      complete ← gets s_handshake_complete;
      if (complete : bool) then mret tt
      else drain_events timeout ;; handshake_loop fuel timeout
  end.

(** [self.transport = self.Transport(...)]: the next connection that can be
    made; without one the call blocks. *)
Definition new_transport : st (session P) dial := fun s =>
  match x_dials (s_io s) with
  | [] => (s, OutOfFuel)
  | d :: ds =>
      (set_io (set_x_transport (d_transport d) (set_x_has true (set_x_dials ds (s_io s)))) s, Ok d)
  end.

(** [self.on_inbound_frame = self.frame_handler_cls(...)]; [bytes_recv] is an
    attribute of the connection and goes on. *)
Definition new_handler : st (session P) unit :=
  zoom_io (modify (fun x =>
    set_x_handler (Handler ∅ ∅ (default 0 (h_bytes_recv <$> x_handler x))) x)).

(** [self.frame_writer = self.frame_writer_cls(self, self.transport)]. *)
Definition new_writer : st (session P) unit :=
  frame_max ← gets (fun s => tu_frame_max (s_tuning s));
  buf ← lift (bytearray (frame_max - 8));
  zoom_io (modify (set_x_buffer buf)).

Definition connect (callback : option nat) : st (session P) unit :=
  is_connected ← gets connected;
  if (is_connected : bool) then call_opt callback Connected
  else
    st_try
      (d ← new_transport;
       zoom_transport
         (Transport.connect (d_entries d) (d_options d) (d_handshake d) (d_close d) (cf_connect_timeout cfg)) ;;
       new_handler ;;
       new_writer ;;
       handshake_loop fuel (cf_connect_timeout cfg))
      is_os_error
      (fun e => connection_collect ;; raise e).

(** The properties [transport], [frame_writer] and [on_inbound_frame], which
    connect when they are [None]. *)
Definition force_connect (is_none : io -> bool) : st (session P) unit :=
  none ← gets (fun s => is_none (s_io s));
  when none (connect None).

Definition no_transport (x : io) : bool := negb (x_has_transport x).
Definition no_writer (x : io) : bool := if x_buffer x is Some _ then false else true.
Definition no_handler (x : io) : bool := if x_handler x is Some _ then false else true.

(** *** Sending ([AbstractChannel.send_method]) *)

(** [conn.frame_writer(1, self.channel_id, sig, args, content)]. *)
Definition write_method (n : nat) (sig : method_sig) (args : value) (content : option message)
    : st (session P) unit :=
  force_connect no_writer ;;
  buf ← gets (fun s => x_buffer (s_io s));
  buf ← lift (of_option TypeError buf);
  id ← attr n o_channel_id;
  id ← lift (of_option StructError id);
  frame_max ← gets (fun s => tu_frame_max (s_tuning s));
  zoom_io (zoom (fun x => Writer (x_transport x) buf (x_bytes_sent x)) set_x_writer
             (write_frame other_codec frame_max 1 id (Some sig) args content)).

(** [callback] is the one of [then], called after the method was written. *)
Definition send_method (n : nat) (r : request) (callback : st (session P) unit)
    : st (session P) unit :=
  connection ← attr n o_connection;
  when (negb connection) (recoverable "connection already closed") ;;
  args ← lift (match rq_format r with
               | Some f => VBytes <$> dumps f (rq_args r)
               | None => mret (VStr [])
               end);
  st_try (write_method n (rq_sig r) args (rq_content r))
    (fun e => if e is StopIteration then true else false)
    (fun _ => recoverable "connection already closed") ;;
  callback.

(** *** Waiting ([AbstractChannel.wait]) *)

(** [prev_p.append(pending.get(m)); pending[m] = p] for each method. *)
Fixpoint push_pending (n p : nat) (methods : list method_sig)
    : st (session P) (list (method_sig * option nat)) :=
  match methods with
  | [] => mret []
  | m :: methods =>
      pending ← attr n o_pending;
      upd n (set_pending (<[m := p]> pending)) ;;
      prev ← push_pending n p methods;
      mret ((m, pending !! m) :: prev)
  end.

(** The [finally] clause of [wait]. *)
Definition pop_pending (n : nat) (prev : list (method_sig * option nat)) : st (session P) unit :=
  st_iter (fun '(m, prev_p) =>
    pending ← attr n o_pending;
    upd n (set_pending (match prev_p with
                        | Some p => <[m := p]> pending
                        | None => delete m pending
                        end))) prev.

(** [while not p.ready: ...]. *)
Fixpoint wait_loop (fuel : nat) (n p : nat) (timeout : option Z) : st (session P) unit :=
  match fuel with
  | O => lift OutOfFuel
  | S fuel =>
      pp ← promise p;
      if p_ready (pp_promise pp) then mret tt
      else
        connection ← attr n o_connection;
        when (negb connection) (recoverable "connection already closed") ;;
        drain_events timeout ;;
        wait_loop fuel n p timeout
  end.

(** [wait] with [returns_tuple=True]; [None] when the promise has no value. *)
Definition wait (n : nat) (methods : list method_sig) (confirm : bool) (timeout : option Z)
    : st (session P) (option (list arg)) :=
  p ← new_promise confirm;
  prev ← push_pending n p methods;
  st_finally
    (wait_loop fuel n p timeout ;;
     pp ← promise p;
     mret (tail <$> p_value (pp_promise pp)))
    (pop_pending n prev).

(** [send_method(..., wait=...)]. *)
Definition rpc (n : nat) (r : request) : st (session P) (option (list arg)) :=
  send_method n r (mret tt) ;;
  match rq_wait r with
  | [] => mret None
  | methods => wait n methods false None
  end.

(** *** Incoming methods of the connection *)

(** [for wanted_cap, enable_cap in negotiate_capabilities.items() if
    scap.get(wanted_cap)]. *)
Definition wanted_capabilities (scap : list (dict_key * value)) : list (dict_key * value) :=
  filter (fun p => truthy (default VNone (dict_get scap p.1)) = true) NEGOTIATE_CAPABILITIES.

(** The negotiation of capabilities in [_on_start].  [client_properties] is
    the dictionary of the connection, which keeps the result. *)
Definition negotiate (server_properties : value) : st (session P) unit :=
  let key := KStr (str_of "capabilities") in
  sp ← lift (match server_properties with VDict d => Ok d | _ => Raise AttributeError end);
  let scap := default VNone (dict_get sp key) in
  client ← gets s_client_properties;
  let cap := default (VDict []) (dict_get client key) in
  modify (set_client_properties (dict_set client key cap)) ;;
  scap ← lift (match scap with
               | VDict d => Ok d
               | v => if truthy v then Raise AttributeError else Ok []
               end);
  cap ← lift (match cap with VDict d => Ok d | _ => Raise AttributeError end);
  let cap := foldl (fun d p => dict_set d p.1 p.2) cap (wanted_capabilities scap) in
  modify (set_client_properties
    (if decide (cap = []) then dict_pop client key else dict_set client key (VDict cap))).

Definition split_mechanisms (v : value) : py (list bytes) :=
  b ← match v with
      | VStr s => encode_utf8_strict s
      | VBytes b => Ok b
      | _ => Raise AttributeError
      end;
  mret (split_at (fun x => byte_to_Z x =? 32) b).

Definition on_start (version_major version_minor server_properties mechanisms locales : value)
    : st (session P) unit :=
  modify (fun s => set_server (Server version_major version_minor server_properties
    (sv_mechanisms (s_server s)) (sv_locales (s_server s))) s) ;;
  mechanisms ← lift (split_mechanisms mechanisms);
  modify (fun s => set_server (Server version_major version_minor server_properties
    mechanisms (sv_locales (s_server s))) s) ;;
  locales ← lift (match locales with VStr s => Ok (split_at (Z.eqb 32) s) | _ => Raise TypeError end);
  modify (set_server (Server version_major version_minor server_properties mechanisms locales)) ;;
  negotiate server_properties ;;
  '(mechanism, login_response) ← lift (choose_authentication (cf_authentication cfg) mechanisms);
  client_properties ← gets s_client_properties;
  send_method 0 (start_ok (VDict client_properties) (VBytes mechanism) (VBytes login_response)
                   (cf_locale cfg)) (mret tt).

Definition on_tune_sent : st (session P) unit :=
  send_method 0 (open_connection (cf_virtual_host cfg)) (mret tt).

Definition on_tune (channel_max frame_max server_heartbeat : Z) : st (session P) unit :=
  modify (fun s => set_tuning (tune (s_tuning s) channel_max frame_max server_heartbeat) s) ;;
  tu ← gets s_tuning;
  send_method 0 (tune_ok (VInt (tu_channel_max tu)) (VInt (tu_frame_max tu))
                   (VInt (tu_heartbeat tu))) on_tune_sent.

Definition connection_on_open_ok : st (session P) unit :=
  modify set_handshake_complete ;;
  on_open ← attr 0 o_on_open;
  call_opt on_open (fun f => OnOpen f 0).

Definition connection_on_close_ok : st (session P) unit := connection_collect.

Definition connection_on_close (reply_code : Z) (reply_text : pystr) (class_id method_id : Z)
    : st (session P) unit :=
  send_method 0 x_close_ok connection_on_close_ok ;;
  raise (Amqp (error_for_code reply_code (Some (TStr reply_text)) (Some (inl (class_id, method_id)))
                 ConnectionError)).

(** [_on_secure] does nothing. *)
Definition on_secure (challenge : arg) : st (session P) unit := mret tt.

(** The reason given to [on_blocked] is a constant. *)
Definition on_blocked : st (session P) unit := call_opt (cf_on_blocked cfg) OnBlocked.
Definition on_unblocked : st (session P) unit := call_opt (cf_on_unblocked cfg) OnUnblocked.

(** A listener is called with the decoded arguments; another number of them
    would be a [TypeError]. *)
Definition connection_listener (sig : method_sig)
    : option (list arg -> st (session P) unit) :=
  if decide (sig = Spec.Connection.Start) then Some (fun args =>
    match args with
    | [AVal major; AVal minor; AVal props; AVal mechs; AVal locales] =>
        on_start major minor props mechs locales
    | _ => raise TypeError
    end)
  else if decide (sig = Spec.Connection.OpenOk) then Some (fun args =>
    match args with [] => connection_on_open_ok | _ => raise TypeError end)
  else if decide (sig = Spec.Connection.Secure) then Some (fun args =>
    match args with [challenge] => on_secure challenge | _ => raise TypeError end)
  else if decide (sig = Spec.Connection.Tune) then Some (fun args =>
    match args with
    | [AVal (VInt channel_max); AVal (VInt frame_max); AVal (VInt heartbeat)] =>
        on_tune channel_max frame_max heartbeat
    | _ => raise TypeError
    end)
  else if decide (sig = Spec.Connection.Close) then Some (fun args =>
    match args with
    | [AVal (VInt code); AVal (VStr text); AVal (VInt class_id); AVal (VInt method_id)] =>
        connection_on_close code text class_id method_id
    | _ => raise TypeError
    end)
  else if decide (sig = Spec.Connection.Blocked) then Some (fun args =>
    match args with [] => on_blocked | _ => raise TypeError end)
  else if decide (sig = Spec.Connection.Unblocked) then Some (fun args =>
    match args with [] => on_unblocked | _ => raise TypeError end)
  else if decide (sig = Spec.Connection.CloseOk) then Some (fun args =>
    match args with [] => connection_on_close_ok | _ => raise TypeError end)
  else None.

(** *** Incoming methods of a channel *)

(** [Channel.open]. *)
Definition channel_open (n : nat) : st (session P) unit :=
  is_open ← attr n o_is_open;
  if (is_open : bool) then mret tt else rpc n open_channel ;; mret tt.

Definition do_revive (n : nat) : st (session P) unit :=
  upd n (set_is_open false) ;; channel_open n.

Definition channel_on_close (n : nat) (reply_code : Z) (reply_text : pystr)
    (class_id method_id : Z) : st (session P) unit :=
  send_method n channel_close_ok (mret tt) ;;
  connection ← attr n o_connection;
  when (negb connection) (raise AttributeError) ;;
  connection_is_closing ← attr 0 o_is_closing;
  is_closing ← attr n o_is_closing;
  when (negb connection_is_closing && negb is_closing)
    (do_revive n ;;
     raise (Amqp (error_for_code reply_code (Some (TStr reply_text))
                    (Some (inl (class_id, method_id))) ChannelError))).

Definition channel_on_close_ok (n : nat) : st (session P) unit := channel_collect n.

Definition on_flow (n : nat) (active : value) : st (session P) unit :=
  upd n (set_active active) ;;
  active ← attr n o_active;
  rpc n (x_flow_ok active) ;; mret tt.

Definition channel_on_open_ok (n : nat) : st (session P) unit :=
  upd n (set_is_open true) ;;
  on_open ← attr n o_on_open;
  call_opt on_open (fun f => OnOpen f n).

(** [_remove_tag]. *)
Definition remove_tag (n : nat) (consumer_tag : dict_key) : st (session P) (option nat) :=
  callbacks ← attr n o_callbacks;
  cancel_callbacks ← attr n o_cancel_callbacks;
  upd n (fun o => set_consumers (dict_pop callbacks consumer_tag)
                    (dict_pop cancel_callbacks consumer_tag) (o_no_ack_consumers o) o) ;;
  mret (dict_get cancel_callbacks consumer_tag).

(** The reply text of [ConsumerCancelled] is the tag. *)
Definition on_basic_cancel (n : nat) (consumer_tag : pystr) : st (session P) unit :=
  callback ← remove_tag n (KStr consumer_tag);
  match callback with
  | Some f => call_user (Cancelled f (KStr consumer_tag))
  | None => raise (Amqp (amqp_error_init ConsumerCancelled (Some (TStr consumer_tag))
                           (Some (inl Spec.Basic.Cancel)) None None))
  end.

Definition on_basic_cancel_ok (n : nat) (consumer_tag : pystr) : st (session P) unit :=
  remove_tag n (KStr consumer_tag) ;; mret tt.

Definition set_delivery (n : nat) (info : list (string * value)) (msg : message) : message :=
  Message (msg_frame_method msg) (msg_frame_args msg) (msg_properties msg)
    (msg_pending_chunks msg) (msg_body_received msg) (msg_body_size msg) (msg_ready msg)
    (msg_body msg) (Some info) (Some (Z.of_nat n)).

Definition on_basic_deliver (n : nat) (consumer_tag : pystr)
    (delivery_tag redelivered exchange routing_key : value) (msg : message)
    : st (session P) unit :=
  let msg := set_delivery n
    [("consumer_tag", VStr consumer_tag); ("delivery_tag", delivery_tag);
     ("redelivered", redelivered); ("exchange", exchange); ("routing_key", routing_key)] msg in
  callbacks ← attr n o_callbacks;
  match dict_get callbacks (KStr consumer_tag) with
  | None => rpc n (basic_reject delivery_tag (VBool true)) ;; mret tt
  | Some None => raise TypeError   (* fun is None *)
  | Some (Some f) => call_user (Consumed f msg)
  end.

(** [self.events[event]]. *)
Definition handlers (n : nat) (event : string) : st (session P) (list nat) :=
  events ← attr n o_events; mret (default [] (dict_get events event)).

Definition on_basic_return (n : nat) (reply_code : Z) (reply_text : pystr)
    (exchange routing_key : value) (msg : option message) : st (session P) unit :=
  let exc := error_for_code reply_code (Some (TStr reply_text)) (Some (inl Spec.Basic.Return))
               ChannelError in
  fs ← handlers n "basic_return";
  match fs with
  | [] => raise (Amqp exc)
  | _ => st_iter (fun f => call_user (Returned f exc exchange routing_key msg)) fs
  end.

(** [_on_basic_ack], [_on_basic_nack]. *)
Definition on_basic_ack (event : string) (n : nat) (delivery_tag multiple : value)
    : st (session P) unit :=
  fs ← handlers n event;
  st_iter (fun f => call_user (Confirmed f delivery_tag multiple)) fs.

Definition channel_listener (n : nat) (sig : method_sig)
    : option (list arg -> st (session P) unit) :=
  if decide (sig = Spec.Channel.Close) then Some (fun args =>
    match args with
    | [AVal (VInt code); AVal (VStr text); AVal (VInt class_id); AVal (VInt method_id)] =>
        channel_on_close n code text class_id method_id
    | _ => raise TypeError
    end)
  else if decide (sig = Spec.Channel.CloseOk) then Some (fun args =>
    match args with [] => channel_on_close_ok n | _ => raise TypeError end)
  else if decide (sig = Spec.Channel.Flow) then Some (fun args =>
    match args with [AVal active] => on_flow n active | _ => raise TypeError end)
  else if decide (sig = Spec.Channel.OpenOk) then Some (fun args =>
    match args with [] => channel_on_open_ok n | _ => raise TypeError end)
  else if decide (sig = Spec.Basic.Cancel) then Some (fun args =>
    match args with [AVal (VStr tag)] => on_basic_cancel n tag | _ => raise TypeError end)
  else if decide (sig = Spec.Basic.CancelOk) then Some (fun args =>
    match args with [AVal (VStr tag)] => on_basic_cancel_ok n tag | _ => raise TypeError end)
  else if decide (sig = Spec.Basic.Deliver) then Some (fun args =>
    match args with
    | [AVal (VStr tag); AVal delivery_tag; AVal redelivered; AVal exchange; AVal key; AMsg (Some msg)] =>
        on_basic_deliver n tag delivery_tag redelivered exchange key msg
    | _ => raise TypeError
    end)
  else if decide (sig = Spec.Basic.Return) then Some (fun args =>
    match args with
    | [AVal (VInt code); AVal (VStr text); AVal exchange; AVal key; AMsg msg] =>
        on_basic_return n code text exchange key msg
    | _ => raise TypeError
    end)
  else if decide (sig = Spec.Basic.Ack) then Some (fun args =>
    match args with [AVal tag; AVal mult] => on_basic_ack "basic_ack" n tag mult | _ => raise TypeError end)
  else if decide (sig = Spec.Basic.Nack) then Some (fun args =>
    match args with [AVal tag; AVal mult] => on_basic_ack "basic_nack" n tag mult | _ => raise TypeError end)
  else None.

(** *** Dispatch ([AbstractChannel.dispatch_method], [on_inbound_method]) *)

Definition METHODS (n : nat) : list Spec.method_t :=
  match n with O => CONNECTION_METHODS | _ => CHANNEL_METHODS end.

Definition ALLOWED_METHODS_WHEN_CLOSING (n : nat) : list method_sig :=
  match n with
  | O => [Spec.Connection.Close; Spec.Connection.CloseOk]
  | _ => [Spec.Channel.Close; Spec.Channel.CloseOk]
  end.

Definition listener (n : nat) (sig : method_sig) : option (list arg -> st (session P) unit) :=
  match n with O => connection_listener sig | _ => channel_listener n sig end.

Definition bytes_decode (b : bytes) (encoding : pystr) : py pystr :=
  if decide (encoding = str_of "utf-8") then decode_utf8_strict b else other_decode b encoding.

Definition set_body (body : value) (msg : message) : message :=
  Message (msg_frame_method msg) (msg_frame_args msg) (msg_properties msg)
    (msg_pending_chunks msg) (msg_body_received msg) (msg_body_size msg) (msg_ready msg)
    body (msg_delivery_info msg) (msg_channel msg).

(** [content.body = content.body.decode(content.content_encoding)], every
    exception ignored. *)
Definition decode_body (msg : message) : message :=
  match dict_get (msg_properties msg) "content_encoding", msg_body msg with
  | Some (VStr e), VBytes b =>
      match bytes_decode b e with Ok s => set_body (VStr s) msg | _ => msg end
  | _, _ => msg
  end.

Definition sig_in (sig : option method_sig) (sigs : list method_sig) : bool :=
  match sig with Some sig => bool_decide (sig ∈ sigs) | None => false end.

(** [args, _ = loads(amqp_method.args, payload, 4)], and the content. *)
Definition method_args (m : Spec.method_t) (payload : bytes) (content : option message)
    : py (list arg) :=
  vs ← match Spec.m_args m with
       | Some f => r ← loads f payload 4; mret (r.1)
       | None => mret []
       end;
  mret ((AVal <$> vs) ++ if Spec.m_content m then [AMsg content] else []).

(** The listeners, then the promise taken from [_pending]. *)
Definition run_listeners (n : nat) (sig : method_sig) (m : Spec.method_t) (payload : bytes)
    (content : option message) (one_shot : option nat) : st (session P) unit :=
  args ← lift (method_args m payload content);
  match listener n sig with Some l => l args | None => mret tt end ;;
  match one_shot with Some p => call_promise p (ASig (Some sig) :: args) | None => mret tt end.

(** [one_shot = self._pending.pop(method_sig)], [None] when it is missing. *)
Definition take_pending (n : nat) (sig : method_sig) : st (session P) (option nat) :=
  pending ← attr n o_pending;
  upd n (set_pending (delete sig pending)) ;;
  mret (pending !! sig).

Definition dispatch_method (n : nat) (sig : option method_sig) (payload : bytes)
    (content : option message) : st (session P) unit :=
  is_closing ← attr n o_is_closing;
  if is_closing && negb (sig_in sig (ALLOWED_METHODS_WHEN_CLOSING n)) then mret tt
  else
    auto_decode ← attr n o_auto_decode;
    let content := if auto_decode : bool then decode_body <$> content else content in
    match sig ≫= fun sig => pair sig <$> find_method (METHODS n) sig with
    | None => lift (raise_amqp AMQPNotImplementedError "Unknown AMQP method {!r}" None)
    | Some (sig, m) =>
        one_shot ← take_pending n sig;
        match one_shot, listener n sig with
        | None, None => mret tt
        | _, _ => run_listeners n sig m payload content one_shot
        end
    end.

Definition on_inbound_method (channel_id : Z) (sig : option method_sig) (payload : bytes)
    (content : option message) : st (session P) unit :=
  channels ← gets s_channels;
  match channels with
  | None => recoverable "Connection already closed"
  | Some channels =>
      n ← lift (of_option KeyError (channels !! channel_id));
      dispatch_method n sig payload content
  end.

(** [self.on_inbound_frame(frame)]: the callback of the closure is
    [on_inbound_method]. *)
Definition on_inbound_frame (f : frame) : st (session P) bool :=
  force_connect no_handler ;;
  h ← gets (fun s => x_handler (s_io s));
  h ← lift (of_option TypeError h);
  let '(h, r) := on_frame h f in
  zoom_io (modify (set_x_handler h)) ;;
  '(c, result) ← lift r;
  match c with
  | Some c => on_inbound_method (c_channel c) (c_method c) (c_args c) (c_content c)
  | None => mret tt
  end ;;
  mret result.

Definition blocking_read (timeout : option Z) : st (session P) bool :=
  force_connect no_transport ;;
  has ← gets (fun s => x_has_transport (s_io s));
  when (negb has) (raise AttributeError) ;;
  f ← zoom_transport (having_timeout timeout (read_frame os_nt));
  on_inbound_frame f.

(** *** The public operations that are more than a request *)

(** [Connection.close]; the results of [close] are not used. *)
Definition connection_close (reply_code reply_text class_id method_id : value)
    : st (session P) unit :=
  has ← gets (fun s => x_has_transport (s_io s));
  when has
    (st_finally
       (st_try (upd 0 (set_is_closing true) ;;
                rpc 0 (close_connection reply_code reply_text class_id method_id) ;; mret tt)
          is_os_error (fun e => connection_collect ;; raise e))
       (upd 0 (set_is_closing false))).

(** [Channel.__init__]: the number of the new object. *)
Definition channel_init (channel_id : option Z) (on_open : option nat) : st (session P) nat :=
  used ← gets s_used_ids;
  channel_max ← gets (fun s => tu_channel_max (s_tuning s));
  '(id, used) ← lift (match channel_id with
                      | Some id => if id =? 0 then get_free_channel_id channel_max used
                                   else claim_channel_id used id
                      | None => get_free_channel_id channel_max used
                      end);
  modify (set_used_ids used) ;;
  channels ← gets s_channels;
  channels ← lift (of_option TypeError channels);
  n ← gets s_next;
  modify (set_next (S n)) ;;
  modify (fun s => set_objects (<[n := Object false true (Some id) true ∅ false (VBool true)
                                        [] [] [] [] false on_open]> (s_objects s)) s) ;;
  modify (set_channels (Some (<[id := n]> channels))) ;;
  mret n.

(** [Connection.channel]. *)
Definition channel (channel_id : option Z) (callback : option nat) : st (session P) nat :=
  channels ← gets s_channels;
  match channels with
  | None => recoverable "Connection already closed."
  | Some channels =>
      match channel_id ≫= fun id => channels !! id with
      | Some n => mret n
      | None => n ← channel_init channel_id callback; channel_open n ;; mret n
      end
  end.

(** [Channel.close]. *)
Definition channel_close (n : nat) (reply_code reply_text class_id method_id : value)
    : st (session P) unit :=
  st_finally
    (connection ← attr n o_connection;
     channels ← gets s_channels;
     is_open ← attr n o_is_open;
     when (connection && (if channels is Some _ then true else false) && is_open)
       (upd n (set_is_closing true) ;;
        rpc n (close_channel reply_code reply_text class_id method_id) ;; mret tt))
    (upd n (fun o => set_connection false (o_channel_id o) (set_is_closing false o))).

(** [with connection: body], [with channel: body]: [__enter__], the body, and
    [__exit__], whose [close] has the default arguments. *)
Definition with_connection {A} (body : st (session P) A) : st (session P) A :=
  connect None ;;
  st_finally body (connection_close (VInt 0) (VStr []) (VInt 0) (VInt 0)).

Definition with_channel {A} (n : nat) (body : st (session P) A) : st (session P) A :=
  st_finally body (channel_close n (VInt 0) (VStr []) (VInt 0) (VInt 0)).

(** [Connection.server_capabilities]. *)
Definition server_capabilities : st (session P) value :=
  properties ← gets (fun s => sv_properties (s_server s));
  match properties with
  | VDict d =>
      let v := default VNone (dict_get d (KStr (str_of "capabilities"))) in
      mret (if truthy v then v else VDict [])
  | _ => raise AttributeError
  end.

(** [Channel.basic_cancel]. *)
Definition channel_basic_cancel (n : nat) (consumer_tag : dict_key) (nowait : bool)
    : st (session P) unit :=
  connection ← attr n o_connection;
  when connection
    (upd n (fun o => set_consumers (o_callbacks o) (o_cancel_callbacks o)
                       (filter (fun t => t <> consumer_tag) (o_no_ack_consumers o)) o) ;;
     rpc n (basic_cancel (value_of_key consumer_tag) (VBool nowait)) ;; mret tt).

(** [p[0]]. *)
Definition first_tag (p : option (list arg)) : py dict_key :=
  match p with
  | Some (AVal (VStr tag) :: _) => Ok (KStr tag)
  | Some (AVal (VBytes tag) :: _) => Ok (KBytes tag)
  | Some [] => Raise IndexError
  | _ => Raise TypeError
  end.

Definition key_empty (k : dict_key) : bool :=
  match k with KStr [] | KBytes [] => true | _ => false end.

(** [Channel.basic_consume]: the consumer tag; with [nowait] the code returns
    a promise instead. *)
Definition channel_basic_consume (n : nat) (queue : value) (consumer_tag : dict_key)
    (no_local no_ack exclusive nowait : bool) (callback : option nat) (arguments : value)
    (on_cancel : option nat) : st (session P) dict_key :=
  p ← rpc n (basic_consume queue (value_of_key consumer_tag) (VBool no_local) (VBool no_ack)
               (VBool exclusive) (VBool nowait) arguments);
  consumer_tag ← lift (if negb nowait then first_tag p
                       else if key_empty consumer_tag then Raise ValueError
                       else Ok consumer_tag);
  upd n (fun o => set_consumers (dict_set (o_callbacks o) consumer_tag callback)
    (match on_cancel with
     | Some f => dict_set (o_cancel_callbacks o) consumer_tag f
     | None => o_cancel_callbacks o
     end)
    (if no_ack && negb (bool_decide (consumer_tag ∈ o_no_ack_consumers o))
     then o_no_ack_consumers o ++ [consumer_tag] else o_no_ack_consumers o) o) ;;
  mret consumer_tag.

(** [Channel.basic_get]: the message, or [None] when the queue is empty. *)
Definition channel_basic_get (n : nat) (queue : value) (no_ack : bool)
    : st (session P) (option message) :=
  ret ← rpc n (basic_get queue (VBool no_ack));
  match ret with
  | Some [AVal delivery_tag; AVal redelivered; AVal exchange; AVal key; AVal count; AMsg (Some msg)] =>
      mret (Some (set_delivery n
        [("delivery_tag", delivery_tag); ("redelivered", redelivered); ("exchange", exchange);
         ("routing_key", key); ("message_count", count)] msg))
  | Some ([] | [_]) => mret None
  | _ => raise TypeError
  end.

(** [Channel.queue_declare]: sent without [wait=], then the wait. *)
Definition channel_queue_declare (n : nat)
    (queue passive durable exclusive auto_delete nowait arguments : value)
    : st (session P) (option Spec.queue_declare_ok_t) :=
  send_method n (queue_declare queue passive durable exclusive auto_delete nowait arguments) (mret tt) ;;
  if truthy nowait then mret None
  else
    ret ← wait n [Spec.Queue.DeclareOk] false None;
    match ret with
    | Some [AVal queue; AVal message_count; AVal consumer_count] =>
        mret (Some (Spec.QueueDeclareOk queue message_count consumer_count))
    | _ => raise TypeError
    end.

(** [self.connection.client_properties.get('capabilities', {})
    .get('connection.blocked', False)]. *)
Definition blocked_capability (client_properties : list (dict_key * value)) : py bool :=
  match default (VDict []) (dict_get client_properties (KStr (str_of "capabilities"))) with
  | VDict d => Ok (truthy (default (VBool false) (dict_get d (KStr (str_of "connection.blocked")))))
  | _ => Raise AttributeError
  end.

Definition is_timeout (e : exc) : bool := if e is SockTimeout then true else false.

(** [Channel._basic_publish]. *)
Definition channel_basic_publish (n : nat) (msg : message)
    (exchange routing_key mandatory immediate : value) (timeout : option Z)
    : st (session P) unit :=
  connection ← attr n o_connection;
  when (negb connection) (recoverable "basic_publish: connection closed") ;;
  client_properties ← gets s_client_properties;
  blocked ← lift (blocked_capability client_properties);
  when blocked (st_try (drain_events (Some 0)) is_timeout (fun _ => mret tt)) ;;
  connection ← attr n o_connection;
  when (negb connection) (raise AttributeError) ;;
  st_try
    (force_connect no_transport ;;
     has ← gets (fun s => x_has_transport (s_io s));
     when (negb has) (raise AttributeError) ;;
     having_timeout_in (fun s => x_transport (s_io s))
       (fun t s => set_io (set_x_transport t (s_io s)) s) timeout
       (send_method n (basic_publish exchange routing_key mandatory immediate msg) (mret tt)))
    is_timeout
    (fun _ => lift (raise_amqp RecoverableChannelError "basic_publish: timed out" None)).

(** [Channel.basic_publish_confirm]. *)
Definition channel_basic_publish_confirm (n : nat) (msg : message)
    (exchange routing_key mandatory immediate : value) (timeout confirm_timeout : option Z)
    : st (session P) unit :=
  confirm_selected ← attr n o_confirm_selected;
  when (negb confirm_selected)
    (upd n set_confirm_selected ;; rpc n (confirm_select (VBool false)) ;; mret tt) ;;
  channel_basic_publish n msg exchange routing_key mandatory immediate timeout ;;
  let timeout := match confirm_timeout with
                 | Some t => if t =? 0 then timeout else confirm_timeout
                 | None => timeout
                 end in
  wait n [Spec.Basic.Ack; Spec.Basic.Nack] true timeout ;;
  mret tt.

(** [self.basic_publish], replaced in [__init__] on [confirm_publish]. *)
Definition channel_publish (n : nat) (msg : message)
    (exchange routing_key mandatory immediate : value) (timeout confirm_timeout : option Z)
    : st (session P) unit :=
  if cf_confirm_publish cfg
  then channel_basic_publish_confirm n msg exchange routing_key mandatory immediate timeout
         confirm_timeout
  else channel_basic_publish n msg exchange routing_key mandatory immediate timeout.
End turn.

(** [drain_events]: [while not self.blocking_read(timeout): pass].  The
    calls made inside a turn have one unit of fuel less. *)
Fixpoint drain_events (fuel : nat) (timeout : option Z) : st (session P) unit :=
  match fuel with
  | O => lift OutOfFuel
  | S fuel =>
      delivered ← blocking_read fuel (drain_events fuel) timeout;
      if (delivered : bool) then mret tt else drain_events fuel timeout
  end.
End session.

(** [LIBRARY_PROPERTIES]. *)
Definition LIBRARY_PROPERTIES : list (dict_key * value) :=
  [ (KStr (str_of "product"), VStr (str_of "py-amqp"));
    (KStr (str_of "product_version"), VStr (str_of "5.3.1")) ].

(** The connection as an object; it has no use for most of the attributes. *)
Definition connection_object (on_open : option nat) : object :=
  Object false true (Some 0) false ∅ false VNone [] [] [] [] false on_open.

(** [Connection.__init__]; [dials] is what its connections will meet, and
    [t] stands for the missing transport. *)
Definition new_connection {P} (client_properties : list (dict_key * value))
    (channel_max frame_max : option Z) (heartbeat : option Z) (on_open : option nat)
    (t : transport) (dials : list dial) : session P :=
  Session (Io t false None 0 None dials)
    {[ 0%nat := connection_object on_open ]}
    ∅ 1 (Some {[ 0 := 0%nat ]}) [] false
    (Tuning (num_or (default 0 channel_max) 65535) (num_or (default 0 frame_max) 131072)
       heartbeat 0 0)
    (foldl (fun d p => dict_set d p.1 p.2) LIBRARY_PROPERTIES client_properties)
    (Server (VInt 0) (VInt 0) (VDict []) [] []) [].
