(* ===== verification/SessionFuel.v ===== *)
(** * The bounds of the session do not matter

    The loops of [Session.v] run on fuel; what they compute within some fuel
    they compute with any more. *)

From S2P Require Import Prelude Exceptions State Struct Utf8 Values Table Codec Content Framing.
From S2P Require Import Transport Sasl Conn Rpc Session.
From S2P Require Spec.

Open Scope Z_scope.

(** ** More fuel changes nothing *)

Create HintDb py_mono discriminated.
#[export] Hint Constants Opaque : py_mono.
#[export] Hint Resolve st_le_fuel : py_mono.
#[export] Hint Extern 0 (st_le ?m ?m') => constr_eq m m'; apply st_le_refl : py_mono.

(** Walks through the code down to the parts that do not depend on the fuel. *)
Ltac st_le_step :=
  match goal with
  | |- st_le ?m ?m' => constr_eq m m'; apply st_le_refl
  | |- st_le (mbind _ _) (mbind _ _) => apply st_le_bind
  | |- st_le (st_try _ _ _) (st_try _ _ _) => apply st_le_try
  | |- st_le (st_finally _ _) (st_finally _ _) => apply st_le_finally
  | |- st_le (st_iter _ _) (st_iter _ _) => apply st_le_iter
  | |- st_le (when ?b _) (when ?b _) => destruct b; unfold when
  | |- forall _, _ => intros
  | |- st_le (let '(_, _) := ?x in _) _ => destruct x
  | |- st_le (match ?x with _ => _ end) _ => destruct x
  end.
Ltac st_le_tac := repeat first [solve [auto with py_mono] | st_le_step].

Section fuel.
Context {P : Type} `{!Vine P} (os_nt : bool).
Context (other_codec : pystr -> pystr -> py bytes) (other_decode : bytes -> pystr -> py pystr).
Context (unwrap shutdown sock_close : transport -> py unit).
Context (user : user_call -> st (session P) unit) (cfg : config).

Section turn.
Context (k k' : nat) (drain drain' : option Z -> st (session P) unit).
Context (Hk : (k <= k')%nat) (Hdrain : forall t, st_le (drain t) (drain' t)).

Lemma handshake_loop_le j j' t :
  (j <= j')%nat -> st_le (handshake_loop drain j t) (handshake_loop drain' j' t).
Proof.
  revert j'. induction j as [|j IH]; intros [|j'] Hj; [apply st_le_refl|apply st_le_fuel|lia|].
  cbn [handshake_loop]. st_le_tac. apply IH. lia.
Qed.

Lemma connect_le cb :
  st_le (connect unwrap shutdown sock_close user cfg k drain cb)
        (connect unwrap shutdown sock_close user cfg k' drain' cb).
Proof. unfold connect. st_le_tac. by apply handshake_loop_le. Qed.

Hint Resolve connect_le : py_mono.

Ltac mono := st_le_tac.

Lemma force_connect_le is_none :
  st_le (force_connect unwrap shutdown sock_close user cfg k drain is_none)
        (force_connect unwrap shutdown sock_close user cfg k' drain' is_none).
Proof. unfold force_connect. mono. Qed.
Hint Resolve force_connect_le : py_mono.

Lemma write_method_le n sig args content :
  st_le (write_method other_codec unwrap shutdown sock_close user cfg k drain n sig args content)
        (write_method other_codec unwrap shutdown sock_close user cfg k' drain' n sig args content).
Proof. unfold write_method. mono. Qed.
Hint Resolve write_method_le : py_mono.

Lemma send_method_le n r c c' :
  st_le c c' ->
  st_le (send_method other_codec unwrap shutdown sock_close user cfg k drain n r c)
        (send_method other_codec unwrap shutdown sock_close user cfg k' drain' n r c').
Proof. intros Hc. unfold send_method. mono. Qed.
Hint Resolve send_method_le : py_mono.

Lemma wait_loop_le j j' n p t :
  (j <= j')%nat -> st_le (wait_loop drain j n p t) (wait_loop drain' j' n p t).
Proof.
  revert j'. induction j as [|j IH]; intros [|j'] Hj; [apply st_le_refl|apply st_le_fuel|lia|].
  cbn [wait_loop]. mono. apply IH. lia.
Qed.
Hint Resolve wait_loop_le : py_mono.

Lemma wait_le n ms c t : st_le (wait k drain n ms c t) (wait k' drain' n ms c t).
Proof. unfold wait. mono. Qed.
Hint Resolve wait_le : py_mono.

Lemma rpc_le n r :
  st_le (rpc other_codec unwrap shutdown sock_close user cfg k drain n r)
        (rpc other_codec unwrap shutdown sock_close user cfg k' drain' n r).
Proof. unfold rpc. mono. Qed.
Hint Resolve rpc_le : py_mono.

Lemma channel_open_le n :
  st_le (channel_open other_codec unwrap shutdown sock_close user cfg k drain n)
        (channel_open other_codec unwrap shutdown sock_close user cfg k' drain' n).
Proof. unfold channel_open. mono. Qed.
Hint Resolve channel_open_le : py_mono.

Lemma on_tune_sent_le :
  st_le (on_tune_sent other_codec unwrap shutdown sock_close user cfg k drain)
        (on_tune_sent other_codec unwrap shutdown sock_close user cfg k' drain').
Proof. unfold on_tune_sent. mono. Qed.
Hint Resolve on_tune_sent_le : py_mono.

(** The listeners of the two tables are there for the same methods. *)
Definition listeners_le {S} (l l' : option (list arg -> st S unit)) : Prop :=
  option_Forall2 (fun l l' => forall args, st_le (l args) (l' args)) l l'.

Lemma listener_le n sig :
  listeners_le
    (listener other_codec unwrap shutdown sock_close user cfg k drain n sig)
    (listener other_codec unwrap shutdown sock_close user cfg k' drain' n sig).
Proof.
  unfold listener, connection_listener, channel_listener, listeners_le.
  destruct n as [|n]; repeat case_decide; constructor; intros; mono;
    unfold on_start, on_tune, connection_on_close, channel_on_close, do_revive,
      on_flow, on_basic_deliver; mono.
Qed.

Lemma run_listeners_le n sig m payload content p :
  st_le (run_listeners other_codec unwrap shutdown sock_close user cfg k drain n sig m payload content p)
        (run_listeners other_codec unwrap shutdown sock_close user cfg k' drain' n sig m payload content p).
Proof.
  unfold run_listeners. apply st_le_bind; [mono|intros args]. apply st_le_bind; [|mono].
  destruct (listener_le n sig) as [l l' Hl|]; [apply Hl|mono].
Qed.
Hint Resolve run_listeners_le : py_mono.

Lemma dispatch_method_le n sig payload content :
  st_le (dispatch_method other_codec other_decode unwrap shutdown sock_close user cfg k drain n sig
           payload content)
        (dispatch_method other_codec other_decode unwrap shutdown sock_close user cfg k' drain' n sig
           payload content).
Proof.
  unfold dispatch_method. apply st_le_bind; [mono|intros closing]. destruct (_ && _); [mono|].
  apply st_le_bind; [mono|intros decode]. destruct (sig ≫= _) as [[sig' m]|]; [|mono].
  apply st_le_bind; [mono|intros one_shot]. destruct one_shot, (listener_le n sig'); mono.
Qed.
Hint Resolve dispatch_method_le : py_mono.

Lemma blocking_read_le t :
  st_le (blocking_read os_nt other_codec other_decode unwrap shutdown sock_close user cfg k drain t)
        (blocking_read os_nt other_codec other_decode unwrap shutdown sock_close user cfg k' drain' t).
Proof. unfold blocking_read, on_inbound_frame, on_inbound_method. mono. Qed.

End turn.

(** the bounds do not matter.  When [drain_events] ends within some
    fuel, with a result or an exception, it ends in the same way with more. *)
Theorem drain_events_fuel k k' t :
  (k <= k')%nat ->
  st_le (drain_events os_nt other_codec other_decode unwrap shutdown sock_close user cfg k t)
        (drain_events os_nt other_codec other_decode unwrap shutdown sock_close user cfg k' t).
Proof.
  revert k' t. induction k as [|k IH]; intros [|k'] t Hk; [apply st_le_refl|apply st_le_fuel|lia|].
  cbn [drain_events]. apply st_le_bind.
  - apply blocking_read_le; [lia|]. intros t'. apply IH. lia.
  - intros [|]; [apply st_le_refl|]. apply IH. lia.
Qed.
End fuel.
