(* ===== verification/SessionDemo.v ===== *)
(** * A broker to run the session against

    A concrete environment: a configuration, a user whose functions do
    nothing, and the bytes a broker sends, on which the definitions of
    [Session.v] are evaluated. *)

From S2P Require Import Prelude Exceptions State Struct Utf8 Values Table Codec Content Framing.
From S2P Require Import Transport Sasl Conn Rpc Session.
From S2P Require Spec.

Open Scope Z_scope.

Definition demo_config : config :=
  Config (default_authentication (Some (str_of "guest")) (Some (str_of "guest")))
    (VStr (str_of "en_US")) (VStr (str_of "/")) None false None None.

Definition demo_user {P} (c : user_call) : st (session P) unit := mret tt.

(** No encoding but UTF-8, and sockets that close. *)
Definition no_codec (s e : pystr) : py bytes := Raise ValueError.
Definition no_decode (b : bytes) (e : pystr) : py pystr := Raise ValueError.
Definition closes (t : transport) : py unit := Ok tt.

(** The bytes of a frame with a method. *)
Definition method_bytes (ch : Z) (sig : method_sig) (fmt : string) (args : list value) : bytes :=
  match (sb ← pack_sig sig; a ← dumps (bytes_of fmt) args; pack_frame (Frame 1 ch (sb ++ a))) with
  | Ok b => b
  | _ => []
  end.

(** The frames of a method with content, and their bytes. *)
Definition demo_frames (ch : Z) (sig : method_sig) (args : bytes) (ps : props) (body : bytes) : list frame :=
  [ Frame 1 ch (ok_or [] (pack_sig sig) ++ args);
    Frame 2 ch (ok_or [] (pack_header Spec.Basic.CLASS_ID (zlen body)) ++
                ok_or [] (serialize_properties PROPERTIES ps));
    Frame 3 ch body ].
Definition content_bytes (ch : Z) (sig : method_sig) (args : bytes) (ps : props) (body : bytes) : bytes :=
  ok_or [] (pack_frames (demo_frames ch sig args ps body)).

Definition broker_properties : value :=
  VDict [(KStr (str_of "capabilities"), VDict [(KStr (str_of "connection.blocked"), VBool true)])].

Definition handshake : list event :=
  [ Data (method_bytes 0 Spec.Connection.Start "ooFSS"
      [VInt 0; VInt 9; broker_properties; VStr (str_of "AMQPLAIN PLAIN"); VStr (str_of "en_US")]);
    Data (method_bytes 0 Spec.Connection.Tune "BlB" [VInt 2047; VInt 131072; VInt 60]);
    Data (method_bytes 0 Spec.Connection.OpenOk "s" [VStr []]) ].

(** A socket that accepts what is written. *)
Definition socket (evs : list event) : transport :=
  Transport TCP false false false [] None evs (repeat (Accept 1000) 50) [].

Definition demo_dial (evs : list event) : dial :=
  Dial (socket evs) (Ok [Attempt true (Ok tt) (Ok tt)]) (Ok tt) (Ok tt) (Ok tt).

Abbreviation demo_session := (session (option (list arg))).

Definition demo_connection (evs : list event) : demo_session :=
  new_connection [] None None (Some 60) None (socket []) [demo_dial evs].

(** The operations in this environment, with ten units of fuel. *)
Definition demo_drain : option Z -> st demo_session unit :=
  drain_events false no_codec no_decode closes closes closes demo_user demo_config 10.
Definition demo_connect : st demo_session unit :=
  connect closes closes closes demo_user demo_config 10 demo_drain None.
Definition demo_channel (id : option Z) : st demo_session nat :=
  channel no_codec closes closes closes demo_user demo_config 10 demo_drain id None.
Definition demo_rpc (n : nat) (r : request) : st demo_session (option (list arg)) :=
  rpc no_codec closes closes closes demo_user demo_config 10 demo_drain n r.

Definition open_ok (ch : Z) : event := Data (method_bytes ch Spec.Channel.OpenOk "S" [VStr []]).

Example connect_example :
  let '(s, r) := demo_connect (demo_connection handshake) in
  r = Ok tt /\ s_handshake_complete s = true /\
  s_tuning s = Tuning 2047 131072 (Some 60) 60 60 /\
  dict_get (s_client_properties s) (KStr (str_of "capabilities")) =
    Some (VDict [(KStr (str_of "connection.blocked"), VBool true)]).
Proof. vm_compute. by split_and!. Qed.

Example channel_example :
  let m := demo_connect ;;
           n ← demo_channel None;
           demo_rpc n (queue_purge (VStr (str_of "q")) (VBool false)) in
  (m (demo_connection (handshake ++
      [open_ok 1; Data (method_bytes 1 Spec.Queue.PurgeOk "l" [VInt 7])]))).2 =
    Ok (Some [AVal (VInt 7)]).
Proof. vm_compute. reflexivity. Qed.
