(* ===== verification/Life.v ===== *)
(** * The life of channels, as the protocol promises it

    The abstract machine that [Session.v] implements: a connection that is up
    or down, and channels that are opened under an id no live channel has,
    open and close, and die.  It knows nothing of frames, promises, tables or
    exceptions. *)

From S2P Require Import Prelude.

Open Scope Z_scope.

(** A channel has a connection and an id, and the server has confirmed it or
    not; or it has lost its connection. *)
Inductive phase : Type :=
  | Live (id : Z) (open : bool)
  | Dead.

#[export] Instance phase_eq_dec : EqDecision phase.
Proof. solve_decision. Defined.

Record life : Type := MkLife { up : bool; chans : gmap nat phase }.

Definition is_live (p : phase) : Prop := match p with Live _ _ => True | Dead => False end.
#[export] Instance is_live_dec p : Decision (is_live p).
Proof. destruct p; apply _. Defined.

Definition set_phase (n : nat) (p : phase) (l : life) : life := MkLife (up l) (<[n := p]> (chans l)).

Inductive life_step : life -> life -> Prop :=
  | life_new l n id :
      up l = true -> chans l !! n = None ->
      (forall n' b, chans l !! n' <> Some (Live id b)) ->
      life_step l (set_phase n (Live id false) l)
  | life_open l n id b b' :
      chans l !! n = Some (Live id b) -> life_step l (set_phase n (Live id b') l)
  | life_die l n id b :
      chans l !! n = Some (Live id b) -> life_step l (set_phase n Dead l)
  | life_down l :
      (forall n p, chans l !! n = Some p -> p = Dead) -> life_step l (MkLife false (chans l)).

Abbreviation life_steps := (rtc life_step).

(** ** What the machine guarantees *)

(** No two live channels share an id, and a connection that is down has none. *)
Record life_ok (l : life) : Prop := LifeOk {
  live_distinct n n' id b b' :
    chans l !! n = Some (Live id b) -> chans l !! n' = Some (Live id b') -> n = n';
  live_up n id b : chans l !! n = Some (Live id b) -> up l = true;
}.

Lemma set_phase_inv n p l n' p' :
  chans (set_phase n p l) !! n' = Some p' ->
  (n' = n /\ p' = p) \/ (n' <> n /\ chans l !! n' = Some p').
Proof. cbn. rewrite lookup_insert_Some. intros [[-> ->]|[? ?]]; auto. Qed.

Lemma life_step_ok l l' : life_step l l' -> life_ok l -> life_ok l'.
Proof.
  intros Hstep [Hd Hu].
  destruct Hstep as [l n id Hup Hn Hid|l n id b b' Hn|l n id b Hn|l Hall];
    split; try (intros ? ? ? ? ? [[-> ?]|[? ?]]%set_phase_inv [[-> ?]|[? ?]]%set_phase_inv);
    try (intros ? ? ? [[-> ?]|[? ?]]%set_phase_inv); simplify_eq; eauto; try done;
    try (by exfalso; eapply Hid).
  - intros n id b Hl. by apply Hall in Hl.
Qed.

(** A dead channel stays dead, a live one keeps its id as long as it lives,
    and a connection that is down stays down. *)
Record life_le (l l' : life) : Prop := LifeLe {
  dead_dead n : chans l !! n = Some Dead -> chans l' !! n = Some Dead;
  live_id n id b : chans l !! n = Some (Live id b) ->
    chans l' !! n = Some Dead \/ exists b', chans l' !! n = Some (Live id b');
  down_down : up l = false -> up l' = false;
}.

#[export] Instance life_le_preorder : PreOrder life_le.
Proof.
  split; [split; eauto|]. intros l1 l2 l3 [D1 I1 U1] [D2 I2 U2]. split; [auto| |auto].
  intros n id b [Hl|[b' Hl]]%I1; [left; auto|]. by eapply I2.
Qed.

Lemma life_step_le l l' : life_step l l' -> life_le l l'.
Proof.
  intros Hstep.
  destruct Hstep as [l n id Hup Hn Hid|l n id b b' Hn|l n id b Hn|l Hall]; split;
    cbn; try done; try congruence; eauto;
    intros n' *; rewrite lookup_insert; case_decide; intros; simplify_eq; eauto.
Qed.

Lemma life_steps_ok l l' : life_steps l l' -> life_ok l -> life_ok l'.
Proof. induction 1; eauto using life_step_ok. Qed.

Lemma life_steps_le l l' : life_steps l l' -> life_le l l'.
Proof. induction 1; [done|]. etrans; [by apply life_step_le|done]. Qed.
