(* ===== verification/SessionInv.v ===== *)
(** * Well-formed sessions

    The invariant of the session ([session_ok]), its abstraction to [Life.v],
    and the parts of the code that change the objects: every one of them keeps
    the invariant and makes steps of the abstract machine ([keeps]). *)

From S2P Require Import Prelude Exceptions State Struct Utf8 Values Table Codec Content Framing.
From S2P Require Import Transport Sasl Conn Rpc Session Life.
From S2P Require Spec.

Open Scope Z_scope.

(** ** Well-formed sessions *)

Section invariant.
Context {P : Type}.
Implicit Types s : session P.

(** What links the objects, the table of channels and the ids in use.  A
    channel whose [close] failed has dropped its connection and may still be
    registered; every other registered channel knows its id, and every channel
    that has its connection is registered. *)
Record session_ok s : Prop := SessionOk {
  ok_connection : exists o, s_objects s !! 0%nat = Some o /\ o_channel_id o = Some 0 /\
    (o_connection o = true <-> is_Some (s_channels s));
  ok_zero m : s_channels s = Some m -> m !! 0 = Some 0%nat;
  ok_registered m id n : s_channels s = Some m -> m !! id = Some n ->
    exists o, s_objects s !! n = Some o /\
      (o_channel_id o = Some id \/ o_connection o = false /\ o_channel_id o = None);
  ok_inj m id id' n : s_channels s = Some m -> m !! id = Some n -> m !! id' = Some n -> id = id';
  ok_used m id n : s_channels s = Some m -> m !! id = Some n -> id = 0 \/ id ∈ s_used_ids s;
  ok_ids : NoDup (s_used_ids s);
  ok_live n o : s_objects s !! n = Some o -> n <> 0%nat -> o_connection o = true ->
    exists m id, s_channels s = Some m /\ o_channel_id o = Some id /\ m !! id = Some n;
  ok_pending n o m p : s_objects s !! n = Some o -> o_pending o !! m = Some p ->
    is_Some (s_promises s !! p);
  ok_fresh n : (s_next s <= n)%nat -> s_objects s !! n = None /\ s_promises s !! n = None;
}.

(** The session as the abstract machine sees it: the channels are the objects
    other than the connection. *)
Definition phase_of (o : object) : phase :=
  match o_connection o, o_channel_id o with
  | true, Some id => Live id (o_is_open o)
  | _, _ => Dead
  end.

Definition abs s : life :=
  MkLife (if s_channels s is Some _ then true else false)
         (delete 0%nat (phase_of <$> s_objects s)).

(** Objects and promises stay, and the channels live as they may. *)
Record grows s s' : Prop := Grows {
  grows_objects n : is_Some (s_objects s !! n) -> is_Some (s_objects s' !! n);
  grows_promises n : is_Some (s_promises s !! n) -> is_Some (s_promises s' !! n);
  grows_life : life_steps (abs s) (abs s');
}.

#[export] Instance grows_preorder : PreOrder grows.
Proof. split; [by split; auto|]. intros s1 s2 s3 [H1 H2 H5] [H3 H4 H6]. split; auto. by etrans. Qed.

(** [m] takes well-formed sessions to well-formed ones, also when it raises. *)
Definition keeps {A} (m : st (session P) A) : Prop := forall s,
  session_ok s -> session_ok (m s).1 /\ grows s (m s).1.

Lemma keeps_same {A} (m : st (session P) A) : (forall s, (m s).1 = s) -> keeps m.
Proof. intros H s Hs. rewrite H. done. Qed.

Lemma keeps_ret {A} (a : A) : keeps (mret a).
Proof. by apply keeps_same. Qed.
Lemma keeps_lift {A} (m : py A) : keeps (lift m).
Proof. by apply keeps_same. Qed.
Lemma keeps_raise {A} e : keeps (raise (A := A) e).
Proof. by apply keeps_same. Qed.
Lemma keeps_gets {A} (f : session P -> A) : keeps (gets f).
Proof. by apply keeps_same. Qed.
Lemma keeps_attr {A} n (f : object -> A) : keeps (attr n f).
Proof. apply keeps_same. intros s. unfold attr. by destruct (_ !! _). Qed.
Lemma keeps_promise p : keeps (promise p).
Proof. by apply keeps_same. Qed.

Lemma keeps_bind {A B} (m : st (session P) A) (f : A -> st (session P) B) :
  keeps m -> (forall a, keeps (f a)) -> keeps (m ≫= f).
Proof.
  intros Hm Hf s Hs. destruct (Hm s Hs) as [H1 H2]. unfold mbind, st_bind.
  destruct (m s) as [s1 [a|e|]]; cbn in *; [|done..].
  destruct (Hf a s1 H1) as [H3 H4]. split; [done|by etrans].
Qed.

Lemma keeps_when b m : keeps m -> keeps (when b m).
Proof. intros. destruct b; [done|apply keeps_ret]. Qed.

Lemma keeps_try {A} (m : st (session P) A) c h :
  keeps m -> (forall e, keeps (h e)) -> keeps (st_try m c h).
Proof.
  intros Hm Hh s Hs. destruct (Hm s Hs) as [H1 H2]. unfold st_try.
  destruct (m s) as [s1 [a|e|]]; cbn in *; [done| |done]. destruct (c e); [|done].
  destruct (Hh e s1 H1) as [H3 H4]. split; [done|by etrans].
Qed.

(** The [finally] clause runs in a session that has grown. *)
Lemma finally_ok {A} (m : st (session P) A) f s :
  keeps m -> session_ok s ->
  (forall s', session_ok s' -> grows s s' -> session_ok (f s').1 /\ grows s' (f s').1) ->
  session_ok (st_finally m f s).1 /\ grows s (st_finally m f s).1.
Proof.
  intros Hm Hs Hf. destruct (Hm s Hs) as [H1 H2]. unfold st_finally.
  destruct (m s) as [s1 r]; cbn in *. destruct (Hf s1 H1 H2) as [H3 H4].
  destruct r; [| |done]; destruct (f s1) as [s2 []]; cbn in *; split; try done; by etrans.
Qed.

Lemma keeps_finally {A} (m : st (session P) A) f : keeps m -> keeps f -> keeps (st_finally m f).
Proof. intros Hm Hf s Hs. apply finally_ok; auto. Qed.

Lemma keeps_iter {B} (f : B -> st (session P) unit) l :
  (forall x, x ∈ l -> keeps (f x)) -> keeps (st_iter f l).
Proof.
  induction l as [|x l IH]; intros Hf; cbn; [apply keeps_ret|].
  apply keeps_bind; [apply Hf; left|]. intros _. apply IH. intros y Hy. apply Hf. by right.
Qed.

(** Changes outside of the invariant. *)
Definition same_core s s' : Prop :=
  s_objects s' = s_objects s /\ s_promises s' = s_promises s /\ s_next s' = s_next s /\
  s_channels s' = s_channels s /\ s_used_ids s' = s_used_ids s.

Lemma same_core_ok s s' : same_core s s' -> session_ok s -> session_ok s' /\ grows s s'.
Proof.
  intros (Ho & Hp & Hn & Hc & Hu) [].
  split; [split; rewrite ?Ho, ?Hp, ?Hn, ?Hc, ?Hu; eauto|].
  split; [by rewrite Ho|by rewrite Hp|]. unfold abs. by rewrite Ho, Hc.
Qed.

Lemma keeps_modify f : (forall s, same_core s (f s)) -> keeps (modify f).
Proof. intros H s Hs. by apply same_core_ok. Qed.

Lemma keeps_same_core {A} (m : st (session P) A) : (forall s, same_core s (m s).1) -> keeps m.
Proof. intros H s Hs. by apply same_core_ok. Qed.

Lemma keeps_zoom_io {A} (m : st io A) : keeps (zoom_io m).
Proof.
  intros s Hs. unfold zoom_io, zoom. destruct (m (s_io s)) as [x r].
  by apply same_core_ok.
Qed.
End invariant.

(** ** Changing an object *)

Section changes.
Context {P : Type}.
Implicit Types s : session P.

(** The changes of an attribute that keep what the table knows. *)
Definition mild s (n : nat) (f : object -> object) : Prop := forall o,
  s_objects s !! n = Some o ->
  o_channel_id (f o) = o_channel_id o /\
  (o_connection (f o) = true -> o_connection o = true) /\
  (n = 0%nat -> o_connection (f o) = o_connection o) /\
  (forall m p, o_pending (f o) !! m = Some p -> is_Some (s_promises s !! p)).

Lemma alter_inv (f : object -> object) n (os : gmap nat object) n' o' :
  alter f n os !! n' = Some o' ->
  exists o, os !! n' = Some o /\ (n' = n /\ o' = f o \/ n' <> n /\ o' = o).
Proof.
  destruct (decide (n' = n)) as [->|Hne].
  - rewrite lookup_alter_eq. intros (o & Ho & ->)%fmap_Some. eauto.
  - rewrite lookup_alter_ne by done. eauto 6.
Qed.

Lemma alter_get (f : object -> object) n (os : gmap nat object) n' o :
  os !! n' = Some o -> exists o', alter f n os !! n' = Some o' /\
    (n' = n /\ o' = f o \/ n' <> n /\ o' = o).
Proof.
  intros Ho. destruct (decide (n' = n)) as [->|Hne].
  - rewrite lookup_alter_eq, Ho. cbn. eauto.
  - rewrite lookup_alter_ne by done. eauto 6.
Qed.

Lemma alter_insert_eq' (f : object -> object) n o (os : gmap nat object) :
  os !! n = Some o -> alter f n os = <[n := f o]> os.
Proof.
  intros Ho. apply map_eq. intros i. destruct (decide (i = n)) as [->|Hne].
  - by rewrite lookup_alter_eq, lookup_insert_eq, Ho.
  - by rewrite lookup_alter_ne, lookup_insert_ne.
Qed.

(** The abstract machine and one changed object. *)
Lemma abs_insert s n o :
  n <> 0%nat ->
  abs (set_objects (<[n := o]> (s_objects s)) s) = set_phase n (phase_of o) (abs s).
Proof.
  intros Hn. unfold abs, set_phase. cbn. by rewrite fmap_insert, delete_insert_ne by done.
Qed.

Lemma abs_insert_0 s o : abs (set_objects (<[0%nat := o]> (s_objects s)) s) = abs s.
Proof. unfold abs. cbn. by rewrite fmap_insert, delete_insert_eq. Qed.

Lemma abs_lookup s n o :
  n <> 0%nat -> s_objects s !! n = Some o -> chans (abs s) !! n = Some (phase_of o).
Proof. intros Hn Ho. cbn. by rewrite lookup_delete_ne, lookup_fmap, Ho. Qed.

Lemma set_phase_same l n p : chans l !! n = Some p -> set_phase n p l = l.
Proof. intros H. unfold set_phase. rewrite insert_id by done. by destruct l. Qed.

Lemma life_steps_phase s n o o' :
  n <> 0%nat -> s_objects s !! n = Some o -> o_channel_id o' = o_channel_id o ->
  (o_connection o' = true -> o_connection o = true) ->
  life_steps (abs s) (set_phase n (phase_of o') (abs s)).
Proof.
  intros Hn Ho Hid Hc. pose proof (abs_lookup s n o Hn Ho) as Hl. unfold phase_of in *.
  rewrite Hid. destruct (o_channel_id o) as [id|], (o_connection o), (o_connection o');
    try (by rewrite set_phase_same); try (by specialize (Hc eq_refl)).
  - apply rtc_once. by eapply life_open.
  - apply rtc_once. by eapply life_die.
Qed.

Lemma life_steps_dead s n o :
  n <> 0%nat -> s_objects s !! n = Some o -> life_steps (abs s) (set_phase n Dead (abs s)).
Proof.
  intros Hn Ho. pose proof (abs_lookup s n o Hn Ho) as Hl.
  destruct (phase_of o) as [id b|]; [|by rewrite set_phase_same].
  apply rtc_once. by eapply life_die.
Qed.

Lemma mild_life n f s :
  mild s n f -> life_steps (abs s) (abs (set_objects (alter f n (s_objects s)) s)).
Proof.
  intros Hm. destruct (s_objects s !! n) as [o|] eqn:Ho.
  - rewrite (alter_insert_eq' f n o) by done. destruct (decide (n = 0%nat)) as [->|Hn].
    + by rewrite abs_insert_0.
    + rewrite abs_insert by done. destruct (Hm o Ho) as (H1 & H2 & _). by eapply life_steps_phase.
  - rewrite alter_id by (intros; congruence). by destruct s.
Qed.

Lemma mild_ok n f s :
  session_ok s -> mild s n f ->
  session_ok (set_objects (alter f n (s_objects s)) s) /\
  grows s (set_objects (alter f n (s_objects s)) s).
Proof.
  intros [Hc Hz Hr Hi Hu Hn Hl Hp Hf] Hm. split; [|split; [|done|by apply mild_life]]; cbn.
  - split; cbn; try done.
    + destruct Hc as (o & Ho & Hid & Hcn). destruct (alter_get f n _ _ _ Ho) as (o' & Ho' & [[<- ->]|[_ ->]]);
        [|eauto]. destruct (Hm o Ho) as (H1 & _ & H3 & _). exists (f o). rewrite H1, H3; eauto.
    + intros m id n' Hch Hmn. destruct (Hr m id n' Hch Hmn) as (o & Ho & Hid).
      destruct (alter_get f n _ _ _ Ho) as (o' & Ho' & [[-> ->]|[_ ->]]); [|eauto].
      destruct (Hm o Ho) as (H1 & H2 & _). exists (f o). split; [done|]. rewrite H1.
      destruct Hid as [?|[Hcf ?]]; [by left|right]. split; [|done].
      destruct (o_connection (f o)); [|done]. by rewrite H2 in Hcf.
    + intros n' o' (o & Ho & [[-> ->]|[_ ->]])%alter_inv Hne Hcn; [|eauto].
      destruct (Hm o Ho) as (H1 & H2 & _). rewrite H1. eauto.
    + intros n' o' m p (o & Ho & [[-> ->]|[_ ->]])%alter_inv Hmp; [|eauto].
      destruct (Hm o Ho) as (_ & _ & _ & H4). eauto.
    + intros n' Hn'. destruct (Hf n' Hn') as [H1 H2]. split; [|done].
      destruct (alter f n (s_objects s) !! n') eqn:E; [|done].
      apply alter_inv in E as (o' & Ho' & _). congruence.
  - intros n' [o Ho]. destruct (alter_get f n _ _ _ Ho) as (o' & Ho' & _). eauto.
Qed.

Lemma keeps_upd n f : (forall s, session_ok s -> mild s n f) -> keeps (P := P) (upd n f).
Proof. intros H s Hs. apply mild_ok; auto. Qed.

(** An attribute that has nothing to do with the table. *)
Definition inert (f : object -> object) : Prop := forall o,
  o_channel_id (f o) = o_channel_id o /\ o_connection (f o) = o_connection o /\
  o_pending (f o) = o_pending o.

Lemma keeps_inert n f : inert f -> keeps (P := P) (upd n f).
Proof.
  intros H. apply keeps_upd. intros s Hs o Ho. destruct (H o) as (-> & -> & ->).
  split_and!; [done..|]. intros m p. by apply (ok_pending s Hs n o).
Qed.

Lemma keeps_take_pending n sig : keeps (P := P) (take_pending n sig).
Proof.
  intros s Hs. unfold take_pending. rewrite st_bind_eq. unfold attr.
  destruct (s_objects s !! n) as [o|] eqn:Ho; [|done].
  apply mild_ok; [done|]. intros o' Ho'. simplify_eq. cbn. split_and!; [done..|].
  intros m p [_ Hp]%lookup_delete_Some. by apply (ok_pending s Hs n o m).
Qed.

Lemma keeps_call_user (user : user_call -> st (session P) unit) c :
  (forall c, keeps (user c)) -> keeps (call_user user c).
Proof. intros H. apply keeps_bind; [by apply keeps_modify|auto]. Qed.

Lemma keeps_call_opt (user : user_call -> st (session P) unit) f c :
  (forall c, keeps (user c)) -> keeps (call_opt user f c).
Proof. intros H. destruct f; [by apply keeps_call_user|apply keeps_ret]. Qed.
End changes.

(** ** Collecting *)

Section collecting.
Context {P : Type}.
Implicit Types s : session P.

(** What [Channel.collect] leaves of the object. *)
Definition collected (o : object) : object :=
  cleared (set_connection false None (set_is_open false o)).

(** What it does to the connection. *)
Definition unregistered (o : object) s : session P :=
  match o_connection o, o_channel_id o, s_channels s with
  | true, Some id, Some m =>
      set_used_ids (remove_channel_id (s_used_ids s) id) (set_channels (Some (delete id m)) s)
  | _, _, _ => s
  end.

Lemma channel_collect_eq n o s :
  session_ok s -> n <> 0%nat -> s_objects s !! n = Some o ->
  channel_collect n s =
    (set_objects (<[n := collected o]> (s_objects s)) (unregistered o s), Ok tt).
Proof.
  intros Hs Hn Ho. unfold channel_collect, upd, modify, attr, when, unregister, gets, lift, unregistered.
  unfold mbind, st_bind. cbn. rewrite lookup_alter_eq, Ho. cbn. rewrite lookup_alter_eq, Ho. cbn.
  unfold collected.
  assert (forall f g h : object -> object,
    alter h n (alter g n (alter f n (s_objects s))) = <[n := h (g (f o))]> (s_objects s)) as Halt.
  { intros f g h. apply map_eq. intros i. destruct (decide (i = n)) as [->|Hne].
    - by rewrite !lookup_alter_eq, lookup_insert_eq, Ho.
    - by rewrite !lookup_alter_ne, lookup_insert_ne. }
  destruct (o_connection o) eqn:Hc; cbn.
  - destruct (ok_live s Hs n o Ho Hn Hc) as (m & id & Hm & Hid & _). rewrite Hm, Hid. cbn.
    by rewrite Halt.
  - by rewrite Halt.
Qed.

Lemma remove_channel_id_other used id x :
  x <> id -> x ∈ used -> x ∈ remove_channel_id used id.
Proof.
  intros Hne. induction used as [|y used IH]; cbn; [done|].
  case_decide as E; [subst; intros [?|?]%elem_of_cons; done|].
  intros [->|Hx]%elem_of_cons; [left|right; auto].
Qed.

Lemma insert_collected n (os : gmap nat object) o n' :
  <[n := collected o]> os !! n' = if decide (n = n') then Some (collected o) else os !! n'.
Proof. apply lookup_insert. Qed.

(** A channel that has dropped its connection stays registered. *)
Lemma collected_dropped n o s :
  session_ok s -> n <> 0%nat -> s_objects s !! n = Some o -> o_connection o = false ->
  session_ok (set_objects (<[n := collected o]> (s_objects s)) s).
Proof.
  intros [Hc Hz Hr Hi Hu Hn Hl Hp Hf] Hn0 Ho Hco. split; cbn -[collected]; try done.
  - destruct Hc as (o0 & Ho0 & ?). exists o0. rewrite insert_collected. by case_decide.
  - intros m id n' Hch Hmn. destruct (Hr m id n' Hch Hmn) as (o' & Ho' & Hid).
    rewrite insert_collected. case_decide as E; [|eauto]. exists (collected o). split; [done|]. by right.
  - intros n' o'. rewrite insert_collected. case_decide; intros; simplify_eq; eauto.
  - intros n' o' m p. rewrite insert_collected. case_decide; intros; simplify_eq; cbn in *; eauto.
  - intros n' Hn'. rewrite insert_collected. destruct (Hf n' Hn'). case_decide; [congruence|done].
Qed.

Lemma collected_live n o s m id :
  session_ok s -> n <> 0%nat -> s_objects s !! n = Some o ->
  s_channels s = Some m -> o_channel_id o = Some id -> m !! id = Some n ->
  session_ok (set_objects (<[n := collected o]> (s_objects s))
    (set_used_ids (remove_channel_id (s_used_ids s) id) (set_channels (Some (delete id m)) s))).
Proof.
  intros [Hc Hz Hr Hi Hu Hn Hl Hp Hf] Hn0 Ho Hm Hid Hmid. split; cbn -[collected].
  - destruct Hc as (o0 & Ho0 & Hi0 & Hs). exists o0. rewrite insert_collected. case_decide; [done|].
    split_and!; [done..|]. rewrite Hs, Hm. by split; eauto.
  - intros m' ?. simplify_eq. rewrite lookup_delete_ne; [auto|]. intros ->. rewrite (Hz m Hm) in Hmid.
    by simplify_eq.
  - intros m' id' n' [= <-] [Hne Hmn]%lookup_delete_Some.
    destruct (Hr m id' n' Hm Hmn) as (o' & Ho' & Hid'). rewrite insert_collected.
    case_decide; [|eauto]. subst. by destruct Hne; apply (Hi m id id' n').
  - intros m' id' id'' n' [= <-] [_ H1]%lookup_delete_Some [_ H2]%lookup_delete_Some. eauto.
  - intros m' id' n' [= <-] [Hne Hmn]%lookup_delete_Some.
    destruct (Hu m id' n' Hm Hmn); [by left|right]. by apply remove_channel_id_other.
  - by apply remove_channel_id_nodup.
  - intros n' o'. rewrite insert_collected. case_decide as E; intros Ho' Hne Hc'; [by simplify_eq|].
    destruct (Hl n' o') as (m' & id' & ? & ? & ?); [done..|]. simplify_eq. exists (delete id m), id'.
    split_and!; [done..|]. rewrite lookup_delete_ne; [done|]. intros ->. congruence.
  - intros n' o' m' p. rewrite insert_collected. case_decide; intros; simplify_eq; cbn in *; eauto.
  - intros n' Hn'. rewrite insert_collected. destruct (Hf n' Hn'). case_decide; [congruence|done].
Qed.

Lemma collected_ok n o s :
  session_ok s -> n <> 0%nat -> s_objects s !! n = Some o ->
  session_ok (set_objects (<[n := collected o]> (s_objects s)) (unregistered o s)).
Proof.
  intros Hs Hn Ho. unfold unregistered. destruct (o_connection o) eqn:Hco; [|by apply collected_dropped].
  destruct (ok_live s Hs n o Ho Hn Hco) as (m & id & Hm & Hid & Hmid). rewrite Hm, Hid.
  by apply collected_live.
Qed.

Lemma abs_collected n o s :
  n <> 0%nat ->
  abs (set_objects (<[n := collected o]> (s_objects s)) (unregistered o s)) =
    set_phase n Dead (abs s).
Proof.
  intros Hn. change Dead with (phase_of (collected o)). rewrite <- abs_insert by done.
  unfold unregistered, abs.
  by destruct (o_connection o), (o_channel_id o), (s_channels s) eqn:E; cbn; rewrite ?E.
Qed.

Lemma keeps_channel_collect n : n <> 0%nat -> keeps (P := P) (channel_collect n).
Proof.
  intros Hn s Hs. destruct (s_objects s !! n) as [o|] eqn:Ho.
  - rewrite (channel_collect_eq n o) by done. cbn -[collected unregistered].
    split; [by apply collected_ok|].
    split; [| |rewrite abs_collected by done; by eapply life_steps_dead];
      unfold unregistered; cbn -[collected].
    + intros n' Hn'. rewrite insert_collected. case_decide; [eauto|].
      by destruct (o_connection o), (o_channel_id o), (s_channels s).
    + by destruct (o_connection o), (o_channel_id o), (s_channels s).
  - unfold channel_collect, mbind, st_bind, upd, modify, attr. cbn.
    rewrite lookup_alter_eq, Ho. cbn. apply mild_ok; [done|]. intros o Ho'. congruence.
Qed.
End collecting.

Section collect_connection.
Context {P : Type} (unwrap shutdown sock_close : transport -> py unit).
Implicit Types s : session P.

Lemma collected_idem o : collected (collected o) = collected o.
Proof. done. Qed.

(** Collecting registered channels: nothing else changes, and it cannot fail. *)
Lemma collect_each l s m :
  session_ok s -> s_channels s = Some m ->
  (forall n, n ∈ l -> n <> 0%nat /\ is_Some (s_objects s !! n)) ->
  exists s' m', st_iter channel_collect l s = (s', Ok tt) /\ session_ok s' /\ grows s s' /\
    s_io s' = s_io s /\ s_log s' = s_log s /\ s_channels s' = Some m' /\ m' ⊆ m /\
    forall n, s_objects s' !! n =
      if decide (n ∈ l) then collected <$> s_objects s !! n else s_objects s !! n.
Proof.
  revert s m. induction l as [|n l IH]; intros s m Hs Hm Hl.
  { exists s, m. split_and!; try done. }
  destruct (Hl n ltac:(left)) as [Hn [o Ho]]. cbn [st_iter].
  pose proof (keeps_channel_collect n Hn s Hs) as [Hok Hgr].
  rewrite (st_bind_ok _ _ _ _ _ (channel_collect_eq n o s Hs Hn Ho)).
  rewrite (channel_collect_eq n o s Hs Hn Ho) in Hok, Hgr. cbn [fst] in Hok, Hgr.
  set (s1 := set_objects (<[n := collected o]> (s_objects s)) (unregistered o s)) in *.
  assert (exists m1, s_channels s1 = Some m1 /\ m1 ⊆ m) as (m1 & Hm1 & Hsub).
  { unfold s1, unregistered. cbn -[collected]. rewrite Hm. destruct (o_connection o), (o_channel_id o) as [id|];
      cbn; eauto. exists (delete id m). split; [done|]. apply delete_subseteq. }
  assert (s_io s1 = s_io s /\ s_log s1 = s_log s) as [Hio Hlog].
  { unfold s1, unregistered. by destruct (o_connection o), (o_channel_id o), (s_channels s). }
  destruct (IH s1 m1 Hok Hm1) as (s' & m' & Hr & Hok' & Hgr' & Hio' & Hlog' & Hm' & Hsub' & Hobj).
  { intros n' Hn'. split; [by apply Hl; right|]. apply Hgr, Hl. by right. }
  exists s', m'. split_and!; try done; [by etrans|congruence|congruence|by etrans|].
  intros n'. rewrite Hobj. unfold s1. cbn -[collected]. rewrite insert_collected.
  destruct (decide (n = n')) as [->|Hne].
  - rewrite Ho. rewrite (decide_True (P := n' ∈ n' :: l)) by left. by case_decide.
  - destruct (decide (n' ∈ l)); [rewrite decide_True by (by right); done|].
    rewrite decide_False; [done|]. intros [->|]%elem_of_cons; done.
Qed.

Lemma other_channels_elem (m : gmap Z nat) n :
  n ∈ other_channels m <-> n <> 0%nat /\ exists id, m !! id = Some n.
Proof.
  unfold other_channels. rewrite list_elem_of_filter, list_elem_of_fmap.
  split; intros [Hn H]; (split; [done|]).
  - destruct H as ([id n'] & -> & H). apply elem_of_map_to_list in H. eauto.
  - destruct H as [id H]. exists (id, n). split; [done|]. by apply elem_of_map_to_list.
Qed.

(** The end of [Connection.collect]. *)
Definition dropped s : session P :=
  set_channels None (set_objects (alter (fun o => set_connection false (o_channel_id o) o) 0%nat
    (s_objects s)) (set_io (set_x_has false (s_io s)) s)).

Lemma dropped_life s :
  (forall n o, n <> 0%nat -> s_objects s !! n = Some o -> o_connection o = false) ->
  life_steps (abs s) (abs (dropped s)).
Proof.
  intros Hdead. apply rtc_once. replace (abs (dropped s)) with (MkLife false (chans (abs s))).
  - apply life_down. cbn. intros n p [Hn Hp]%lookup_delete_Some.
    rewrite lookup_fmap in Hp. apply fmap_Some in Hp as (o & Ho & ->).
    unfold phase_of. by rewrite (Hdead n o).
  - unfold abs, dropped. cbn. f_equal. apply map_eq. intros n. rewrite !lookup_delete.
    case_decide; [done|]. by rewrite !lookup_fmap, lookup_alter_ne.
Qed.

Lemma dropped_ok s :
  session_ok s ->
  (forall n o, n <> 0%nat -> s_objects s !! n = Some o -> o_connection o = false) ->
  session_ok (dropped s) /\ grows s (dropped s).
Proof.
  intros [Hc Hz Hr Hi Hu Hn Hl Hp Hf] Hdead.
  split; [split; cbn; try done|split; [cbn|done|by apply dropped_life]].
  - destruct Hc as (o & Ho & Hid & _). rewrite lookup_alter_eq, Ho. cbn. eexists.
    split; [done|]. cbn. split; [done|]. split; [done|by intros []].
  - intros n o (o' & Ho' & [[-> ->]|[Hne ->]])%alter_inv Hn0 Hcn; [done|].
    by rewrite (Hdead n o') in Hcn.
  - intros n o m p (o' & Ho' & [[-> ->]|[Hne ->]])%alter_inv Hmp; eauto.
  - intros n Hn'. destruct (Hf n Hn') as [H1 H2]. split; [|done].
    destruct (alter _ _ _ !! n) eqn:E; [|done]. apply alter_inv in E as (o' & Ho' & _). congruence.
  - intros n [o Ho].
    destruct (alter_get (fun o => set_connection false (o_channel_id o) o) 0 _ _ _ Ho) as (o' & Ho' & _).
    eauto.
Qed.

(** [Connection.collect] after the transport is closed. *)
Lemma collect_rest s :
  session_ok s ->
  exists s1, session_ok s1 /\ grows s s1 /\ s_io s1 = s_io s /\ s_log s1 = s_log s /\
    (forall n o, n <> 0%nat -> s_objects s1 !! n = Some o -> o_connection o = false) /\
    (forall m id n o, s_channels s = Some m -> m !! id = Some n -> n <> 0%nat ->
       s_objects s1 !! n = Some o -> exists o0, o = collected o0) /\
    (channels ← gets s_channels;
     match channels with
     | Some channels => st_iter channel_collect (other_channels channels)
     | None => mret tt
     end ;;
     zoom_io (modify (set_x_has false)) ;;
     upd 0 (fun o => set_connection false (o_channel_id o) o) ;;
     modify (set_channels None)) s = (dropped s1, Ok tt).
Proof.
  intros Hs. rewrite st_bind_gets. destruct (s_channels s) as [m|] eqn:Hm.
  - destruct (collect_each (other_channels m) s m Hs Hm) as (s1 & m1 & Hr & Hok & Hgr & Hio & Hlog & Hm1 & Hsub & Hobj).
    { intros n [Hn [id Hid]]%other_channels_elem. split; [done|].
      destruct (ok_registered s Hs m id n Hm Hid) as (o & Ho & _). eauto. }
    exists s1. rewrite (st_bind_ok _ _ _ _ _ Hr). split_and!; try done.
    + intros n o Hn Ho. destruct (o_connection o) eqn:Hc; [|done].
      destruct (ok_live s1 Hok n o Ho Hn Hc) as (m' & id & Hm' & _ & Hid). simplify_eq.
      rewrite Hobj, decide_True in Ho.
      * apply fmap_Some in Ho as (o0 & _ & ->). done.
      * apply other_channels_elem. split; [done|]. exists id. by eapply lookup_weaken.
    + intros m' id n o [= <-] Hid Hn Ho. rewrite Hobj, decide_True in Ho.
      * apply fmap_Some in Ho as (o0 & _ & ->). eauto.
      * apply other_channels_elem. eauto.
  - exists s. split_and!; try done.
    intros n o Hn Ho. destruct (o_connection o) eqn:Hc; [|done].
    destruct (ok_live s Hs n o Ho Hn Hc) as (m' & id & Hm' & _). congruence.
Qed.

Lemma keeps_connection_collect : keeps (P := P) (connection_collect unwrap shutdown sock_close).
Proof.
  unfold connection_collect. apply keeps_bind; [apply keeps_gets|intros has].
  apply keeps_bind; [apply keeps_when; unfold zoom_transport; apply keeps_zoom_io|intros _].
  intros s Hs. destruct (collect_rest s Hs) as (s1 & Hok & Hgr & _ & _ & Hdead & _ & ->). cbn [fst].
  destruct (dropped_ok s1 Hok Hdead) as [H1 H2]. split; [done|by etrans].
Qed.
End collect_connection.

(** ** Promises and waiting *)

Section promises.
Context {P : Type} `{!Vine P}.
Implicit Types s : session P.

Definition known s (p : nat) : Prop := is_Some (s_promises s !! p).

Lemma known_grows s s' p : grows s s' -> known s p -> known s' p.
Proof. intros Hg. apply (grows_promises _ _ Hg). Qed.

Lemma new_promise_eq confirm s :
  new_promise confirm s =
    (set_promises (<[s_next s := Promise confirm p_new]> (s_promises s)) (set_next (S (s_next s)) s),
     Ok (s_next s)).
Proof. done. Qed.

Lemma new_promise_ok confirm s :
  session_ok s ->
  let s' := (new_promise confirm s).1 in
  session_ok s' /\ grows s s' /\ (new_promise confirm s).2 = Ok (s_next s) /\
  s_promises s' !! s_next s = Some (Promise confirm p_new) /\ s_objects s' = s_objects s.
Proof.
  intros [Hc Hz Hr Hi Hu Hn Hl Hp Hf]. rewrite new_promise_eq. cbn.
  split_and!; try done; [|split; cbn; [done| |done]|].
  - split; cbn; try done.
    + intros n o m p Ho Hmp. rewrite lookup_insert. case_decide; [eauto|]. by apply (Hp n o m).
    + intros n Hn'. destruct (Hf n) as [H1 H2]; [lia|]. split; [done|].
      rewrite lookup_insert_ne by lia. done.
  - intros n Hn'. rewrite lookup_insert. case_decide; [eauto|done].
  - by rewrite lookup_insert_eq.
Qed.

Lemma keeps_settle p vs : keeps (P := P) (settle p vs).
Proof.
  intros s [Hc Hz Hr Hi Hu Hn Hl Hp Hf]. unfold settle, modify. cbn [fst].
  assert (forall f q, is_Some (s_promises s !! q) -> is_Some (alter f p (s_promises s) !! q)) as Hsome.
  { intros f q [x Hx]. rewrite lookup_alter. case_decide; subst; rewrite ?Hx; eauto. }
  split; [split; cbn; try done|split; cbn; auto; done].
  - intros n o m q Ho Hq. eauto.
  - intros n Hn'. destruct (Hf n Hn') as [H1 H2]. split; [done|].
    rewrite lookup_alter. case_decide; subst; rewrite ?H2; done.
Qed.

Lemma keeps_call_promise p vs : keeps (P := P) (call_promise p vs).
Proof.
  unfold call_promise. apply keeps_bind; [apply keeps_promise|intros pp].
  destruct (pp_confirm pp); [|apply keeps_settle]. apply keeps_bind; [|intros _; apply keeps_settle].
  apply keeps_same. intros s. unfold confirm_handler. destruct vs as [|[]]; try done. by case_decide.
Qed.

(** [pending[m] = p]. *)
Lemma set_pending_ok n s p m o :
  session_ok s -> s_objects s !! n = Some o -> (forall q, p = Some q -> known s q) ->
  let pending := match p with Some q => <[m := q]> (o_pending o) | None => delete m (o_pending o) end in
  let s' := set_objects (alter (set_pending pending) n (s_objects s)) s in
  session_ok s' /\ grows s s'.
Proof.
  intros Hs Ho Hq. apply mild_ok; [done|]. intros o' Ho'. simplify_eq. cbn. split_and!; [done..|].
  intros m' q Hmq. destruct p as [p|].
  - apply lookup_insert_Some in Hmq as [[_ <-]|[_ Hmq]]; [by apply Hq|]. by apply (ok_pending s Hs n o m').
  - apply lookup_delete_Some in Hmq as [_ Hmq]. by apply (ok_pending s Hs n o m').
Qed.

Definition all_known s (prev : list (method_sig * option nat)) : Prop :=
  Forall (fun x => forall q, x.2 = Some q -> known s q) prev.

Lemma all_known_grows s s' prev : grows s s' -> all_known s prev -> all_known s' prev.
Proof. intros Hg Hk. eapply Forall_impl; [exact Hk|]. intros x Hx q Hq. eapply known_grows; eauto. Qed.

Lemma push_pending_ok n p ms s :
  session_ok s -> known s p ->
  let s' := (push_pending n p ms s).1 in
  session_ok s' /\ grows s s' /\
  forall prev, (push_pending n p ms s).2 = Ok prev -> prev.*1 = ms /\ all_known s' prev.
Proof.
  revert s. induction ms as [|m ms IH]; intros s Hs Hp; cbn [push_pending].
  { split_and!; try done. intros prev [= <-]. split; [done|constructor]. }
  unfold mbind, st_bind, attr, upd, modify. destruct (s_objects s !! n) as [o|] eqn:Ho; [|done].
  destruct (set_pending_ok n s (Some p) m o Hs Ho) as [Hok Hgr]; [by intros q [= <-]|].
  set (s1 := set_objects _ s) in *. destruct (IH s1 Hok) as (Hok' & Hgr' & Hprev).
  { by eapply known_grows. }
  unfold s1, mbind, st_bind in *. cbn [fst snd].
  destruct (push_pending n p ms s1) as [s2 [prev|e|]] eqn:E; unfold s1 in E; rewrite E in *; cbn in *;
    (split_and!; [done|by etrans|]); [|done..].
  intros prev' [= <-]. destruct (Hprev prev eq_refl) as [H1 H2]. split; [by rewrite <- H1|].
  constructor; [|done]. cbn. intros q Hq. eapply known_grows; [by etrans|].
  by apply (ok_pending s Hs n o m).
Qed.

Lemma pop_pending_ok n prev s :
  session_ok s -> all_known s prev ->
  session_ok (pop_pending n prev s).1 /\ grows s (pop_pending n prev s).1.
Proof.
  revert s. induction prev as [|[m p] prev IH]; intros s Hs Hk; [done|].
  apply Forall_cons in Hk as [Hq Hk]. cbn in Hq. unfold pop_pending. cbn [st_iter].
  unfold mbind, st_bind, attr, upd, modify. destruct (s_objects s !! n) as [o|] eqn:Ho; [|done].
  destruct (set_pending_ok n s p m o Hs Ho Hq) as [Hok Hgr].
  cbn [fst snd]. destruct (IH _ Hok) as [H1 H2]; [by eapply all_known_grows|].
  split; [apply H1|etrans; [apply Hgr|apply H2]].
Qed.

Section waiting.
Context (k : nat) (drain : option Z -> st (session P) unit) (Hdrain : forall t, keeps (drain t)).

Lemma keeps_wait_loop j n p t : keeps (wait_loop drain j n p t).
Proof.
  induction j as [|j IH]; cbn [wait_loop]; [apply keeps_lift|].
  apply keeps_bind; [apply keeps_promise|intros pp]. destruct (p_ready _); [apply keeps_ret|].
  apply keeps_bind; [apply keeps_attr|intros c].
  apply keeps_bind; [apply keeps_when, keeps_lift|intros _]. by apply keeps_bind.
Qed.

(** The body of the [try] statement. *)
Lemma keeps_wait_body n p t :
  keeps (wait_loop drain k n p t ;; pp ← promise p; mret (tail <$> p_value (pp_promise pp))).
Proof.
  apply keeps_bind; [apply keeps_wait_loop|intros _].
  apply keeps_bind; [apply keeps_promise|intros; apply keeps_ret].
Qed.

Lemma keeps_wait n ms c t : keeps (wait k drain n ms c t).
Proof.
  intros s Hs. unfold wait.
  destruct (new_promise_ok c s Hs) as (Hok & Hgr & Hr & Hp & _).
  destruct (new_promise c s) as [s1 r1] eqn:En; cbn in Hok, Hgr, Hr, Hp; subst r1.
  rewrite (st_bind_ok _ _ _ _ _ En).
  destruct (push_pending_ok n (s_next s) ms s1 Hok) as (Hok2 & Hgr2 & Hprev); [by eexists|].
  destruct (push_pending n (s_next s) ms s1) as [s2 r2] eqn:E; cbn in Hok2, Hgr2, Hprev.
  assert (grows s s2) as Hgrs by (by etrans).
  rewrite !(st_bind_eq (push_pending n (s_next s) ms)), E. destruct r2 as [prev|e|]; [|done..].
  destruct (Hprev prev eq_refl) as [_ Hk].
  destruct (finally_ok _ (pop_pending n prev) s2 (keeps_wait_body n (s_next s) t) Hok2) as [H1 H2].
  { intros s' Hs' Hg. apply pop_pending_ok; [done|]. by eapply all_known_grows. }
  split; [done|by etrans].
Qed.
End waiting.
End promises.
