(* ===== verification/SessionSafe.v ===== *)
(** * Safety of the session

    Every operation of [Session.v], whatever the peer sends and whatever the
    functions of the user do with the library, keeps the session well-formed
    and moves it as [Life.v] allows.  From this: what holds of every session
    that can be reached. *)

From S2P Require Import Prelude Exceptions State Struct Utf8 Values Table Codec Content Framing.
From S2P Require Import Transport Sasl Conn Rpc Session SessionDemo Life SessionInv.
From S2P Require Spec.

Open Scope Z_scope.

(** ** New channels *)

Section new_channel.
Context {P : Type}.
Implicit Types s : session P.

(** The id that [Channel.__init__] takes. *)
Definition take_id (channel_max : Z) (used : list Z) (channel_id : option Z) : py (Z * list Z) :=
  match channel_id with
  | Some id => if id =? 0 then get_free_channel_id channel_max used
               else claim_channel_id used id
  | None => get_free_channel_id channel_max used
  end.

Lemma ids_append_ok used x (id : Z) used' :
  (u ← ids_append used x; mret (x, u)) = Ok (id, used') -> id = x /\ used' = used ++ [x].
Proof. unfold ids_append. case_match; [|done]. cbn. unfold mret, result_ret. by intros [= <- <-]. Qed.

Lemma get_free_ok channel_max used id used' :
  get_free_channel_id channel_max used = Ok (id, used') ->
  id <> 0 /\ (id ∉ used) /\ used' = used ++ [id].
Proof.
  unfold get_free_channel_id. pose proof (first_free_spec (seqZ 1 channel_max) used) as Hs.
  destruct (first_free _ used) as [x|]; [|done]. destruct Hs as (b & a & Hseq & _ & Hx).
  intros [-> ->]%ids_append_ok. split_and!; [|done|done].
  assert (x ∈ seqZ 1 channel_max) as Hin%elem_of_seqZ by (rewrite Hseq; apply elem_of_app; right; left). lia.
Qed.

Lemma take_id_ok channel_max used channel_id id used' :
  take_id channel_max used channel_id = Ok (id, used') ->
  id <> 0 /\ (id ∉ used) /\ used' = used ++ [id].
Proof.
  unfold take_id. destruct channel_id as [x|]; [|apply get_free_ok].
  destruct (Z.eqb_spec x 0); [apply get_free_ok|]. unfold claim_channel_id. case_decide; [done|].
  by intros [-> ->]%ids_append_ok.
Qed.

(** The first change: the id is in use, and no channel has it yet. *)
Lemma add_id_ok s id :
  session_ok s -> id ∉ s_used_ids s ->
  session_ok (set_used_ids (s_used_ids s ++ [id]) s) /\
  grows s (set_used_ids (s_used_ids s ++ [id]) s).
Proof.
  intros [Hc Hz Hr Hi Hu Hn Hl Hp Hf] Hid. split; [|by split]. split; cbn; try done.
  - intros m id' n Hm Hmn. destruct (Hu m id' n Hm Hmn); [by left|right].
    apply elem_of_app. by left.
  - apply NoDup_app. split_and!; [done| |apply NoDup_singleton].
    intros x Hx ->%list_elem_of_singleton. done.
Qed.

Definition new_channel (id : Z) (on_open : option nat) : object :=
  Object false true (Some id) true ∅ false (VBool true) [] [] [] [] false on_open.

(** The rest: the new object under the new id. *)
Definition registered s (id : Z) (m : gmap Z nat) (on_open : option nat) : session P :=
  set_channels (Some (<[id := s_next s]> m))
    (set_objects (<[s_next s := new_channel id on_open]> (s_objects s)) (set_next (S (s_next s)) s)).

Lemma next_unregistered s m id n :
  session_ok s -> s_channels s = Some m -> m !! id = Some n -> n <> s_next s.
Proof.
  intros Hs Hm Hmn ->. destruct (ok_registered s Hs m id _ Hm Hmn) as (o & Ho & _).
  destruct (ok_fresh s Hs (s_next s)) as [Hno _]; [done|]. congruence.
Qed.

Lemma next_positive s : session_ok s -> s_next s <> 0%nat.
Proof.
  intros Hs E. destruct (ok_connection s Hs) as (o & Ho & _).
  destruct (ok_fresh s Hs 0%nat) as [Hno _]; [lia|]. congruence.
Qed.

Lemma registered_ok s id m on_open :
  session_ok s -> s_channels s = Some m -> id <> 0 -> m !! id = None -> id ∈ s_used_ids s ->
  session_ok (registered s id m on_open).
Proof.
  intros Hs Hm Hid0 Hfree Hused. pose proof (next_positive s Hs) as Hpos.
  assert (forall id' n, m !! id' = Some n -> n <> s_next s) as Hnext.
  { intros id' n. by apply next_unregistered. }
  pose proof Hs as [Hc Hz Hr Hi Hu Hn Hl Hp Hf].
  split; unfold registered; cbn -[new_channel]; try done.
  - destruct Hc as (o & Ho & ? & Hco). exists o. rewrite lookup_insert_ne by done.
    split_and!; [done..|]. rewrite Hco, Hm. by split; eauto.
  - intros m' [= <-]. rewrite lookup_insert_ne by done. auto.
  - intros m' id' n [= <-] [[<- <-]|[Hne Hmn]]%lookup_insert_Some.
    + exists (new_channel id on_open). rewrite lookup_insert_eq. split; [done|by left].
    + destruct (Hr m id' n Hm Hmn) as (o & Ho & Hido). exists o.
      rewrite lookup_insert_ne; [done|]. by apply not_eq_sym, (Hnext id').
  - intros m' id' id'' n [= <-] [[<- <-]|[Hne Hmn]]%lookup_insert_Some
      [[<- Hx]|[Hne' Hmn']]%lookup_insert_Some; simplify_eq; [done| | |eauto].
    + by apply Hnext in Hmn'.
    + by apply Hnext in Hmn.
  - intros m' id' n [= <-] [[<- <-]|[Hne Hmn]]%lookup_insert_Some; [by right|eauto].
  - intros n o [[<- <-]|[Hne Ho]]%lookup_insert_Some Hn0 Hco.
    + eexists _, id. rewrite lookup_insert_eq. done.
    + destruct (Hl n o Ho Hn0 Hco) as (m' & id' & Hm' & Hido & Hmn). simplify_eq.
      eexists _, id'. split_and!; [done..|]. rewrite lookup_insert_ne; [done|]. congruence.
  - intros n o m' p [[<- <-]|[Hne Ho]]%lookup_insert_Some Hmp; [|by apply (Hp n o m')].
    cbn in Hmp. by rewrite lookup_empty in Hmp.
  - intros n Hn'. destruct (Hf n) as [H1 H2]; [lia|]. split; [|done].
    rewrite lookup_insert_ne by lia. done.
Qed.

Lemma abs_live s n id b :
  chans (abs s) !! n = Some (Live id b) ->
  exists o, n <> 0%nat /\ s_objects s !! n = Some o /\ o_connection o = true /\ o_channel_id o = Some id.
Proof.
  cbn. intros [Hn Hl]%lookup_delete_Some. rewrite lookup_fmap in Hl.
  apply fmap_Some in Hl as (o & Ho & Hph). exists o. unfold phase_of in Hph.
  destruct (o_connection o) eqn:E, (o_channel_id o) eqn:E'; simplify_eq. done.
Qed.

Lemma registered_life s id m on_open :
  session_ok s -> s_channels s = Some m -> m !! id = None ->
  life_steps (abs s) (abs (registered s id m on_open)).
Proof.
  intros Hs Hm Hfree. pose proof (next_positive s Hs) as Hpos. apply rtc_once.
  replace (abs (registered s id m on_open)) with (set_phase (s_next s) (Live id false) (abs s)).
  - apply life_new.
    + cbn. by rewrite Hm.
    + cbn. rewrite lookup_delete_ne, lookup_fmap by done.
      by destruct (ok_fresh s Hs (s_next s)) as [-> _].
    + intros n b (o & Hn & Ho & Hco & Hid)%abs_live.
      destruct (ok_live s Hs n o Ho Hn Hco) as (m' & id' & Hm' & Hid' & Hmn). congruence.
  - unfold abs, registered, set_phase. cbn -[new_channel]. rewrite Hm. f_equal.
    by rewrite fmap_insert, delete_insert_ne by done.
Qed.

Lemma registered_grows s id m on_open :
  session_ok s -> s_channels s = Some m -> m !! id = None -> grows s (registered s id m on_open).
Proof.
  intros Hs Hm Hfree. split; [|done|by apply registered_life].
  intros n Hn. unfold registered. cbn -[new_channel]. rewrite lookup_insert. by case_decide; eauto.
Qed.

Lemma keeps_channel_init channel_id on_open : keeps (P := P) (channel_init channel_id on_open).
Proof.
  intros s Hs. unfold channel_init. rewrite !st_bind_gets.
  change (match channel_id with Some _ => _ | None => _ end)
    with (take_id (tu_channel_max (s_tuning s)) (s_used_ids s) channel_id).
  rewrite !(st_bind_eq (lift _)). unfold lift at 1 3. destruct (take_id _ _ _) as [[id used]| |] eqn:Hid; [|done..].
  apply take_id_ok in Hid as (Hid0 & Hfree & ->).
  destruct (add_id_ok s id Hs Hfree) as [Hok Hgr].
  unfold modify, gets, lift, mbind, st_bind. cbn -[new_channel].
  destruct (s_channels s) as [m|] eqn:Hm; cbn; [|done].
  set (s1 := set_used_ids (s_used_ids s ++ [id]) s) in *.
  assert (m !! id = None) as Hnone.
  { destruct (m !! id) eqn:E; [|done]. by destruct (ok_used s Hs m id _ Hm E). }
  change (session_ok (registered s1 id m on_open) /\ grows s (registered s1 id m on_open)).
  split; [apply registered_ok; try done; apply elem_of_app; right; left|]. etrans; [exact Hgr|]. by apply registered_grows.
Qed.
End new_channel.

(** ** Every operation *)

Create HintDb py_keeps discriminated.
#[export] Hint Constants Opaque : py_keeps.
#[export] Hint Resolve keeps_ret keeps_lift keeps_raise keeps_gets keeps_attr keeps_promise
  keeps_zoom_io keeps_call_user keeps_call_opt keeps_settle keeps_take_pending keeps_call_promise keeps_wait
  keeps_channel_collect keeps_connection_collect keeps_channel_init : py_keeps.
#[export] Hint Extern 1 (keeps (modify _)) => apply keeps_modify; intros; by split_and! : py_keeps.
#[export] Hint Extern 1 (keeps (upd _ _)) => apply keeps_inert; by intros : py_keeps.

(** Walks through the code. *)
Ltac keeps_step :=
  match goal with
  | |- keeps (mbind _ _) => apply keeps_bind
  | |- keeps (when _ _) => apply keeps_when
  | |- keeps (st_try _ _ _) => apply keeps_try
  | |- keeps (st_finally _ _) => apply keeps_finally
  | |- keeps (st_iter _ _) => apply keeps_iter
  | |- forall _, _ => intros
  | |- keeps (let '(_, _) := ?x in _) => destruct x
  | |- keeps (match ?x with _ => _ end) => destruct x
  end.
Ltac keeps_tac := repeat first [solve [auto with py_keeps] | keeps_step].

Section operations.
Context {P : Type} `{!Vine P} (os_nt : bool).
Context (other_codec : pystr -> pystr -> py bytes) (other_decode : bytes -> pystr -> py pystr).
Context (unwrap shutdown sock_close : transport -> py unit).
Context (user : user_call -> st (session P) unit) (cfg : config).
(** The functions of the user use the library as anyone does. *)
Context (Huser : forall c, keeps (user c)).

Section turn.
Context (k : nat) (drain : option Z -> st (session P) unit) (Hdrain : forall t, keeps (drain t)).

Lemma keeps_connect cb : keeps (connect unwrap shutdown sock_close user cfg k drain cb).
Proof.
  assert (forall j t, keeps (handshake_loop drain j t)) as Hloop.
  { induction j as [|j IH]; intros t; cbn [handshake_loop]; keeps_tac. }
  unfold connect, zoom_transport, new_handler, new_writer. keeps_tac.
  apply keeps_same_core. intros s. unfold new_transport. by destruct (x_dials (s_io s)).
Qed.
Hint Resolve keeps_connect : py_keeps.

Lemma keeps_force_connect f : keeps (force_connect unwrap shutdown sock_close user cfg k drain f).
Proof. unfold force_connect. keeps_tac. Qed.
Hint Resolve keeps_force_connect : py_keeps.

Lemma keeps_send_method n r c :
  keeps c -> keeps (send_method other_codec unwrap shutdown sock_close user cfg k drain n r c).
Proof. intros Hc. unfold send_method, write_method, recoverable. keeps_tac. Qed.
Hint Resolve keeps_send_method : py_keeps.

Lemma keeps_rpc n r : keeps (rpc other_codec unwrap shutdown sock_close user cfg k drain n r).
Proof. unfold rpc. keeps_tac. Qed.
Hint Resolve keeps_rpc : py_keeps.

Lemma keeps_channel_open n :
  keeps (channel_open other_codec unwrap shutdown sock_close user cfg k drain n).
Proof. unfold channel_open. keeps_tac. Qed.
Hint Resolve keeps_channel_open : py_keeps.

Lemma keeps_negotiate sp : keeps (P := P) (negotiate sp).
Proof. unfold negotiate. keeps_tac. Qed.
Hint Resolve keeps_negotiate : py_keeps.

Lemma keeps_remove_tag n t : keeps (P := P) (remove_tag n t).
Proof. unfold remove_tag. keeps_tac. Qed.
Hint Resolve keeps_remove_tag : py_keeps.

Lemma keeps_listener n sig l args :
  listener other_codec unwrap shutdown sock_close user cfg k drain n sig = Some l -> keeps (l args).
Proof.
  unfold listener, connection_listener, channel_listener. intros H.
  destruct n as [|n]; repeat case_decide; simplify_eq;
    unfold on_start, on_tune, on_tune_sent, connection_on_open_ok,
      connection_on_close, channel_on_close, do_revive, on_flow, channel_on_open_ok,
      on_basic_cancel, on_basic_deliver, on_basic_return, on_basic_ack, handlers,
      connection_on_close_ok, on_secure, on_blocked, on_unblocked, channel_on_close_ok,
      on_basic_cancel_ok; keeps_tac.
Qed.

Lemma keeps_dispatch n sig payload content :
  keeps (dispatch_method other_codec other_decode unwrap shutdown sock_close user cfg k drain n sig
           payload content).
Proof.
  unfold dispatch_method, run_listeners. apply keeps_bind; [keeps_tac|intros closing].
  destruct (_ && _); [keeps_tac|]. apply keeps_bind; [keeps_tac|intros decode].
  destruct (sig ≫= _) as [[sig' m]|]; [|keeps_tac].
  apply keeps_bind; [keeps_tac|intros one_shot].
  destruct (listener _ _ _ _ _ _ _ _ n sig') as [l|] eqn:Hl; destruct one_shot; keeps_tac;
    by eapply keeps_listener.
Qed.
Hint Resolve keeps_dispatch : py_keeps.

Lemma keeps_blocking_read t :
  keeps (blocking_read os_nt other_codec other_decode unwrap shutdown sock_close user cfg k drain t).
Proof. unfold blocking_read, on_inbound_frame, on_inbound_method, zoom_transport, recoverable. keeps_tac. Qed.
End turn.

Lemma keeps_drain_events k t :
  keeps (drain_events os_nt other_codec other_decode unwrap shutdown sock_close user cfg k t).
Proof.
  revert t. induction k as [|k IH]; intros t; cbn [drain_events]; [apply keeps_lift|].
  apply keeps_bind; [by apply keeps_blocking_read|]. intros []; [apply keeps_ret|apply IH].
Qed.
End operations.

(** ** The sessions that can be reached *)

#[export] Hint Resolve keeps_connect keeps_force_connect keeps_send_method keeps_rpc
  keeps_channel_open keeps_drain_events : py_keeps.

Section reachable.
Context {P : Type} `{!Vine P} (os_nt : bool).
Context (other_codec : pystr -> pystr -> py bytes) (other_decode : bytes -> pystr -> py pystr).
Context (unwrap shutdown sock_close : transport -> py unit).
Context (user : user_call -> st (session P) unit) (cfg : config).
Implicit Types s : session P.

(** The calls inside the library. *)
Abbreviation drains k :=
  (drain_events os_nt other_codec other_decode unwrap shutdown sock_close user cfg k).

(** A step: an operation of the interface, called on the connection or on a
    channel, that returns, raises or blocks. *)
Inductive operation : session P -> session P -> Prop :=
  | op_connect k cb s :
      operation s (connect unwrap shutdown sock_close user cfg k (drains k) cb s).1
  | op_drain_events k t s : operation s (drains k t s).1
  | op_channel k id cb s :
      operation s (channel other_codec unwrap shutdown sock_close user cfg k (drains k) id cb s).1
  | op_connection_close k code text class_id method_id s :
      operation s (connection_close other_codec unwrap shutdown sock_close user cfg k (drains k)
                     code text class_id method_id s).1
  | op_channel_close k n code text class_id method_id s : n <> 0%nat ->
      operation s (channel_close other_codec unwrap shutdown sock_close user cfg k (drains k) n
                     code text class_id method_id s).1
  | op_request k n r s : client_request r ->
      operation s (rpc other_codec unwrap shutdown sock_close user cfg k (drains k) n r s).1
  | op_queue_declare k n q p d e a nw args s :
      operation s (channel_queue_declare other_codec unwrap shutdown sock_close user cfg k (drains k)
                     n q p d e a nw args s).1
  | op_basic_cancel k n t nw s :
      operation s (channel_basic_cancel other_codec unwrap shutdown sock_close user cfg k (drains k)
                     n t nw s).1
  | op_basic_consume k n q t nl na e nw cb args oc s :
      operation s (channel_basic_consume other_codec unwrap shutdown sock_close user cfg k (drains k)
                     n q t nl na e nw cb args oc s).1
  | op_basic_get k n q na s :
      operation s (channel_basic_get other_codec unwrap shutdown sock_close user cfg k (drains k)
                     n q na s).1
  | op_publish k n msg ex rk m i t ct s :
      operation s (channel_publish other_codec unwrap shutdown sock_close user cfg k (drains k)
                     n msg ex rk m i t ct s).1
  | op_with_connection k body s : keeps body ->
      operation s (with_connection (A := unit) other_codec unwrap shutdown sock_close user cfg k (drains k) body s).1
  | op_with_channel k n body s : n <> 0%nat -> keeps body ->
      operation s (with_channel (A := unit) other_codec unwrap shutdown sock_close user cfg k (drains k) n body s).1
  | op_events n es s : operation s (upd n (set_events es) s).1.

(** What the functions of the user may do: nothing but use the library. *)
Definition uses_library : Prop := forall c, keeps (user c).

Lemma keeps_publish k n msg ex rk m i t ct :
  uses_library ->
  keeps (channel_publish other_codec unwrap shutdown sock_close user cfg k (drains k)
           n msg ex rk m i t ct).
Proof.
  unfold uses_library. intros Huser. unfold channel_publish, channel_basic_publish_confirm, channel_basic_publish,
    having_timeout_in, recoverable. keeps_tac.
Qed.

Lemma keeps_channel_close k n code text class_id method_id :
  uses_library -> n <> 0%nat ->
  keeps (channel_close other_codec unwrap shutdown sock_close user cfg k (drains k) n
           code text class_id method_id).
Proof.
  unfold uses_library. intros Huser Hn. unfold channel_close. apply keeps_finally; [keeps_tac|].
  apply keeps_upd. intros s Hs o Ho. cbn. split_and!; [done..|]. intros m p. by apply (ok_pending s Hs n o).
Qed.

Lemma operation_ok s s' : uses_library -> operation s s' -> session_ok s -> session_ok s' /\ grows s s'.
Proof.
  unfold uses_library. intros Huser Hop Hs. destruct Hop; match goal with |- session_ok (?m _).1 /\ _ =>
    assert (keeps m) as Hm; [|by apply Hm] end.
  all: try (by apply keeps_publish). all: try (by apply keeps_channel_close).
  all: try (by apply keeps_finally; [|by apply keeps_channel_close]).
  all: unfold with_connection, channel, connection_close, channel_queue_declare, channel_basic_cancel,
    channel_basic_consume, channel_basic_get, recoverable; keeps_tac.
Qed.
End reachable.

Lemma new_connection_ok {P} ps cm fm hb on_open t dials :
  session_ok (P := P) (new_connection ps cm fm hb on_open t dials).
Proof.
  assert (forall n (o : object), ({[0%nat := connection_object on_open]} : gmap nat object) !! n = Some o -> n = 0%nat /\ o_pending o = ∅) as Hobj.
  { intros n o [<- <-]%lookup_singleton_Some. done. }
  split; cbn.
  - eexists. rewrite lookup_singleton_eq. split_and!; [done..|]. cbn. by split; eauto.
  - intros m [= <-]. by rewrite lookup_singleton_eq.
  - intros m id n [= <-] [<- <-]%lookup_singleton_Some. eexists. rewrite lookup_singleton_eq.
    split; [done|by left].
  - intros m id id' n [= <-] [<- _]%lookup_singleton_Some [<- _]%lookup_singleton_Some. done.
  - intros m id n [= <-] [<- _]%lookup_singleton_Some. by left.
  - constructor.
  - by intros n o [-> _]%Hobj.
  - intros n o m p [_ Ho]%Hobj Hp. by rewrite Ho, lookup_empty in Hp.
  - intros n Hn. rewrite lookup_singleton_ne by lia. by rewrite lookup_empty.
Qed.

Lemma abs_new_connection {P} ps cm fm hb on_open t dials :
  abs (P := P) (new_connection ps cm fm hb on_open t dials) = MkLife true ∅.
Proof. unfold abs. cbn. by rewrite map_fmap_singleton, delete_singleton_eq. Qed.

Section theorems.
Context {P : Type} `{!Vine P} (os_nt : bool).
Context (other_codec : pystr -> pystr -> py bytes) (other_decode : bytes -> pystr -> py pystr).
Context (unwrap shutdown sock_close : transport -> py unit).
Context (user : user_call -> st (session P) unit) (cfg : config).
Implicit Types s : session P.

Abbreviation op := (operation os_nt other_codec other_decode unwrap shutdown sock_close user cfg).

Lemma operations_ok s s' :
  uses_library user -> rtc op s s' -> session_ok s -> session_ok s' /\ grows s s'.
Proof.
  intros Huser. induction 1 as [s|s1 s2 s3 Hop _ IH]; [done|]. intros Hs.
  destruct (operation_ok _ _ _ _ _ _ _ _ _ _ Huser Hop Hs) as [H1 H2].
  destruct (IH H1) as [H3 H4]. split; [done|by etrans].
Qed.

(** C2: the session is well-formed whenever an operation has ended, in
    whatever way: the connection knows itself as channel 0; a registered
    channel knows its id unless it has dropped the connection; every channel
    that has its connection is registered under its id, no two under one id;
    the ids of all registered channels are marked as used, none twice; and
    every promise in [_pending] exists. *)
Theorem session_invariant ps cm fm hb on_open t dials s :
  uses_library user -> rtc op (new_connection ps cm fm hb on_open t dials) s -> session_ok s.
Proof. intros Huser Hr. by eapply operations_ok in Hr as [H _]; [|done|apply new_connection_ok]. Qed.

(** C3: the session implements the machine of [Life.v]: from a new
    connection to any session that can be reached, and from there on, the
    channels it shows live as the protocol says.  So a channel that lost its
    connection never gets it back, a live channel keeps its id, no two live
    channels have the same id, and a closed connection does not come up and
    has no live channel. *)
Theorem session_refines ps cm fm hb on_open t dials s s' :
  uses_library user -> rtc op (new_connection ps cm fm hb on_open t dials) s -> rtc op s s' ->
  life_steps (MkLife true ∅) (abs s) /\ life_steps (abs s) (abs s') /\
  life_ok (abs s) /\ life_le (abs s) (abs s').
Proof.
  intros Huser Hr Hr'. pose proof (new_connection_ok (P := P) ps cm fm hb on_open t dials) as H0.
  destruct (operations_ok _ _ Huser Hr H0) as [H1 H2]. destruct (operations_ok _ _ Huser Hr' H1) as [_ H4].
  apply grows_life in H2, H4. rewrite abs_new_connection in H2. split_and!; [done..| |by apply life_steps_le].
  eapply life_steps_ok; [exact H2|]. split; intros *; cbn; by rewrite lookup_empty.
Qed.
End theorems.

Lemma demo_user_uses_library {P} : uses_library (P := P) demo_user.
Proof. intros c. apply keeps_ret. Qed.

Abbreviation demo_operation :=
  (operation false no_codec no_decode closes closes closes demo_user demo_config).

Lemma session_invariant_witness :
  session_ok (demo_channel None (demo_connect (demo_connection (handshake ++ [open_ok 1]))).1).1.
Proof.
  refine (session_invariant false no_codec no_decode closes closes closes demo_user demo_config
    _ _ _ _ _ _ _ _ demo_user_uses_library _).
  unfold demo_channel, demo_connect, demo_drain. eapply rtc_l; [|apply rtc_once].
  - apply op_connect.
  - apply op_channel.
Defined.

Lemma session_refines_witness :
  let s := (demo_connect (demo_connection (handshake ++ [open_ok 1]))).1 in
  let s' := (demo_channel None s).1 in
  life_steps (MkLife true ∅) (abs s) /\ life_steps (abs s) (abs s') /\
  life_ok (abs s) /\ life_le (abs s) (abs s').
Proof.
  unfold demo_channel, demo_connect, demo_drain. cbv zeta.
  refine (session_refines false no_codec no_decode closes closes closes demo_user demo_config
    _ _ _ _ _ _ _ _ _ demo_user_uses_library _ _); apply rtc_once.
  - apply op_connect.
  - apply op_channel.
Defined.
