(* ===== verification/Quiet.v ===== *)
(** * A transport on which data arrives

    When [recv] meets nothing but data, [read_frame] returns the frame at the
    front of the stream at the first call, and touches nothing but the
    incoming side of the transport; writing touches nothing but the outgoing
    side. *)

From S2P Require Import Prelude Exceptions State Struct Values Codec Content Framing Transport.

Open Scope Z_scope.

Definition arrives (ev : event) : bool := match ev with Data (_ :: _) => true | _ => false end.
Definition quiet (t : transport) : Prop := forallb arrives (t_in t) = true.

(** What the two sides leave alone. *)
Record same_out (t t' : transport) : Prop := SameOut {
  so_out : t_out t' = t_out t;
  so_outcomes : t_outcomes t' = t_outcomes t;
  so_open : t_open t' = t_open t;
  so_connected : t_connected t' = t_connected t;
  so_kind : t_kind t' = t_kind t;
}.

#[export] Instance same_out_preorder : PreOrder same_out.
Proof. split; [by split|]. intros t1 t2 t3 [] []. split; congruence. Qed.

Record same_in (t t' : transport) : Prop := SameIn {
  si_in : t_in t' = t_in t;
  si_buffer : t_read_buffer t' = t_read_buffer t;
  si_open : t_open t' = t_open t;
  si_timeout : t_timeout t' = t_timeout t;
}.

#[export] Instance same_in_preorder : PreOrder same_in.
Proof. split; [by split|]. intros t1 t2 t3 [] []. split; congruence. Qed.

Lemma same_in_stream t t' : same_in t t' -> stream t' = stream t /\ (quiet t -> quiet t').
Proof. intros [H1 H2 _ _]. unfold stream, quiet. by rewrite H1, H2. Qed.

(** ** Reading *)

Lemma recv_quiet n evs evs' r :
  forallb arrives evs = true -> 0 < n -> recv n evs = (evs', r) ->
  forallb arrives evs' = true /\
  match r with Ok bs => bs <> [] | Raise _ => False | OutOfFuel => evs = [] end.
Proof.
  intros Hq Hn. unfold recv. destruct evs as [|[[|b bs]|e] evs]; try done; [by intros; simplify_eq|].
  cbn [forallb] in Hq. apply andb_true_iff in Hq as [_ Hq]. destruct (_ <=? n) eqn:Hle; intros; simplify_eq.
  - done.
  - bool_to_prop. destruct (drop (Z.to_nat n) (b :: bs)) as [|c cs] eqn:Hd.
    + apply (f_equal length) in Hd. rewrite length_drop in Hd. cbn in Hd, Hle. lia.
    + split; [done|]. destruct (Z.to_nat n) eqn:E; [lia|done].
Qed.

Lemma read_loop_quiet fuel errnos b n rbuf evs evs' rbuf' r :
  forallb arrives evs = true -> (events_size evs < fuel)%nat -> n <= zlen (rbuf ++ data evs) ->
  read_loop fuel errnos b n rbuf evs = (evs', rbuf', r) ->
  forallb arrives evs' = true /\ r = Ok tt.
Proof.
  revert rbuf evs. induction fuel as [|fuel IH]; intros rbuf evs Hq Hf Hn H; [lia|].
  cbn [read_loop] in H. destruct (zlen rbuf <? n) eqn:Hlt; bool_to_prop; [|by simplify_eq].
  destruct (recv (n - zlen rbuf) evs) as [evs1 rr] eqn:Hr.
  assert (0 <= n - zlen rbuf) as Hpos by lia. pose proof (recv_data _ _ _ _ Hpos Hr) as Hd.
  apply recv_quiet in Hr as [Hq1 Hr]; [|done|lia]. destruct rr as [s|e|].
  - destruct Hd as (Hd & _ & _ & Hm). specialize (Hm ltac:(lia)). destruct s as [|c s]; [done|].
    apply IH in H; [done|done|lia|by rewrite <- app_assoc, <- Hd].
  - done.
  - subst. cbn in Hn. rewrite app_nil_r in Hn. lia.
Qed.

Lemma read_quiet n i t a rest :
  quiet t -> zlen a = n -> stream t = a ++ rest ->
  exists t', read n i t = (t', Ok a) /\ quiet t' /\ stream t' = rest /\ same_out t t'.
Proof.
  intros Hq Hn Hs. destruct (read n i t) as [t' r] eqn:Hr. pose proof Hr as Hr0. unfold read in Hr.
  destruct (read_loop _ _ _ _ _ _) as [[evs rbuf] rr] eqn:Hl.
  assert (n <= zlen (t_read_buffer t ++ data (t_in t))) as Hlen.
  { change (t_read_buffer t ++ data (t_in t)) with (stream t). rewrite Hs, length_app. lia. }
  apply read_loop_quiet in Hl as [Hq' ->]; [|done|lia|done]. simplify_eq.
  apply read_spec in Hr0 as [Hl1 Hs1]; [|lia]. rewrite Hs in Hs1.
  apply app_inj_1 in Hs1 as [Ha Hrest]; [|lia]. rewrite <- Ha, Hrest. eexists. by split_and!.
Qed.

Lemma guarded_run {A} os_nt buf (m : st transport A) t t' a :
  m t = (t', Ok a) -> guarded os_nt buf m t = (t', Ok a).
Proof. unfold guarded, st_try. by intros ->. Qed.

Lemma read_payload_quiet os_nt buf n t a rest :
  quiet t -> zlen a = n -> stream t = a ++ rest ->
  exists t', read_payload os_nt buf n t = (t', Ok a) /\ quiet t' /\ stream t' = rest /\ same_out t t'.
Proof.
  intros Hq Hn Hs. unfold read_payload. destruct (SIGNED_INT_MAX <? n) eqn:Hlt; bool_to_prop.
  - rewrite <- (take_drop (Z.to_nat SIGNED_INT_MAX) a), <- app_assoc in Hs.
    assert (zlen (take (Z.to_nat SIGNED_INT_MAX) a) = SIGNED_INT_MAX) as Hl1.
    { rewrite length_take. unfold SIGNED_INT_MAX in *. lia. }
    destruct (read_quiet _ false t _ _ Hq Hl1 Hs) as (t1 & H1 & Hq1 & Hs1 & Ho1).
    rewrite (st_bind_ok _ _ _ _ _ (guarded_run _ _ _ _ _ _ H1)).
    assert (zlen (drop (Z.to_nat SIGNED_INT_MAX) a) = n - SIGNED_INT_MAX) as Hl2.
    { rewrite length_drop. unfold SIGNED_INT_MAX in *. lia. }
    destruct (read_quiet _ false t1 _ _ Hq1 Hl2 Hs1) as (t2 & H2 & Hq2 & Hs2 & Ho2).
    exists t2. unfold mbind, st_bind, st_try. rewrite H2. unfold mret, st_ret. rewrite take_drop.
    split_and!; [done..|by etrans].
  - destruct (read_quiet n false t a rest Hq Hn Hs) as (t1 & H1 & Hrest).
    exists t1. by rewrite (guarded_run _ _ _ _ _ _ H1).
Qed.

(** The frame at the front is returned. *)
Lemma read_frame_quiet os_nt t f raw rest :
  quiet t -> pack_frame f = Ok raw -> stream t = raw ++ rest ->
  exists t', read_frame os_nt t = (t', Ok f) /\ quiet t' /\ stream t' = rest /\ same_out t t'.
Proof.
  intros Hq Hf Hs. destruct f as [ty ch p]. unfold pack_frame in Hf. cbn [f_type f_channel f_payload] in Hf.
  apply bind_ok_inv in Hf as (tb & Ht & H). apply bind_ok_inv in H as (cb & Hcb & H).
  apply bind_ok_inv in H as (sb & Hsb & H). unfold mret, result_ret in H. injection H as <-.
  pose proof (pack_u_length _ _ _ Ht) as Lt. pose proof (pack_u_length _ _ _ Hcb) as Lc.
  pose proof (pack_u_length _ _ _ Hsb) as Ls.
  rewrite <- !app_assoc in Hs. rewrite (app_assoc tb), (app_assoc (tb ++ cb)) in Hs.
  unfold read_frame.
  assert (zlen ((tb ++ cb) ++ sb) = 7) as Lh by (rewrite !length_app; lia).
  destruct (read_quiet 7 true t _ _ Hq Lh Hs) as (t1 & H1 & Hq1 & Hs1 & Ho1).
  rewrite (st_bind_ok _ _ _ _ _ (guarded_run _ _ _ _ _ _ H1)).
  rewrite <- app_assoc, (unpack_BHI_packed ty ch (zlen p)) by done.
  rewrite (st_bind_ok _ _ t1 t1 (ty, ch, zlen p)) by done.
  destruct (read_payload_quiet os_nt (tb ++ cb ++ sb) (zlen p) t1 p _ Hq1 eq_refl Hs1)
    as (t2 & H2 & Hq2 & Hs2 & Ho2).
  rewrite (st_bind_ok _ _ _ _ _ H2).
  destruct (read_quiet 1 false t2 [byte_of_Z 0xce] rest Hq2 eq_refl Hs2) as (t3 & H3 & Hq3 & Hs3 & Ho3).
  rewrite (st_bind_ok _ _ _ _ _ (guarded_run _ _ _ _ _ _ H3)).
  exists t3. unfold guarded, lift, st_try, mbind, st_bind. rewrite byte_to_of_small by lia.
  split_and!; [done..|]. by etrans; [etrans|].
Qed.

(** ** Writing *)

Lemma write_same_in s t : same_in t (Transport.write s t).1.
Proof.
  unfold Transport.write, st_try, raw_write.
  destruct ((match t_kind t with TCP => sendall | SSL => ssl_write end) (t_outcomes t) s (t_out t))
    as [[ws out] [u|e|]]; try (by split).
  destruct (is_os_error e); [|by split]. destruct e; try (by split);
    unfold when, modify, raise, mbind, st_bind, mret, st_ret; destruct (negb _); by split.
Qed.

Section write_frame.
Context (other_codec : pystr -> pystr -> py bytes) (t0 : transport).

Lemma preserves_write bs :
  preserves (fun w : writer transport => same_in t0 (w_transport w)) (Framing.write bs).
Proof.
  intros w Hw. unfold Framing.write, zoom. pose proof (write_same_in bs (w_transport w)) as H.
  cbn in *. destruct (Transport.write bs (w_transport w)) as [t r]. cbn in *. by etrans.
Qed.

Lemma preserves_iter {S B} (I : S -> Prop) (f : B -> st S unit) l :
  (forall x, preserves I (f x)) -> preserves I (st_iter f l).
Proof.
  intros Hf. induction l; cbn; [apply preserves_ret|]. apply preserves_bind; [apply Hf|done].
Qed.

(** [write_frame] leaves what is read alone. *)
Lemma preserves_write_frame frame_max ty ch sig args content :
  preserves (fun w : writer transport => same_in t0 (w_transport w))
    (write_frame other_codec frame_max ty ch sig args content).
Proof.
  assert (forall f : frame, preserves (fun w : writer transport => same_in t0 (w_transport w))
    (write_slow_frame f)) as Hslow.
  { intros f. apply preserves_bind; [apply preserves_lift|intros; apply preserves_write]. }
  assert (forall o f, preserves (fun w : writer transport => same_in t0 (w_transport w))
    (pack_into o f)) as Hpack.
  { intros o f w Hw. unfold pack_into. destruct (pack_frame f); [|done..]. by destruct (_ <=? _). }
  assert (forall cs, preserves (fun w : writer transport => same_in t0 (w_transport w))
    (resize cs)) as Hresize.
  { intros cs w Hw. unfold resize. by destruct (_ <? _). }
  assert (preserves (fun w : writer transport => same_in t0 (w_transport w)) count_sent) as Hcount.
  { by intros w Hw. }
  unfold write_frame, write_slow, write_fast.
  repeat match goal with
  | |- preserves _ (let '(_, _) := ?x in _) => destruct x
  | |- preserves _ (match ?x with _ => _ end) => destruct x
  | |- preserves _ (mbind _ _) => apply preserves_bind
  | |- forall _, _ => intros
  | |- _ => first [assumption | apply Hslow | apply Hpack | apply Hresize | apply preserves_write
                  | apply preserves_when | apply preserves_iter | apply preserves_lift
                  | apply preserves_ret | apply preserves_gets]
  end.
Qed.
End write_frame.

(** ** A socket that takes what is written *)

(** Each of the byte strings is accepted by one call. *)
Fixpoint accepts (ws : list wevent) (bss : list bytes) : Prop :=
  match bss with
  | [] => True
  | bs :: bss =>
      match ws with
      | Accept n :: ws => bs <> [] /\ (length bs <= n)%nat /\ accepts ws bss
      | _ => False
      end
  end.

Lemma write_accepted bs bss t :
  accepts (t_outcomes t) (bs :: bss) ->
  exists t', Transport.write bs t = (t', Ok tt) /\ same_in t t' /\ t_out t' = t_out t ++ bs /\
    t_connected t' = t_connected t /\ t_kind t' = t_kind t /\ accepts (t_outcomes t') bss.
Proof.
  cbn [accepts]. destruct (t_outcomes t) as [|[n|e] ws] eqn:Ht; try done. intros (Hne & Hle & Hws).
  exists (set_out ws (t_out t ++ bs) t). split_and!; try done. unfold Transport.write, st_try, raw_write.
  assert ((match t_kind t with TCP => sendall | SSL => ssl_write end) (t_outcomes t) bs (t_out t) =
    (ws, t_out t ++ bs, Ok tt)) as ->; [|done].
  rewrite Ht. destruct bs as [|b bs]; [done|].
  destruct (t_kind t); cbn [sendall ssl_write]; [|destruct n as [|n]; [cbn in Hle; lia|]];
    rewrite drop_ge, take_ge by done; by destruct ws.
Qed.
