(* ===== verification/Progress.v ===== *)
(** * Nothing but the environment blocks

    The model returns [OutOfFuel] where a call of the operating system blocks,
    and where a loop is out of fuel.  What the session is built from never
    returns it for another reason, and every frame that is read uses up some
    of what arrives. *)

From S2P Require Import Prelude Exceptions State Struct Utf8 Datetime Values Table Codec Content Framing.
From S2P Require Import Transport Quiet.

Open Scope Z_scope.

(** ** Encoding and decoding end *)

#[export] Hint Resolve write_item_fuel read_table_total read_array_total : py_total.

Lemma pack_octets_total bits : pack_octets bits <> OutOfFuel.
Proof. induction bits; cbn [pack_octets]; total_steps. Qed.
#[export] Hint Resolve pack_octets_total : py_total.

Lemma write_entries_total d : write_entries write_item d <> OutOfFuel.
Proof. apply write_entries_fuel, Forall_forall. intros p _. apply write_item_fuel. Qed.

Lemma write_elements_total l : write_elements write_item l <> OutOfFuel.
Proof. apply write_elements_fuel, Forall_forall. intros p _. apply write_item_fuel. Qed.
#[export] Hint Resolve write_entries_total write_elements_total : py_total.

Lemma py_int_total v : py_int v <> OutOfFuel.
Proof.
  destruct v as [| | |b|[]| | | | | | |]; cbn; try done; try (by unfold int_of_str; auto with py_total).
  by destruct (f64_is_finite b), (f64_ratio b) as [[[] ?] ?].
Qed.

Lemma as_index_total v : as_index v <> OutOfFuel.
Proof. by destruct v. Qed.

Lemma as_double_total v : as_double v <> OutOfFuel.
Proof. destruct v as [| |z| |[| |? []]| | | | | | |]; cbn; try done. by destruct (f64_is_finite _). Qed.

Lemma f32_of_f64_total b : f32_of_f64 b <> OutOfFuel.
Proof.
  unfold f32_of_f64. destruct (f64_ratio b) as [[s num] den].
  destruct (f64_is_finite b); [by destruct (_ <? _)|by destruct (f64_is_nan b)].
Qed.

Lemma iterate_total v : iterate v <> OutOfFuel.
Proof. by destruct v. Qed.

Lemma items_of_total v : items_of v <> OutOfFuel.
Proof. by destruct v. Qed.

Lemma py_len_total v : py_len v <> OutOfFuel.
Proof. by destruct v. Qed.

Lemma buffer_of_total v : buffer_of v <> OutOfFuel.
Proof. by destruct v. Qed.
#[export] Hint Resolve py_int_total as_index_total as_double_total f32_of_f64_total iterate_total
  items_of_total py_len_total buffer_of_total : py_total.

Lemma dumps_bytes_total f val : dumps_bytes f val <> OutOfFuel.
Proof.
  destruct f; cbn [dumps_bytes]; unfold dumps_str; total_steps.
  all: destruct val; total_steps.
Qed.
#[export] Hint Resolve dumps_bytes_total : py_total.

Lemma flushbits_total st : flushbits st <> OutOfFuel.
Proof. unfold flushbits. destruct (ds_bits st); total_steps. Qed.
#[export] Hint Resolve flushbits_total : py_total.

Lemma dumps_arg_total p val st : dumps_arg p val st <> OutOfFuel.
Proof.
  unfold dumps_arg. destruct (fmt_of p) as [[]|]; try (total_steps; done).
  apply bind_fuel_ne; [|done]. unfold or_last. by destruct (rev _).
Qed.
#[export] Hint Resolve dumps_arg_total : py_total.

Lemma dumps_total format values : dumps format values <> OutOfFuel.
Proof.
  unfold dumps. apply bind_fuel_ne; [|total_steps].
  generalize (DumpState 0 [] []). revert format.
  induction values as [|v values IH]; intros [|p format] st; cbn [dumps_loop]; try done.
  apply bind_fuel_ne; [auto with py_total|]. intros st' _. apply IH.
Qed.
#[export] Hint Resolve dumps_total : py_total.

Lemma loads_total format buf off : 0 <= off -> loads format buf off <> OutOfFuel.
Proof. intros Ho. by apply loads_loop_total. Qed.

Lemma serialize_property_total properties prop st : serialize_property properties prop st <> OutOfFuel.
Proof.
  unfold serialize_property. destruct prop as [key t].
  destruct (dict_get properties key) as [v|]; [|done]. destruct v; try done;
    (apply bind_fuel_ne; [unfold py_shiftl; by destruct (_ <? 0)|done]).
Qed.

Lemma serialize_loop_total properties fields st : serialize_loop properties fields st <> OutOfFuel.
Proof.
  revert st. induction fields as [|prop fields IH]; intros st; cbn [serialize_loop]; [done|].
  apply bind_fuel_ne; [apply serialize_property_total|]. intros st' _. apply IH.
Qed.

Lemma pack_flags_total flags : pack_flags flags <> OutOfFuel.
Proof. induction flags; cbn [pack_flags]; total_steps. Qed.
#[export] Hint Resolve serialize_loop_total pack_flags_total : py_total.

Lemma serialize_properties_total fields properties : serialize_properties fields properties <> OutOfFuel.
Proof.
  unfold serialize_properties. apply bind_fuel_ne; [auto with py_total|intros st _].
  apply bind_fuel_ne; [auto with py_total|intros fb _]. by apply bind_fuel_ne; [auto with py_total|].
Qed.
#[export] Hint Resolve serialize_properties_total : py_total.

(** ** The reader of frames ends *)

Lemma decode_fields_total buf flags fields shift st :
  (forall f, f ∈ fields -> prop_fmt (fmt_of_type f.2) = true) -> 0 <= st.2 ->
  decode_fields buf flags fields shift st <> OutOfFuel.
Proof.
  revert shift st. induction fields as [|[key t] fields IH]; intros shift [d off] Hf Ho; [done|].
  cbn [decode_fields]. pose proof (Hf (key, t) ltac:(left)) as Hp. cbn [snd] in Hp, Ho.
  unfold prop_if. destruct (_ =? 0).
  { py_simpl. apply IH; [|done]. intros f Hin. apply Hf. by right. }
  apply bind_fuel_ne.
  - apply bind_fuel_ne; [|by intros []]. rewrite prop_read_loads by done.
    apply bind_fuel_ne; [by apply loads_arg_total|]. by intros [].
  - intros [d' off'] H. apply IH; [intros f Hin; apply Hf; by right|]. cbn.
    apply bind_ok_inv in H as ([v o] & H & E). unfold mret, result_ret in E. injection E as _ <-.
    rewrite prop_read_loads in H by done. apply bind_ok_inv in H as ([w st] & H & E).
    unfold mret, result_ret in E. injection E as _ <-. apply loads_arg_progress in H. cbn in H. lia.
Qed.

Lemma inbound_header_total msg buf : (inbound_header msg buf 0).2 <> OutOfFuel.
Proof.
  unfold inbound_header.
  assert ((if 0 + 12 <=? zlen buf then c ← unpack_u 2 buf 0; n ← unpack_u 8 buf (0 + 4); mret (c, n)
           else Raise StructError) <> OutOfFuel) as Hu by (case_if; [total_steps|done]).
  destruct (if 0 + 12 <=? zlen buf then _ else _) as [[cls n]|e|]; [|done|done].
  set (m := set_body_size msg n).
  assert (load_properties m cls buf (0 + 12) <> OutOfFuel) as Hl.
  { unfold load_properties. apply bind_fuel_ne; [auto with py_total|]. intros decode Hd.
    apply of_option_ok in Hd. unfold PROPERTY_CLASSES, dict_get in Hd. case_decide; [|done].
    injection Hd as <-. apply bind_fuel_ne; [|by intros []]. rewrite decode_properties_fields.
    apply bind_fuel_ne; [auto with py_total|]. intros flags _. apply decode_fields_total; [|cbn; lia].
    apply (Forall_forall (fun f => prop_fmt (fmt_of_type f.2) = true)). repeat constructor. }
  destruct (load_properties m cls buf (0 + 12)) as [[]|e|]; done.
Qed.

Lemma on_frame_total h f : (on_frame h f).2 <> OutOfFuel.
Proof.
  destruct f as [ty ch buf]. unfold on_frame. destruct (negb _); [done|]. destruct (ty =? 1).
  { assert ((c ← unpack_u 2 buf 0; m ← unpack_u 2 buf 2; mret (c, m)) <> OutOfFuel) as Hu by total_steps.
    destruct (c ← _; _) as [sig|e|]; [by case_decide|done|done]. }
  destruct (ty =? 2).
  { destruct (h_partial _ !! ch) as [msg|]; [|done]. pose proof (inbound_header_total msg buf) as H.
    destruct (inbound_header msg buf 0) as [msg' [o|e|]]; [|done..]. by destruct (negb _). }
  destruct (ty =? 3); [|by destruct (ty =? 8)].
  destruct (h_partial _ !! ch) as [msg|]; [|done]. by destruct (negb _).
Qed.

(** ** Reading uses up what arrives *)

(** What is still to come, in bytes and events. *)
Definition pending (t : transport) : nat := (length (t_read_buffer t) + events_size (t_in t))%nat.

(** A reading method: its result costs as much as [cost] says, nothing is
    added, and it blocks only when there are no more events. *)
Definition uses {A} (cost : A -> nat) (m : st transport A) : Prop := forall t t' r,
  m t = (t', r) ->
  match r with
  | Ok a => (cost a + pending t' <= pending t)%nat
  | Raise _ => (pending t' <= pending t)%nat
  | OutOfFuel => (pending t' <= pending t)%nat /\ t_in t' = []
  end.

Lemma read_loop_pending fuel errnos b n rbuf evs evs' rbuf' r :
  read_loop fuel errnos b n rbuf evs = (evs', rbuf', r) ->
  (length rbuf' + events_size evs' <= length rbuf + events_size evs)%nat.
Proof.
  revert rbuf evs. induction fuel as [|fuel IH]; intros rbuf evs H; cbn [read_loop] in H.
  { by simplify_eq. }
  destruct (zlen rbuf <? n) eqn:Hlt; bool_to_prop; [|by simplify_eq].
  destruct (recv (n - zlen rbuf) evs) as [evs1 rr] eqn:Hr.
  assert (match rr with Ok s => (length s + events_size evs1 <= events_size evs)%nat
          | _ => (events_size evs1 <= events_size evs)%nat end) as Hrecv.
  { unfold recv in Hr. destruct evs as [|[bs|e] evs]; simplify_eq; cbn; [lia| |lia].
    destruct (_ <=? _); simplify_eq; cbn; [lia|]. rewrite length_take, length_drop. lia. }
  destruct rr as [[|c s]|e|]; try (simplify_eq; cbn in *; lia).
  - apply IH in H. rewrite length_app in H. cbn in *. lia.
  - destruct (is_os_error e && errno_in e errnos); [destruct b|]; try (simplify_eq; lia).
    apply IH in H. lia.
Qed.

Lemma uses_read n i : 0 <= n -> uses (fun bs => length bs) (read n i).
Proof.
  intros Hn t t' r H. pose proof (read_spec n i t t' r Hn H) as Hs. unfold read in H.
  destruct (read_loop _ _ _ _ _ _) as [[evs rbuf] rr] eqn:Hl. apply read_loop_pending in Hl.
  unfold pending in *. destruct rr as [[]|e|]; simplify_eq; cbn in *; [|lia|].
  - rewrite length_take, length_drop. lia.
  - split; [lia|apply Hs].
Qed.

Section read_frame.
Context (os_nt : bool).

Lemma except_pending {A} buf e t t' (r : py A) :
  read_frame_except os_nt buf e t = (t', r) ->
  (pending t' <= length buf + pending t)%nat /\ is_ok r = false /\ r <> OutOfFuel.
Proof.
  intros H. unfold read_frame_except, restore, when, modify, raise, mbind, st_bind, mret, st_ret in H.
  repeat case_match; simplify_eq; unfold pending; cbn; rewrite ?length_app; split_and!; done || lia.
Qed.

(** A step of [read_frame] that has [buf] in hand. *)
Lemma guarded_uses {A} (cost : A -> nat) buf (m : st transport A) t0 t t' r :
  uses cost m -> (length buf + pending t <= pending t0)%nat ->
  guarded os_nt buf m t = (t', r) ->
  match r with
  | Ok a => (length buf + cost a + pending t' <= pending t0)%nat
  | Raise _ => (pending t' <= pending t0)%nat
  | OutOfFuel => (pending t' <= pending t0)%nat /\ t_in t' = []
  end.
Proof.
  intros Hm Ht H. unfold guarded, st_try in H. destruct (m t) as [t1 r1] eqn:H1.
  apply Hm in H1. destruct r1 as [a|e|]; simplify_eq; [lia| |destruct H1; split; [lia|done]].
  apply except_pending in H as (H & Hok & Hf). destruct r; [done|lia|done].
Qed.

Lemma uses_lift {A} (m : py A) : m <> OutOfFuel -> uses (fun _ => 0%nat) (lift m).
Proof. intros Hm t t' r H. unfold lift in H. destruct m; simplify_eq; done || lia. Qed.

Lemma read_payload_uses buf size t0 t t' r :
  0 <= size -> (length buf + pending t <= pending t0)%nat ->
  read_payload os_nt buf size t = (t', r) ->
  match r with
  | Ok p => (length buf + length p + pending t' <= pending t0)%nat
  | Raise _ => (pending t' <= pending t0)%nat
  | OutOfFuel => (pending t' <= pending t0)%nat /\ t_in t' = []
  end.
Proof.
  intros Hs Ht. unfold read_payload. destruct (SIGNED_INT_MAX <? size) eqn:Hlt.
  2: { by apply (guarded_uses (fun p => length p)); [apply uses_read|]. }
  apply Z.ltb_lt in Hlt. unfold SIGNED_INT_MAX in *. intros H.
  apply st_bind_inv in H as [(t1 & p1 & H1 & H)|[(e & H1 & ->)|[H1 ->]]];
    apply (guarded_uses (fun p => length p) _ _ t0 _ _ _ (uses_read 0x7FFFFFFF false ltac:(lia)) Ht) in H1; try done.
  apply st_bind_inv in H as [(t2 & p2 & H2 & H)|[(e & H2 & ->)|[H2 ->]]]; unfold st_try in H2;
    destruct (read _ false t1) as [t3 [p|e'|]] eqn:Hr; simplify_eq;
    apply (uses_read (size - 0x7FFFFFFF) false ltac:(lia)) in Hr.
  - unfold mret, st_ret in H. simplify_eq. rewrite length_app. cbn beta iota in *. lia.
  - by apply except_pending in H2 as (_ & ? & _).
  - apply except_pending in H2 as (H2 & _). cbn beta iota in *. destruct (is_os_error e'); rewrite ?length_app in H2; lia.
  - by apply except_pending in H2 as (_ & _ & ?).
  - destruct Hr. cbn beta iota in *. split; [lia|done].
Qed.

(** Every frame that is read was paid for. *)
Lemma read_frame_uses : uses (fun _ => 7%nat) (read_frame os_nt).
Proof.
  intros t0 t' r. unfold read_frame. intros H.
  apply st_bind_inv in H as [(t1 & h & H1 & H)|[(e & H1 & ->)|[H1 ->]]];
    pose proof (guarded_uses _ [] _ t0 t0 _ _ (uses_read 7 true ltac:(lia)) ltac:(cbn; lia) H1) as Hu1; try done.
  apply guarded_read_ok in H1 as [Hl _]; [|done]. cbn [length Nat.add] in Hu1.
  assert (uses (fun _ => 0%nat) (lift (unpack_BHI h))) as Hlift.
  { apply uses_lift. unfold unpack_BHI. case_if; [total_steps|done]. }
  apply st_bind_inv in H as [(t2 & [[ty ch] n] & H2 & H)|[(e & H2 & ->)|[H2 ->]]];
    pose proof (guarded_uses _ h _ t0 t1 _ _ Hlift Hu1 H2) as Hu2; try done.
  apply guarded_ok in H2. unfold lift in H2. injection H2 as <- H2.
  apply unpack_BHI_pack in H2 as (_ & Hn & _). cbn beta in Hu2.
  apply st_bind_inv in H as [(t2 & p & H2 & H)|[(e & H2 & ->)|[H2 ->]]];
    apply (read_payload_uses h n t0 t1 _ _ Hn Hu1) in H2; try done.
  assert (length (h ++ p) + pending t2 <= pending t0)%nat as Hu3 by (cbn beta iota in *; rewrite length_app; lia).
  apply st_bind_inv in H as [(t3 & b & H3 & H)|[(e & H3 & ->)|[H3 ->]]];
    pose proof (guarded_uses _ (h ++ p) _ t0 t2 _ _ (uses_read 1 false ltac:(lia)) Hu3 H3) as Hu4; try done.
  assert (length (h ++ p) + pending t3 <= pending t0)%nat as Hu5 by (cbn beta iota in *; lia).
  assert (uses (fun _ => 0%nat) (lift (match b with [b] => Ok (byte_to_Z b) | _ => Raise TypeError end))) as Hlift'.
  { apply uses_lift. by destruct b as [|? []]. }
  apply st_bind_inv in H as [(t4 & e & H4 & H)|[(e & H4 & ->)|[H4 ->]]];
    pose proof (guarded_uses _ (h ++ p) _ t0 t3 _ _ Hlift' Hu5 H4) as Hu6; try done.
  cbn beta iota in *. rewrite length_app in Hu6. destruct (e =? 206); unfold mret, st_ret, lift, raise_amqp in H; simplify_eq; lia.
Qed.
End read_frame.

(** ** Writing blocks only in the socket *)

Section write_frame.
Context (other_codec : pystr -> pystr -> py bytes) (Hcodec : forall s e, other_codec s e <> OutOfFuel).

Abbreviation writes := (ends (fun _ : writer transport => True) (fun _ => 0%nat)
  (fun w => t_outcomes (w_transport w) = []) 1).

Lemma writes_write bs : writes (Framing.write bs).
Proof.
  intros w _ _. unfold Framing.write, zoom. cbn [sink_write transport_sink].
  destruct (Transport.write bs (w_transport w)) as [t r] eqn:H.
  apply write_spec in H as (k & _ & _ & Hf & _). by split_and!.
Qed.

Lemma writes_slow_frame f : writes (write_slow_frame f).
Proof.
  apply ends_bind; [|intros; apply writes_write]. apply ends_lift. unfold pack_frame. total_steps.
Qed.

Lemma writes_pack_into o f : writes (pack_into o f).
Proof.
  intros w _ _. unfold pack_into. assert (pack_frame f <> OutOfFuel) as Hf by (unfold pack_frame; total_steps).
  destruct (pack_frame f); [|by split_and!|done]. by destruct (_ <=? _); split_and!.
Qed.

Lemma method_frame_total ty sig args : method_frame ty sig args <> OutOfFuel.
Proof. unfold method_frame, pack_sig. case_if; [|done]. total_steps. Qed.

Lemma header_frame_total sig len ps : header_frame sig len ps <> OutOfFuel.
Proof. unfold header_frame, pack_header. total_steps. Qed.

Lemma writes_slow chunk ty ch sig args body len ps : writes (write_slow chunk ty ch sig args body len ps).
Proof.
  unfold write_slow. apply ends_bind; [apply ends_lift, method_frame_total|intros frame].
  apply ends_bind; [apply writes_slow_frame|intros _]. apply ends_when.
  apply ends_bind; [apply ends_lift, header_frame_total|intros hdr].
  apply ends_bind; [apply writes_slow_frame|intros _].
  apply ends_bind; [apply ends_lift; unfold range0; by repeat case_if|intros starts].
  apply ends_iter. intros i. apply ends_bind; [|intros; apply writes_slow_frame].
  apply ends_lift. by destruct body.
Qed.

Lemma writes_fast chunk ty ch sig args content : writes (write_fast chunk ty ch sig args content).
Proof.
  unfold write_fast. apply ends_bind; [intros w _ _; unfold resize; by destruct (_ <? _); split_and!|intros _].
  apply ends_bind; [apply ends_lift, method_frame_total|intros frame].
  apply ends_bind; [apply writes_pack_into|intros o]. apply ends_bind.
  2: { intros o'. apply ends_bind; [apply ends_gets|intros; apply writes_write]. }
  destruct content as [[body ps]|]; [|apply ends_ret].
  apply ends_bind; [apply ends_lift; auto with py_total|intros len].
  apply ends_bind; [apply ends_lift, header_frame_total|intros hdr].
  apply ends_bind; [apply writes_pack_into|intros o']. case_if; [|apply ends_ret].
  apply ends_bind; [apply ends_lift; by destruct body|intros; apply writes_pack_into].
Qed.

Lemma encode_body_total content : (encode_body other_codec content).2 <> OutOfFuel.
Proof.
  unfold encode_body. destruct (msg_body content); try done.
  assert (forall s e, str_encode other_codec s e <> OutOfFuel) as H.
  { intros s' e. unfold str_encode. destruct e; try done. case_decide; [|apply Hcodec].
    unfold encode_utf8_strict. by case_if. }
  destruct (dict_get _ _) as [e|]; cbn -[str_encode];
    match goal with |- context [str_encode other_codec s ?e] => pose proof (H s e); by destruct (str_encode _ s e) end.
Qed.

(** What is written does not change what is read, and blocks in the socket. *)
Lemma write_frame_ends frame_max ty ch sig args content : writes (write_frame other_codec frame_max ty ch sig args content).
Proof.
  unfold write_frame. apply ends_bind; [|intros _; by apply ends_modify].
  destruct content as [content|]; [|apply writes_fast].
  pose proof (encode_body_total content) as Hb.
  destruct (encode_body other_codec content) as [content' body]. cbn [snd] in Hb.
  apply ends_bind; [by apply ends_lift|intros b].
  apply ends_bind; [apply ends_lift; auto with py_total|intros ps].
  apply ends_bind; [apply ends_lift; auto with py_total|intros len].
  apply ends_bind; [apply ends_lift; auto with py_total|intros alen].
  case_if; [apply writes_slow|apply writes_fast].
Qed.
End write_frame.
