(* ===== verification/SessionEnds.v ===== *)
(** * Every operation of the session ends

    An operation of [Session.v] that is given more fuel than there are bytes
    and events still to come returns, raises, or blocks in a call of the
    operating system: each turn of a loop reads a frame or makes a connection,
    and so leaves less to come. *)

From S2P Require Import Prelude Exceptions State Struct Utf8 Datetime Values Table Codec Content Framing.
From S2P Require Import Transport Sasl Conn Rpc Session SessionDemo SessionFuel Quiet Progress.
From S2P Require Spec.

Open Scope Z_scope.

(** ** Programs that use the library *)

(** The calls of the interface. *)
Inductive call : Type :=
  | CConnect (callback : option nat)
  | CDrainEvents (timeout : option Z)
  | CChannel (channel_id : option Z) (callback : option nat)
  | CConnectionClose (reply_code reply_text class_id method_id : value)
  | CChannelClose (n : nat) (reply_code reply_text class_id method_id : value)
  | CRequest (n : nat) (r : request)
  | CQueueDeclare (n : nat) (queue passive durable exclusive auto_delete nowait arguments : value)
  | CBasicCancel (n : nat) (consumer_tag : dict_key) (nowait : bool)
  | CBasicConsume (n : nat) (queue : value) (consumer_tag : dict_key)
      (no_local no_ack exclusive nowait : bool) (callback : option nat) (arguments : value)
      (on_cancel : option nat)
  | CBasicGet (n : nat) (queue : value) (no_ack : bool)
  | CPublish (n : nat) (msg : message) (exchange routing_key mandatory immediate : value)
      (timeout confirm_timeout : option Z)
  | CEvents (n : nat) (events : list (string * list nat)).

(** What they return. *)
Inductive answer : Type :=
  | ANone
  | AChannel (n : nat)
  | AReply (args : option (list arg))
  | ADeclared (r : option Spec.queue_declare_ok_t)
  | ATag (tag : dict_key)
  | AMessage (msg : option message).

Section perform.
Context {P : Type} `{!Vine P} (other_codec : pystr -> pystr -> py bytes).
Context (unwrap shutdown sock_close : transport -> py unit).
Context (user : user_call -> st (session P) unit) (cfg : config).

Definition perform (k : nat) (drain : option Z -> st (session P) unit) (c : call) : st (session P) answer :=
  match c with
  | CConnect cb => connect unwrap shutdown sock_close user cfg k drain cb ;; mret ANone
  | CDrainEvents t => drain t ;; mret ANone
  | CChannel id cb =>
      n ← channel other_codec unwrap shutdown sock_close user cfg k drain id cb; mret (AChannel n)
  | CConnectionClose code text class_id method_id =>
      connection_close other_codec unwrap shutdown sock_close user cfg k drain code text class_id method_id ;; mret ANone
  | CChannelClose n code text class_id method_id =>
      channel_close other_codec unwrap shutdown sock_close user cfg k drain n code text class_id method_id ;; mret ANone
  | CRequest n r =>
      args ← rpc other_codec unwrap shutdown sock_close user cfg k drain n r; mret (AReply args)
  | CQueueDeclare n q p d e a nw args =>
      r ← channel_queue_declare other_codec unwrap shutdown sock_close user cfg k drain n q p d e a nw args;
      mret (ADeclared r)
  | CBasicCancel n tag nw =>
      channel_basic_cancel other_codec unwrap shutdown sock_close user cfg k drain n tag nw ;; mret ANone
  | CBasicConsume n q tag nl na e nw cb args oc =>
      tag ← channel_basic_consume other_codec unwrap shutdown sock_close user cfg k drain n q tag nl na e nw cb args oc;
      mret (ATag tag)
  | CBasicGet n q na =>
      msg ← channel_basic_get other_codec unwrap shutdown sock_close user cfg k drain n q na; mret (AMessage msg)
  | CPublish n msg ex rk m i t ct =>
      channel_publish other_codec unwrap shutdown sock_close user cfg k drain n msg ex rk m i t ct ;; mret ANone
  | CEvents n es => upd n (set_events es) ;; mret ANone
  end.
End perform.

(** ** What is still to come *)

Definition dial_size (d : dial) : nat := S (pending (d_transport d)).

Definition io_work (x : io) : nat :=
  (pending (x_transport x) + sum_list (dial_size <$> x_dials x))%nat.

Definition work {P} (s : session P) : nat := io_work (s_io s).

(** The calls behind a dial return or raise. *)
Record dial_ends (d : dial) : Prop := DialEnds {
  de_entries : d_entries d <> OutOfFuel;
  de_attempts es : d_entries d = Ok es -> Forall (fun a => at_result a <> OutOfFuel /\ at_close a <> OutOfFuel) es;
  de_options : d_options d <> OutOfFuel;
  de_handshake : d_handshake d <> OutOfFuel;
  de_close : d_close d <> OutOfFuel;
}.

Definition dials_end {P} (s : session P) : Prop := Forall dial_ends (x_dials (s_io s)).

(** The environment blocks the session: nothing arrives, nothing is accepted,
    or no connection can be made. *)
Definition blocked {P} (s : session P) : Prop :=
  t_in (x_transport (s_io s)) = [] \/ t_outcomes (x_transport (s_io s)) = [] \/
  connected s = false /\ x_dials (s_io s) = [].

(** Other code that the session calls returns or raises. *)
Record env_ends (other_codec : pystr -> pystr -> py bytes) (other_decode : bytes -> pystr -> py pystr)
    (unwrap shutdown sock_close : transport -> py unit) (cfg : config) : Prop := EnvEnds {
  ee_codec s e : other_codec s e <> OutOfFuel;
  ee_decode b e : other_decode b e <> OutOfFuel;
  ee_unwrap t : unwrap t <> OutOfFuel;
  ee_shutdown t : shutdown t <> OutOfFuel;
  ee_close t : sock_close t <> OutOfFuel;
  ee_auth a : a ∈ cf_authentication cfg -> start a <> OutOfFuel;
}.

(** Walks through the code down to its calls. *)
Create HintDb py_ends discriminated.
#[export] Hint Constants Opaque : py_ends.
#[export] Hint Resolve ends_ret ends_raise ends_gets : py_ends.

Ltac ends_step :=
  match goal with
  | |- ends _ _ _ _ (lift _) => apply ends_lift
  | |- ends _ _ _ _ (when _ _) => apply ends_when
  | |- ends _ _ _ _ (st_try _ _ _) => apply ends_try
  | |- ends _ _ _ _ (st_finally _ _) => apply ends_finally
  | |- ends _ _ _ _ (st_iter _ _) => apply ends_iter
  | |- ends _ _ _ _ (mbind _ _) => apply ends_bind
  | |- ends _ _ _ _ (let '(_, _) := ?x in _) => destruct x
  | |- ends _ _ _ _ (match ?x with _ => _ end) => destruct x
  | |- forall _, _ => intros
  | |- match ?x with _ => _ end <> OutOfFuel => destruct x; try done
  | |- _ <> OutOfFuel => solve [auto with py_total]
  | |- _ <> OutOfFuel => progress total_steps
  end.
Ltac ends_tac := repeat first [assumption | solve [auto with py_ends] | ends_step].

(** ** The transport *)

(** Leaves what arrives alone, and blocks only where nothing is accepted. *)
Abbreviation outward := (ends (fun _ : transport => True) pending (fun t => t_outcomes t = [])).

Lemma outward_modify j f : (forall t, pending (f t) <= pending t)%nat -> outward j (modify f).
Proof. intros H. apply ends_modify. by intros. Qed.

Ltac outward_tac := repeat first
  [ assumption | solve [auto with py_ends]
  | apply outward_modify; intros; unfold pending; cbn; lia | ends_step ].

Lemma raw_write_outward j bs : outward j (raw_write bs).
Proof.
  intros t _ _. unfold raw_write.
  destruct ((match t_kind t with TCP => sendall | SSL => ssl_write end) (t_outcomes t) bs (t_out t))
    as [[ws out] r] eqn:H.
  assert (r = OutOfFuel -> ws = []) as Hr.
  { destruct (t_kind t); [apply sendall_spec in H|apply ssl_write_spec in H]; by destruct H as (? & _ & _ & ?). }
  by split_and!.
Qed.

Lemma connect_entries_outward j es :
  Forall (fun a => at_result a <> OutOfFuel /\ at_close a <> OutOfFuel) es -> outward j (connect_entries es).
Proof. induction 1 as [|a es [Ha Hcl] Hes IH]; cbn [connect_entries]; outward_tac. Qed.

Lemma transport_connect_outward j d t :
  dial_ends d -> outward j (Transport.connect (d_entries d) (d_options d) (d_handshake d) (d_close d) t).
Proof.
  intros [H1 H2 H3 H4 H5]. unfold Transport.connect, init_socket, setup_transport.
  pose proof raw_write_outward. apply ends_try; [|intros; outward_tac].
  apply ends_bind; [outward_tac|intros []]; [outward_tac|].
  apply ends_bind_lift; [done|intros es Hes].
  pose proof (connect_entries_outward j es (H2 es Hes)). outward_tac.
Qed.

Lemma close_outward j u s c :
  u <> OutOfFuel -> s <> OutOfFuel -> c <> OutOfFuel -> outward j (Transport.close u s c).
Proof. intros. unfold Transport.close, ignoring_os. outward_tac; done. Qed.

(** ** The session *)

Section ends.
Context {P : Type} `{!Vine P} (os_nt : bool).
Context (other_codec : pystr -> pystr -> py bytes) (other_decode : bytes -> pystr -> py pystr).
Context (unwrap shutdown sock_close : transport -> py unit).
Context (user : user_call -> st (session P) unit) (cfg : config).
Context (Henv : env_ends other_codec other_decode unwrap shutdown sock_close cfg).

Abbreviation sends := (ends (S := session P) dials_end work blocked).
Abbreviation sless := (ends_less (S := session P) dials_end work blocked).

(** The functions of the user end as well; [K] bounds all of the fuel. *)
Context (K : nat) (Huser : forall c, sends K (user c)).

Lemma sends_0 {A} (m : st (session P) A) : sends 0 m.
Proof. intros s _ H. lia. Qed.

(** What does not touch the transport. *)
Lemma sends_modify j f : (forall s, s_io (f s) = s_io s) -> sends j (modify f).
Proof.
  intros H. apply ends_modify. intros s Hs. unfold dials_end, work. rewrite H. by split.
Qed.

Lemma sends_upd j n f : sends j (upd n f).
Proof. by apply sends_modify. Qed.

Lemma sends_attr {A} j n (f : object -> A) : sends j (attr n f).
Proof. intros s Hs _. unfold attr. by destruct (_ !! _). Qed.

Lemma sends_promise j p : sends j (promise p).
Proof. intros s Hs _. unfold promise. by destruct (_ !! _). Qed.

Lemma sends_call_user j c : (j <= K)%nat -> sends j (call_user user c).
Proof.
  intros Hj. apply ends_bind; [by apply sends_modify|intros _]. by eapply ends_weaken, Huser.
Qed.

Lemma sends_call_opt j f c : (j <= K)%nat -> sends j (call_opt user f c).
Proof. intros Hj. destruct f; [by apply sends_call_user|apply ends_ret]. Qed.

(** Changes of the transport and of what belongs to it. *)
Lemma sends_io j f :
  (forall x, pending (x_transport (f x)) <= pending (x_transport x) /\ x_dials (f x) = x_dials x)%nat ->
  sends j (zoom_io (modify f)).
Proof.
  intros H s Hs _. unfold zoom_io, zoom, modify. destruct (H (s_io s)) as [H1 H2]. cbn.
  unfold dials_end, work, io_work. cbn. rewrite H2. split_and!; [done|lia|done].
Qed.

Lemma sends_outward {A} j (m : st transport A) :
  outward j m -> sends j (zoom_transport m).
Proof.
  intros Hm s Hs Hj. destruct (Hm (x_transport (s_io s)) I) as (_ & H2 & H3).
  { unfold work, io_work in Hj. lia. }
  unfold zoom_transport, zoom_io, zoom. destruct (m (x_transport (s_io s))) as [t r]. cbn in *.
  unfold work, io_work. cbn. split_and!; [done|lia|]. intros ->. right. left. by apply H3.
Qed.

Lemma sends_recoverable {A} j m : sends j (recoverable (P := P) (A := A) m).
Proof. by apply ends_lift. Qed.
Hint Resolve sends_upd sends_attr sends_promise sends_call_user sends_call_opt sends_recoverable : py_ends.
Hint Extern 1 (ends _ _ _ _ (modify _)) => apply sends_modify; intros; reflexivity : py_ends.
Hint Extern 1 (ends _ _ _ _ (zoom_io (modify _))) => apply sends_io; intros; split; reflexivity : py_ends.

Lemma sends_unregister j id : sends j (unregister id).
Proof. unfold unregister. ends_tac. Qed.
Hint Resolve sends_unregister : py_ends.

Lemma sends_channel_collect j n : sends j (channel_collect n).
Proof. unfold channel_collect. ends_tac. Qed.
Hint Resolve sends_channel_collect : py_ends.

Lemma sends_connection_collect j : sends j (connection_collect unwrap shutdown sock_close).
Proof.
  unfold connection_collect. pose proof Henv as [_ _ Hu Hs Hc _].
  assert (sends j (zoom_transport (fun t => Transport.close (unwrap t) (shutdown t) (sock_close t) t))) as H.
  { apply sends_outward. intros t. by apply close_outward. }
  ends_tac.
Qed.
Hint Resolve sends_connection_collect : py_ends.

Lemma sends_new_promise j c : sends j (new_promise c).
Proof. unfold new_promise. ends_tac. Qed.

Lemma sends_call_promise j p vs : sends j (call_promise p vs).
Proof. unfold call_promise, confirm_handler, settle. ends_tac. Qed.

Lemma sends_push_pending j n p ms : sends j (push_pending n p ms).
Proof. induction ms; cbn [push_pending]; ends_tac. Qed.

Lemma sends_pop_pending j n prev : sends j (pop_pending n prev).
Proof. unfold pop_pending. ends_tac. Qed.

Lemma sends_take_pending j n sig : sends j (take_pending n sig).
Proof. unfold take_pending. ends_tac. Qed.

Lemma sends_handlers j n e : sends j (handlers n e).
Proof. unfold handlers. ends_tac. Qed.

Lemma sends_remove_tag j n t : sends j (remove_tag n t).
Proof. unfold remove_tag. ends_tac. Qed.
Hint Resolve sends_new_promise sends_call_promise sends_push_pending sends_pop_pending
  sends_take_pending sends_handlers sends_remove_tag : py_ends.

(** A frame that was read is what makes a turn smaller. *)
Lemma having_timeout_uses {A} cost t (m : st transport A) :
  uses cost m -> uses cost (having_timeout t m).
Proof.
  intros Hm t0 t1 r H. unfold having_timeout, having_timeout_in in H. destruct t as [t|]; [|by apply Hm].
  unfold gets, when, modify, raise, st_finally, st_try, mbind, st_bind, mret, st_ret in H.
  assert (forall x t, pending (set_timeout x t) = pending t /\ t_in (set_timeout x t) = t_in t) as Hset by done.
  repeat case_match; simplify_eq; try lia;
    match goal with Hr : m ?t = _ |- _ => apply Hm in Hr end; cbn in *; unfold pending in *; cbn in *; tauto || lia.
Qed.

Lemma sless_read j t :
  sless j (zoom_transport (having_timeout t (read_frame os_nt))).
Proof.
  assert (forall s : session P, let '(s', r) := zoom_transport (having_timeout t (read_frame os_nt)) s in
    x_dials (s_io s') = x_dials (s_io s) /\ (work s' <= work s)%nat /\
    (is_ok r = true -> (work s' < work s)%nat) /\ (r = OutOfFuel -> blocked s')) as H.
  { intros s. unfold zoom_transport, zoom_io, zoom.
    destruct (having_timeout t (read_frame os_nt) (x_transport (s_io s))) as [t' r] eqn:Hr.
    apply (having_timeout_uses (fun _ => 7%nat)) in Hr; [|apply read_frame_uses].
    unfold work, io_work, blocked. cbn. destruct r as [f|e|]; cbn; split_and!; try done; lia || tauto || by left. }
  split; [intros s Hs _|intros s s' a Hs _ E]; specialize (H s).
  - destruct (zoom_transport _ s) as [s' r]. destruct H as (Hd & Hw & _ & Hb). unfold dials_end in *. cbn. by rewrite Hd.
  - rewrite E in H. by apply H.
Qed.
(** Numbers and tags of the interface. *)
Lemma ids_append_total used id : ids_append used id <> OutOfFuel.
Proof. unfold ids_append. by repeat case_match. Qed.

Lemma get_free_channel_id_total cm used : get_free_channel_id cm used <> OutOfFuel.
Proof.
  unfold get_free_channel_id. destruct (first_free _ _); [|done]. by apply bind_fuel_ne; [apply ids_append_total|].
Qed.

Lemma claim_channel_id_total used id : claim_channel_id used id <> OutOfFuel.
Proof. unfold claim_channel_id. case_decide; [done|]. by apply bind_fuel_ne; [apply ids_append_total|]. Qed.

Lemma first_tag_total p : first_tag p <> OutOfFuel.
Proof. unfold first_tag. by repeat case_match. Qed.

Lemma blocked_capability_total ps : blocked_capability ps <> OutOfFuel.
Proof. unfold blocked_capability. by case_match. Qed.
Hint Resolve get_free_channel_id_total claim_channel_id_total first_tag_total blocked_capability_total : py_total.

(** *** A turn *)

Section turn.
Context (k : nat) (drain : option Z -> st (session P) unit).
Context (Hk : (k <= K)%nat) (Hdrain : forall t, sless k (drain t)).

Lemma handshake_loop_ends i j t : (j <= i)%nat -> (j <= k)%nat -> sends j (handshake_loop drain i t).
Proof.
  revert j. induction i as [|i IH]; intros [|j] Hi Hj; [apply sends_0|lia|apply sends_0|].
  cbn [handshake_loop]. apply ends_bind; [ends_tac|intros []]; [ends_tac|].
  apply ends_less_bind; [by eapply ends_less_weaken|]. intros _. apply IH; lia.
Qed.

Lemma sends_new_handler j : sends j new_handler.
Proof. unfold new_handler. ends_tac. Qed.

Lemma sends_new_writer j : sends j new_writer.
Proof. unfold new_writer, bytearray. ends_tac; case_if; done. Qed.
Hint Resolve sends_new_handler sends_new_writer : py_ends.

(** A connection that is made is one less to come. *)
Lemma new_transport_ends {A} (s : session P) (f : dial -> st (session P) A) :
  connected s = false -> dials_end s -> (work s < S k)%nat ->
  (forall d, dial_ends d -> sends k (f d)) ->
  dials_end ((new_transport ≫= f) s).1 /\ (work ((new_transport ≫= f) s).1 <= work s)%nat /\
  (((new_transport ≫= f) s).2 = OutOfFuel -> blocked ((new_transport ≫= f) s).1).
Proof.
  intros Hc Hs Hj Hf. unfold mbind, st_bind, new_transport.
  destruct (x_dials (s_io s)) as [|d ds] eqn:Hd; [split_and!; [done..|by right; right]|].
  unfold dials_end in Hs. rewrite Hd in Hs. apply Forall_cons in Hs as [Hd1 Hds].
  set (s1 := set_io _ s). assert (dials_end s1) as H1 by done.
  assert (work s1 < work s)%nat as H2 by (unfold work, io_work; rewrite Hd; cbn; lia).
  destruct (Hf d Hd1 s1 H1) as (H3 & H4 & H5); [lia|]. split_and!; [done|lia|done].
Qed.

Lemma sends_connect j cb :
  (j <= K)%nat -> (j <= S k)%nat -> sends j (connect unwrap shutdown sock_close user cfg k drain cb).
Proof.
  intros HjK Hjk s Hs Hj. unfold connect. rewrite st_bind_gets.
  destruct (connected s) eqn:Hc; [by apply (sends_call_opt j cb Connected HjK)|].
  unfold st_try. match goal with |- context [(new_transport ≫= ?f) s] =>
    destruct (new_transport_ends s f) as (H1 & H2 & H3); [done..|lia| |
      destruct ((new_transport ≫= f) s) as [s1 r]] end.
  { intros d Hd. apply ends_bind.
    - apply sends_outward. by apply transport_connect_outward.
    - intros _. pose proof (handshake_loop_ends k k (cf_connect_timeout cfg)). ends_tac. }
  cbn in *. destruct r as [a|e|]; [by split_and!|case_match|by split_and!; auto].
  - assert (sends j (connection_collect unwrap shutdown sock_close ;; raise (A := unit) e)) as Hcol by ends_tac.
    destruct (Hcol s1 H1 ltac:(lia)) as (H4 & H5 & H6). split_and!; [done|lia|done].
  - by split_and!.
Qed.

Lemma sends_force_connect j is_none :
  (j <= K)%nat -> (j <= S k)%nat -> sends j (force_connect unwrap shutdown sock_close user cfg k drain is_none).
Proof. intros. unfold force_connect. pose proof (sends_connect j None). ends_tac; auto. Qed.

(** *** Sending and waiting *)

Lemma sends_force j is_none : (j <= k)%nat -> sends j (force_connect unwrap shutdown sock_close user cfg k drain is_none).
Proof. intros. apply sends_force_connect; lia. Qed.
Hint Resolve sends_force : py_ends.

Lemma sends_write_frame j frame_max ty ch sig args content buf :
  sends j (zoom_io (zoom (fun x => Writer (x_transport x) buf (x_bytes_sent x)) set_x_writer
             (write_frame other_codec frame_max ty ch sig args content))).
Proof.
  intros s Hs Hj. pose proof Henv as [Hcodec _ _ _ _ _]. unfold zoom_io, zoom.
  set (w := Writer (x_transport (s_io s)) buf (x_bytes_sent (s_io s))).
  destruct (write_frame_ends other_codec Hcodec frame_max ty ch sig args content w I) as (_ & _ & H1); [lia|].
  pose proof (preserves_write_frame other_codec (x_transport (s_io s)) frame_max ty ch sig args content w
    ltac:(done)) as [Hin Hbuf _ _].
  destruct (write_frame other_codec frame_max ty ch sig args content w) as [w' r]. cbn in *.
  unfold work, io_work, pending. cbn. rewrite Hin, Hbuf. split_and!; [done|done|]. right. left. by apply H1.
Qed.
Hint Resolve sends_write_frame : py_ends.

Lemma sends_send_method n r callback :
  sends k callback -> sends k (send_method other_codec unwrap shutdown sock_close user cfg k drain n r callback).
Proof.
  intros Hc. unfold send_method, write_method. apply ends_bind; [ends_tac|intros connection].
  apply ends_bind; [ends_tac|intros _]. apply ends_bind; [|ends_tac].
  apply ends_lift. destruct (rq_format r) as [f|]; [|done].
  pose proof (dumps_total f (rq_args r)). by destruct (dumps f (rq_args r)).
Qed.
Hint Resolve sends_send_method : py_ends.

Lemma wait_loop_ends i j n p t : (j <= i)%nat -> (j <= k)%nat -> sends j (wait_loop drain i n p t).
Proof.
  revert j. induction i as [|i IH]; intros [|j] Hi Hj; [apply sends_0|lia|apply sends_0|].
  cbn [wait_loop]. apply ends_bind; [ends_tac|intros pp]. destruct (p_ready _); [ends_tac|].
  apply ends_bind; [ends_tac|intros connection]. apply ends_bind; [ends_tac|intros _].
  apply ends_less_bind; [by eapply ends_less_weaken|]. intros _. apply IH; lia.
Qed.

Lemma sends_wait n ms c t : sends k (wait k drain n ms c t).
Proof. unfold wait. pose proof (wait_loop_ends k k n). ends_tac. Qed.
Hint Resolve sends_wait : py_ends.

Lemma sends_rpc n r : sends k (rpc other_codec unwrap shutdown sock_close user cfg k drain n r).
Proof. unfold rpc. ends_tac. Qed.
Hint Resolve sends_rpc : py_ends.

Lemma sends_channel_open n : sends k (channel_open other_codec unwrap shutdown sock_close user cfg k drain n).
Proof. unfold channel_open. ends_tac. Qed.
Hint Resolve sends_channel_open : py_ends.

(** *** What arrives *)

Lemma choose_authentication_total mechanisms auth :
  (forall a, a ∈ auth -> start a <> OutOfFuel) -> choose_authentication auth mechanisms <> OutOfFuel.
Proof.
  induction auth as [|a auth IH]; intros H; cbn [choose_authentication]; [done|].
  assert (choose_authentication auth mechanisms <> OutOfFuel) by (apply IH; intros; apply H; by right).
  destruct (mechanism a); [|done]. case_decide; [|done].
  apply bind_fuel_ne; [apply H; left|]. by intros [].
Qed.

Lemma sends_on_start a b c d e :
  sends k (on_start other_codec unwrap shutdown sock_close user cfg k drain a b c d e).
Proof.
  pose proof (fun ms => choose_authentication_total ms _ (ee_auth _ _ _ _ _ _ Henv)).
  unfold on_start, negotiate, split_mechanisms, encode_utf8_strict. ends_tac.
Qed.
Hint Resolve sends_on_start : py_ends.

Lemma listener_ends n sig l args :
  listener other_codec unwrap shutdown sock_close user cfg k drain n sig = Some l -> sends k (l args).
Proof.
  unfold listener, connection_listener, channel_listener. intros H.
  destruct n as [|n]; repeat case_decide; simplify_eq;
    unfold connection_on_open_ok, on_secure, on_tune, on_tune_sent, connection_on_close, connection_on_close_ok,
      on_blocked, on_unblocked, channel_on_close, do_revive, channel_on_close_ok, on_flow,
      channel_on_open_ok, on_basic_cancel, on_basic_cancel_ok, on_basic_deliver, on_basic_return, on_basic_ack;
    ends_tac.
Qed.

Lemma method_args_total m payload content : method_args m payload content <> OutOfFuel.
Proof.
  unfold method_args. apply bind_fuel_ne; [|done]. destruct (Spec.m_args m); [|done].
  by apply bind_fuel_ne; [by apply loads_total|].
Qed.
Hint Resolve method_args_total : py_total.

Lemma sends_run_listeners n sig m payload content p :
  sends k (run_listeners other_codec unwrap shutdown sock_close user cfg k drain n sig m payload content p).
Proof.
  unfold run_listeners. apply ends_bind; [ends_tac|intros args]. apply ends_bind; [|ends_tac].
  destruct (listener _ _ _ _ _ _ _ _ n sig) as [l|] eqn:Hl; [|ends_tac].
  eapply listener_ends. exact Hl.
Qed.
Hint Resolve sends_run_listeners : py_ends.

Lemma sends_dispatch n sig payload content :
  sends k (dispatch_method other_codec other_decode unwrap shutdown sock_close user cfg k drain n sig payload content).
Proof. unfold dispatch_method. ends_tac. Qed.
Hint Resolve sends_dispatch : py_ends.

Lemma sends_on_inbound_frame f :
  sends k (on_inbound_frame other_codec other_decode unwrap shutdown sock_close user cfg k drain f).
Proof.
  unfold on_inbound_frame, on_inbound_method. apply ends_bind; [ends_tac|intros _].
  apply ends_bind; [ends_tac|intros h]. apply ends_bind; [ends_tac|intros h'].
  pose proof (on_frame_total h' f). destruct (on_frame h' f) as [h1 r]. ends_tac.
Qed.

Lemma sends_perform c : sends k (perform other_codec unwrap shutdown sock_close user cfg k drain c).
Proof.
  assert (forall t, sends k (drain t)) as Hd by (intros; apply Hdrain).
  assert (forall cb, sends k (connect unwrap shutdown sock_close user cfg k drain cb)) as Hc.
  { intros. apply sends_connect; lia. }
  assert (forall t, sends k (modify (fun s => set_io (set_x_transport (set_timeout t (x_transport (s_io s))) (s_io s)) s)) ) as Ht.
  { intros. apply ends_modify. by intros s Hs. }
  destruct c; unfold perform, channel, channel_init, connection_close, channel_close, channel_queue_declare,
    channel_basic_cancel, channel_basic_consume, channel_basic_get, channel_publish,
    channel_basic_publish_confirm, channel_basic_publish, having_timeout_in; ends_tac.
Qed.
End turn.

Lemma blocking_read_ends k drain t :
  (S k <= K)%nat -> (forall t, sless k (drain t)) ->
  sless (S k) (blocking_read os_nt other_codec other_decode unwrap shutdown sock_close user cfg k drain t).
Proof.
  intros Hk Hd. unfold blocking_read. apply ends_less_bind_r; [by apply sends_force_connect; [lia|..]|intros _].
  apply ends_less_bind_r; [apply ends_gets|intros has]. apply ends_less_bind_r; [ends_tac|intros _].
  apply ends_less_bind; [apply sless_read|]. intros f. apply sends_on_inbound_frame; [lia|done].
Qed.

Lemma drain_events_ends k t :
  (k <= K)%nat ->
  sless k (drain_events os_nt other_codec other_decode unwrap shutdown sock_close user cfg k t).
Proof.
  revert t. induction k as [|k IH]; intros t Hk; [split; [apply sends_0|lia]|].
  cbn [drain_events]. apply ends_less_bind; [apply blocking_read_ends; [done|]|].
  - intros t'. apply IH. lia.
  - intros []; [apply ends_ret|]. apply IH. lia.
Qed.
End ends.

(** ** Programs *)

Section programs.
Context {P : Type} `{!Vine P} (os_nt : bool).
Context (other_codec : pystr -> pystr -> py bytes) (other_decode : bytes -> pystr -> py pystr).
Context (unwrap shutdown sock_close : transport -> py unit).
Context (user : user_call -> st (session P) unit) (cfg : config).

Abbreviation drains k :=
  (drain_events os_nt other_codec other_decode unwrap shutdown sock_close user cfg k).

(** What a call answers, or the exception that it raises. *)
Definition outcome {A} (m : st (session P) A) : st (session P) (py A) :=
  st_try (a ← m; mret (Ok a)) (fun _ => true) (fun e => mret (Raise e)).

(** A program makes its calls one after the other, whatever they raise; its
    result is what each of them answered or raised. *)
Fixpoint program (k : nat) (calls : list call) : st (session P) (list (py answer)) :=
  match calls with
  | [] => mret []
  | c :: calls =>
      r ← outcome (perform other_codec unwrap shutdown sock_close user cfg k (drains k) c);
      rs ← program k calls;
      mret (r :: rs)
  end.

Lemma outcome_total {A} (m : st (session P) A) s :
  let '(s', r) := outcome m s in
  match r with
  | Ok q => m s = (s', q) /\ q <> OutOfFuel
  | Raise _ => False
  | OutOfFuel => m s = (s', OutOfFuel)
  end.
Proof. unfold outcome, st_try, mbind, st_bind. by destruct (m s) as [s1 [a|e|]]. Qed.

Lemma program_answers k calls s :
  match (program k calls s).2 with
  | Ok rs => length rs = length calls
  | Raise _ => False
  | OutOfFuel => True
  end.
Proof.
  revert s. induction calls as [|c calls IH]; intros s; [done|]. cbn [program]. unfold mbind at 1, st_bind at 1.
  pose proof (outcome_total (perform other_codec unwrap shutdown sock_close user cfg k (drains k) c) s) as Ho.
  destruct (outcome _ s) as [s1 [r|e|]]; [|done..]. specialize (IH s1). unfold mbind, st_bind.
  destruct (program k calls s1) as [s2 [rs|e|]]; [|done..]. cbn in *. by rewrite IH.
Qed.

(** C33: every program that uses the library ends, or the operating system
    blocks it.  With more fuel than there are bytes and events to come, each
    call of the program returns or raises; otherwise the last one is blocked:
    the peer sends no more, the socket accepts no more, or no connection can be
    made.  No sequence of frames, however malformed, of the peer keeps a loop
    of the library, [drain_events], [wait] or the handshake, turning. *)
Theorem program_ends k calls s :
  env_ends other_codec other_decode unwrap shutdown sock_close cfg ->
  (forall c, ends dials_end work blocked k (user c)) ->
  dials_end s -> (work s < k)%nat ->
  let '(s', r) := program k calls s in
  (exists rs, r = Ok rs /\ length rs = length calls) \/ r = OutOfFuel /\ blocked s'.
Proof.
  intros Henv Huser Hs Hk.
  assert (forall c, ends dials_end work blocked k
    (perform other_codec unwrap shutdown sock_close user cfg k (drains k) c)) as Hp.
  { intros c. apply (sends_perform _ other_decode _ _ _ user cfg Henv k Huser k _ (le_n k)).
    intros t. apply (drain_events_ends os_nt _ _ _ _ _ user cfg Henv k Huser k t (le_n k)). }
  assert (ends dials_end work blocked k (program k calls)) as H.
  { induction calls as [|c calls IH]; cbn [program]; unfold outcome; ends_tac. }
  destruct (H s Hs Hk) as (_ & _ & Hb). pose proof (program_answers k calls s) as Ha.
  destruct (program k calls s) as [s' [rs|e|]]; cbn in *; [left; by exists rs|done|right; auto].
Qed.
End programs.

(** The environment of the demo ends. *)
Lemma demo_env_ends : env_ends no_codec no_decode closes closes closes demo_config.
Proof.
  split; try done. apply Forall_forall. cbn. repeat constructor; vm_compute; done.
Qed.

(** The handshake, a channel, a request to which nothing is answered: the
    third call waits for the peer. *)
Lemma program_ends_witness :
  let calls := [CConnect None; CChannel None None; CRequest 1 (queue_purge (VStr []) (VBool false))] in
  let '(s', r) := program false no_codec no_decode closes closes closes demo_user demo_config 500 calls
    (demo_connection (handshake ++ [open_ok 1])) in
  (exists rs, r = Ok rs /\ length rs = length calls) \/ r = OutOfFuel /\ blocked s'.
Proof.
  cbv zeta. eapply (program_ends (P := option (list arg)) false no_codec no_decode closes closes closes
    demo_user demo_config 500); [apply demo_env_ends|intros; apply ends_ret| |].
  - constructor; [|constructor]. split; try done. intros es [= <-]. by repeat constructor.
  - apply Nat.ltb_lt. vm_compute. reflexivity.
Defined.

(** The first two calls return, the third waits for the peer. *)
Example program_example :
  let run calls := program false no_codec no_decode closes closes closes demo_user demo_config 500 calls
    (demo_connection (handshake ++ [open_ok 1])) in
  let purge := CRequest 1 (queue_purge (VStr []) (VBool false)) in
  (run [CConnect None; CChannel None None]).2 = Ok [Ok ANone; Ok (AChannel 1)] /\
  (run [CConnect None; CChannel None None; purge]).2 = OutOfFuel /\
  t_in (x_transport (s_io (run [CConnect None; CChannel None None; purge]).1)) = [].
Proof. vm_compute. by split_and!. Qed.
