(* ===== verification/SessionWait.v ===== *)
(** * Waiting for a method

    [AbstractChannel.wait] puts a promise into [_pending] under each method it
    waits for and takes it out again: what it leaves behind, on every path. *)

From S2P Require Import Prelude Exceptions State Struct Utf8 Values Table Codec Content Framing.
From S2P Require Import Transport Sasl Conn Rpc Session SessionDemo Life SessionInv SessionSafe.
From S2P Require Spec.

Open Scope Z_scope.

Abbreviation pendings := (gmap method_sig nat).

(** ** [_pending] before and after *)

Definition push_all (p : nat) (ms : list method_sig) (pd : pendings) : pendings :=
  foldl (fun pd m => <[m := p]> pd) pd ms.

Fixpoint prevs (p : nat) (ms : list method_sig) (pd : pendings) : list (method_sig * option nat) :=
  match ms with
  | [] => []
  | m :: ms => (m, pd !! m) :: prevs p ms (<[m := p]> pd)
  end.

Definition pop_one (pd : pendings) (x : method_sig * option nat) : pendings :=
  match x.2 with Some p => <[x.1 := p]> pd | None => delete x.1 pd end.

Lemma push_all_lookup p ms pd m :
  push_all p ms pd !! m = if decide (m ∈ ms) then Some p else pd !! m.
Proof.
  unfold push_all. revert pd. induction ms as [|m' ms IH]; intros pd; cbn [foldl]; [done|].
  rewrite IH. destruct (decide (m ∈ ms)) as [Hin|Hin].
  - by rewrite decide_True by (by right).
  - destruct (decide (m = m')) as [->|Hne].
    + by rewrite decide_True, lookup_insert_eq by left.
    + rewrite decide_False, lookup_insert_ne; [done..|]. by intros [->|]%elem_of_cons.
Qed.

Lemma prevs_ext p ms pd pd' :
  (forall m, m ∈ ms -> pd !! m = pd' !! m) -> NoDup ms -> prevs p ms pd = prevs p ms pd'.
Proof.
  intros H Hnd. revert pd pd' H. induction Hnd as [|m ms Hm Hnd IH]; intros pd pd' H; cbn; [done|].
  f_equal; [by rewrite H by left|]. apply IH. intros m' Hm'.
  rewrite !lookup_insert_ne by (by intros ->). apply H. by right.
Qed.

(** Taking the promises out gives the old values of the methods, and touches
    no other method. *)
Lemma pop_prevs p ms pd pd' m :
  NoDup ms -> foldl pop_one pd' (prevs p ms pd) !! m = if decide (m ∈ ms) then pd !! m else pd' !! m.
Proof.
  intros Hnd. revert pd pd'. induction Hnd as [|m' ms Hm Hnd IH]; intros pd pd'; cbn [prevs foldl]; [done|].
  rewrite IH. destruct (decide (m ∈ ms)) as [Hin|Hin].
  - rewrite decide_True by (by right). rewrite lookup_insert_ne; [done|]. by intros ->.
  - destruct (decide (m = m')) as [->|Hne].
    + rewrite decide_True by left. unfold pop_one. cbn.
      destruct (pd !! m'); [by rewrite lookup_insert_eq|by rewrite lookup_delete_eq].
    + rewrite decide_False by (by intros [->|]%elem_of_cons). unfold pop_one. cbn.
      destruct (pd !! m'); [by rewrite lookup_insert_ne|by rewrite lookup_delete_ne].
Qed.

Section wait.
Context {P : Type} `{!Vine P}.
Implicit Types s : session P.

Definition with_pending (n : nat) (pd : pendings) s : session P :=
  set_objects (alter (set_pending pd) n (s_objects s)) s.

Lemma alter_pending_twice (os : gmap nat object) n pd pd' :
  alter (set_pending pd') n (alter (set_pending pd) n os) = alter (set_pending pd') n os.
Proof.
  apply map_eq. intros i. rewrite !lookup_alter. case_decide; [subst|done].
  rewrite decide_True by done. by destruct (os !! i).
Qed.

Lemma push_pending_eq n p ms s o :
  s_objects s !! n = Some o ->
  push_pending n p ms s =
    (with_pending n (push_all p ms (o_pending o)) s, Ok (prevs p ms (o_pending o))).
Proof.
  revert s o. induction ms as [|m ms IH]; intros s o Ho; cbn [push_pending].
  - unfold with_pending, mret, st_ret. cbn. rewrite alter_id; [by destruct s|].
    intros o' Ho'. simplify_eq. by destruct o.
  - rewrite (st_bind_ok _ _ s s (o_pending o)) by (unfold attr; by rewrite Ho).
    rewrite (st_bind_ok _ _ s (with_pending n (<[m := p]> (o_pending o)) s) tt) by done.
    rewrite (st_bind_ok _ _ _ _ _ (IH (with_pending n (<[m := p]> (o_pending o)) s)
      (set_pending (<[m := p]> (o_pending o)) o)
      ltac:(unfold with_pending; cbn; by rewrite lookup_alter_eq, Ho))).
    unfold with_pending, mret, st_ret. cbn. by rewrite alter_pending_twice.
Qed.

Lemma pop_pending_eq n prev s o :
  s_objects s !! n = Some o ->
  pop_pending n prev s = (with_pending n (foldl pop_one (o_pending o) prev) s, Ok tt).
Proof.
  unfold pop_pending. revert s o. induction prev as [|[m p] prev IH]; intros s o Ho; cbn [st_iter foldl].
  - unfold with_pending, mret, st_ret. rewrite alter_id; [by destruct s|].
    intros o' Ho'. simplify_eq. by destruct o.
  - rewrite st_bind_bind, (st_bind_ok _ _ s s (o_pending o)) by (unfold attr; by rewrite Ho).
    rewrite (st_bind_ok _ _ s (with_pending n (pop_one (o_pending o) (m, p)) s) tt) by done.
    rewrite (IH _ (set_pending (pop_one (o_pending o) (m, p)) o))
      by (unfold with_pending; cbn; by rewrite lookup_alter_eq, Ho).
    unfold with_pending. cbn. by rewrite alter_pending_twice.
Qed.

(** [wait] is the loop between the two. *)
Definition wait_body (k : nat) (drain : option Z -> st (session P) unit) (n p : nat) (t : option Z)
    : st (session P) (option (list arg)) :=
  wait_loop drain k n p t ;; pp ← promise p; mret (tail <$> p_value (pp_promise pp)).

Definition pushed (n : nat) (ms : list method_sig) (c : bool) (o : object) s : session P :=
  with_pending n (push_all (s_next s) ms (o_pending o)) (new_promise c s).1.

Lemma pushed_ok n ms c o s :
  session_ok s -> s_objects s !! n = Some o ->
  session_ok (pushed n ms c o s) /\ grows s (pushed n ms c o s).
Proof.
  intros Hs Ho. destruct (new_promise_ok c s Hs) as (Hok & Hgr & Hr & Hp & Hobj).
  destruct (push_pending_ok n (s_next s) ms (new_promise c s).1 Hok) as (H1 & H2 & _); [by eexists|].
  rewrite (push_pending_eq _ _ _ _ o) in H1, H2 by (by rewrite Hobj).
  split; [done|]. etrans; [exact Hgr|exact H2].
Qed.

Lemma wait_eq k drain n ms c t s o :
  s_objects s !! n = Some o ->
  wait k drain n ms c t s =
    st_finally (wait_body k drain n (s_next s) t) (pop_pending n (prevs (s_next s) ms (o_pending o)))
      (pushed n ms c o s).
Proof.
  intros Ho. unfold wait, pushed. rewrite new_promise_eq.
  rewrite (st_bind_ok _ _ _ _ _ (new_promise_eq c s)).
  cbv beta. by rewrite (st_bind_ok _ _ _ _ _ (push_pending_eq n (s_next s) ms
    (set_promises _ (set_next _ s)) o Ho)).
Qed.
End wait.

Section wait_theorem.
Context {P : Type} `{!Vine P} (os_nt : bool).
Context (other_codec : pystr -> pystr -> py bytes) (other_decode : bytes -> pystr -> py pystr).
Context (unwrap shutdown sock_close : transport -> py unit).
Context (user : user_call -> st (session P) unit) (cfg : config).
Implicit Types s : session P.

Lemma wait_leaves k drain n ms c t s o :
  (forall t, keeps (drain t)) -> session_ok s -> s_objects s !! n = Some o -> NoDup ms ->
  let '(s', r) := wait k drain n ms c t s in
  r <> OutOfFuel ->
  exists o', s_objects s' !! n = Some o' /\ forall m, m ∈ ms -> o_pending o' !! m = o_pending o !! m.
Proof.
  intros Hdrain Hs Ho Hnd. rewrite (wait_eq k drain n ms c t s o Ho).
  destruct (new_promise_ok c s Hs) as (Hok & Hgr & Hr & Hp & Hobj).
  pose proof (pushed_ok n ms c o s Hs Ho) as [Hpush _].
  destruct (keeps_wait_body k drain Hdrain n (s_next s) t (pushed n ms c o s) Hpush) as [Hok3 Hgr3].
  fold (wait_body k drain n (s_next s) t) in Hok3, Hgr3. unfold st_finally.
  destruct (wait_body k drain n (s_next s) t (pushed n ms c o s)) as [s3 r3]. cbn [fst] in Hok3, Hgr3.
  destruct (grows_objects _ _ Hgr3 n) as [o3 Ho3].
  { unfold pushed, with_pending. cbn [s_objects set_objects]. rewrite Hobj, lookup_alter_eq, Ho. by eexists. }
  rewrite (pop_pending_eq n _ s3 o3 Ho3).
  assert (exists o', s_objects (with_pending n (foldl pop_one (o_pending o3)
    (prevs (s_next s) ms (o_pending o))) s3) !! n = Some o' /\
    forall m, m ∈ ms -> o_pending o' !! m = o_pending o !! m) as Hfin.
  { unfold with_pending. cbn [s_objects set_objects]. rewrite lookup_alter_eq, Ho3. eexists.
    split; [done|]. intros m Hm. cbn [o_pending set_pending]. rewrite pop_prevs by done. by case_decide. }
  by destruct r3.
Qed.

(** C7: [wait] cleans up.  However it ends, with a reply, with an exception
    of the transport, of a listener or of a handler of the user, or because
    the connection was closed meanwhile, the promises that were pending for
    the methods it waited for, and no others, are pending for them again, so
    a reply that comes too late settles nothing. *)
Theorem wait_restores k j n ms c t s o :
  uses_library user -> session_ok s -> s_objects s !! n = Some o -> NoDup ms ->
  let '(s', r) := wait k (drain_events os_nt other_codec other_decode unwrap shutdown sock_close
                            user cfg j) n ms c t s in
  r <> OutOfFuel ->
  exists o', s_objects s' !! n = Some o' /\ forall m, m ∈ ms -> o_pending o' !! m = o_pending o !! m.
Proof. intros Huser. apply wait_leaves. intros t'. by apply keeps_drain_events. Qed.
End wait_theorem.

Lemma wait_restores_witness :
  let s := demo_connection [Err (OSErr (Some 32))] in
  let '(s', r) := wait 10 demo_drain 0 [Spec.Connection.CloseOk] false None s in
  r <> OutOfFuel ->
  exists o', s_objects s' !! 0%nat = Some o' /\
    forall m, m ∈ [Spec.Connection.CloseOk] -> o_pending o' !! m = o_pending (connection_object None) !! m.
Proof.
  unfold demo_drain. cbv zeta.
  refine (wait_restores false no_codec no_decode closes closes closes demo_user demo_config
    10 10 0 [Spec.Connection.CloseOk] false None (demo_connection [Err (OSErr (Some 32))])
    (connection_object None) demo_user_uses_library _ _ _).
  - apply new_connection_ok.
  - reflexivity.
  - apply NoDup_singleton.
Defined.
