(* ===== verification/SessionTurn.v ===== *)
(** * A turn of the session

    From a call of [send_method] to the bytes that are written, and from the
    frames that arrive, through [blocking_read] and [on_frame], to the method
    that is dispatched: the session with its transport, its writer and its
    reader. *)

From S2P Require Import Prelude Exceptions State Struct Utf8 Values Table Codec Content Framing.
From S2P Require Import Transport Sasl Conn Rpc Session SessionDemo Life SessionInv SessionSafe.
From S2P Require Import Quiet SessionWait.
From S2P Require Spec.

Open Scope Z_scope.

Section idle.
Context {P : Type} `{!Vine P}.
Implicit Types s : session P.

(** Nothing of a method of [ch] has been read; and the transport has data or
    blocks. *)
Definition between (x : io) (ch : Z) : Prop := exists h, x_handler x = Some h /\ chan_state h ch = (1, None).

Record listening (x : io) (ch : Z) : Prop := Listening {
  li_has : x_has_transport x = true;
  li_buffer : is_Some (x_buffer x);
  li_handler : between x ch;
  li_quiet : quiet (x_transport x);
}.

(** A channel, or the connection as channel 0, in use and between two
    methods. *)
Record idle s (n : nat) (ch : Z) (o : object) : Prop := Idle {
  idle_object : s_objects s !! n = Some o;
  idle_connection : o_connection o = true;
  idle_id : o_channel_id o = Some ch;
  idle_io : listening (s_io s) ch;
}.

Lemma attr_ok {A} n (f : object -> A) s o :
  s_objects s !! n = Some o -> attr n f s = (s, Ok (f o)).
Proof. unfold attr. by intros ->. Qed.

(** What [dispatch_method] does not ignore. *)
Definition heeded (n : nat) (o : object) (sig : method_sig) : Prop :=
  o_is_closing o = false \/ sig ∈ ALLOWED_METHODS_WHEN_CLOSING n.

(** The methods of [ch] go to the object [n]. *)
Definition routed s (ch : Z) (n : nat) : Prop := exists m, s_channels s = Some m /\ m !! ch = Some n.

Lemma idle_routed s n ch o : session_ok s -> idle s n ch o -> routed s ch n.
Proof.
  intros Hs [Ho Hc Hid _]. destruct n as [|n].
  - destruct (ok_connection s Hs) as (o' & Ho' & Hid' & Hch). rewrite Ho in Ho'. injection Ho' as <-.
    destruct (proj1 Hch Hc) as [m Hm]. exists m. split; [done|]. rewrite Hid in Hid'. injection Hid' as ->.
    by apply (ok_zero s Hs).
  - destruct (ok_live s Hs (S n) o Ho ltac:(done) Hc) as (m & id & Hm & Hid' & Hmn).
    exists m. split; [done|]. congruence.
Qed.
End idle.

Section session.
Context {P : Type} `{!Vine P} (os_nt : bool).
Context (other_codec : pystr -> pystr -> py bytes) (other_decode : bytes -> pystr -> py pystr).
Context (unwrap shutdown sock_close : transport -> py unit).
Context (user : user_call -> st (session P) unit) (cfg : config).
Context (k : nat) (drain : option Z -> st (session P) unit).
Implicit Types s : session P.

Abbreviation send_method :=
  (Session.send_method other_codec unwrap shutdown sock_close user cfg k drain).
Abbreviation write_method :=
  (Session.write_method other_codec unwrap shutdown sock_close user cfg k drain).
Abbreviation blocking_read :=
  (Session.blocking_read os_nt other_codec other_decode unwrap shutdown sock_close user cfg k drain).
Abbreviation on_inbound_frame :=
  (Session.on_inbound_frame other_codec other_decode unwrap shutdown sock_close user cfg k drain).
Abbreviation on_inbound_method :=
  (Session.on_inbound_method other_codec other_decode unwrap shutdown sock_close user cfg k drain).
Abbreviation dispatch_method :=
  (Session.dispatch_method other_codec other_decode unwrap shutdown sock_close user cfg k drain).
Abbreviation listener := (Session.listener other_codec unwrap shutdown sock_close user cfg k drain).

(** ** Sending *)

(** The input of the session is as before. *)
Record same_input (x x' : io) : Prop := SameInput {
  in_transport : same_in (x_transport x) (x_transport x');
  in_handler : x_handler x' = x_handler x;
  in_has : x_has_transport x' = x_has_transport x;
  in_buffer : is_Some (x_buffer x) -> is_Some (x_buffer x');
}.

Lemma same_input_idle s x n ch o : same_input (s_io s) x -> idle s n ch o -> idle (set_io x s) n ch o.
Proof.
  intros [Ht Hh Hhas Hb] [Ho Hc Hid []]. split; cbn; try done.
  split; [by rewrite Hhas|auto|by unfold between; rewrite Hh|]. by apply (same_in_stream _ _ Ht).
Qed.

Lemma write_method_ok n ch o sig args s s1 :
  idle s n ch o -> write_method n sig (VBytes args) None s = (s1, Ok tt) ->
  exists x sb wire, s1 = set_io x s /\ same_input (s_io s) x /\ pack_sig sig = Ok sb /\
    pack_frame (Frame 1 ch (sb ++ args)) = Ok wire /\
    t_out (x_transport x) = t_out (x_transport (s_io s)) ++ wire.
Proof.
  intros Hi. unfold Session.write_method, force_connect.
  destruct (li_buffer _ _ (idle_io _ _ _ _ Hi)) as [buf Hbuf].
  rewrite st_bind_bind, st_bind_gets. unfold no_writer. rewrite Hbuf. cbn [when].
  rewrite st_bind_ret, st_bind_gets, Hbuf, (st_bind_lift _ buf) by done.
  rewrite (st_bind_ok _ _ _ _ _ (attr_ok _ _ _ _ (idle_object _ _ _ _ Hi))).
  rewrite (idle_id _ _ _ _ Hi), (st_bind_lift _ ch), st_bind_gets by done.
  unfold zoom_io, zoom. set (w := Writer _ _ _).
  destruct (write_frame _ _ _ _ _ _ _ w) as [w' r] eqn:Hw. intros H. simplify_eq.
  pose proof (preserves_write_frame other_codec (x_transport (s_io s)) (tu_frame_max (s_tuning s)) 1 ch
    (Some sig) (VBytes args) None w) as Hin. rewrite Hw in Hin.
  apply write_frame_none_ok in Hw as (sb & wire & Hsb & Hwire & Hsent & _).
  eexists (set_x_writer w' (s_io s)), sb, wire. split_and!; try done.
  split; cbn; try done. apply Hin. by split.
Qed.

(** A request that is sent is one frame with the bytes of its arguments. *)
Lemma send_method_ok n ch o r s s1 :
  idle s n ch o -> rq_content r = None -> send_method n r (mret tt) s = (s1, Ok tt) ->
  exists x args sb wire, s1 = set_io x s /\ same_input (s_io s) x /\
    request_bytes r = Ok args /\ pack_sig (rq_sig r) = Ok sb /\
    pack_frame (Frame 1 ch (sb ++ args)) = Ok wire /\
    t_out (x_transport x) = t_out (x_transport (s_io s)) ++ wire.
Proof.
  intros Hi Hc. unfold Session.send_method.
  rewrite (st_bind_ok _ _ _ _ _ (attr_ok _ _ _ _ (idle_object _ _ _ _ Hi))).
  rewrite (idle_connection _ _ _ _ Hi). cbn [negb when]. rewrite st_bind_ret, Hc. intros H.
  apply st_bind_ok_inv in H as (s' & v & Hv & H). unfold lift in Hv. injection Hv as <- Hv.
  apply st_bind_ok_inv in H as (s2 & [] & H & Hret). unfold mret, st_ret in Hret. injection Hret as <-.
  assert (exists args, request_bytes r = Ok args /\
    write_method n (rq_sig r) (VBytes args) None s = (s2, Ok tt)) as (args & Ha & Hw).
  { unfold st_try in H. destruct (write_method n (rq_sig r) v None s) as [s3 [[]|e|]] eqn:Hw.
    2: { by destruct e. } 2: done. simplify_eq. unfold request_bytes. destruct (rq_format r) as [f|].
    - destruct (dumps f (rq_args r)) as [b| |]; try done. injection Hv as <-. by exists b.
    - injection Hv as <-. by exists []. }
  destruct (write_method_ok n ch o (rq_sig r) args s s2 Hi Hw) as (x & sb & wire & -> & ?).
  exists x, args, sb, wire. split_and!; tauto.
Qed.

(** The frame of a request, when it fits the buffer of the writer. *)
Definition request_frame (frame_max ch : Z) (r : request) (wire : bytes) : Prop :=
  rq_content r = None /\ exists args rb,
    request_bytes r = Ok args /\ pack_sig (rq_sig r) = Ok rb /\
    pack_frame (Frame 1 ch (rb ++ args)) = Ok wire /\ zlen args + 12 <= frame_max - 8.

(** A request is sent to a socket that takes it. *)
Lemma send_method_sends n ch o r wire wires callback s :
  idle s n ch o -> request_frame (tu_frame_max (s_tuning s)) ch r wire ->
  accepts (t_outcomes (x_transport (s_io s))) (wire :: wires) ->
  exists x, same_input (s_io s) x /\
    t_out (x_transport x) = t_out (x_transport (s_io s)) ++ wire /\
    accepts (t_outcomes (x_transport x)) wires /\
    t_connected (x_transport x) = t_connected (x_transport (s_io s)) /\
    x_dials x = x_dials (s_io s) /\
    send_method n r callback s = callback (set_io x s).
Proof.
  intros Hi (Hc & args & rb & Ha & Hrb & Hw & Hfit) Hacc.
  destruct (li_buffer _ _ (idle_io _ _ _ _ Hi)) as [buf Hbuf].
  set (t := x_transport (s_io s)) in *. set (fm := tu_frame_max (s_tuning s)) in *.
  destruct (write_accepted wire wires t Hacc) as (t' & Hwr & Hin & Hout & Hcon & _ & Hacc').
  assert (method_frame 1 (Some (rq_sig r)) (VBytes args) = Ok (rb ++ args)) as Hm.
  { unfold method_frame. cbn. by rewrite Hrb. }
  pose proof (write_frame_one other_codec fm ch (rq_sig r) args _ wire
    (Writer t buf (x_bytes_sent (s_io s))) Hm Hw) as Hone.
  rewrite (proj2 (Z.leb_le _ _)) in Hone by lia. destruct Hone as [buf' Hone]. cbn [w_transport w_bytes_sent] in Hone.
  assert ((Framing.write wire ;; count_sent) (Writer t buf' (x_bytes_sent (s_io s))) =
    (Writer t' buf' (x_bytes_sent (s_io s) + 1), Ok tt)) as Hsent.
  { rewrite (st_bind_ok _ _ _ (Writer t' buf' (x_bytes_sent (s_io s))) tt); [done|].
    unfold Framing.write, zoom. cbn [w_transport sink_write transport_sink]. by rewrite Hwr. }
  set (x := set_x_writer (Writer t' buf' (x_bytes_sent (s_io s) + 1)) (s_io s)).
  exists x. split_and!; try done.
  unfold Session.send_method. rewrite (st_bind_ok _ _ _ _ _ (attr_ok n o_connection s o (idle_object _ _ _ _ Hi))).
  rewrite (idle_connection _ _ _ _ Hi). cbn [negb when]. rewrite st_bind_ret, Hc.
  rewrite (st_bind_lift _ (match rq_format r with Some _ => VBytes args | None => VStr [] end)).
  2: { unfold request_bytes in Ha. destruct (rq_format r); [by rewrite Ha|done]. }
  rewrite (st_bind_ok _ _ s (set_io x s) tt); [done|]. unfold st_try, Session.write_method, force_connect.
  rewrite st_bind_bind, st_bind_gets. unfold no_writer. rewrite Hbuf. cbn [when].
  rewrite st_bind_ret, st_bind_gets, Hbuf, (st_bind_lift _ buf) by done.
  rewrite (st_bind_ok _ _ _ _ _ (attr_ok n o_channel_id s o (idle_object _ _ _ _ Hi))).
  rewrite (idle_id _ _ _ _ Hi), (st_bind_lift _ ch), st_bind_gets by done.
  unfold zoom_io, zoom. fold t fm.
  assert (write_frame other_codec fm 1 ch (Some (rq_sig r))
    match rq_format r with Some _ => VBytes args | None => VStr [] end None
    (Writer t buf (x_bytes_sent (s_io s))) = (Writer t' buf' (x_bytes_sent (s_io s) + 1), Ok tt)) as ->; [|done].
  rewrite <- Hsent, <- Hone. unfold request_bytes in Ha. destruct (rq_format r); [done|].
  unfold mret, result_ret in Ha. injection Ha as <-. done.
Qed.

(** ** Receiving *)

(** The frames of one method of [ch] come next: [late] of them, and the last
    one, at which [on_frame] calls the callback. *)
Inductive incoming (x : io) (ch : Z) (sig : method_sig) (payload : bytes) (content : option message)
    (late : nat) (rest : bytes) : Prop :=
  | Incoming h fs wire :
      x_handler x = Some h -> pack_frames fs = Ok wire -> stream (x_transport x) = wire ++ rest ->
      (run h fs).2.*2 = replicate late (Ok (None, false)) ++
        [Ok (Some (Call ch (Some sig) payload content), true)] ->
      chan_state (run h fs).1 ch = (1, None) ->
      incoming x ch sig payload content late rest.

Lemma same_input_incoming x x' ch sig payload content late rest :
  same_input x x' -> incoming x ch sig payload content late rest ->
  incoming x' ch sig payload content late rest.
Proof.
  intros [Ht Hh _ _] [h fs wire H1 H2 H3 H4 H5]. apply (Incoming _ _ _ _ _ _ _ h fs wire); try done.
  - by rewrite Hh.
  - rewrite <- H3. by apply same_in_stream.
Qed.

(** A method without content is one frame. *)
Lemma incoming_method x ch sig sb buf raw rest :
  listening x ch -> pack_sig sig = Ok sb -> sig ∉ CONTENT_METHODS ->
  pack_frame (Frame 1 ch (sb ++ buf)) = Ok raw -> stream (x_transport x) = raw ++ rest ->
  incoming x ch sig (sb ++ buf) None 0 rest.
Proof.
  intros [_ _ (h & Hh & Hc) _] Hsb Hsig Hraw Hst.
  assert (on_frame h (Frame 1 ch (sb ++ buf)) =
    (count_frame h, Ok (Some (Call ch (Some sig) (sb ++ buf) None), true))) as Hf.
  { unfold on_frame. change (expected (count_frame h) ch) with (chan_state h ch).1. rewrite Hc.
    cbn [fst Z.eqb Pos.eqb negb orb]. cbv zeta.
    rewrite (unpack_sig sig sb (sb ++ buf) Hsb (holds_at_mid [] sb buf)). by rewrite decide_False by done. }
  apply (Incoming _ _ _ _ _ _ _ h [Frame 1 ch (sb ++ buf)] raw); cbn [run]; rewrite ?Hf; try done.
  cbn [pack_frames]. rewrite Hraw. cbn. by rewrite app_nil_r.
Qed.

(** A method with content is its frame, the header and the body. *)
Lemma incoming_content_between x ch sig sb args properties hdr out ps chunks wire rest :
  between x ch -> pack_sig sig = Ok sb -> sig ∈ CONTENT_METHODS ->
  wf_props PROPERTIES properties ->
  pack_header Spec.Basic.CLASS_ID (zlen (concat chunks)) = Ok hdr ->
  serialize_properties PROPERTIES properties = Ok out ->
  wire_props properties PROPERTIES = Ok ps -> Forall (.≠ []) chunks ->
  pack_frames (Frame 1 ch (sb ++ args) :: Frame 2 ch (hdr ++ out) :: (Frame 3 ch <$> chunks)) = Ok wire ->
  stream (x_transport x) = wire ++ rest ->
  incoming x ch sig (sb ++ args) (Some (received_message sig (sb ++ args) ps (concat chunks)))
    (S (length chunks)) rest.
Proof.
  intros (h & Hh & Hc) Hsb Hsig Hwf Hhdr Hout Hps Hne Hw Hst.
  destruct (run_content h ch sig sb args properties hdr out ps chunks) as [H1 H2]; try done.
  by eapply Incoming.
Qed.

Lemma incoming_content x ch sig sb args properties hdr out ps chunks wire rest :
  listening x ch -> pack_sig sig = Ok sb -> sig ∈ CONTENT_METHODS ->
  wf_props PROPERTIES properties ->
  pack_header Spec.Basic.CLASS_ID (zlen (concat chunks)) = Ok hdr ->
  serialize_properties PROPERTIES properties = Ok out ->
  wire_props properties PROPERTIES = Ok ps -> Forall (.≠ []) chunks ->
  pack_frames (Frame 1 ch (sb ++ args) :: Frame 2 ch (hdr ++ out) :: (Frame 3 ch <$> chunks)) = Ok wire ->
  stream (x_transport x) = wire ++ rest ->
  incoming x ch sig (sb ++ args) (Some (received_message sig (sb ++ args) ps (concat chunks)))
    (S (length chunks)) rest.
Proof. intros H. apply incoming_content_between, H. Qed.

(** The turn of the loop that reads the frame at the front of the stream. *)
Lemma blocking_read_quiet s f raw rest :
  x_has_transport (s_io s) = true -> quiet (x_transport (s_io s)) ->
  pack_frame f = Ok raw -> stream (x_transport (s_io s)) = raw ++ rest ->
  exists t, quiet t /\ stream t = rest /\ same_out (x_transport (s_io s)) t /\
    blocking_read None s = on_inbound_frame f (set_io (set_x_transport t (s_io s)) s).
Proof.
  intros Hhas Hq Hf Hs. destruct (read_frame_quiet os_nt _ f raw rest Hq Hf Hs) as (t & Hr & Hq' & Hs' & Ho).
  exists t. split_and!; try done. unfold Session.blocking_read, force_connect.
  rewrite st_bind_bind, st_bind_gets. unfold no_transport. rewrite Hhas. cbn [negb when].
  rewrite st_bind_ret, st_bind_gets, Hhas. cbn [negb when]. rewrite st_bind_ret.
  rewrite (st_bind_ok _ _ s (set_io (set_x_transport t (s_io s)) s) f); [done|].
  unfold zoom_transport, zoom_io, zoom, having_timeout, having_timeout_in. by rewrite Hr.
Qed.

(** What the closure of the handler says is done to the session. *)
Lemma on_inbound_frame_eq s h f :
  x_handler (s_io s) = Some h ->
  on_inbound_frame f s =
    match (on_frame h f).2 with
    | Ok (c, result) =>
        match c with
        | Some c => on_inbound_method (c_channel c) (c_method c) (c_args c) (c_content c) ;; mret result
        | None => mret result
        end (set_io (set_x_handler (on_frame h f).1 (s_io s)) s)
    | Raise e => (set_io (set_x_handler (on_frame h f).1 (s_io s)) s, Raise e)
    | OutOfFuel => (set_io (set_x_handler (on_frame h f).1 (s_io s)) s, OutOfFuel)
    end.
Proof.
  intros Hh. unfold Session.on_inbound_frame, force_connect.
  rewrite st_bind_bind, st_bind_gets. unfold no_handler. rewrite Hh. cbn [when].
  rewrite st_bind_ret, st_bind_gets, Hh, (st_bind_lift _ h) by done.
  destruct (on_frame h f) as [h' r]. cbn [fst snd].
  rewrite (st_bind_ok _ _ s (set_io (set_x_handler h' (s_io s)) s) tt) by done.
  by destruct r as [[[c|] b]|e|].
Qed.
End session.

(** ** The loop *)

Section loop.
Context {P : Type} `{!Vine P} (os_nt : bool).
Context (other_codec : pystr -> pystr -> py bytes) (other_decode : bytes -> pystr -> py pystr).
Context (unwrap shutdown sock_close : transport -> py unit).
Context (user : user_call -> st (session P) unit) (cfg : config).
Implicit Types s : session P.

Abbreviation drain_events :=
  (Session.drain_events os_nt other_codec other_decode unwrap shutdown sock_close user cfg).
Abbreviation blocking_read :=
  (Session.blocking_read os_nt other_codec other_decode unwrap shutdown sock_close user cfg).
Abbreviation on_inbound_method :=
  (Session.on_inbound_method other_codec other_decode unwrap shutdown sock_close user cfg).

(** Nothing but the input has moved. *)
Record advanced (x x' : io) : Prop := Advanced {
  ad_out : same_out (x_transport x) (x_transport x');
  ad_has : x_has_transport x' = x_has_transport x;
  ad_buffer : x_buffer x' = x_buffer x;
  ad_dials : x_dials x' = x_dials x;
}.

#[export] Instance advanced_preorder : PreOrder advanced.
Proof. split; [by split|]. intros x1 x2 x3 [] []. split; [by etrans|congruence..]. Qed.

(** The loop reads the frames of a method, without an effect until the last of
    them, and dispatches the method. *)
Lemma drain_frames j late s ch sig payload content h fs wire rest :
  listening (s_io s) ch -> x_handler (s_io s) = Some h ->
  pack_frames fs = Ok wire -> stream (x_transport (s_io s)) = wire ++ rest ->
  (run h fs).2.*2 = replicate late (Ok (None, false)) ++ [Ok (Some (Call ch (Some sig) payload content), true)] ->
  chan_state (run h fs).1 ch = (1, None) ->
  exists x, listening x ch /\ stream (x_transport x) = rest /\ advanced (s_io s) x /\
    x_handler x = Some (run h fs).1 /\
    drain_events (late + S j) None s =
      on_inbound_method j (drain_events j) ch (Some sig) payload content (set_io x s).
Proof.
  intros [Hhas Hbuf _ Hq] Hh Hw Hst Hrun Hend.
  revert s h fs wire Hhas Hbuf Hq Hh Hw Hst Hrun Hend. induction late as [|late IH];
    intros s h fs wire Hhas Hbuf Hq Hh Hw Hst Hrun Hend.
  all: destruct fs as [|f fs]; [done|]; cbn [run] in Hrun, Hend;
    destruct (on_frame h f) as [h1 r1] eqn:Hf; destruct (run h1 fs) as [h2 rs] eqn:Hr;
    cbn [fst snd fmap list_fmap replicate app] in Hrun, Hend.
  all: cbn [pack_frames] in Hw; apply bind_ok_inv in Hw as (raw & Hraw & Hw);
    apply bind_ok_inv in Hw as (raws & Hraws & Hw); unfold mret, result_ret in Hw; injection Hw as <-;
    rewrite <- app_assoc in Hst.
  - injection Hrun as -> Hrs. apply fmap_nil_inv in Hrs as ->. destruct fs as [|g fs].
    2: { cbn [run] in Hr. destruct (on_frame h1 g), (run _ fs). done. }
    cbn in Hr, Hraws. injection Hr as <-. injection Hraws as <-.
    destruct (blocking_read_quiet os_nt other_codec other_decode unwrap shutdown sock_close user cfg j
      (drain_events j) s f raw rest Hhas Hq Hraw Hst) as (t & Hq' & Hst' & Ho & Hb).
    exists (set_x_handler h1 (set_x_transport t (s_io s))). split_and!; [|done|by split|by cbn [run]; rewrite Hf|].
    { split; try done. by exists h1. }
    cbn [Nat.add Session.drain_events]. unfold mbind at 1, st_bind at 1. rewrite Hb.
    rewrite (on_inbound_frame_eq _ _ _ _ _ _ _ _ _ (set_io (set_x_transport t (s_io s)) s) h) by done.
    rewrite Hf. cbn [fst snd c_channel c_method c_args c_content]. unfold mbind, st_bind.
    by destruct (on_inbound_method j (drain_events j) ch (Some sig) payload content _) as [s2 [[]| |]].
  - injection Hrun as -> Hrs.
    destruct (blocking_read_quiet os_nt other_codec other_decode unwrap shutdown sock_close user cfg (late + S j)
      (drain_events (late + S j)) s f raw (raws ++ rest) Hhas Hq Hraw Hst) as (t & Hq' & Hst' & Ho & Hb).
    set (s1 := set_io (set_x_handler h1 (set_x_transport t (s_io s))) s).
    destruct (IH s1 h1 fs raws) as (x & Hx & Hs & Ha & Hxh & Hd); try done; [by rewrite Hr..|].
    exists x. split_and!; [done..| |by rewrite Hxh; cbn [run]; rewrite Hf, Hr|].
    { etrans; [|exact Ha]. by split. }
    cbn [Nat.add Session.drain_events]. unfold mbind at 1, st_bind at 1. rewrite Hb.
    rewrite (on_inbound_frame_eq _ _ _ _ _ _ _ _ _ (set_io (set_x_transport t (s_io s)) s) h) by done.
    rewrite Hf. exact Hd.
Qed.

Lemma drain_incoming j late s ch sig payload content rest :
  listening (s_io s) ch -> incoming (s_io s) ch sig payload content late rest ->
  exists x, listening x ch /\ stream (x_transport x) = rest /\ advanced (s_io s) x /\
    drain_events (late + S j) None s =
      on_inbound_method j (drain_events j) ch (Some sig) payload content (set_io x s).
Proof.
  intros Hl [h fs wire Hh Hw Hst Hrun Hend].
  destruct (drain_frames j late s ch sig payload content h fs wire rest) as (x & ? & ? & ? & _ & ?); [done..|].
  by exists x.
Qed.

(** The method goes to the object of its channel: the listener, then the
    promise that waits for it. *)
Lemma turn j late s n ch o sig mt payload content rest :
  idle s n ch o -> routed s ch n -> heeded n o sig ->
  incoming (s_io s) ch sig payload content late rest ->
  find_method (METHODS n) sig = Some mt ->
  is_Some (o_pending o !! sig) \/
  is_Some (listener other_codec unwrap shutdown sock_close user cfg j (drain_events j) n sig) ->
  exists x, idle (set_io x s) n ch o /\ stream (x_transport x) = rest /\ advanced (s_io s) x /\
    drain_events (late + S j) None s =
      run_listeners other_codec unwrap shutdown sock_close user cfg j (drain_events j) n sig mt payload
        (if o_auto_decode o then decode_body other_decode <$> content else content) (o_pending o !! sig)
        (with_pending n (delete sig (o_pending o)) (set_io x s)).
Proof.
  intros [Ho Hc Hid Hio] (m & Hm & Hmn) Hheed Hin Hmt Hsome.
  destruct (drain_incoming j late s ch sig payload content rest Hio Hin) as (x & Hx & Hst & Ha & Hd).
  exists x. split_and!; [by split|done..|]. rewrite Hd. set (s1 := set_io x s).
  unfold Session.on_inbound_method. rewrite st_bind_gets. change (s_channels s1) with (s_channels s).
  rewrite Hm, (st_bind_lift _ n) by (by rewrite Hmn). unfold dispatch_method.
  rewrite (st_bind_ok _ _ _ _ _ (attr_ok n o_is_closing s1 o Ho)).
  replace (o_is_closing o && _) with false.
  2: { destruct Hheed as [->|Hsig]; [done|]. cbn [sig_in]. rewrite bool_decide_eq_true_2 by done.
    by rewrite andb_false_r. }
  rewrite (st_bind_ok _ _ _ _ _ (attr_ok n o_auto_decode s1 o Ho)). cbn [mbind option_bind].
  rewrite Hmt. cbn [fmap option_fmap option_map].
  assert (take_pending n sig s1 = (with_pending n (delete sig (o_pending o)) s1, Ok (o_pending o !! sig))) as Ht.
  { unfold take_pending. by rewrite (st_bind_ok _ _ _ _ _ (attr_ok n o_pending s1 o Ho)). }
  rewrite (st_bind_ok _ _ _ _ _ Ht). destruct (o_pending o !! sig); [done|].
  destruct Hsome as [[? [=]]|[l Hl]]. by rewrite Hl.
Qed.
End loop.

(** ** What a method carries *)

(** The arguments, as the format of [mt] transmits them; of a method without a
    format they are not read. *)
Definition carries (mt : Spec.method_t) (bs : bytes) (ws : list value) : Prop :=
  match Spec.m_args mt with
  | Some f => bits_safe false f = true /\ exists vs,
      wf_args f vs /\ wire_args f vs = Ok ws /\ dumps f vs = Ok bs
  | None => ws = []
  end.

Lemma carries_length mt bs ws : carries mt bs ws -> length ws = length (default [] (Spec.m_args mt)).
Proof.
  unfold carries. destruct (Spec.m_args mt) as [f|]; [|by intros ->].
  intros (_ & vs & _ & Hw & _). by apply wire_args_length in Hw.
Qed.

Lemma pack_sig_length sig sb : pack_sig sig = Ok sb -> zlen sb = 4.
Proof.
  intros H. apply bind_ok_inv in H as (a & Ha & H). apply bind_ok_inv in H as (b & Hb & H).
  unfold mret, result_ret in H. injection H as <-. rewrite length_app, Nat2Z.inj_add.
  by rewrite (pack_u_length _ _ _ Ha), (pack_u_length _ _ _ Hb).
Qed.

Lemma method_args_carries mt sig sb bs ws content :
  carries mt bs ws -> pack_sig sig = Ok sb ->
  method_args mt (sb ++ bs) content =
    Ok ((AVal <$> ws) ++ if Spec.m_content mt then [AMsg content] else []).
Proof.
  intros H Hsb%pack_sig_length. unfold method_args, carries in *. destruct (Spec.m_args mt) as [f|].
  - destruct H as (Hs & vs & Hwf & Hw & Hd).
    pose proof (loads_dumps_holds f vs bs ws sb [] Hs Hwf Hw Hd) as Hl.
    rewrite app_nil_r, Hsb in Hl. by rewrite Hl.
  - by subst ws.
Qed.
