(* ===== verification/SessionRpc.v ===== *)
(** * Calls, end to end

    A request with its reply: from the call of [send_method] to the bytes that
    are written, and from the frames that arrive to the value that [wait]
    returns. *)

From S2P Require Import Prelude Exceptions State Struct Utf8 Values Table Codec Content Framing.
From S2P Require Import Transport Sasl Conn Rpc Session SessionDemo Life SessionInv SessionSafe.
From S2P Require Import Quiet SessionWait SessionTurn.
From S2P Require Spec.

Open Scope Z_scope.

(** ** Waiting for a promise that is settled in one turn *)

Lemma popped_pending p ms pd sig : sig ∈ ms -> NoDup ms ->
  foldl pop_one (delete sig (push_all p ms pd)) (prevs p ms pd) = pd.
Proof.
  intros Hsig Hnd. apply map_eq. intros m. rewrite pop_prevs by done. case_decide as Hm; [done|].
  rewrite lookup_delete_ne, push_all_lookup by (by intros ->). by rewrite decide_False.
Qed.

Section wait.
Context {P : Type} `{!Vine P} (k : nat) (drain : option Z -> st (session P) unit).
Implicit Types s : session P.

Lemma pushed_object n ms c o s : s_objects s !! n = Some o ->
  s_objects (pushed n ms c o s) !! n = Some (set_pending (push_all (s_next s) ms (o_pending o)) o).
Proof.
  intros Ho. unfold pushed, with_pending. cbn [s_objects set_objects]. rewrite lookup_alter_eq, new_promise_eq.
  cbn [fst s_objects set_objects set_promises set_next]. by rewrite Ho.
Qed.

Lemma pushed_promise n ms c o s :
  s_promises (pushed n ms c o s) !! s_next s = Some (Promise c p_new).
Proof. apply lookup_insert_eq. Qed.

Lemma promise_pushed n ms c o s :
  promise (s_next s) (pushed n ms c o s) = (pushed n ms c o s, Ok (Promise c p_new)).
Proof. unfold promise. by rewrite pushed_promise. Qed.

Lemma pushed_idle n ch ms c o s :
  idle s n ch o -> idle (pushed n ms c o s) n ch (set_pending (push_all (s_next s) ms (o_pending o)) o).
Proof. intros []. split; try done. by apply pushed_object. Qed.

(** The session when the wait is over: the promises are taken out. *)
Definition waited (n : nat) (ms : list method_sig) (o o2 : object) s s2 : session P :=
  with_pending n (foldl pop_one (o_pending o2) (prevs (s_next s) ms (o_pending o))) s2.

Lemma wait_settled n ms c t s o v s2 o2 pp :
  s_objects s !! n = Some o -> o_connection o = true ->
  drain t (pushed n ms c o s) = settle (s_next s) v s2 ->
  s_promises s2 !! s_next s = Some pp -> s_objects s2 !! n = Some o2 ->
  wait (S (S k)) drain n ms c t s = (waited n ms o o2 s (settle (s_next s) v s2).1, Ok (Some (tail v))).
Proof.
  intros Ho Hc Hd Hpp Ho2. rewrite (wait_eq _ _ _ _ _ _ _ o Ho). set (p := s_next s) in *.
  set (s1 := pushed n ms c o s) in *. set (s3 := (settle p v s2).1).
  pose proof (promise_pushed n ms c o s) as Hp1. fold p s1 in Hp1.
  assert (promise p s3 = (s3, Ok (Promise (pp_confirm pp) (p_settle v (pp_promise pp))))) as Hp3.
  { unfold promise. unfold s3, settle, modify. cbn [fst s_promises set_promises].
    by rewrite lookup_alter_eq, Hpp. }
  pose proof (attr_ok n o_connection s1 _ (pushed_object n ms c o s Ho)) as Ha.
  cbn [o_connection set_pending] in Ha. rewrite Hc in Ha.
  unfold st_finally, wait_body. rewrite (st_bind_ok _ _ s1 s3 tt).
  - rewrite (st_bind_ok _ _ _ _ _ Hp3). cbn [pp_promise]. rewrite p_value_settle. unfold mret at 1, st_ret at 1.
    by rewrite (pop_pending_eq n _ s3 o2).
  - cbn [wait_loop]. rewrite (st_bind_ok _ _ _ _ _ Hp1). cbn [pp_promise]. rewrite p_ready_new.
    rewrite (st_bind_ok _ _ _ _ _ Ha). cbn [negb when]. rewrite st_bind_ret.
    rewrite (st_bind_ok _ _ _ s3 tt) by done.
    rewrite (st_bind_ok _ _ _ _ _ Hp3). cbn [pp_promise]. by rewrite p_ready_settle.
Qed.

Lemma wait_raised n ms c t s o e s2 o2 :
  s_objects s !! n = Some o -> o_connection o = true ->
  drain t (pushed n ms c o s) = (s2, Raise e) -> s_objects s2 !! n = Some o2 ->
  wait (S k) drain n ms c t s = (waited n ms o o2 s s2, Raise e).
Proof.
  intros Ho Hc Hd Ho2. rewrite (wait_eq _ _ _ _ _ _ _ o Ho).
  set (s1 := pushed n ms c o s) in *. unfold st_finally, wait_body. set (p := s_next s) in *.
  pose proof (promise_pushed n ms c o s) as Hp1. fold p s1 in Hp1.
  pose proof (attr_ok n o_connection s1 _ (pushed_object n ms c o s Ho)) as Ha.
  cbn [o_connection set_pending] in Ha. rewrite Hc in Ha.
  rewrite (st_bind_raise _ _ s1 s2 e); [by rewrite (pop_pending_eq n _ s2 o2)|].
  cbn [wait_loop]. rewrite (st_bind_ok _ _ _ _ _ Hp1). cbn [pp_promise]. rewrite p_ready_new.
  rewrite (st_bind_ok _ _ _ _ _ Ha). cbn [negb when]. rewrite st_bind_ret.
  by rewrite (st_bind_raise _ _ s1 s2 e).
Qed.

(** When the turn did nothing but take the promise of [sig], nothing is left. *)
Lemma waited_objects n ms o o2 s s2 sig :
  s_objects s !! n = Some o -> sig ∈ ms -> NoDup ms ->
  s_objects s2 = alter (set_pending (delete sig (push_all (s_next s) ms (o_pending o)))) n (s_objects s) ->
  s_objects s2 !! n = Some o2 -> s_objects (waited n ms o o2 s s2) = s_objects s.
Proof.
  intros Ho Hsig Hnd Hs2 Ho2. unfold waited. rewrite Hs2, lookup_alter_eq, Ho in Ho2. injection Ho2 as <-.
  cbn [o_pending set_pending]. rewrite popped_pending by done.
  trans (alter (set_pending (o_pending o)) n (s_objects s2)); [done|]. rewrite Hs2, alter_pending_twice.
  apply alter_id. intros o' Ho'. rewrite Ho in Ho'. injection Ho' as <-. by destruct o.
Qed.

Lemma waited_idle n ch ms o o2 s s2 sig :
  idle s n ch o -> sig ∈ ms -> NoDup ms ->
  s_objects s2 = alter (set_pending (delete sig (push_all (s_next s) ms (o_pending o)))) n (s_objects s) ->
  s_objects s2 !! n = Some o2 -> listening (s_io s2) ch -> idle (waited n ms o o2 s s2) n ch o.
Proof.
  intros [Ho ???] Hsig Hnd Hs2 Ho2 Hio. split; try done. by rewrite (waited_objects n ms o o2 s s2 sig).
Qed.
End wait.

Section call.
Context {P : Type} `{!Vine P} (os_nt : bool).
Context (other_codec : pystr -> pystr -> py bytes) (other_decode : bytes -> pystr -> py pystr).
Context (unwrap shutdown sock_close : transport -> py unit).
Context (user : user_call -> st (session P) unit) (cfg : config).
Implicit Types s : session P.

Abbreviation drain_events :=
  (Session.drain_events os_nt other_codec other_decode unwrap shutdown sock_close user cfg).
Abbreviation listener := (Session.listener other_codec unwrap shutdown sock_close user cfg).

(** The content as the channel hands it on. *)
Definition decoded (o : object) (content : option message) : option message :=
  if o_auto_decode o then decode_body other_decode <$> content else content.

(** Of the session, a call touches nothing but the transport and the one
    promise that it makes. *)
Record undisturbed s s' : Prop := Undisturbed {
  un_objects : s_objects s' = s_objects s;
  un_promises p : p <> s_next s -> s_promises s' !! p = s_promises s !! p;
  un_next : s_next s' = S (s_next s);
  un_channels : s_channels s' = s_channels s;
  un_used_ids : s_used_ids s' = s_used_ids s;
  un_handshake : s_handshake_complete s' = s_handshake_complete s;
  un_tuning : s_tuning s' = s_tuning s;
  un_client : s_client_properties s' = s_client_properties s;
  un_server : s_server s' = s_server s;
  un_log : s_log s' = s_log s;
}.

Definition reply_args (o : object) (mt : Spec.method_t) (ws : list value) (content : option message) : list arg :=
  (AVal <$> ws) ++ if Spec.m_content mt then [AMsg (decoded o content)] else [].

(** The wait of a call ends with the reply. *)
Lemma wait_reply k j late s n ch o ms sig sb mt bs ws content rest :
  idle s n ch o -> routed s ch n -> heeded n o sig -> sig ∈ ms -> NoDup ms -> pack_sig sig = Ok sb ->
  incoming (s_io s) ch sig (sb ++ bs) content late rest ->
  find_method (METHODS n) sig = Some mt -> carries mt bs ws -> listener j (drain_events j) n sig = None ->
  exists s', idle s' n ch o /\ stream (x_transport (s_io s')) = rest /\ advanced (s_io s) (s_io s') /\
    undisturbed s s' /\
    wait (S (S k)) (drain_events (late + S j)) n ms false None s = (s', Ok (Some (reply_args o mt ws content))).
Proof.
  intros Hi Hr Hh Hsig Hnd Hsb Hin Hmt Hcar Hl. pose proof (idle_object _ _ _ _ Hi) as Ho.
  set (pd := push_all (s_next s) ms (o_pending o)).
  pose proof (pushed_idle n ch ms false o s Hi) as Hi1. fold pd in Hi1.
  assert (pd !! sig = Some (s_next s)) as Hpd by (unfold pd; by rewrite push_all_lookup, decide_True).
  destruct (turn os_nt other_codec other_decode unwrap shutdown sock_close user cfg j late
    (pushed n ms false o s) n ch (set_pending pd o) sig mt (sb ++ bs) content rest Hi1 Hr Hh Hin Hmt)
    as (x & Hix & Hst & Ha & Hd); [left; by eexists|]. cbn [o_pending set_pending o_auto_decode] in Hd.
  rewrite Hpd in Hd. fold (decoded o content) in Hd.
  set (s2 := with_pending n (delete sig pd) (set_io x (pushed n ms false o s))) in Hd.
  assert (s_promises s2 !! s_next s = Some (Promise false p_new)) as Hpp by apply pushed_promise.
  assert (s_objects s2 = alter (set_pending (delete sig pd)) n (s_objects s)) as Hobj by apply alter_pending_twice.
  unfold run_listeners in Hd. rewrite (st_bind_lift _ (reply_args o mt ws content)) in Hd
    by by apply (method_args_carries mt sig).
  rewrite Hl, st_bind_ret in Hd. unfold call_promise in Hd.
  rewrite (st_bind_ok _ _ s2 s2 (Promise false p_new)) in Hd by (unfold promise; by rewrite Hpp).
  cbn [pp_confirm] in Hd.
  assert (s_objects s2 !! n = Some (set_pending (delete sig pd) o)) as Ho2
    by by rewrite Hobj, lookup_alter_eq, Ho.
  rewrite (wait_settled k _ n ms false None s o _ s2 _ _ Ho (idle_connection _ _ _ _ Hi) Hd Hpp Ho2).
  set (s3 := waited _ _ _ _ _ _).
  assert (s_objects s3 = s_objects s) as Hs3 by by apply (waited_objects n ms o _ s _ sig).
  exists s3. split_and!; [|exact Hst|exact Ha| |done].
  - apply (waited_idle n ch ms o _ s _ sig); try done. apply Hix.
  - split; try done. intros p Hp. unfold s3, waited, settle, modify, s2, with_pending, pushed.
    rewrite new_promise_eq. cbn. by rewrite lookup_alter_ne, lookup_insert_ne.
Qed.

(** A call from its beginning to its end. *)
Lemma rpc_reply k j late s s1 n ch o r sig sb mt bs ws content rest :
  session_ok s -> idle s n ch o -> heeded n o sig -> rq_content r = None ->
  sig ∈ rq_wait r -> NoDup (rq_wait r) ->
  Session.send_method other_codec unwrap shutdown sock_close user cfg (S (S k)) (drain_events (late + S j))
    n r (mret tt) s = (s1, Ok tt) ->
  pack_sig sig = Ok sb -> incoming (s_io s) ch sig (sb ++ bs) content late rest ->
  find_method (METHODS n) sig = Some mt -> carries mt bs ws -> listener j (drain_events j) n sig = None ->
  exists s' args rb wire,
    rpc other_codec unwrap shutdown sock_close user cfg (S (S k)) (drain_events (late + S j)) n r s =
      (s', Ok (Some (reply_args o mt ws content))) /\
    request_bytes r = Ok args /\ pack_sig (rq_sig r) = Ok rb /\
    pack_frame (Frame 1 ch (rb ++ args)) = Ok wire /\
    t_out (x_transport (s_io s')) = t_out (x_transport (s_io s)) ++ wire /\
    stream (x_transport (s_io s')) = rest /\
    undisturbed s s' /\ idle s' n ch o.
Proof.
  intros Hs Hi Hh Hc Hsig Hnd Hsend Hsb Hin Hmt Hcar Hl.
  pose proof (idle_routed s n ch o Hs Hi) as Hr.
  destruct (send_method_ok other_codec other_decode unwrap shutdown sock_close user cfg (S (S k))
    (drain_events (late + S j)) n ch o r s s1 Hi Hc Hsend) as (x & args & rb & wire & -> & Hsame & Ha & Hrb & Hw & Hout).
  destruct (wait_reply k j late (set_io x s) n ch o (rq_wait r) sig sb mt bs ws content rest) as
    (s' & Hi2 & Hst & Ho2 & Hobj & Hw2); try done.
  { by apply same_input_idle. }
  { by apply (same_input_incoming (s_io s)). }
  exists s', args, rb, wire. split_and!; try done.
  - unfold rpc. rewrite (st_bind_ok _ _ _ _ _ Hsend). destruct (rq_wait r); [by apply elem_of_nil in Hsig|done].
  - rewrite <- Hout. apply (ad_out _ _ Ho2).
  - by destruct Hobj; split.
Qed.

(** C6: a call, end to end.  On a channel in use, with the frames of a reply
    next on the stream, a request without content that could be sent returns
    the arguments of the reply and its content, when the reply is a method to
    which no listener reacts (those of [open], [close] and [cancel], which
    change the channel, have theorems of their own).  The bytes written are the
    one frame of the request, the bytes consumed are the frames of the reply,
    and of the rest of the session nothing has changed but for the promise that
    was made: every object, with its pending promises, the table of channels,
    the used ids, what was negotiated and the calls of the user are as before,
    and the channel is ready for the next call. *)
Theorem rpc_call k j late s s1 n ch o r sig sb mt bs ws content rest :
  session_ok s -> idle s n ch o -> heeded n o sig -> rq_content r = None ->
  sig ∈ rq_wait r -> NoDup (rq_wait r) ->
  Session.send_method other_codec unwrap shutdown sock_close user cfg (S (S k)) (drain_events (late + S j))
    n r (mret tt) s = (s1, Ok tt) ->
  pack_sig sig = Ok sb -> incoming (s_io s) ch sig (sb ++ bs) content late rest ->
  find_method (METHODS n) sig = Some mt -> carries mt bs ws -> listener j (drain_events j) n sig = None ->
  exists s' args rb wire,
    rpc other_codec unwrap shutdown sock_close user cfg (S (S k)) (drain_events (late + S j)) n r s =
      (s', Ok (Some (reply_args o mt ws content))) /\
    request_bytes r = Ok args /\ pack_sig (rq_sig r) = Ok rb /\
    pack_frame (Frame 1 ch (rb ++ args)) = Ok wire /\
    t_out (x_transport (s_io s')) = t_out (x_transport (s_io s)) ++ wire /\
    stream (x_transport (s_io s')) = rest /\
    undisturbed s s' /\ idle s' n ch o.
Proof. apply rpc_reply. Qed.

(** C18: [basic_get] returns the message at the head of the queue with its
    delivery information, and [None] when the broker answers that the queue is
    empty; either way the channel is ready for the next call. *)
Theorem basic_get_returns k j late s s1 n ch o queue no_ack sig sb mt bs ws content rest :
  session_ok s -> idle s (S n) ch o -> o_is_closing o = false ->
  Session.send_method other_codec unwrap shutdown sock_close user cfg (S (S k)) (drain_events (late + S j))
    (S n) (basic_get queue (VBool no_ack)) (mret tt) s = (s1, Ok tt) ->
  sig ∈ [Spec.Basic.GetOk; Spec.Basic.GetEmpty] ->
  pack_sig sig = Ok sb -> incoming (s_io s) ch sig (sb ++ bs) content late rest ->
  find_method CHANNEL_METHODS sig = Some mt -> carries mt bs ws ->
  (sig = Spec.Basic.GetOk -> is_Some content) ->
  exists s', idle s' (S n) ch o /\ stream (x_transport (s_io s')) = rest /\
    channel_basic_get other_codec unwrap shutdown sock_close user cfg (S (S k)) (drain_events (late + S j))
      (S n) queue no_ack s =
    (s', Ok (match decoded o content, ws with
             | Some msg, [delivery_tag; redelivered; exchange; key; count] =>
                 Some (set_delivery (S n)
                   [("delivery_tag", delivery_tag); ("redelivered", redelivered); ("exchange", exchange);
                    ("routing_key", key); ("message_count", count)] msg)
             | _, _ => None
             end)).
Proof.
  intros Hs Hi Hcl Hsend Hsig Hsb Hin Hmt Hcar Hc.
  destruct (rpc_reply k j late s s1 (S n) ch o (basic_get queue (VBool no_ack)) sig sb mt bs ws content rest)
    as (s' & args & rb & wire & Hrpc & _ & _ & _ & _ & Hst & _ & Hi'); try done.
  { by left. }
  { apply NoDup_ListNoDup. repeat constructor; [|by intros []]. intros [H|[]]. discriminate H. }
  { apply elem_of_cons in Hsig as [->|Hsig%list_elem_of_singleton]; [|subst sig]; reflexivity. }
  exists s'. split_and!; [done..|]. unfold channel_basic_get. rewrite (st_bind_ok _ _ _ _ _ Hrpc).
  apply carries_length in Hcar.
  apply elem_of_cons in Hsig as [->|Hsig%list_elem_of_singleton]; [|subst sig];
    vm_compute in Hmt; injection Hmt as <-; cbn in Hcar.
  - destruct (Hc eq_refl) as [msg ->]. do 5 (destruct ws as [|? ws]; [done|]). destruct ws; [|done].
    unfold reply_args, decoded. cbn. by destruct (o_auto_decode o).
  - destruct ws as [|? [|]]; try done. cbn. by destruct (decoded o content).
Qed.
End call.

(** ** A call of the demo connection *)

(** [wf_args] of concrete arguments without tables. *)
Ltac plain_args :=
  repeat (apply Forall2_cons; split; [intros ? Hf; vm_compute in Hf; injection Hf as <-; exact I|]);
  apply Forall2_nil_2.

Definition purge_reply : bytes := method_bytes 1 Spec.Queue.PurgeOk "l" [VInt 7].
Definition demo_open (replies : bytes) : demo_session :=
  (demo_channel None (demo_connect (demo_connection (handshake ++ [open_ok 1; Data replies]))).1).1.

Lemma demo_open_ok replies : session_ok (demo_open replies).
Proof.
  unfold demo_open, demo_channel, demo_connect, demo_drain.
  set (s := demo_connection _).
  refine (proj1 (operations_ok false no_codec no_decode closes closes closes demo_user demo_config
    s _ demo_user_uses_library _ _)).
  - eapply rtc_l; [|apply rtc_once]; [apply op_connect|apply op_channel].
  - apply new_connection_ok.
Qed.

Lemma no_writer_false x : no_writer x = false -> is_Some (x_buffer x).
Proof. unfold no_writer. by destruct (x_buffer x). Qed.

Definition demo_object : object := new_channel 1 None.

(** A channel in use, by computation. *)
Lemma between_intro x ch :
  (if x_handler x is Some h then
     match chan_state h ch with (ty, None) => ty =? 1 | _ => false end else false) = true ->
  between x ch.
Proof.
  intros Hh. destruct (x_handler x) as [h|] eqn:Hx; [|done]. exists h. split; [done|].
  destruct (chan_state h ch) as [ty [msg|]]; [done|]. f_equal. by apply Z.eqb_eq.
Qed.

Lemma listening_intro x ch :
  x_has_transport x = true -> no_writer x = false ->
  (if x_handler x is Some h then
     match chan_state h ch with (ty, None) => ty =? 1 | _ => false end else false) = true ->
  quiet (x_transport x) ->
  listening x ch.
Proof. intros ? Hw Hh ?. split; [done|by apply no_writer_false|by apply between_intro|done]. Qed.

Lemma idle_intro {P} (s : session P) n ch o :
  s_objects s !! n = Some o -> o_connection o = true -> o_channel_id o = Some ch ->
  x_has_transport (s_io s) = true -> no_writer (s_io s) = false ->
  (if x_handler (s_io s) is Some h then
     match chan_state h ch with (ty, None) => ty =? 1 | _ => false end else false) = true ->
  quiet (x_transport (s_io s)) ->
  idle s n ch o.
Proof. intros. split; [done..|]. by apply listening_intro. Qed.

Lemma rpc_call_witness :
  exists s' args rb wire,
    demo_rpc 1 (queue_purge (VStr (str_of "q")) (VBool false)) (demo_open purge_reply) =
      (s', Ok (Some (reply_args no_decode (set_is_open true demo_object)
        (Spec.method Spec.Queue.PurgeOk (Some "l") false) [VInt 7] None))) /\
    request_bytes (queue_purge (VStr (str_of "q")) (VBool false)) = Ok args /\
    pack_sig Spec.Queue.Purge = Ok rb /\ pack_frame (Frame 1 1 (rb ++ args)) = Ok wire /\
    t_out (x_transport (s_io s')) = t_out (x_transport (s_io (demo_open purge_reply))) ++ wire /\
    stream (x_transport (s_io s')) = [] /\
    undisturbed (demo_open purge_reply) s' /\ idle s' 1 1 (set_is_open true demo_object).
Proof.
  assert (idle (demo_open purge_reply) 1 1 (set_is_open true demo_object)) as Hi
    by (apply idle_intro; vm_compute; reflexivity).
  unfold demo_rpc, demo_drain.
  destruct (send_method no_codec closes closes closes demo_user demo_config 10
    (drain_events false no_codec no_decode closes closes closes demo_user demo_config 10) 1
    (queue_purge (VStr (str_of "q")) (VBool false)) (mret tt) (demo_open purge_reply)) as [s1 r] eqn:Hsend.
  assert (r = Ok tt) as ->.
  { apply (f_equal snd) in Hsend. cbn [snd] in Hsend. rewrite <- Hsend. vm_compute. reflexivity. }
  refine (rpc_call false no_codec no_decode closes closes closes demo_user demo_config 8 9 0
    (demo_open purge_reply) s1 1 1 (set_is_open true demo_object)
    (queue_purge (VStr (str_of "q")) (VBool false)) Spec.Queue.PurgeOk
    (ok_or [] (pack_sig Spec.Queue.PurgeOk)) (Spec.method Spec.Queue.PurgeOk (Some "l") false)
    (be_encode 4 7) [VInt 7] None [] (demo_open_ok _) Hi _ _ _ _ Hsend _ _ _ _ _).
  - by left.
  - reflexivity.
  - left.
  - apply NoDup_singleton.
  - vm_compute. reflexivity.
  - apply (incoming_method (s_io (demo_open purge_reply)) 1 Spec.Queue.PurgeOk
      (ok_or [] (pack_sig Spec.Queue.PurgeOk)) (be_encode 4 7) purge_reply []).
    + apply Hi.
    + vm_compute. reflexivity.
    + by apply (bool_decide_unpack _).
    + vm_compute. reflexivity.
    + vm_compute. reflexivity.
  - vm_compute. reflexivity.
  - split; [reflexivity|]. exists [VInt 7]. split; [|split; vm_compute; reflexivity].
    plain_args.
  - reflexivity.
Defined.

(** A message on its way. *)
Definition get_values : list value :=
  [VInt 5; VBool false; VStr (str_of "x"); VStr (str_of "k"); VInt 0].
Definition get_args : bytes := ok_or [] (dumps (bytes_of "Lbssl") get_values).
Definition get_reply : bytes :=
  content_bytes 1 Spec.Basic.GetOk get_args [("priority", VInt 9)] (bytes_of "hello").

Lemma priority_wf : wf_props PROPERTIES [("priority", VInt 9)].
Proof.
  intros key t v _ Hp. unfold present, dict_get in Hp. repeat case_decide; simplify_eq.
  destruct (fmt_of_type t); try done; intros d Hd; cbn in Hd; discriminate Hd.
Qed.

Definition got_message : message :=
  received_message Spec.Basic.GetOk (ok_or [] (pack_sig Spec.Basic.GetOk) ++ get_args)
    [("priority", VInt 9)] (bytes_of "hello").

Lemma get_reply_incoming :
  idle (demo_open get_reply) 1 1 (set_is_open true demo_object) ->
  incoming (s_io (demo_open get_reply)) 1 Spec.Basic.GetOk
    (ok_or [] (pack_sig Spec.Basic.GetOk) ++ get_args) (Some got_message) 2 [].
Proof.
  intros Hi.
  apply (incoming_content (s_io (demo_open get_reply)) 1 Spec.Basic.GetOk
      (ok_or [] (pack_sig Spec.Basic.GetOk)) get_args [("priority", VInt 9)]
      (ok_or [] (pack_header Spec.Basic.CLASS_ID 5))
      (ok_or [] (serialize_properties PROPERTIES [("priority", VInt 9)]))
      [("priority", VInt 9)] [bytes_of "hello"] get_reply []).
  - apply Hi.
  - vm_compute. reflexivity.
  - by apply (bool_decide_unpack _).
  - apply priority_wf.
  - vm_compute. reflexivity.
  - vm_compute. reflexivity.
  - vm_compute. reflexivity.
  - repeat constructor; discriminate.
  - vm_compute. reflexivity.
  - vm_compute. reflexivity.
Qed.

Lemma basic_get_returns_witness :
  exists s', idle s' 1 1 (set_is_open true demo_object) /\ stream (x_transport (s_io s')) = [] /\
    channel_basic_get no_codec closes closes closes demo_user demo_config 10 demo_drain 1
      (VStr (str_of "q")) false (demo_open get_reply) =
    (s', Ok (Some (set_delivery 1
       [("delivery_tag", VInt 5); ("redelivered", VBool false); ("exchange", VStr (str_of "x"));
        ("routing_key", VStr (str_of "k")); ("message_count", VInt 0)] got_message))).
Proof.
  assert (idle (demo_open get_reply) 1 1 (set_is_open true demo_object)) as Hi
    by (apply idle_intro; vm_compute; reflexivity).
  unfold demo_drain.
  destruct (send_method no_codec closes closes closes demo_user demo_config 10
    (drain_events false no_codec no_decode closes closes closes demo_user demo_config 10) 1
    (basic_get (VStr (str_of "q")) (VBool false)) (mret tt) (demo_open get_reply)) as [s1 r] eqn:Hsend.
  assert (r = Ok tt) as ->.
  { apply (f_equal snd) in Hsend. cbn [snd] in Hsend. rewrite <- Hsend. vm_compute. reflexivity. }
  refine (basic_get_returns false no_codec no_decode closes closes closes demo_user demo_config 8 7 2
    (demo_open get_reply) s1 0 1 (set_is_open true demo_object) (VStr (str_of "q")) false
    Spec.Basic.GetOk (ok_or [] (pack_sig Spec.Basic.GetOk)) (Spec.method Spec.Basic.GetOk (Some "Lbssl") true)
    get_args get_values (Some got_message) [] (demo_open_ok _) Hi eq_refl Hsend _ _
    (get_reply_incoming Hi) _ _ _).
  - left.
  - vm_compute. reflexivity.
  - vm_compute. reflexivity.
  - split; [reflexivity|]. exists get_values. split; [|split; vm_compute; reflexivity].
    plain_args.
  - by eexists.
Defined.
