(* ===== verification/SessionEvents.v ===== *)
(** * Methods the broker sends on its own

    Deliveries to consumers, publisher confirms, and the closing of the
    connection by the broker: from the frames that arrive to the function of
    the user that is called, or the exception that is raised. *)

From S2P Require Import Prelude Exceptions State Struct Utf8 Values Table Codec Content Framing.
From S2P Require Import Transport Sasl Conn Rpc Session SessionDemo Life SessionInv SessionSafe.
From S2P Require Import Quiet SessionWait SessionTurn SessionRpc.
From S2P Require Spec.

Open Scope Z_scope.

Section events.
Context {P : Type} `{!Vine P} (os_nt : bool).
Context (other_codec : pystr -> pystr -> py bytes) (other_decode : bytes -> pystr -> py pystr).
Context (unwrap shutdown sock_close : transport -> py unit).
Context (user : user_call -> st (session P) unit) (cfg : config).
Implicit Types s : session P.

Abbreviation drain_events :=
  (Session.drain_events os_nt other_codec other_decode unwrap shutdown sock_close user cfg).
Abbreviation rpc := (Session.rpc other_codec unwrap shutdown sock_close user cfg).

(** The turn for a method that no promise waits for. *)
Lemma turn_unasked j late s n ch o sig sb mt bs ws content rest l :
  session_ok s -> idle s n ch o -> heeded n o sig -> pack_sig sig = Ok sb ->
  incoming (s_io s) ch sig (sb ++ bs) content late rest ->
  find_method (METHODS n) sig = Some mt -> carries mt bs ws -> o_pending o !! sig = None ->
  listener other_codec unwrap shutdown sock_close user cfg j (drain_events j) n sig = Some l ->
  exists x, idle (set_io x s) n ch o /\ stream (x_transport x) = rest /\ advanced (s_io s) x /\
    drain_events (late + S j) None s = l (reply_args other_decode o mt ws content) (set_io x s).
Proof.
  intros Hs Hi Hh Hsb Hin Hmt Hcar Hp Hl.
  destruct (turn os_nt other_codec other_decode unwrap shutdown sock_close user cfg j late s n ch o sig mt
    (sb ++ bs) content rest Hi (idle_routed s n ch o Hs Hi) Hh Hin Hmt) as (x & Hx & Hst & Ha & Hd);
    [right; by eexists|].
  exists x. split_and!; try done. rewrite Hd, Hp.
  assert (with_pending n (delete sig (o_pending o)) (set_io x s) = set_io x s) as ->.
  { unfold with_pending. rewrite delete_id by done. cbn [s_objects set_io].
    rewrite alter_id; [by destruct s|]. intros o' Ho'.
    rewrite (idle_object _ _ _ _ Hi) in Ho'. injection Ho' as <-. by destruct o. }
  unfold run_listeners. rewrite (st_bind_lift _ (reply_args other_decode o mt ws content))
    by by apply (method_args_carries mt sig).
  rewrite Hl. unfold mbind, st_bind. by destruct (l _ _) as [s' [[]| |]].
Qed.

Lemma deliver_turn j late s n ch o sb bs tag delivery_tag redelivered exchange key msg rest :
  session_ok s -> idle s (S n) ch o -> o_is_closing o = false -> o_pending o !! Spec.Basic.Deliver = None ->
  pack_sig Spec.Basic.Deliver = Ok sb ->
  incoming (s_io s) ch Spec.Basic.Deliver (sb ++ bs) (Some msg) late rest ->
  carries (Spec.method Spec.Basic.Deliver (Some "sLbss") true) bs
    [VStr tag; delivery_tag; redelivered; exchange; key] ->
  let info := [("consumer_tag", VStr tag); ("delivery_tag", delivery_tag); ("redelivered", redelivered);
               ("exchange", exchange); ("routing_key", key)] in
  let received := if o_auto_decode o then decode_body other_decode msg else msg in
  exists x, idle (set_io x s) (S n) ch o /\ stream (x_transport x) = rest /\ advanced (s_io s) x /\
    drain_events (late + S j) None s =
      match dict_get (o_callbacks o) (KStr tag) with
      | Some (Some f) => call_user user (Consumed f (set_delivery (S n) info received)) (set_io x s)
      | Some None => (set_io x s, Raise TypeError)
      | None => (rpc j (drain_events j) (S n) (basic_reject delivery_tag (VBool true)) ;; mret tt) (set_io x s)
      end.
Proof.
  intros Hs Hi Hcl Hp Hsb Hin Hcar info received.
  destruct (turn_unasked j late s (S n) ch o Spec.Basic.Deliver sb _ bs _ (Some msg) rest _
    Hs Hi (or_introl Hcl) Hsb Hin eq_refl Hcar Hp eq_refl) as (x & Hx & Hst & Ha & Hd).
  exists x. split_and!; [done..|]. rewrite Hd.
  trans (on_basic_deliver other_codec unwrap shutdown sock_close user cfg j (drain_events j) (S n) tag
    delivery_tag redelivered exchange key received (set_io x s)).
  { unfold reply_args, decoded, received. by destruct (o_auto_decode o). }
  unfold on_basic_deliver. rewrite (st_bind_ok _ _ _ _ _ (attr_ok (S n) o_callbacks _ o (idle_object _ _ _ _ Hx))).
  by destruct (dict_get (o_callbacks o) (KStr tag)) as [[f|]|].
Qed.

(** C8: a delivery.  When the frames of a [basic.deliver] arrive on a channel
    in use, one call of [drain_events] consumes exactly them and calls the
    function registered for the consumer tag, with the message, its body
    decoded if the channel decodes, and its delivery information.  For a tag
    without a consumer the message is rejected and goes back into the queue;
    for a tag registered without a function the call of [None] raises. *)
Theorem delivery j late s n ch o sb bs tag delivery_tag redelivered exchange key msg rest :
  session_ok s -> idle s (S n) ch o -> o_is_closing o = false -> o_pending o !! Spec.Basic.Deliver = None ->
  pack_sig Spec.Basic.Deliver = Ok sb ->
  incoming (s_io s) ch Spec.Basic.Deliver (sb ++ bs) (Some msg) late rest ->
  carries (Spec.method Spec.Basic.Deliver (Some "sLbss") true) bs
    [VStr tag; delivery_tag; redelivered; exchange; key] ->
  let info := [("consumer_tag", VStr tag); ("delivery_tag", delivery_tag); ("redelivered", redelivered);
               ("exchange", exchange); ("routing_key", key)] in
  let received := if o_auto_decode o then decode_body other_decode msg else msg in
  exists x, idle (set_io x s) (S n) ch o /\ stream (x_transport x) = rest /\ advanced (s_io s) x /\
    drain_events (late + S j) None s =
      match dict_get (o_callbacks o) (KStr tag) with
      | Some (Some f) => call_user user (Consumed f (set_delivery (S n) info received)) (set_io x s)
      | Some None => (set_io x s, Raise TypeError)
      | None => (rpc j (drain_events j) (S n) (basic_reject delivery_tag (VBool true)) ;; mret tt) (set_io x s)
      end.
Proof. apply deliver_turn. Qed.

(** *** Publisher confirms *)

Lemma no_handlers event n o tag multiple s :
  s_objects s !! n = Some o -> dict_get (o_events o) event = None ->
  on_basic_ack user event n tag multiple s = (s, Ok tt).
Proof.
  intros Ho He. unfold on_basic_ack, handlers.
  rewrite st_bind_bind, (st_bind_ok _ _ _ _ _ (attr_ok n o_events s o Ho)). by rewrite He.
Qed.

(** The wait for a confirm. *)
Lemma wait_confirm k j late s n ch o sig sb bs tag multiple rest :
  idle s (S n) ch o -> routed s ch (S n) -> o_is_closing o = false -> sig ∈ [Spec.Basic.Ack; Spec.Basic.Nack] ->
  pack_sig sig = Ok sb -> incoming (s_io s) ch sig (sb ++ bs) None late rest ->
  carries (Spec.method sig (Some "Lb") false) bs [tag; multiple] ->
  dict_get (o_events o) "basic_ack" = None -> dict_get (o_events o) "basic_nack" = None ->
  exists s' v, idle s' (S n) ch o /\ stream (x_transport (s_io s')) = rest /\ advanced (s_io s) (s_io s') /\
    s_objects s' = s_objects s /\
    wait (S (S k)) (drain_events (late + S j)) (S n) [Spec.Basic.Ack; Spec.Basic.Nack] true None s =
      (s', if decide (sig = Spec.Basic.Nack) then Raise MessageNacked else Ok (Some v)).
Proof.
  intros Hi Hr Hcl Hsig Hsb Hin Hcar Hack Hnack. pose proof (idle_object _ _ _ _ Hi) as Ho.
  set (ms := [Spec.Basic.Ack; Spec.Basic.Nack]) in *. set (pd := push_all (s_next s) ms (o_pending o)).
  assert (NoDup ms) as Hnd by by apply (bool_decide_unpack _).
  pose proof (pushed_idle (S n) ch ms true o s Hi) as Hi1. fold pd in Hi1.
  assert (pd !! sig = Some (s_next s)) as Hpd by (unfold pd; by rewrite push_all_lookup, decide_True).
  assert (find_method (METHODS (S n)) sig = Some (Spec.method sig (Some "Lb") false) /\
    forall s', s_objects s' !! S n = Some (set_pending (delete sig pd) o) ->
      (match listener other_codec unwrap shutdown sock_close user cfg j (drain_events j) (S n) sig with
       | Some l => l [AVal tag; AVal multiple] | None => mret tt end) s' = (s', Ok tt)) as [Hmt Hl].
  { subst ms. apply elem_of_cons in Hsig as [->|Hsig%list_elem_of_singleton]; [|subst sig];
      (split; [vm_compute; reflexivity|]); intros s' Ho'.
    - trans (on_basic_ack user "basic_ack" (S n) tag multiple s'); [done|]. by eapply no_handlers.
    - trans (on_basic_ack user "basic_nack" (S n) tag multiple s'); [done|]. by eapply no_handlers. }
  destruct (turn os_nt other_codec other_decode unwrap shutdown sock_close user cfg j late
    (pushed (S n) ms true o s) (S n) ch (set_pending pd o) sig (Spec.method sig (Some "Lb") false)
    (sb ++ bs) None rest Hi1 Hr (or_introl Hcl) Hin Hmt) as (x & Hix & Hst & Ha & Hd); [left; by eexists|].
  cbn [o_pending set_pending o_auto_decode fmap option_fmap option_map] in Hd. rewrite Hpd in Hd.
  set (s2 := with_pending (S n) (delete sig pd) (set_io x (pushed (S n) ms true o s))) in Hd.
  assert (s_promises s2 !! s_next s = Some (Promise true p_new)) as Hpp by apply pushed_promise.
  assert (s_objects s2 = alter (set_pending (delete sig pd)) (S n) (s_objects s)) as Hobj by apply alter_pending_twice.
  assert (s_objects s2 !! S n = Some (set_pending (delete sig pd) o)) as Ho2 by by rewrite Hobj, lookup_alter_eq, Ho.
  unfold run_listeners in Hd. rewrite (st_bind_lift _ [AVal tag; AVal multiple]) in Hd.
  2: { erewrite (method_args_carries _ sig); [|done..]. by destruct (o_auto_decode o). }
  rewrite (st_bind_ok _ _ s2 s2 tt (Hl s2 Ho2)) in Hd.
  unfold call_promise in Hd.
  rewrite (st_bind_ok _ _ s2 s2 (Promise true p_new)) in Hd by (unfold promise; by rewrite Hpp).
  cbn [pp_confirm confirm_handler] in Hd.
  destruct (decide (sig = Spec.Basic.Nack)) as [->|Hne].
  - rewrite decide_True in Hd by done.
    exists (waited (S n) ms o (set_pending (delete Spec.Basic.Nack pd) o) s s2), [].
    split_and!; [|exact Hst|exact Ha| |].
    + apply (waited_idle (S n) ch ms o _ s s2 Spec.Basic.Nack); try done. apply Hix.
    + by apply (waited_objects (S n) ms o _ s s2 Spec.Basic.Nack).
    + by apply wait_raised; [|apply Hi| |].
  - rewrite decide_False in Hd by congruence. rewrite st_bind_ret in Hd.
    set (s3 := waited (S n) ms o (set_pending (delete sig pd) o) s (settle (s_next s) [AVal VNone] s2).1).
    exists s3, []. split_and!; [|exact Hst|exact Ha| |].
    + apply (waited_idle (S n) ch ms o _ s _ sig); try done. apply Hix.
    + by apply (waited_objects (S n) ms o _ s _ sig).
    + by apply (wait_settled k _ (S n) ms true None s o [AVal VNone] s2 _ _ Ho (idle_connection _ _ _ _ Hi) Hd Hpp).
Qed.

(** C12: a publisher confirm.  A message published on a channel in confirm
    mode is waited for: the broker's [basic.ack] lets
    [basic_publish_confirm] return, its [basic.nack] raises [MessageNacked],
    and in both cases no promise is left and the channel is ready for the next
    message. *)
Theorem publish_confirmed k j late s s1 n ch o0 o msg ex rk mandatory immediate sig sb bs tag multiple rest :
  s_objects s !! S n = Some o0 -> o_confirm_selected o0 = true ->
  channel_basic_publish other_codec unwrap shutdown sock_close user cfg (S (S k)) (drain_events (late + S j))
    (S n) msg ex rk mandatory immediate None s = (s1, Ok tt) ->
  session_ok s1 -> idle s1 (S n) ch o -> o_is_closing o = false -> sig ∈ [Spec.Basic.Ack; Spec.Basic.Nack] ->
  pack_sig sig = Ok sb -> incoming (s_io s1) ch sig (sb ++ bs) None late rest ->
  carries (Spec.method sig (Some "Lb") false) bs [tag; multiple] ->
  dict_get (o_events o) "basic_ack" = None -> dict_get (o_events o) "basic_nack" = None ->
  exists s', idle s' (S n) ch o /\ stream (x_transport (s_io s')) = rest /\ s_objects s' = s_objects s1 /\
    t_out (x_transport (s_io s')) = t_out (x_transport (s_io s1)) /\
    channel_basic_publish_confirm other_codec unwrap shutdown sock_close user cfg (S (S k))
      (drain_events (late + S j)) (S n) msg ex rk mandatory immediate None None s =
      (s', if decide (sig = Spec.Basic.Nack) then Raise MessageNacked else Ok tt).
Proof.
  intros Ho0 Hc0 Hpub Hs1 Hi Hcl Hsig Hsb Hin Hcar Hack Hnack.
  destruct (wait_confirm k j late s1 n ch o sig sb bs tag multiple rest Hi (idle_routed _ _ _ _ Hs1 Hi) Hcl Hsig Hsb
    Hin Hcar Hack Hnack) as (s' & v & Hi' & Hst & Ha & Hobj & Hw).
  exists s'. split_and!; [done..|apply (ad_out _ _ Ha)|]. unfold channel_basic_publish_confirm.
  rewrite (st_bind_ok _ _ _ _ _ (attr_ok (S n) o_confirm_selected s o0 Ho0)), Hc0. cbn [negb when].
  rewrite st_bind_ret, (st_bind_ok _ _ _ _ _ Hpub). unfold mbind, st_bind. rewrite Hw. by case_decide.
Qed.
End events.

(** ** On the demo channel *)

Definition deliver_values : list value :=
  [VStr (str_of "c"); VInt 5; VBool false; VStr (str_of "x"); VStr (str_of "k")].
Definition deliver_args : bytes := ok_or [] (dumps (bytes_of "sLbss") deliver_values).
Definition deliver_bytes : bytes :=
  content_bytes 1 Spec.Basic.Deliver deliver_args [("priority", VInt 9)] (bytes_of "hello").
Definition delivered : message :=
  received_message Spec.Basic.Deliver (ok_or [] (pack_sig Spec.Basic.Deliver) ++ deliver_args)
    [("priority", VInt 9)] (bytes_of "hello").

(** The channel with a consumer [c], the function 3. *)
Definition consuming : object :=
  set_consumers [(KStr (str_of "c"), Some 3%nat)] [] [] (set_is_open true demo_object).
Definition demo_consuming : demo_session :=
  (upd 1 (set_consumers [(KStr (str_of "c"), Some 3%nat)] [] []) (demo_open deliver_bytes)).1.

Lemma demo_consuming_ok : session_ok demo_consuming.
Proof. apply (keeps_inert 1); [by intros o|apply demo_open_ok]. Qed.

Lemma delivery_witness :
  let info := [("consumer_tag", VStr (str_of "c")); ("delivery_tag", VInt 5); ("redelivered", VBool false);
               ("exchange", VStr (str_of "x")); ("routing_key", VStr (str_of "k"))] in
  exists x, idle (set_io x demo_consuming) 1 1 consuming /\ stream (x_transport x) = [] /\
    advanced (s_io demo_consuming) x /\
    demo_drain None demo_consuming =
      call_user demo_user (Consumed 3 (set_delivery 1 info (decode_body no_decode delivered)))
        (set_io x demo_consuming).
Proof.
  assert (idle demo_consuming 1 1 consuming) as Hi by (apply idle_intro; vm_compute; reflexivity).
  unfold demo_drain.
  refine (delivery false no_codec no_decode closes closes closes demo_user demo_config 7 2 demo_consuming
    0 1 consuming (ok_or [] (pack_sig Spec.Basic.Deliver)) deliver_args (str_of "c") (VInt 5) (VBool false)
    (VStr (str_of "x")) (VStr (str_of "k")) delivered [] demo_consuming_ok Hi eq_refl eq_refl _ _ _).
  - vm_compute. reflexivity.
  - apply (incoming_content (s_io demo_consuming) 1 Spec.Basic.Deliver
      (ok_or [] (pack_sig Spec.Basic.Deliver)) deliver_args [("priority", VInt 9)]
      (ok_or [] (pack_header Spec.Basic.CLASS_ID 5))
      (ok_or [] (serialize_properties PROPERTIES [("priority", VInt 9)]))
      [("priority", VInt 9)] [bytes_of "hello"] deliver_bytes []).
    + apply Hi.
    + vm_compute. reflexivity.
    + by apply (bool_decide_unpack _).
    + apply priority_wf.
    + vm_compute. reflexivity.
    + vm_compute. reflexivity.
    + vm_compute. reflexivity.
    + repeat constructor; discriminate.
    + vm_compute. reflexivity.
    + vm_compute. reflexivity.
  - split; [reflexivity|]. exists deliver_values. split; [plain_args|split; vm_compute; reflexivity].
Defined.

(** The channel in confirm mode, and the [nack] of a message.  (Before it
    publishes, a client that announced [connection.blocked] takes the events
    that are there.) *)
Definition nack_args : bytes := ok_or [] (dumps (bytes_of "Lb") [VInt 1; VBool false]).
Definition nack_bytes : bytes := method_bytes 1 Spec.Basic.Nack "Lb" [VInt 1; VBool false].
Definition confirming : object := set_confirm_selected (set_is_open true demo_object).
Definition demo_confirming : demo_session :=
  set_client_properties [] (upd 1 set_confirm_selected (demo_open nack_bytes)).1.
Abbreviation demo_publish :=
  (channel_basic_publish no_codec closes closes closes demo_user demo_config 10
    (drain_events false no_codec no_decode closes closes closes demo_user demo_config 10) 1 sample_content
    (VStr (str_of "x")) (VStr (str_of "k")) (VBool false) (VBool false) None).

Lemma demo_published_ok : session_ok (demo_publish demo_confirming).1.
Proof.
  assert (keeps demo_publish) as Hk.
  { pose proof (demo_user_uses_library (P := option (list arg))) as Huser. unfold uses_library in Huser.
    unfold channel_basic_publish, having_timeout_in, recoverable. keeps_tac. }
  apply Hk. unfold demo_confirming.
  assert (session_ok (upd 1 set_confirm_selected (demo_open nack_bytes)).1) as Hs
    by (apply (keeps_inert 1); [by intros o|apply demo_open_ok]).
  revert Hs. generalize (upd 1 set_confirm_selected (demo_open nack_bytes)).1. intros s Hs.
  apply (same_core_ok s); [by split_and!|done].
Qed.

Lemma publish_confirmed_witness :
  exists s1 s', demo_publish demo_confirming = (s1, Ok tt) /\
    idle s' 1 1 confirming /\ stream (x_transport (s_io s')) = [] /\ s_objects s' = s_objects s1 /\
    t_out (x_transport (s_io s')) = t_out (x_transport (s_io s1)) /\
    channel_basic_publish_confirm no_codec closes closes closes demo_user demo_config 10 demo_drain 1
      sample_content (VStr (str_of "x")) (VStr (str_of "k")) (VBool false) (VBool false) None None demo_confirming =
      (s', Raise MessageNacked).
Proof.
  assert (idle (demo_publish demo_confirming).1 1 1 confirming) as Hi by (apply idle_intro; vm_compute; reflexivity).
  assert (stream (x_transport (s_io (demo_publish demo_confirming).1)) = nack_bytes ++ []) as Hst
    by (vm_compute; reflexivity).
  assert ((demo_publish demo_confirming).2 = Ok tt) as Hr by (vm_compute; reflexivity).
  assert (s_objects demo_confirming !! 1%nat = Some confirming) as Hobj by (vm_compute; reflexivity).
  pose proof demo_published_ok as Hok.
  destruct (demo_publish demo_confirming) as [s1 r] eqn:Hpub. cbn [fst snd] in *. subst r.
  exists s1. unfold demo_drain.
  edestruct (publish_confirmed false no_codec no_decode closes closes closes demo_user demo_config 8 9 0
    demo_confirming s1 0 1 confirming confirming sample_content (VStr (str_of "x")) (VStr (str_of "k"))
    (VBool false) (VBool false) Spec.Basic.Nack (ok_or [] (pack_sig Spec.Basic.Nack)) nack_args
    (VInt 1) (VBool false) [] Hobj eq_refl Hpub Hok Hi eq_refl) as (s' & H).
  - right. left.
  - vm_compute. reflexivity.
  - apply (incoming_method (s_io s1) 1 Spec.Basic.Nack
      (ok_or [] (pack_sig Spec.Basic.Nack)) nack_args nack_bytes []).
    + apply Hi.
    + vm_compute. reflexivity.
    + by apply (bool_decide_unpack _).
    + vm_compute. reflexivity.
    + exact Hst.
  - split; [reflexivity|]. exists [VInt 1; VBool false]. split; [plain_args|split; vm_compute; reflexivity].
  - reflexivity.
  - reflexivity.
  - exists s'. split; [done|]. exact H.
Defined.
