(* ===== verification/SessionNetwork.v ===== *)
(** * The network cuts the bytes as it likes: whole sessions

    Two sessions are the same when they differ in nothing but the pieces in
    which the bytes of the peer arrive, now or over the connections that are
    still to be made.  No program that uses the library can tell them apart. *)

From S2P Require Import Prelude Exceptions State Struct Values Codec Content Framing Transport Network.
From S2P Require Import Sasl Conn Rpc Session SessionDemo SessionEvents SessionEnds.
From S2P Require Spec.

Open Scope Z_scope.

(** ** The same session, up to the pieces *)

Record same_dial (d1 d2 : dial) : Prop := SameDial {
  sd_transport : same_network (d_transport d1) (d_transport d2);
  sd_entries : d_entries d1 = d_entries d2;
  sd_options : d_options d1 = d_options d2;
  sd_handshake : d_handshake d1 = d_handshake d2;
  sd_close : d_close d1 = d_close d2;
}.

#[export] Instance same_dial_equivalence : Equivalence same_dial.
Proof.
  split; [by split|by intros d1 d2 []; split|].
  intros d1 d2 d3 [] []. split; [by etrans|congruence..].
Qed.

Record same_io (x1 x2 : io) : Prop := SameIo {
  sx_transport : same_network (x_transport x1) (x_transport x2);
  sx_has : x_has_transport x1 = x_has_transport x2;
  sx_buffer : x_buffer x1 = x_buffer x2;
  sx_bytes_sent : x_bytes_sent x1 = x_bytes_sent x2;
  sx_handler : x_handler x1 = x_handler x2;
  sx_dials : Forall2 same_dial (x_dials x1) (x_dials x2);
}.

#[export] Instance same_io_equivalence : Equivalence same_io.
Proof.
  split; [by split|by intros x1 x2 []; split|].
  intros x1 x2 x3 [] []. split; [by etrans|congruence..|by etrans].
Qed.

Record same_session {P} (s1 s2 : session P) : Prop := SameSession {
  ss_io : same_io (s_io s1) (s_io s2);
  ss_objects : s_objects s1 = s_objects s2;
  ss_promises : s_promises s1 = s_promises s2;
  ss_next : s_next s1 = s_next s2;
  ss_channels : s_channels s1 = s_channels s2;
  ss_used_ids : s_used_ids s1 = s_used_ids s2;
  ss_handshake : s_handshake_complete s1 = s_handshake_complete s2;
  ss_tuning : s_tuning s1 = s_tuning s2;
  ss_client : s_client_properties s1 = s_client_properties s2;
  ss_server : s_server s1 = s_server s2;
  ss_log : s_log s1 = s_log s2;
}.

#[export] Instance same_session_equivalence {P} : Equivalence (@same_session P).
Proof.
  split; [by split|by intros s1 s2 []; split|].
  intros s1 s2 s3 [] []. split; [by etrans|congruence..].
Qed.

#[export] Instance s_io_proper {P} : Proper (same_session ==> same_io) (@s_io P).
Proof. by intros s1 s2 []. Qed.
#[export] Instance set_io_proper {P} : Proper (same_io ==> same_session ==> same_session) (@set_io P).
Proof. intros x1 x2 Hx s1 s2 []. by split. Qed.
#[export] Instance x_transport_proper : Proper (same_io ==> same_network) x_transport.
Proof. by intros x1 x2 []. Qed.
#[export] Instance set_x_transport_proper : Proper (same_network ==> same_io ==> same_io) set_x_transport.
Proof. intros t1 t2 Ht x1 x2 []. by split. Qed.

#[export] Instance connected_session_proper {P} : Proper (same_session ==> eq) (@connected P).
Proof. intros s1 s2 [[Ht Hh _ _ _ _]]. unfold connected. by rewrite Hh, (connected_proper _ _ Ht). Qed.

(** What other code answers does not depend on the pieces either. *)
Record env_blind (unwrap shutdown sock_close : transport -> py unit) : Prop := EnvBlind {
  eb_unwrap : Proper (same_network ==> eq) unwrap;
  eb_shutdown : Proper (same_network ==> eq) shutdown;
  eb_close : Proper (same_network ==> eq) sock_close;
}.

Section network.
Context {P : Type} `{!Vine P} (os_nt : bool).
Context (other_codec : pystr -> pystr -> py bytes) (other_decode : bytes -> pystr -> py pystr).
Context (unwrap shutdown sock_close : transport -> py unit).
Context (user : user_call -> st (session P) unit) (cfg : config).
Context (Henv : env_blind unwrap shutdown sock_close).

Abbreviation sblind := (respects (@same_session P)).
Context (Huser : forall c, sblind (user c)).

Hint Extern 1 (sblind (gets connected)) => apply respects_gets; exact connected_session_proper : py_respects.
Hint Extern 2 (sblind (gets _)) => apply respects_gets; intros ?? [[]]; congruence : py_respects.
Hint Extern 2 (sblind (modify _)) => apply respects_modify; intros ?? []; split; cbn; congruence : py_respects.

Lemma sblind_upd n f : sblind (upd n f).
Proof. apply respects_modify. intros s1 s2 []. split; cbn; congruence. Qed.

Lemma sblind_attr {A} n (f : object -> A) : sblind (attr n f).
Proof. intros s1 s2 Hs. unfold attr. rewrite (ss_objects _ _ Hs). by destruct (_ !! _). Qed.

Lemma sblind_promise p : sblind (promise p).
Proof. intros s1 s2 Hs. unfold promise. split; [done|]. cbn. by rewrite (ss_promises _ _ Hs). Qed.

Lemma sblind_log c : sblind (modify (log_call c)).
Proof. auto with py_respects. Qed.
Hint Resolve sblind_upd sblind_attr sblind_promise : py_respects.

Lemma sblind_call_user c : sblind (call_user user c).
Proof. unfold call_user. respects_tac. Qed.
Hint Resolve sblind_call_user : py_respects.

Lemma sblind_call_opt f c : sblind (call_opt user f c).
Proof. unfold call_opt. respects_tac. Qed.

Lemma sblind_zoom_io {A} (m : st io A) : respects same_io m -> sblind (zoom_io m).
Proof. intros Hm. by apply (respects_zoom _ same_io); [apply s_io_proper|apply set_io_proper|]. Qed.

Lemma sblind_zoom_transport {A} (m : st transport A) : blind m -> sblind (zoom_transport m).
Proof.
  intros Hm. apply sblind_zoom_io.
  by apply (respects_zoom _ same_network); [apply x_transport_proper|apply set_x_transport_proper|].
Qed.

Lemma sblind_io_modify f : (forall x1 x2, same_io x1 x2 -> same_io (f x1) (f x2)) -> sblind (zoom_io (modify f)).
Proof. intros Hf. by apply sblind_zoom_io, respects_modify. Qed.
Hint Extern 1 (sblind (zoom_io (modify _))) =>
  apply sblind_io_modify; intros ?? []; split; cbn; congruence : py_respects.

Lemma sblind_recoverable {A} m : sblind (recoverable (P := P) (A := A) m).
Proof. apply respects_lift. Qed.
Hint Resolve sblind_call_opt sblind_recoverable : py_respects.

Lemma sblind_unregister id : sblind (unregister id).
Proof. unfold unregister. respects_tac. Qed.
Hint Resolve sblind_unregister : py_respects.

Lemma sblind_channel_collect n : sblind (channel_collect n).
Proof. unfold channel_collect. respects_tac. Qed.
Hint Resolve sblind_channel_collect : py_respects.

Lemma sblind_connection_collect : sblind (connection_collect unwrap shutdown sock_close).
Proof.
  destruct Henv as [Hu Hs Hc]. unfold connection_collect.
  assert (sblind (zoom_transport (fun t => Transport.close (unwrap t) (shutdown t) (sock_close t) t))) as H.
  { apply sblind_zoom_transport. intros t1 t2 Ht. rewrite (Hu _ _ Ht), (Hs _ _ Ht), (Hc _ _ Ht). by apply close_blind. }
  respects_tac.
Qed.
Hint Resolve sblind_connection_collect : py_respects.

Lemma sblind_new_promise c : sblind (new_promise c).
Proof. unfold new_promise. respects_tac. Qed.

Lemma sblind_call_promise p vs : sblind (call_promise p vs).
Proof. unfold call_promise, confirm_handler, settle. respects_tac. Qed.

Lemma sblind_push_pending n p ms : sblind (push_pending n p ms).
Proof. induction ms; cbn [push_pending]; respects_tac. Qed.

Lemma sblind_pop_pending n prev : sblind (pop_pending n prev).
Proof. unfold pop_pending. respects_tac. Qed.

Lemma sblind_take_pending n sig : sblind (take_pending n sig).
Proof. unfold take_pending. respects_tac. Qed.

Lemma sblind_handlers n e : sblind (handlers n e).
Proof. unfold handlers. respects_tac. Qed.

Lemma sblind_remove_tag n t : sblind (remove_tag n t).
Proof. unfold remove_tag. respects_tac. Qed.
Hint Resolve sblind_new_promise sblind_call_promise sblind_push_pending sblind_pop_pending
  sblind_take_pending sblind_handlers sblind_remove_tag : py_respects.

Lemma sblind_new_handler : sblind new_handler.
Proof. unfold new_handler. respects_tac. Qed.

Lemma sblind_new_writer : sblind new_writer.
Proof. unfold new_writer. respects_tac. Qed.
Hint Resolve sblind_new_handler sblind_new_writer : py_respects.

(** *** A turn *)

Section turn.
Context (k : nat) (drain : option Z -> st (session P) unit) (Hdrain : forall t, sblind (drain t)).

Lemma sblind_handshake_loop i t : sblind (handshake_loop drain i t).
Proof. induction i as [|i IH]; cbn [handshake_loop]; respects_tac; apply Hdrain. Qed.

(** The next connection is the same one, up to its pieces. *)
Lemma sblind_new_transport {A} (f : dial -> st (session P) A) :
  (forall d1 d2, same_dial d1 d2 -> forall s1 s2, same_session s1 s2 ->
    prod_relation same_session eq (f d1 s1) (f d2 s2)) ->
  sblind (new_transport ≫= f).
Proof.
  intros Hf s1 s2 Hs. pose proof (ss_io _ _ Hs) as [Ht Hh Hb Hn Hx Hd]. unfold mbind, st_bind, new_transport.
  destruct Hd as [|d1 d2 ds1 ds2 Hd Hds]; [by split|]. apply Hf; [done|].
  apply set_io_proper; [|done]. split; cbn; [apply Hd|done..].
Qed.

Lemma sblind_connect cb : sblind (connect unwrap shutdown sock_close user cfg k drain cb).
Proof.
  unfold connect. pose proof (sblind_handshake_loop k (cf_connect_timeout cfg)).
  apply respects_bind; [auto with py_respects|intros []]; [respects_tac|].
  apply respects_try; [|intros; respects_tac]. apply sblind_new_transport.
  intros d1 d2 [_ He Ho Hh Hcl]. rewrite He, Ho, Hh, Hcl.
  match goal with |- forall s1 s2, _ -> prod_relation _ _ (?m s1) (?m s2) => change (sblind m) end.
  apply respects_bind; [apply sblind_zoom_transport, connect_blind|intros _]. respects_tac.
Qed.
Hint Resolve sblind_connect : py_respects.

Lemma sblind_force_connect is_none :
  (forall x1 x2, same_io x1 x2 -> is_none x1 = is_none x2) ->
  sblind (force_connect unwrap shutdown sock_close user cfg k drain is_none).
Proof.
  intros Hn. unfold force_connect. apply respects_bind; [|respects_tac].
  apply respects_gets. intros s1 s2 Hs. apply Hn, Hs.
Qed.
Hint Extern 1 (sblind (force_connect _ _ _ _ _ _ _ _)) =>
  apply sblind_force_connect; intros ?? [? Hh Hb ? Hx ?];
  unfold no_writer, no_transport, no_handler; by rewrite ?Hh, ?Hb, ?Hx : py_respects.

Lemma sblind_write_frame frame_max ty ch sig args content buf :
  sblind (zoom_io (zoom (fun x => Writer (x_transport x) buf (x_bytes_sent x)) set_x_writer
             (write_frame other_codec frame_max ty ch sig args content))).
Proof.
  apply sblind_zoom_io. apply (respects_zoom _ same_writer); [| |apply write_frame_blind].
  - intros x1 x2 []. by split.
  - intros w1 w2 [] x1 x2 []. split; cbn; congruence.
Qed.
Hint Resolve sblind_write_frame : py_respects.

Lemma sblind_send_method n r callback :
  sblind callback -> sblind (send_method other_codec unwrap shutdown sock_close user cfg k drain n r callback).
Proof. intros Hc. unfold send_method, write_method. respects_tac.
Qed.

Lemma sblind_wait_loop i n p t : sblind (wait_loop drain i n p t).
Proof. induction i as [|i IH]; cbn [wait_loop]; respects_tac; apply Hdrain. Qed.
Hint Resolve sblind_send_method sblind_wait_loop : py_respects.

Lemma sblind_wait n ms c t : sblind (wait k drain n ms c t).
Proof. unfold wait. respects_tac. Qed.
Hint Resolve sblind_wait : py_respects.

Lemma sblind_rpc n r : sblind (rpc other_codec unwrap shutdown sock_close user cfg k drain n r).
Proof. unfold rpc. respects_tac. Qed.
Hint Resolve sblind_rpc : py_respects.

Lemma sblind_channel_open n : sblind (channel_open other_codec unwrap shutdown sock_close user cfg k drain n).
Proof. unfold channel_open. respects_tac. Qed.
Hint Resolve sblind_channel_open : py_respects.

(** *** What arrives *)

Lemma sblind_on_start a b c d e :
  sblind (on_start other_codec unwrap shutdown sock_close user cfg k drain a b c d e).
Proof. unfold on_start, negotiate. respects_tac. Qed.
Hint Resolve sblind_on_start : py_respects.

Lemma sblind_listener n sig l args :
  listener other_codec unwrap shutdown sock_close user cfg k drain n sig = Some l -> sblind (l args).
Proof.
  unfold listener, connection_listener, channel_listener. intros H.
  destruct n as [|n]; repeat case_decide; simplify_eq;
    unfold connection_on_open_ok, on_secure, on_tune, on_tune_sent, connection_on_close, connection_on_close_ok,
      on_blocked, on_unblocked, channel_on_close, do_revive, channel_on_close_ok, on_flow,
      channel_on_open_ok, on_basic_cancel, on_basic_cancel_ok, on_basic_deliver, on_basic_return, on_basic_ack;
    respects_tac.
Qed.

Lemma sblind_run_listeners n sig m payload content p :
  sblind (run_listeners other_codec unwrap shutdown sock_close user cfg k drain n sig m payload content p).
Proof.
  unfold run_listeners. apply respects_bind; [respects_tac|intros args]. apply respects_bind; [|respects_tac].
  destruct (listener _ _ _ _ _ _ _ _ n sig) as [l|] eqn:Hl; [|respects_tac]. eapply sblind_listener. exact Hl.
Qed.
Hint Resolve sblind_run_listeners : py_respects.

Lemma sblind_dispatch n sig payload content :
  sblind (dispatch_method other_codec other_decode unwrap shutdown sock_close user cfg k drain n sig payload content).
Proof. unfold dispatch_method. respects_tac. Qed.
Hint Resolve sblind_dispatch : py_respects.

Lemma sblind_on_inbound_frame f :
  sblind (on_inbound_frame other_codec other_decode unwrap shutdown sock_close user cfg k drain f).
Proof. unfold on_inbound_frame, on_inbound_method. respects_tac. Qed.
Hint Resolve sblind_on_inbound_frame : py_respects.

Lemma sblind_blocking_read t :
  sblind (blocking_read os_nt other_codec other_decode unwrap shutdown sock_close user cfg k drain t).
Proof.
  assert (sblind (zoom_transport (having_timeout t (read_frame os_nt)))) as H.
  { apply sblind_zoom_transport, having_timeout_blind, read_frame_blind. }
  unfold blocking_read. respects_tac.
Qed.

Lemma sblind_having_timeout {A} timeout (m : st (session P) A) :
  sblind m ->
  sblind (having_timeout_in (fun s => x_transport (s_io s)) (fun t s => set_io (set_x_transport t (s_io s)) s) timeout m).
Proof.
  intros Hm. apply having_timeout_in_respects; [| |done].
  - intros s1 s2 Hs. by apply x_transport_proper, s_io_proper.
  - intros t1 t2 Ht s1 s2 Hs. apply set_io_proper; [|done]. by apply set_x_transport_proper; [|apply s_io_proper].
Qed.

Lemma sblind_perform c : sblind (perform other_codec unwrap shutdown sock_close user cfg k drain c).
Proof.
  pose proof @sblind_having_timeout.
  destruct c; unfold perform, channel, channel_init, connection_close, channel_close, channel_queue_declare,
    channel_basic_cancel, channel_basic_consume, channel_basic_get, channel_publish,
    channel_basic_publish_confirm, channel_basic_publish; respects_tac; try apply Hdrain;
    apply sblind_having_timeout; respects_tac.
Qed.
End turn.

Lemma sblind_drain_events k t :
  sblind (drain_events os_nt other_codec other_decode unwrap shutdown sock_close user cfg k t).
Proof.
  revert t. induction k as [|k IH]; intros t; cbn [drain_events]; [apply respects_lift|].
  apply respects_bind; [by apply sblind_blocking_read|]. intros []; [apply respects_ret|apply IH].
Qed.
End network.

(** ** Programs *)

Section programs.
Context {P : Type} `{!Vine P} (os_nt : bool).
Context (other_codec : pystr -> pystr -> py bytes) (other_decode : bytes -> pystr -> py pystr).
Context (unwrap shutdown sock_close : transport -> py unit).
Context (user : user_call -> st (session P) unit) (cfg : config).

Abbreviation program := (program os_nt other_codec other_decode unwrap shutdown sock_close user cfg).

(** C19: the network is invisible.  Let the same octets, ends and failures
    arrive in two sessions, cut into pieces in any two ways, on the connection
    that is up and on all that are made later.  Then every program of library
    calls does the same in both: each call answers the same or raises the same
    exception, the functions of the user are called with the same messages in
    the same order, the same bytes are written, and the sessions stay the same
    up to the pieces still to come. *)
Theorem network_invisible k calls s1 s2 :
  env_blind unwrap shutdown sock_close -> (forall c, respects same_session (user c)) ->
  same_session s1 s2 ->
  let '(s1', r1) := program k calls s1 in
  let '(s2', r2) := program k calls s2 in
  r1 = r2 /\ same_session s1' s2' /\ s_log s1' = s_log s2' /\
  t_out (x_transport (s_io s1')) = t_out (x_transport (s_io s2')).
Proof.
  intros Henv Huser Hs.
  assert (respects same_session (program k calls)) as H.
  { pose proof (fun c => sblind_perform other_codec unwrap shutdown sock_close user cfg Henv Huser k _
      (sblind_drain_events os_nt other_codec other_decode unwrap shutdown sock_close user cfg Henv Huser k) c).
    induction calls as [|c calls IH]; cbn [SessionEnds.program]; unfold outcome; respects_tac. }
  destruct (H s1 s2 Hs) as [H1 H2]. destruct (program k calls s1) as [s1' r1], (program k calls s2) as [s2' r2].
  split_and!; [done|done|apply H1|apply H1].
Qed.
End programs.

(** The handshake, a channel with a consumer, and a delivery, once in large
    pieces and once octet by octet. *)
Definition octets (evs : list event) : list event :=
  evs ≫= (fun ev => match ev with Data bs => (fun b => Data [b]) <$> bs | ev => [ev] end).

Definition demo_evs : list event :=
  handshake ++ [open_ok 1; Data (method_bytes 1 Spec.Basic.ConsumeOk "s" [VStr (str_of "c")]); Data deliver_bytes].
Definition demo_calls : list SessionEnds.call :=
  [CConnect None; CChannel None None;
   CBasicConsume 1 (VStr (str_of "q")) (KStr []) false false false false (Some 3%nat) VNone None;
   CDrainEvents (Some 1)].
Definition demo_program (evs : list event) : demo_session * py (list (py answer)) :=
  program false no_codec no_decode closes closes closes demo_user demo_config 500 demo_calls (demo_connection evs).

Lemma network_invisible_witness :
  let '(s1', r1) := demo_program demo_evs in
  let '(s2', r2) := demo_program (octets demo_evs) in
  r1 = r2 /\ same_session s1' s2' /\ s_log s1' = s_log s2' /\
  t_out (x_transport (s_io s1')) = t_out (x_transport (s_io s2')).
Proof.
  unfold demo_program. eapply (network_invisible (P := option (list arg)) false no_codec no_decode closes closes closes
    demo_user demo_config 500).
  - by split.
  - intros c. apply respects_ret.
  - split; try reflexivity. split; try reflexivity. repeat constructor.
Defined.

(** The answers, and the consumer was called. *)
Example demo_program_answers :
  (demo_program demo_evs).2 = Ok [Ok ANone; Ok (AChannel 1); Ok (ATag (KStr (str_of "c"))); Ok ANone] /\
  length (s_log (demo_program demo_evs).1) = 1%nat /\ length (s_log (demo_program (octets demo_evs)).1) = 1%nat.
Proof. vm_compute. by split_and!. Qed.
