(* ===== verification/SessionMixed.v ===== *)
(** * Mixed frames

    The frames of a method need not come in one piece: heartbeats arrive
    anywhere, and the peer may send frames of other channels in between.  The
    method of the channel is dispatched all the same, with its whole content,
    and what has arrived for the others is kept. *)

From S2P Require Import Prelude Exceptions State Struct Utf8 Values Table Codec Content Framing.
From S2P Require Import Transport Sasl Conn Rpc Session SessionDemo Life SessionInv SessionSafe.
From S2P Require Import Quiet SessionWait SessionTurn SessionRpc SessionEvents.
From S2P Require Spec.

Open Scope Z_scope.

(** ** The handler *)

(** A frame of a channel that is not a heartbeat. *)
Definition mine (ch : Z) (f : frame) : Prop := f_channel f = ch /\ f_type f <> 8.
#[export] Instance mine_dec ch f : Decision (mine ch f).
Proof. unfold mine. apply _. Defined.

Abbreviation waits := (@Ok exc (option call * bool) (None, false)).

Lemma on_frame_heartbeat h c buf : on_frame h (Frame 8 c buf) = (count_frame h, waits).
Proof. unfold on_frame. change (8 =? 8) with true. by rewrite orb_true_r. Qed.

Lemma run_app h fs gs :
  run h (fs ++ gs) = ((run (run h fs).1 gs).1, (run h fs).2 ++ (run (run h fs).1 gs).2).
Proof.
  revert h. induction fs as [|f fs IH]; intros h; cbn [app run fst snd]; [by destruct (run h gs)|].
  destruct (on_frame h f) as [h1 r1]. rewrite IH. by destruct (run h1 fs).
Qed.

(** Of any frames, a channel sees its own without the heartbeats. *)
Lemma run_mine h1 h2 ch fs :
  chan_state h1 ch = chan_state h2 ch ->
  filter (fun p => mine ch p.1) (run h1 fs).2 = (run h2 (filter (mine ch) fs)).2 /\
  chan_state (run h1 fs).1 ch = chan_state (run h2 (filter (mine ch) fs)).1 ch.
Proof.
  revert h1 h2. induction fs as [|[ty c buf] fs IH]; intros h1 h2 Heq; [done|]. cbn [run].
  destruct (decide (ty = 8)) as [->|Hty]; [|destruct (decide (c = ch)) as [->|Hne]].
  - rewrite on_frame_heartbeat, (filter_cons_False (mine ch)) by (by intros []).
    destruct (IH (count_frame h1) h2 Heq) as [IH1 IH2]. destruct (run (count_frame h1) fs). cbn [fst snd] in *.
    split; [|done]. by rewrite filter_cons_False by (by intros []).
  - rewrite (filter_cons_True (mine ch)) by done. cbn [run].
    destruct (on_frame_chan h1 ty ch buf ch) as [Hs1 Hr1]. destruct (on_frame_chan h2 ty ch buf ch) as [Hs2 Hr2].
    rewrite decide_True in Hs1, Hs2 by done.
    destruct (on_frame h1 _) as [h1' r1], (on_frame h2 _) as [h2' r2]. cbn [fst snd] in *.
    destruct (IH h1' h2') as [IH1 IH2]; [congruence|].
    destruct (run h1' fs), (run h2' _). cbn [fst snd] in *. split; [|done].
    rewrite filter_cons_True by done. congruence.
  - rewrite (filter_cons_False (mine ch)) by (by intros []).
    destruct (on_frame_chan h1 ty c buf ch) as [Hs1 _]. rewrite decide_False in Hs1 by done.
    destruct (on_frame h1 _) as [h1' r1]. cbn [fst snd] in *.
    destruct (IH h1' h2) as [IH1 IH2]; [congruence|]. destruct (run h1' fs). cbn [fst snd] in *.
    split; [|done]. by rewrite filter_cons_False by (by intros []).
Qed.

(** Heartbeats wait for what follows. *)
Lemma run_heartbeats h fs : Forall (fun p => f_type p.1 = 8 -> p.2 = waits) (run h fs).2.
Proof.
  revert h. induction fs as [|[ty c buf] fs IH]; intros h; [constructor|]. cbn [run].
  destruct (on_frame h _) as [h1 r1] eqn:Hf. pose proof (IH h1) as H. destruct (run h1 fs). constructor; [|done].
  cbn. intros ->. rewrite on_frame_heartbeat in Hf. congruence.
Qed.

(** The frames of [ch] complete with the last of all frames, and the others
    complete nothing: then only the last one is more than waiting. *)
Lemma run_mixed h ch gs f late c :
  mine ch f ->
  (run h (filter (mine ch) (gs ++ [f]))).2.*2 = replicate late waits ++ [Ok (Some c, true)] ->
  (forall ch', ch' <> ch -> Forall (fun p => p.2 = waits) (run h (filter (mine ch') gs)).2) ->
  (run h (gs ++ [f])).2.*2 = replicate (length gs) waits ++ [Ok (Some c, true)].
Proof.
  intros Hf Hch Hothers. rewrite <- (proj1 (run_mine h h ch (gs ++ [f]) eq_refl)) in Hch.
  rewrite run_app in *. cbn [snd] in *. destruct (run (run h gs).1 [f]) as [h2 rs] eqn:Hr. cbn [run] in Hr.
  destruct (on_frame (run h gs).1 f) as [h3 r]. injection Hr as -> <-. cbn [snd] in *.
  rewrite filter_app, filter_cons_True, filter_nil, fmap_app in Hch by done. cbn [snd] in Hch.
  apply app_inj_tail in Hch as [Hch Hr]. cbn in Hr. subst r. rewrite fmap_app. f_equal.
  assert (Forall (fun p => p.2 = waits) (run h gs).2) as Hall.
  { apply Forall_forall. intros [[ty c' buf] r] Hin. cbn [snd].
    destruct (decide (ty = 8)) as [->|Hty].
    { pose proof (run_heartbeats h gs) as Hb. rewrite Forall_forall in Hb. by apply (Hb _ Hin). }
    destruct (decide (c' = ch)) as [->|Hne].
    - assert (r ∈ replicate late waits) as Hrep.
      { rewrite <- Hch. apply list_elem_of_fmap. exists (Frame ty ch buf, r). split; [done|].
        by apply list_elem_of_filter. }
      by apply elem_of_replicate_inv in Hrep.
    - specialize (Hothers c' Hne). rewrite <- (proj1 (run_mine h h c' gs eq_refl)), Forall_forall in Hothers.
      apply (Hothers (Frame ty c' buf, r)). by apply list_elem_of_filter. }
  assert (length (run h gs).2 = length gs) as Hlen.
  { clear. revert h. induction gs as [|f gs IH]; intros h; [done|]. cbn [run]. destruct (on_frame h f) as [h1 r].
    specialize (IH h1). destruct (run h1 gs). cbn in *. by rewrite IH. }
  rewrite <- Hlen. clear -Hall. induction Hall as [|p ps Hp _ IH]; [done|]. cbn. by rewrite Hp, <- IH.
Qed.

(** ** The session *)

Section mixed.
Context {P : Type} `{!Vine P} (os_nt : bool).
Context (other_codec : pystr -> pystr -> py bytes) (other_decode : bytes -> pystr -> py pystr).
Context (unwrap shutdown sock_close : transport -> py unit).
Context (user : user_call -> st (session P) unit) (cfg : config).
Implicit Types s : session P.

Abbreviation drain_events :=
  (Session.drain_events os_nt other_codec other_decode unwrap shutdown sock_close user cfg).
Abbreviation on_inbound_method :=
  (Session.on_inbound_method other_codec other_decode unwrap shutdown sock_close user cfg).

(** C10: frames may be mixed.  The frames of a method with its content
    arrive on a channel, in their order, and between them any heartbeats and
    any frames of other channels that complete no method there.  One call of
    [drain_events] reads all of them and dispatches the method with its whole
    content, and what has arrived for the other channels is what their own
    frames alone would have left. *)
Theorem mixed_frames j s ch sig sb args properties hdr out ps chunks gs f h wire rest :
  listening (s_io s) ch -> x_handler (s_io s) = Some h ->
  pack_sig sig = Ok sb -> sig ∈ CONTENT_METHODS ->
  wf_props PROPERTIES properties ->
  pack_header Spec.Basic.CLASS_ID (zlen (concat chunks)) = Ok hdr ->
  serialize_properties PROPERTIES properties = Ok out ->
  wire_props properties PROPERTIES = Ok ps -> Forall (.≠ []) chunks ->
  filter (mine ch) (gs ++ [f]) =
    Frame 1 ch (sb ++ args) :: Frame 2 ch (hdr ++ out) :: (Frame 3 ch <$> chunks) ->
  mine ch f ->
  (forall ch', ch' <> ch -> Forall (fun p => p.2 = waits) (run h (filter (mine ch') gs)).2) ->
  pack_frames (gs ++ [f]) = Ok wire -> stream (x_transport (s_io s)) = wire ++ rest ->
  exists x h', listening x ch /\ stream (x_transport x) = rest /\ advanced (s_io s) x /\
    x_handler x = Some h' /\
    (forall ch', ch' <> ch -> chan_state h' ch' = chan_state (run h (filter (mine ch') gs)).1 ch') /\
    drain_events (length gs + S j) None s =
      on_inbound_method j (drain_events j) ch (Some sig) (sb ++ args)
        (Some (received_message sig (sb ++ args) ps (concat chunks))) (set_io x s).
Proof.
  intros Hl Hh Hsb Hsig Hwf Hhdr Hout Hps Hne Hfs Hf Hothers Hw Hst.
  assert (chan_state h ch = (1, None)) as Hc.
  { destruct Hl as [_ _ (h0 & Hh0 & Hc) _]. congruence. }
  destruct (run_content h ch sig sb args properties hdr out ps chunks) as [Hrun Hend]; try done.
  rewrite <- Hfs in Hrun, Hend. rewrite <- (proj2 (run_mine h h ch (gs ++ [f]) eq_refl)) in Hend.
  apply (run_mixed h ch gs f) in Hrun; [|done..].
  destruct (drain_frames os_nt other_codec other_decode unwrap shutdown sock_close user cfg j (length gs) s ch sig
    (sb ++ args) _ h (gs ++ [f]) wire rest Hl Hh Hw Hst Hrun Hend) as (x & Hx & Hr & Ha & Hxh & Hd).
  exists x, (run h (gs ++ [f])).1. split_and!; try done.
  intros ch' Hne'. rewrite (proj2 (run_mine h h ch' (gs ++ [f]) eq_refl)), filter_app.
  rewrite (filter_cons_False (mine ch')), filter_nil, app_nil_r; [done|].
  destruct Hf as [Hf _]. intros []. congruence.
Qed.
End mixed.

(** ** On the demo channel *)

(** The delivery of [SessionEvents.v], with two heartbeats and the beginning of
    a delivery on channel 2 between its frames. *)
Definition demo_mixed_frames : list frame :=
  let args := ok_or [] (pack_sig Spec.Basic.Deliver) ++ deliver_args in
  [ Frame 8 0 [];
    Frame 1 1 args;
    Frame 1 2 args;
    Frame 2 1 (ok_or [] (pack_header Spec.Basic.CLASS_ID 5) ++
               ok_or [] (serialize_properties PROPERTIES [("priority", VInt 9)]));
    Frame 8 0 [] ].
Definition demo_mixed_bytes : bytes :=
  ok_or [] (pack_frames (demo_mixed_frames ++ [Frame 3 1 (bytes_of "hello")])).
Definition demo_mixed : demo_session :=
  set_io (set_x_transport (set_in [Data demo_mixed_bytes] (x_transport (s_io demo_consuming)))
    (s_io demo_consuming)) demo_consuming.
Definition demo_mixed_handler : handler := default frame_handler (x_handler (s_io demo_mixed)).

Lemma mixed_frames_witness :
  exists x h', listening x 1 /\ stream (x_transport x) = [] /\ advanced (s_io demo_mixed) x /\
    x_handler x = Some h' /\
    (forall ch', ch' <> 1 ->
      chan_state h' ch' = chan_state (run demo_mixed_handler (filter (mine ch') demo_mixed_frames)).1 ch') /\
    demo_drain None demo_mixed =
      on_inbound_method no_codec no_decode closes closes closes demo_user demo_config 4
        (drain_events false no_codec no_decode closes closes closes demo_user demo_config 4) 1
        (Some Spec.Basic.Deliver) (ok_or [] (pack_sig Spec.Basic.Deliver) ++ deliver_args) (Some delivered)
        (set_io x demo_mixed).
Proof.
  unfold demo_drain.
  refine (mixed_frames false no_codec no_decode closes closes closes demo_user demo_config 4 demo_mixed 1
    Spec.Basic.Deliver (ok_or [] (pack_sig Spec.Basic.Deliver)) deliver_args [("priority", VInt 9)]
    (ok_or [] (pack_header Spec.Basic.CLASS_ID 5)) (ok_or [] (serialize_properties PROPERTIES [("priority", VInt 9)]))
    [("priority", VInt 9)] [bytes_of "hello"] demo_mixed_frames (Frame 3 1 (bytes_of "hello"))
    demo_mixed_handler demo_mixed_bytes [] _ _ _ _ _ _ _ _ _ _ _ _ _ _).
  - apply listening_intro; vm_compute; reflexivity.
  - vm_compute. reflexivity.
  - vm_compute. reflexivity.
  - by apply (bool_decide_unpack _).
  - apply priority_wf.
  - vm_compute. reflexivity.
  - vm_compute. reflexivity.
  - vm_compute. reflexivity.
  - repeat constructor; discriminate.
  - vm_compute. reflexivity.
  - by split.
  - intros ch' Hne. destruct (decide (ch' = 2)) as [->|H2]; [vm_compute; repeat constructor|].
    unfold demo_mixed_frames. rewrite !filter_cons_False by (intros []; cbn in *; congruence). constructor.
  - vm_compute. reflexivity.
  - vm_compute. reflexivity.
Defined.
