(* ===== verification/SessionClose.v ===== *)
(** * The end of a connection

    Closing by the client, with the broker's [close-ok], and by the broker:
    what is sent, and that nothing stays connected. *)

From S2P Require Import Prelude Exceptions State Struct Utf8 Values Table Codec Content Framing.
From S2P Require Import Transport Sasl Conn Rpc Session SessionDemo Life SessionInv SessionSafe.
From S2P Require Import Quiet SessionWait SessionTurn SessionRpc SessionEvents.
From S2P Require Spec.

Open Scope Z_scope.

(** Nothing is connected: not the socket, not the connection, no channel. *)
Record down {P} (s : session P) : Prop := Down {
  down_channels : s_channels s = None;
  down_has : x_has_transport (s_io s) = false;
  down_open : t_open (x_transport (s_io s)) = false;
  down_connected : t_connected (x_transport (s_io s)) = false;
  down_objects n o : s_objects s !! n = Some o -> o_connection o = false;
}.

Section close.
Context {P : Type} `{!Vine P} (os_nt : bool).
Context (other_codec : pystr -> pystr -> py bytes) (other_decode : bytes -> pystr -> py pystr).
Context (unwrap shutdown sock_close : transport -> py unit).
Context (user : user_call -> st (session P) unit) (cfg : config).
(** The calls on the socket fail with [OSError] or not at all. *)
Context (Hunwrap : forall t, fails_os (unwrap t)) (Hshutdown : forall t, fails_os (shutdown t))
  (Hclose : forall t, fails_os (sock_close t)).
Implicit Types s : session P.

Abbreviation drain_events :=
  (Session.drain_events os_nt other_codec other_decode unwrap shutdown sock_close user cfg).
Abbreviation connection_collect := (Session.connection_collect (P := P) unwrap shutdown sock_close).

Lemma down_upd n f s : (forall o, o_connection (f o) = o_connection o) -> down s -> down (upd n f s).1.
Proof.
  intros Hf []. split; try done. unfold upd. cbn. intros n' o Ho.
  apply lookup_alter_Some in Ho as [(<- & o' & Ho' & ->)|[_ Ho]]; [rewrite Hf|]; eauto.
Qed.

Lemma connection_collect_ends s :
  session_ok s -> x_has_transport (s_io s) = true ->
  exists s', connection_collect s = (s', Ok tt) /\ down s' /\ session_ok s' /\ grows s s' /\
    t_out (x_transport (s_io s')) = t_out (x_transport (s_io s)) /\
    stream (x_transport (s_io s')) = stream (x_transport (s_io s)).
Proof.
  intros Hs Hhas. set (t := x_transport (s_io s)).
  destruct (close_ends (unwrap t) (shutdown t) (sock_close t) t) as (t' & Ht & Ho & Hc & Hout & Hst); [done..|].
  set (s1 := set_io (set_x_transport t' (s_io s)) s).
  assert (session_ok s1 /\ grows s s1) as [Hok1 Hgr1].
  { apply same_core_ok; [by split_and!|done]. }
  destruct (collect_rest s1 Hok1) as (s2 & Hok & Hgr & Hio & Hlog & Hdead & _ & Hrest).
  destruct (dropped_ok s2 Hok Hdead) as [H1 H2].
  exists (dropped s2).
  assert (s_io (dropped s2) = set_x_has false (set_x_transport t' (s_io s))) as Hio2 by (unfold dropped; cbn; by rewrite Hio).
  split_and!; [| |done| |by rewrite Hio2|by rewrite Hio2].
  - unfold Session.connection_collect. rewrite st_bind_gets, Hhas. cbn [when].
    rewrite (st_bind_ok _ _ s s1 tt); [exact Hrest|]. unfold zoom_transport, zoom_io, zoom. fold t. by rewrite Ht.
  - split; rewrite ?Hio2; try done. intros [|n] o Hno.
    + unfold dropped in Hno. cbn in Hno. rewrite lookup_alter_eq in Hno.
      apply fmap_Some in Hno as (o' & _ & ->). done.
    + unfold dropped in Hno. cbn in Hno. rewrite lookup_alter_ne in Hno by done. by apply (Hdead (S n) o).
  - etrans; [exact Hgr1|]. by etrans.
Qed.

(** C13: the broker closes the connection.  When [connection.close] arrives,
    one call of [drain_events] answers it with [connection.close-ok], takes
    everything down, the socket, the connection and every channel, and raises
    the exception of the reply code with the text of the broker. *)
Theorem closed_by_broker j late s o sb bs code text class_id method_id rest wire :
  session_ok s -> idle s 0 0 o -> o_is_closing o = false -> o_pending o !! Spec.Connection.Close = None ->
  pack_sig Spec.Connection.Close = Ok sb ->
  incoming (s_io s) 0 Spec.Connection.Close (sb ++ bs) None late rest ->
  carries (Spec.method Spec.Connection.Close (Some "BsBB") false) bs
    [VInt code; VStr text; VInt class_id; VInt method_id] ->
  request_frame (tu_frame_max (s_tuning s)) 0 x_close_ok wire ->
  accepts (t_outcomes (x_transport (s_io s))) [wire] ->
  exists s', drain_events (late + S j) None s =
      (s', Raise (Amqp (error_for_code code (Some (TStr text)) (Some (inl (class_id, method_id)))
                          ConnectionError))) /\
    down s' /\ session_ok s' /\ grows s s' /\ stream (x_transport (s_io s')) = rest /\
    t_out (x_transport (s_io s')) = t_out (x_transport (s_io s)) ++ wire.
Proof.
  intros Hs Hi Hcl Hp Hsb Hin Hcar Hreq Hacc.
  destruct (turn_unasked os_nt other_codec other_decode unwrap shutdown sock_close user cfg j late s 0 0 o
    Spec.Connection.Close sb _ bs _ None rest _ Hs Hi (or_introl Hcl) Hsb Hin eq_refl Hcar Hp eq_refl)
    as (x & Hx & Hst & Ha & Hd).
  set (s1 := set_io x s) in *.
  assert (session_ok s1 /\ grows s s1) as [Hok1 Hgr1].
  { apply same_core_ok; [by split_and!|done]. }
  assert (accepts (t_outcomes (x_transport (s_io s1))) [wire]) as Hacc1.
  { cbn [s1 s_io set_io]. by rewrite (so_outcomes _ _ (ad_out _ _ Ha)). }
  destruct (send_method_sends other_codec unwrap shutdown sock_close user cfg j (drain_events j)
    0 0 o x_close_ok wire [] (connection_on_close_ok unwrap shutdown sock_close) s1 Hx Hreq Hacc1)
    as (x2 & Hsame & Hout & _ & _ & _ & Hsend).
  set (s2 := set_io x2 s1) in *.
  assert (session_ok s2 /\ grows s1 s2) as [Hok2 Hgr2].
  { apply same_core_ok; [by split_and!|done]. }
  destruct (connection_collect_ends s2 Hok2) as (s3 & Hcol & Hdown & Hok3 & Hgr3 & Hout3 & Hst3).
  { cbn. rewrite (in_has _ _ Hsame). apply Hx. }
  exists s3. split_and!; [|done|done|etrans; [exact Hgr1|by etrans]| |].
  - rewrite Hd. trans (connection_on_close other_codec unwrap shutdown sock_close user cfg j (drain_events j)
      code text class_id method_id s1); [done|].
    unfold connection_on_close. rewrite (st_bind_ok _ _ s1 s3 tt); [done|].
    rewrite Hsend. exact Hcol.
  - rewrite Hst3, <- Hst. apply (same_in_stream _ _ (in_transport _ _ Hsame)).
  - rewrite Hout3. etrans; [exact Hout|]. f_equal. apply (ad_out _ _ Ha).
Qed.

Lemma down_io s s' :
  down s -> s_channels s' = s_channels s -> s_io s' = s_io s ->
  (forall n o', s_objects s' !! n = Some o' ->
     exists o, s_objects s !! n = Some o /\ o_connection o' = o_connection o) -> down s'.
Proof.
  intros [] Hc Hio Ho. split; rewrite ?Hc, ?Hio; try done.
  intros n o' (o & Hno & ->)%Ho. eauto.
Qed.

(** The turn in which [close-ok] arrives. *)
Lemma turn_close_ok j late s o p sb bs content rest :
  session_ok s -> idle s 0 0 o -> routed s 0 0 -> o_pending o !! Spec.Connection.CloseOk = Some p ->
  pack_sig Spec.Connection.CloseOk = Ok sb ->
  incoming (s_io s) 0 Spec.Connection.CloseOk (sb ++ bs) content late rest ->
  carries (Spec.method Spec.Connection.CloseOk None false) bs [] ->
  exists s' v, drain_events (late + S j) None s = settle p v s' /\ down s' /\ session_ok s' /\ grows s s' /\
    t_out (x_transport (s_io s')) = t_out (x_transport (s_io s)) /\
    stream (x_transport (s_io s')) = rest.
Proof.
  intros Hs Hi Hr Hp Hsb Hin Hcar.
  destruct (turn os_nt other_codec other_decode unwrap shutdown sock_close user cfg j late s 0 0 o
    Spec.Connection.CloseOk (Spec.method Spec.Connection.CloseOk None false) (sb ++ bs) content rest Hi Hr)
    as (x & Hx & Hst & Ha & Hd); [by right; right; left|done|reflexivity|left; by eexists|].
  set (s1 := set_io x s) in *. rewrite Hp in Hd. set (s2 := with_pending 0 _ s1) in *.
  assert (session_ok s2 /\ grows s s2) as [Hok2 Hgr2].
  { destruct (same_core_ok s s1) as [H1 H2]; [by split_and!|done|].
    destruct (keeps_take_pending (P := P) 0 Spec.Connection.CloseOk s1 H1) as [H3 H4].
    assert ((take_pending 0 Spec.Connection.CloseOk s1).1 = s2) as E.
    { unfold take_pending. by rewrite (st_bind_ok _ _ _ _ _ (attr_ok 0 o_pending s1 o (idle_object _ _ _ _ Hx))). }
    rewrite E in H3, H4. split; [done|by etrans]. }
  destruct (connection_collect_ends s2 Hok2) as (s3 & Hcol & Hdown & Hok3 & Hgr3 & Hout3 & Hst3); [apply Hx|].
  destruct (grows_promises _ _ Hgr3 p) as [pp Hpp].
  { apply (grows_promises _ _ Hgr2). by apply (ok_pending s Hs 0 o Spec.Connection.CloseOk p (idle_object _ _ _ _ Hi)). }
  exists s3, (if pp_confirm pp then [AVal VNone] else [ASig (Some Spec.Connection.CloseOk)]).
  split_and!; [|done|done|by etrans| |].
  - rewrite Hd. unfold run_listeners.
    rewrite (st_bind_lift _ []) by (by rewrite (method_args_carries _ _ _ _ [] _ Hcar Hsb)).
    rewrite (st_bind_ok _ _ s2 s3 tt) by exact Hcol. unfold call_promise.
    rewrite (st_bind_ok _ _ s3 s3 pp) by (unfold promise; by rewrite Hpp).
    by destruct (pp_confirm pp).
  - rewrite Hout3. apply (ad_out _ _ Ha).
  - by rewrite Hst3.
Qed.

(** C14: [Connection.close].  The request goes out as one frame, and when
    the broker's [connection.close-ok] arrives the call returns with
    everything down: the socket closed, the connection and every channel
    without a connection, and the connection no longer closing, so that a
    second [close] does nothing. *)
Theorem connection_close_ends k j late s o code text class_id method_id wire sb rest :
  session_ok s -> idle s 0 0 o ->
  request_frame (tu_frame_max (s_tuning s)) 0 (close_connection code text class_id method_id) wire ->
  accepts (t_outcomes (x_transport (s_io s))) [wire] ->
  pack_sig Spec.Connection.CloseOk = Ok sb ->
  incoming (s_io s) 0 Spec.Connection.CloseOk sb None late rest ->
  exists s',
    connection_close other_codec unwrap shutdown sock_close user cfg (S (S k)) (drain_events (late + S j))
      code text class_id method_id s = (s', Ok tt) /\
    down s' /\ t_out (x_transport (s_io s')) = t_out (x_transport (s_io s)) ++ wire /\
    stream (x_transport (s_io s')) = rest /\
    connection_close other_codec unwrap shutdown sock_close user cfg (S (S k)) (drain_events (late + S j))
      code text class_id method_id s' = (s', Ok tt).
Proof.
  intros Hs Hi Hreq Hacc Hsb Hin. set (drain := drain_events (late + S j)).
  set (r := close_connection code text class_id method_id) in *.
  set (s1 := (upd 0 (set_is_closing true) s).1). set (o1 := set_is_closing true o).
  assert (session_ok s1) as Hok1 by by apply (keeps_inert (P := P) 0 (set_is_closing true)).
  assert (idle s1 0 0 o1) as Hi1.
  { destruct Hi as [Ho ???]. split; try done. unfold s1, upd. cbn. by rewrite lookup_alter_eq, Ho. }
  destruct (send_method_sends other_codec unwrap shutdown sock_close user cfg (S (S k)) drain
    0 0 o1 r wire [] (mret tt) s1 Hi1 Hreq Hacc) as (x & Hsame & Hout & _ & _ & _ & Hsend).
  set (s2 := set_io x s1) in *. pose proof (same_input_idle s1 x 0 0 o1 Hsame Hi1) as Hi2. fold s2 in Hi2.
  assert (session_ok s2) as Hok2 by (apply (same_core_ok s1 s2); [by split_and!|done]).
  pose proof (idle_object _ _ _ _ Hi2) as Ho2. set (ms := [Spec.Connection.CloseOk]).
  destruct (pushed_ok 0 ms false o1 s2 Hok2 Ho2) as [Hok3 Hgr3].
  destruct (turn_close_ok j late (pushed 0 ms false o1 s2) _ (s_next s2) sb [] None rest Hok3
    (pushed_idle 0 0 ms false o1 s2 Hi2)) as (s4 & v & Hd & Hdown & Hok4 & Hgr4 & Hout4 & Hst4).
  { apply (idle_routed s2 0 0 o1 Hok2 Hi2). }
  { cbn [o_pending set_pending]. by rewrite push_all_lookup, decide_True by left. }
  { done. }
  { rewrite app_nil_r. by apply (same_input_incoming (s_io s)). }
  { done. }
  destruct (grows_objects _ _ Hgr4 0%nat) as [o4 Ho4]; [by rewrite (pushed_object _ _ _ _ _ Ho2)|].
  destruct (grows_promises _ _ Hgr4 (s_next s2)) as [pp Hpp]; [by rewrite pushed_promise|].
  pose proof (wait_settled k drain 0 ms false None s2 o1 v s4 o4 pp Ho2 (idle_connection _ _ _ _ Hi2) Hd Hpp Ho4)
    as Hwait.
  set (s5 := waited 0 ms o1 o4 s2 (settle (s_next s2) v s4).1) in *.
  assert (down s5) as Hdown5.
  { apply (down_io s4); [done..|]. intros n o' Hn.
    apply (lookup_alter_Some _ (s_objects s4)) in Hn as [(<- & o'' & Hn & ->)|[_ Hn]]; eauto. }
  assert (down (upd 0 (set_is_closing false) s5).1) as Hdown6 by by apply down_upd.
  exists (upd 0 (set_is_closing false) s5).1. split_and!; [|done| |exact Hst4|].
  - unfold connection_close. rewrite st_bind_gets, (li_has _ _ (idle_io _ _ _ _ Hi)). cbn [when].
    unfold st_finally, st_try. rewrite (st_bind_ok _ _ s s1 tt) by done.
    rewrite (st_bind_ok _ _ s1 s5 (Some (tail v))); [done|].
    unfold Session.rpc. rewrite (st_bind_ok _ _ _ _ _ Hsend). exact Hwait.
  - etrans; [exact Hout4|exact Hout].
  - unfold connection_close. by rewrite st_bind_gets, (down_has _ Hdown6).
Qed.
End close.

(** ** The demo connection *)

Definition demo_up (replies : bytes) : demo_session :=
  (demo_connect (demo_connection (handshake ++ [Data replies]))).1.

Lemma demo_up_ok replies : session_ok (demo_up replies).
Proof.
  unfold demo_up, demo_connect, demo_drain. set (s := demo_connection _).
  refine (proj1 (operations_ok false no_codec no_decode closes closes closes demo_user demo_config
    s _ demo_user_uses_library _ _)).
  - apply rtc_once, op_connect.
  - apply new_connection_ok.
Qed.

Lemma closes_os t : fails_os (closes t).
Proof. by split. Qed.

Definition close_values : list value := [VInt 320; VStr (str_of "bye"); VInt 0; VInt 0].
Definition close_args : bytes := ok_or [] (dumps (bytes_of "BsBB") close_values).
Definition broker_close : bytes := method_bytes 0 Spec.Connection.Close "BsBB" close_values.
Definition close_frame : bytes :=
  method_bytes 0 Spec.Connection.Close "BsBB" [VInt 0; VStr []; VInt 0; VInt 0].
Definition close_ok_sig : bytes := ok_or [] (pack_sig Spec.Connection.CloseOk).
Definition close_ok_frame : bytes := method_bytes 0 Spec.Connection.CloseOk "" [].

Lemma closed_by_broker_witness :
  exists s', demo_drain None (demo_up broker_close) =
      (s', Raise (Amqp (error_for_code 320 (Some (TStr (str_of "bye"))) (Some (inl (0, 0))) ConnectionError))) /\
    down s' /\ session_ok s' /\ grows (demo_up broker_close) s' /\ stream (x_transport (s_io s')) = [] /\
    t_out (x_transport (s_io s')) = t_out (x_transport (s_io (demo_up broker_close))) ++ close_ok_frame.
Proof.
  assert (idle (demo_up broker_close) 0 0 (connection_object None)) as Hi
    by (apply idle_intro; vm_compute; reflexivity).
  unfold demo_drain.
  refine (closed_by_broker false no_codec no_decode closes closes closes demo_user demo_config
    closes_os closes_os closes_os 9 0 (demo_up broker_close) (connection_object None)
    (ok_or [] (pack_sig Spec.Connection.Close)) close_args 320 (str_of "bye") 0 0 [] close_ok_frame
    (demo_up_ok _) Hi eq_refl eq_refl _ _ _ _ _).
  - vm_compute. reflexivity.
  - apply (incoming_method (s_io (demo_up broker_close)) 0 Spec.Connection.Close
      (ok_or [] (pack_sig Spec.Connection.Close)) close_args broker_close []).
    + apply Hi.
    + vm_compute. reflexivity.
    + by apply (bool_decide_unpack _).
    + vm_compute. reflexivity.
    + vm_compute. reflexivity.
  - split; [reflexivity|]. exists close_values. split; [plain_args|split; vm_compute; reflexivity].
  - split; [done|]. exists [], close_ok_sig. split_and!; vm_compute; done.
  - vm_compute. split_and!; [discriminate|lia|done].
Defined.

Lemma connection_close_ends_witness :
  exists s',
    connection_close no_codec closes closes closes demo_user demo_config 10 demo_drain
      (VInt 0) (VStr []) (VInt 0) (VInt 0) (demo_up close_ok_frame) = (s', Ok tt) /\
    down s' /\
    t_out (x_transport (s_io s')) = t_out (x_transport (s_io (demo_up close_ok_frame))) ++ close_frame /\
    stream (x_transport (s_io s')) = [] /\
    connection_close no_codec closes closes closes demo_user demo_config 10 demo_drain
      (VInt 0) (VStr []) (VInt 0) (VInt 0) s' = (s', Ok tt).
Proof.
  assert (idle (demo_up close_ok_frame) 0 0 (connection_object None)) as Hi
    by (apply idle_intro; vm_compute; reflexivity).
  unfold demo_drain.
  refine (connection_close_ends false no_codec no_decode closes closes closes demo_user demo_config
    closes_os closes_os closes_os 8 9 0 (demo_up close_ok_frame) (connection_object None)
    (VInt 0) (VStr []) (VInt 0) (VInt 0) close_frame close_ok_sig [] (demo_up_ok _) Hi _ _ _ _).
  - split; [done|]. exists (ok_or [] (dumps (bytes_of "BsBB") [VInt 0; VStr []; VInt 0; VInt 0])),
      (ok_or [] (pack_sig Spec.Connection.Close)). split_and!; vm_compute; done.
  - vm_compute. split_and!; [discriminate|lia|done].
  - vm_compute. reflexivity.
  - rewrite <- (app_nil_r close_ok_sig).
    apply (incoming_method (s_io (demo_up close_ok_frame)) 0 Spec.Connection.CloseOk close_ok_sig [] close_ok_frame []).
    + apply Hi.
    + vm_compute. reflexivity.
    + by apply (bool_decide_unpack _).
    + vm_compute. reflexivity.
    + vm_compute. reflexivity.
Defined.
