(* ===== verification/SessionHandshake.v ===== *)
(** * Opening a connection

    [Connection.connect], from the connected socket to [open-ok]: what is
    negotiated, what is sent and what the connection is afterwards. *)

From S2P Require Import Prelude Exceptions State Struct Utf8 Values Table Codec Content Framing.
From S2P Require Import Transport Sasl Conn Rpc Session SessionDemo Life SessionInv SessionSafe.
From S2P Require Import Quiet SessionWait SessionTurn SessionRpc SessionEvents.
From S2P Require Spec.

Open Scope Z_scope.

(** ** The capabilities *)

Definition capabilities : dict_key := KStr (str_of "capabilities").

(** The dictionary under a key, when it holds one or nothing. *)
Definition sub_dict (d : list (dict_key * value)) (key : dict_key) : option (list (dict_key * value)) :=
  match dict_get d key with
  | None => Some []
  | Some (VDict d) => Some d
  | Some _ => None
  end.

(** What the client announces to a server with the properties [sp]. *)
Definition negotiated (client sp : list (dict_key * value)) : option (list (dict_key * value)) :=
  scap ← sub_dict sp capabilities;
  cap ← sub_dict client capabilities;
  let cap := foldl (fun d p => dict_set d p.1 p.2) cap (wanted_capabilities scap) in
  Some (if decide (cap = []) then dict_pop client capabilities
        else dict_set client capabilities (VDict cap)).

Section handshake.
Context {P : Type} `{!Vine P} (os_nt : bool).
Context (other_codec : pystr -> pystr -> py bytes) (other_decode : bytes -> pystr -> py pystr).
Context (unwrap shutdown sock_close : transport -> py unit).
Context (user : user_call -> st (session P) unit) (cfg : config).
Implicit Types s : session P.

Abbreviation drain_events :=
  (Session.drain_events os_nt other_codec other_decode unwrap shutdown sock_close user cfg).

Lemma negotiate_eq sp cp s :
  negotiated (s_client_properties s) sp = Some cp ->
  negotiate (VDict sp) s = (set_client_properties cp s, Ok tt).
Proof.
  unfold negotiated, negotiate, sub_dict. fold capabilities. set (client := s_client_properties s).
  intros H. rewrite (st_bind_lift _ sp) by done. rewrite st_bind_gets. fold client.
  destruct (dict_get sp capabilities) as [[]|]; try done;
    destruct (dict_get client capabilities) as [[]|]; try done;
    cbn [mbind option_bind] in H; injection H as <-;
    reflexivity.
Qed.

(** ** The three methods of the server *)

(** A turn of the handshake whose listener does [f] to the session and sends
    the requests. *)
Lemma start_turn j late s o sb bs major minor sp mechs locales ms cp mech resp rest wire wires :
  session_ok s -> idle s 0 0 o -> o_is_closing o = false -> o_pending o !! Spec.Connection.Start = None ->
  pack_sig Spec.Connection.Start = Ok sb ->
  incoming (s_io s) 0 Spec.Connection.Start (sb ++ bs) None late rest ->
  carries (Spec.method Spec.Connection.Start (Some "ooFSS") false) bs
    [major; minor; VDict sp; mechs; VStr locales] ->
  split_mechanisms mechs = Ok ms -> negotiated (s_client_properties s) sp = Some cp ->
  choose_authentication (cf_authentication cfg) ms = Ok (mech, resp) ->
  request_frame (tu_frame_max (s_tuning s)) 0
    (start_ok (VDict cp) (VBytes mech) (VBytes resp) (cf_locale cfg)) wire ->
  accepts (t_outcomes (x_transport (s_io s))) (wire :: wires) ->
  exists x, let s' := set_io x (set_client_properties cp
      (set_server (Server major minor (VDict sp) ms (split_at (Z.eqb 32) locales)) s)) in
    drain_events (late + S j) None s = (s', Ok tt) /\ idle s' 0 0 o /\ session_ok s' /\
    stream (x_transport x) = rest /\ t_out (x_transport x) = t_out (x_transport (s_io s)) ++ wire /\
    accepts (t_outcomes (x_transport x)) wires /\
    t_connected (x_transport x) = t_connected (x_transport (s_io s)).
Proof.
  intros Hs Hi Hcl Hp Hsb Hin Hcar Hms Hcp Hauth Hreq Hacc.
  destruct (turn_unasked os_nt other_codec other_decode unwrap shutdown sock_close user cfg j late s 0 0 o
    Spec.Connection.Start sb _ bs _ None rest _ Hs Hi (or_introl Hcl) Hsb Hin eq_refl Hcar Hp eq_refl)
    as (x & Hx & Hst & Ha & Hd).
  set (s1 := set_client_properties cp (set_server (Server major minor (VDict sp) ms
    (split_at (Z.eqb 32) locales)) (set_io x s))).
  assert (idle s1 0 0 o) as Hi1 by by destruct Hx.
  assert (accepts (t_outcomes (x_transport (s_io s1))) (wire :: wires)) as Hacc1.
  { cbn [s1 s_io set_client_properties set_server set_io]. by rewrite (so_outcomes _ _ (ad_out _ _ Ha)). }
  destruct (send_method_sends other_codec unwrap shutdown sock_close user cfg j (drain_events j)
    0 0 o _ wire wires (mret tt) s1 Hi1 Hreq Hacc1) as (x2 & Hsame & Hout & Hacc2 & Hcon & _ & Hsend).
  exists x2. split_and!; [|by apply (same_input_idle s1)| | | |done|].
  - rewrite Hd. trans (on_start other_codec unwrap shutdown sock_close user cfg j (drain_events j)
      major minor (VDict sp) mechs (VStr locales) (set_io x s)); [done|]. unfold on_start.
    rewrite st_bind_modify, (st_bind_lift _ ms), st_bind_modify by done.
    rewrite (st_bind_lift _ (split_at (Z.eqb 32) locales)), st_bind_modify by done.
    erewrite (st_bind_ok (negotiate (VDict sp))); [|by apply (negotiate_eq sp cp)].
    rewrite (st_bind_lift _ (mech, resp)) by done. rewrite st_bind_gets. exact Hsend.
  - by apply (same_core_ok s).
  - rewrite <- Hst. apply (same_in_stream _ _ (in_transport _ _ Hsame)).
  - etrans; [exact Hout|]. f_equal. apply (ad_out _ _ Ha).
  - etrans; [exact Hcon|]. apply (ad_out _ _ Ha).
Qed.

Lemma tune_turn j late s o sb bs channel_max frame_max heartbeat rest wire1 wire2 wires :
  let tu := tune (s_tuning s) channel_max frame_max heartbeat in
  session_ok s -> idle s 0 0 o -> o_is_closing o = false -> o_pending o !! Spec.Connection.Tune = None ->
  pack_sig Spec.Connection.Tune = Ok sb ->
  incoming (s_io s) 0 Spec.Connection.Tune (sb ++ bs) None late rest ->
  carries (Spec.method Spec.Connection.Tune (Some "BlB") false) bs
    [VInt channel_max; VInt frame_max; VInt heartbeat] ->
  request_frame (tu_frame_max tu) 0
    (tune_ok (VInt (tu_channel_max tu)) (VInt (tu_frame_max tu)) (VInt (tu_heartbeat tu))) wire1 ->
  request_frame (tu_frame_max tu) 0 (open_connection (cf_virtual_host cfg)) wire2 ->
  accepts (t_outcomes (x_transport (s_io s))) (wire1 :: wire2 :: wires) ->
  exists x, let s' := set_io x (set_tuning tu s) in
    drain_events (late + S j) None s = (s', Ok tt) /\ idle s' 0 0 o /\ session_ok s' /\
    stream (x_transport x) = rest /\ t_out (x_transport x) = t_out (x_transport (s_io s)) ++ wire1 ++ wire2 /\
    accepts (t_outcomes (x_transport x)) wires /\
    t_connected (x_transport x) = t_connected (x_transport (s_io s)).
Proof.
  intros tu Hs Hi Hcl Hp Hsb Hin Hcar Hreq1 Hreq2 Hacc.
  destruct (turn_unasked os_nt other_codec other_decode unwrap shutdown sock_close user cfg j late s 0 0 o
    Spec.Connection.Tune sb _ bs _ None rest _ Hs Hi (or_introl Hcl) Hsb Hin eq_refl Hcar Hp eq_refl)
    as (x & Hx & Hst & Ha & Hd).
  set (s1 := set_tuning tu (set_io x s)).
  assert (idle s1 0 0 o) as Hi1 by by destruct Hx.
  assert (accepts (t_outcomes (x_transport (s_io s1))) (wire1 :: wire2 :: wires)) as Hacc1.
  { cbn [s1 s_io set_tuning set_io]. by rewrite (so_outcomes _ _ (ad_out _ _ Ha)). }
  destruct (send_method_sends other_codec unwrap shutdown sock_close user cfg j (drain_events j)
    0 0 o _ wire1 (wire2 :: wires) (on_tune_sent other_codec unwrap shutdown sock_close user cfg j (drain_events j))
    s1 Hi1 Hreq1 Hacc1) as (x1 & Hsame1 & Hout1 & Hacc2 & Hcon1 & _ & Hsend1).
  pose proof (same_input_idle s1 x1 0 0 o Hsame1 Hi1) as Hi2.
  destruct (send_method_sends other_codec unwrap shutdown sock_close user cfg j (drain_events j)
    0 0 o _ wire2 wires (mret tt) (set_io x1 s1) Hi2 Hreq2 Hacc2) as (x2 & Hsame2 & Hout2 & Hacc3 & Hcon2 & _ & Hsend2).
  exists x2. split_and!; [|by apply (same_input_idle (set_io x1 s1))| | | |done|].
  - rewrite Hd. trans (on_tune other_codec unwrap shutdown sock_close user cfg j (drain_events j)
      channel_max frame_max heartbeat (set_io x s)); [done|]. unfold on_tune.
    rewrite st_bind_modify, st_bind_gets. etrans; [exact Hsend1|exact Hsend2].
  - by apply (same_core_ok s).
  - rewrite <- Hst. trans (stream (x_transport x1)).
    + apply (same_in_stream _ _ (in_transport _ _ Hsame2)).
    + apply (same_in_stream _ _ (in_transport _ _ Hsame1)).
  - etrans; [exact Hout2|]. cbn [s_io set_io]. rewrite Hout1, <- app_assoc. f_equal. apply (ad_out _ _ Ha).
  - etrans; [exact Hcon2|]. etrans; [exact Hcon1|]. apply (ad_out _ _ Ha).
Qed.

Lemma open_ok_turn j late s o sb bs rest :
  session_ok s -> idle s 0 0 o -> o_is_closing o = false -> o_pending o !! Spec.Connection.OpenOk = None ->
  pack_sig Spec.Connection.OpenOk = Ok sb ->
  incoming (s_io s) 0 Spec.Connection.OpenOk (sb ++ bs) None late rest ->
  carries (Spec.method Spec.Connection.OpenOk None false) bs [] ->
  exists x, let s' := set_handshake_complete (set_io x s) in
    drain_events (late + S j) None s = call_opt user (o_on_open o) (fun f => OnOpen f 0) s' /\
    idle s' 0 0 o /\ stream (x_transport x) = rest /\ advanced (s_io s) x.
Proof.
  intros Hs Hi Hcl Hp Hsb Hin Hcar.
  destruct (turn_unasked os_nt other_codec other_decode unwrap shutdown sock_close user cfg j late s 0 0 o
    Spec.Connection.OpenOk sb _ bs _ None rest _ Hs Hi (or_introl Hcl) Hsb Hin eq_refl Hcar Hp eq_refl)
    as (x & Hx & Hst & Ha & Hd).
  exists x. split_and!; [|by destruct Hx|done..]. rewrite Hd.
  trans (connection_on_open_ok user (set_io x s)); [done|]. unfold connection_on_open_ok.
  by rewrite st_bind_modify, (st_bind_ok _ _ _ _ _ (attr_ok 0 o_on_open
    (set_handshake_complete (set_io x s)) o (idle_object _ _ _ _ Hx))).
Qed.

(** ** The whole of it *)

(** The frame of a method of the connection, as the server writes it. *)
Definition server_sends (sig : method_sig) (args : option string) (ws : list value) (raw : bytes) : Prop :=
  exists sb bs, pack_sig sig = Ok sb /\ carries (Spec.method sig args false) bs ws /\
    pack_frame (Frame 1 0 (sb ++ bs)) = Ok raw.

Lemma server_incoming s o sig args ws raw rest :
  idle s 0 0 o -> server_sends sig args ws raw -> sig ∉ CONTENT_METHODS ->
  stream (x_transport (s_io s)) = raw ++ rest ->
  exists sb bs, pack_sig sig = Ok sb /\ carries (Spec.method sig args false) bs ws /\
    incoming (s_io s) 0 sig (sb ++ bs) None 0 rest.
Proof.
  intros Hi (sb & bs & Hsb & Hcar & Hraw) Hsig Hst. exists sb, bs. split_and!; [done..|].
  by apply (incoming_method (s_io s) 0 sig sb bs raw rest (idle_io _ _ _ _ Hi)).
Qed.

(** The handshake of a connection whose transport is connected. *)
Lemma handshake_runs k j s o major minor sp mechs locales ms cp mech resp channel_max frame_max heartbeat
    raw1 raw2 raw3 rest wire1 wire2 wire3 :
  let tu := tune (s_tuning s) channel_max frame_max heartbeat in
  session_ok s -> idle s 0 0 o -> o_is_closing o = false -> o_pending o = ∅ ->
  s_handshake_complete s = false ->
  (forall f s, o_on_open o = Some f -> user (OnOpen f 0) s = (s, Ok tt)) ->
  stream (x_transport (s_io s)) = raw1 ++ raw2 ++ raw3 ++ rest ->
  server_sends Spec.Connection.Start (Some "ooFSS") [major; minor; VDict sp; mechs; VStr locales] raw1 ->
  split_mechanisms mechs = Ok ms -> negotiated (s_client_properties s) sp = Some cp ->
  choose_authentication (cf_authentication cfg) ms = Ok (mech, resp) ->
  server_sends Spec.Connection.Tune (Some "BlB") [VInt channel_max; VInt frame_max; VInt heartbeat] raw2 ->
  server_sends Spec.Connection.OpenOk None [] raw3 ->
  request_frame (tu_frame_max (s_tuning s)) 0
    (start_ok (VDict cp) (VBytes mech) (VBytes resp) (cf_locale cfg)) wire1 ->
  request_frame (tu_frame_max tu) 0
    (tune_ok (VInt (tu_channel_max tu)) (VInt (tu_frame_max tu)) (VInt (tu_heartbeat tu))) wire2 ->
  request_frame (tu_frame_max tu) 0 (open_connection (cf_virtual_host cfg)) wire3 ->
  accepts (t_outcomes (x_transport (s_io s))) [wire1; wire2; wire3] ->
  exists s',
    handshake_loop (drain_events (S j)) (S (S (S (S k)))) None s = (s', Ok tt) /\
    s_handshake_complete s' = true /\ idle s' 0 0 o /\
    s_server s' = Server major minor (VDict sp) ms (split_at (Z.eqb 32) locales) /\
    s_client_properties s' = cp /\ s_tuning s' = tu /\
    s_log s' = s_log s ++ (if o_on_open o is Some f then [OnOpen f 0] else []) /\
    stream (x_transport (s_io s')) = rest /\
    t_out (x_transport (s_io s')) = t_out (x_transport (s_io s)) ++ wire1 ++ wire2 ++ wire3 /\
    t_connected (x_transport (s_io s')) = t_connected (x_transport (s_io s)).
Proof.
  intros tu Hs Hi Hcl Hp Hhc Huser Hst Hraw1 Hms Hcp Hauth Hraw2 Hraw3 Hw1 Hw2 Hw3 Hacc.
  destruct (server_incoming s o _ _ _ _ _ Hi Hraw1 ltac:(by apply (bool_decide_unpack _)) Hst)
    as (sb1 & bs1 & Hsb1 & Hcar1 & Hin1).
  destruct (start_turn j 0 s o sb1 bs1 major minor sp mechs locales ms cp mech resp _ wire1 [wire2; wire3]
    Hs Hi Hcl ltac:(by rewrite Hp) Hsb1 Hin1 Hcar1 Hms Hcp Hauth Hw1 Hacc)
    as (x1 & Hd1 & Hi1 & Hs1 & Hst1 & Hout1 & Hacc1 & Hcon1).
  set (s1 := set_io x1 _) in *.
  destruct (server_incoming s1 o _ _ _ _ _ Hi1 Hraw2 ltac:(by apply (bool_decide_unpack _)) Hst1)
    as (sb2 & bs2 & Hsb2 & Hcar2 & Hin2).
  destruct (tune_turn j 0 s1 o sb2 bs2 channel_max frame_max heartbeat _ wire2 wire3 []
    Hs1 Hi1 Hcl ltac:(by rewrite Hp) Hsb2 Hin2 Hcar2 Hw2 Hw3 Hacc1)
    as (x2 & Hd2 & Hi2 & Hs2 & Hst2 & Hout2 & _ & Hcon2).
  set (s2 := set_io x2 _) in *.
  destruct (server_incoming s2 o _ _ _ _ _ Hi2 Hraw3 ltac:(by apply (bool_decide_unpack _)) Hst2)
    as (sb3 & bs3 & Hsb3 & Hcar3 & Hin3).
  destruct (open_ok_turn j 0 s2 o sb3 bs3 _ Hs2 Hi2 Hcl ltac:(by rewrite Hp) Hsb3 Hin3 Hcar3)
    as (x3 & Hd3 & Hi3 & Hst3 & Ha3).
  set (s3 := set_handshake_complete _) in *.
  set (s4 := if o_on_open o is Some f then log_call (OnOpen f 0) s3 else s3).
  assert (drain_events (S j) None s2 = (s4, Ok tt)) as Hd4.
  { etrans; [exact Hd3|]. unfold call_opt, s4. destruct (o_on_open o) as [f|] eqn:Hf; [|done].
    unfold call_user. rewrite st_bind_modify. by apply Huser. }
  exists s4. split_and!; try (unfold s4; by destruct (o_on_open o)).
  - cbn [handshake_loop]. rewrite st_bind_gets, Hhc, (st_bind_ok _ _ _ _ _ Hd1).
    rewrite st_bind_gets. cbn [s1 s_handshake_complete set_io set_client_properties set_server].
    rewrite Hhc, (st_bind_ok _ _ _ _ _ Hd2).
    rewrite st_bind_gets. cbn [s2 s1 s_handshake_complete set_io set_tuning set_client_properties set_server].
    rewrite Hhc, (st_bind_ok _ _ _ _ _ Hd4), st_bind_gets.
    unfold s4. by destruct (o_on_open o).
  - unfold s4. destruct (o_on_open o); [by destruct Hi3|done].
  - unfold s4. destruct (o_on_open o); [done|by rewrite app_nil_r].
  - trans (t_out (x_transport x3)); [unfold s4; by destruct (o_on_open o)|].
    rewrite (so_out _ _ (ad_out _ _ Ha3)). etrans; [exact Hout2|]. cbn [s1 s_io set_io].
    rewrite Hout1. by rewrite <- !app_assoc.
  - trans (t_connected (x_transport x3)); [unfold s4; by destruct (o_on_open o)|].
    rewrite (so_connected _ _ (ad_out _ _ Ha3)). etrans; [exact Hcon2|exact Hcon1].
Qed.

Lemma transport_connect_connected entries options hs close' timeout t t' :
  Transport.connect entries options hs close' timeout t = (t', Ok tt) -> t_connected t' = true.
Proof.
  unfold Transport.connect, st_try. intros H.
  match type of H with context [match ?m t with _ => _ end] => destruct (m t) as [t1 [[]|e|]] eqn:Hm end; [|destruct (is_os_error e)|done].
  - injection H as <-. apply st_bind_ok_inv in Hm as (t2 & c & Hc & Hm). unfold gets in Hc. injection Hc as <- <-.
    destruct (t_connected t) eqn:Hcon; [unfold mret, st_ret in Hm; by injection Hm as <-|].
    apply st_bind_ok_inv in Hm as (? & es & _ & Hm). apply st_bind_ok_inv in Hm as (? & [] & _ & Hm).
    apply st_bind_ok_inv in Hm as (? & [] & _ & Hm). unfold modify in Hm. by injection Hm as <-.
  - exfalso. apply st_bind_ok_inv in H as (? & ? & _ & H). apply st_bind_ok_inv in H as (? & ? & _ & H).
    by apply st_bind_ok_inv in H as (? & ? & _ & H).
  - done.
Qed.

(** C5: opening a connection.  [connect] opens the next transport, and when
    the server sends [start], [tune] and [open-ok], it answers with exactly
    [start-ok], with the first authentication that the server offers, the
    capabilities both sides have and the locale, then [tune-ok] with the
    agreed limits and [open] with the virtual host.  It returns connected,
    with the properties of the server and the agreed limits stored, the
    callback called once, and everything behind [open-ok] still unread. *)
Theorem connect_completes k j s o d ds t major minor sp mechs locales ms cp mech resp
    channel_max frame_max heartbeat raw1 raw2 raw3 rest wire1 wire2 wire3 :
  let tu := tune (s_tuning s) channel_max frame_max heartbeat in
  session_ok s -> s_objects s !! 0%nat = Some o -> o_connection o = true ->
  o_is_closing o = false -> o_pending o = ∅ ->
  connected s = false -> s_handshake_complete s = false ->
  (forall f s, o_on_open o = Some f -> user (OnOpen f 0) s = (s, Ok tt)) ->
  cf_connect_timeout cfg = None -> 8 <= tu_frame_max (s_tuning s) ->
  x_dials (s_io s) = d :: ds ->
  Transport.connect (d_entries d) (d_options d) (d_handshake d) (d_close d) None (d_transport d) = (t, Ok tt) ->
  quiet t -> stream t = raw1 ++ raw2 ++ raw3 ++ rest ->
  server_sends Spec.Connection.Start (Some "ooFSS") [major; minor; VDict sp; mechs; VStr locales] raw1 ->
  split_mechanisms mechs = Ok ms -> negotiated (s_client_properties s) sp = Some cp ->
  choose_authentication (cf_authentication cfg) ms = Ok (mech, resp) ->
  server_sends Spec.Connection.Tune (Some "BlB") [VInt channel_max; VInt frame_max; VInt heartbeat] raw2 ->
  server_sends Spec.Connection.OpenOk None [] raw3 ->
  request_frame (tu_frame_max (s_tuning s)) 0
    (start_ok (VDict cp) (VBytes mech) (VBytes resp) (cf_locale cfg)) wire1 ->
  request_frame (tu_frame_max tu) 0
    (tune_ok (VInt (tu_channel_max tu)) (VInt (tu_frame_max tu)) (VInt (tu_heartbeat tu))) wire2 ->
  request_frame (tu_frame_max tu) 0 (open_connection (cf_virtual_host cfg)) wire3 ->
  accepts (t_outcomes t) [wire1; wire2; wire3] ->
  exists s',
    Session.connect unwrap shutdown sock_close user cfg (S (S (S (S k)))) (drain_events (S j)) None s =
      (s', Ok tt) /\
    connected s' = true /\ s_handshake_complete s' = true /\ idle s' 0 0 o /\
    s_server s' = Server major minor (VDict sp) ms (split_at (Z.eqb 32) locales) /\
    s_client_properties s' = cp /\ s_tuning s' = tu /\
    s_log s' = s_log s ++ (if o_on_open o is Some f then [OnOpen f 0] else []) /\
    stream (x_transport (s_io s')) = rest /\
    t_out (x_transport (s_io s')) = t_out t ++ wire1 ++ wire2 ++ wire3.
Proof.
  intros tu Hs Ho Hc Hcl Hp Hcon Hhc Huser Htimeout Hfm Hdials Htc Hq Hst Hraw1 Hms Hcp Hauth Hraw2 Hraw3
    Hw1 Hw2 Hw3 Hacc.
  set (h := Handler ∅ ∅ (default 0 (h_bytes_recv <$> x_handler (s_io s)))).
  set (buf := replicate (Z.to_nat (tu_frame_max (s_tuning s) - 8)) (byte_of_Z 0)).
  set (x1 := set_x_handler h (set_x_transport t (set_x_has true (set_x_dials ds (s_io s))))).
  set (s1 := set_io (set_x_buffer buf x1) s).
  assert (session_ok s1) as Hs1 by (by apply (same_core_ok s)).
  assert (idle s1 0 0 o) as Hi1.
  { destruct (ok_connection s Hs) as (o' & Ho' & Hid & _). rewrite Ho in Ho'. injection Ho' as <-.
    split; try done. split; try done. exists h. split; [done|]. unfold chan_state, expected. cbn.
    by rewrite !lookup_empty. }
  destruct (handshake_runs k j s1 o major minor sp mechs locales ms cp mech resp channel_max frame_max heartbeat
    raw1 raw2 raw3 rest wire1 wire2 wire3) as (s2 & Hrun & Hhc2 & Hi2 & Hsv & Hcp2 & Htu & Hlog & Hst2 & Hout & Hcon2);
    [done..|].
  exists s2. split_and!; try done.
  - unfold Session.connect. rewrite st_bind_gets, Hcon. unfold st_try.
    assert (new_transport s = (set_io (set_x_transport (d_transport d) (set_x_has true (set_x_dials ds (s_io s)))) s, Ok d)) as Hnt.
    { unfold new_transport. by rewrite Hdials. }
    rewrite (st_bind_ok _ _ _ _ _ Hnt). rewrite Htimeout.
    rewrite (st_bind_ok _ _ _ (set_io (set_x_transport t (set_x_has true (set_x_dials ds (s_io s)))) s) tt).
    2: { unfold zoom_transport, zoom_io, zoom. cbn [s_io set_io x_transport set_x_transport]. by rewrite Htc. }
    rewrite (st_bind_ok new_handler _ _ (set_io x1 s) tt) by done.
    rewrite (st_bind_ok new_writer _ _ s1 tt); [by rewrite Hrun|].
    unfold new_writer. rewrite st_bind_gets. unfold bytearray. rewrite (proj2 (Z.ltb_ge _ _)); [done|]. cbn. lia.
  - unfold connected. rewrite (li_has _ _ (idle_io _ _ _ _ Hi2)), Hcon2. cbn.
    by eapply transport_connect_connected.
Qed.
End handshake.

(** ** The demo connection *)

Definition demo_sp : list (dict_key * value) :=
  [(capabilities, VDict [(KStr (str_of "connection.blocked"), VBool true)])].
Definition demo_cp : list (dict_key * value) := default [] (negotiated LIBRARY_PROPERTIES demo_sp).
Definition demo_ms : list bytes := [bytes_of "AMQPLAIN"; bytes_of "PLAIN"].
Definition demo_auth : bytes * bytes := ok_or ([], []) (choose_authentication (cf_authentication demo_config) demo_ms).
Definition demo_tuning : tuning := Tuning 2047 131072 (Some 60) 60 60.

Definition frame_of (ch : Z) (r : request) : bytes :=
  ok_or [] (args ← request_bytes r; rb ← pack_sig (rq_sig r); pack_frame (Frame 1 ch (rb ++ args))).

Definition demo_wires : list bytes :=
  [ frame_of 0 (start_ok (VDict demo_cp) (VBytes demo_auth.1) (VBytes demo_auth.2) (cf_locale demo_config));
    frame_of 0 (tune_ok (VInt 2047) (VInt 131072) (VInt 60));
    frame_of 0 (open_connection (VStr (str_of "/"))) ].

Lemma frame_of_request frame_max ch r :
  rq_content r = None ->
  match request_bytes r, pack_sig (rq_sig r) with
  | Ok args, Ok rb => (zlen args + 12 <=? frame_max - 8) && is_ok (pack_frame (Frame 1 ch (rb ++ args)))
  | _, _ => false
  end = true -> request_frame frame_max ch r (frame_of ch r).
Proof.
  intros Hc H. split; [done|]. unfold frame_of.
  destruct (request_bytes r) as [args| |]; [|done..]. destruct (pack_sig (rq_sig r)) as [rb| |]; [|done..].
  apply andb_true_iff in H as [Hle Hok]. bool_to_prop. exists args, rb. cbn.
  destruct (pack_frame _); [|done..]. by split_and!.
Qed.

Lemma server_sends_intro sig fmt ws vs raw :
  wf_args (bytes_of fmt) vs ->
  bits_safe false (bytes_of fmt) = true ->
  wire_args (bytes_of fmt) vs = Ok ws ->
  is_ok (dumps (bytes_of fmt) vs) && is_ok (pack_sig sig) = true ->
  pack_frame (Frame 1 0 (ok_or [] (pack_sig sig) ++ ok_or [] (dumps (bytes_of fmt) vs))) = Ok raw ->
  server_sends sig (Some fmt) ws raw.
Proof.
  intros Hwf Hs Hw Hok Hraw. apply andb_true_iff in Hok as [H1 H2].
  destruct (dumps (bytes_of fmt) vs) as [bs| |] eqn:Hd; [|done..].
  destruct (pack_sig sig) as [sb| |] eqn:Hsb; [|done..].
  exists sb, bs. split_and!; [done| |done]. unfold carries. cbn. eauto 10.
Qed.

Lemma connect_completes_witness :
  exists s', demo_connect (demo_connection SessionDemo.handshake) = (s', Ok tt) /\
    connected s' = true /\ s_handshake_complete s' = true /\ idle s' 0 0 (connection_object None) /\
    s_server s' = Server (VInt 0) (VInt 9) (VDict demo_sp) demo_ms [str_of "en_US"] /\
    s_client_properties s' = demo_cp /\ s_tuning s' = demo_tuning /\ s_log s' = [] /\
    stream (x_transport (s_io s')) = [] /\
    t_out (x_transport (s_io s')) = AMQP_PROTOCOL_HEADER ++ mjoin demo_wires.
Proof.
  unfold demo_connect, demo_drain.
  refine (connect_completes false no_codec no_decode closes closes closes demo_user demo_config 6 9
    (demo_connection SessionDemo.handshake) (connection_object None) (demo_dial SessionDemo.handshake) []
    (Transport.connect (Ok [Attempt true (Ok tt) (Ok tt)]) (Ok tt) (Ok tt) (Ok tt) None (socket SessionDemo.handshake)).1
    (VInt 0) (VInt 9) demo_sp (VStr (str_of "AMQPLAIN PLAIN")) (str_of "en_US") demo_ms demo_cp
    demo_auth.1 demo_auth.2 2047 131072 60
    (method_bytes 0 Spec.Connection.Start "ooFSS"
      [VInt 0; VInt 9; broker_properties; VStr (str_of "AMQPLAIN PLAIN"); VStr (str_of "en_US")])
    (method_bytes 0 Spec.Connection.Tune "BlB" [VInt 2047; VInt 131072; VInt 60])
    (method_bytes 0 Spec.Connection.OpenOk "s" [VStr []]) [] _ _ _
    _ _ _ _ _ _ _ _ _ _ _ _ _ _ _ _ _ _ _ _ _ _ _ _).
  - apply new_connection_ok.
  - reflexivity.
  - reflexivity.
  - reflexivity.
  - reflexivity.
  - reflexivity.
  - reflexivity.
  - intros f s [=].
  - reflexivity.
  - vm_compute. discriminate.
  - reflexivity.
  - vm_compute. reflexivity.
  - vm_compute. reflexivity.
  - vm_compute. reflexivity.
  - apply (server_sends_intro _ _ _ [VInt 0; VInt 9; VDict demo_sp; VStr (str_of "AMQPLAIN PLAIN"); VStr (str_of "en_US")]);
      [|vm_compute; reflexivity..].
    repeat (apply Forall2_cons; split; [intros ? Hf; vm_compute in Hf; injection Hf as <-; try exact I|]);
      try apply Forall2_nil_2.
    intros d [= <-]. unfold demo_sp, capabilities. solve_wf.
  - vm_compute. reflexivity.
  - vm_compute. reflexivity.
  - vm_compute. reflexivity.
  - apply (server_sends_intro _ _ _ [VInt 2047; VInt 131072; VInt 60]); [plain_args|vm_compute; reflexivity..].
  - exists (ok_or [] (pack_sig Spec.Connection.OpenOk)), [byte_of_Z 0].
    split_and!; vm_compute; reflexivity.
  - apply frame_of_request; [done|vm_compute; reflexivity].
  - apply frame_of_request; [done|vm_compute; reflexivity].
  - apply frame_of_request; [done|vm_compute; reflexivity].
  - cbn [accepts]. vm_compute. split_and!; [discriminate|lia|discriminate|lia|discriminate|lia|done].
Defined.
