(* ===== verification/SessionChannel.v ===== *)
(** * The life of a channel, end to end

    Opening a channel, closing it, and a channel that the broker closes: what
    is sent, what comes back, and what the channel, the table of channels and
    the ids in use are afterwards. *)

From S2P Require Import Prelude Exceptions State Struct Utf8 Values Table Codec Content Framing.
From S2P Require Import Transport Sasl Conn Rpc Session SessionDemo Life SessionInv SessionSafe.
From S2P Require Import Quiet SessionWait SessionTurn SessionRpc SessionEvents SessionClose SessionHandshake.
From S2P Require Spec.

Open Scope Z_scope.

Section channel.
Context {P : Type} `{!Vine P} (os_nt : bool).
Context (other_codec : pystr -> pystr -> py bytes) (other_decode : bytes -> pystr -> py pystr).
Context (unwrap shutdown sock_close : transport -> py unit).
Context (user : user_call -> st (session P) unit) (cfg : config).
Implicit Types s : session P.

Abbreviation drain_events :=
  (Session.drain_events os_nt other_codec other_decode unwrap shutdown sock_close user cfg).
Abbreviation send_method_sends :=
  (SessionTurn.send_method_sends other_codec unwrap shutdown sock_close user cfg).
Abbreviation listener := (Session.listener other_codec unwrap shutdown sock_close user cfg).

(** The session in the listener of the method that is waited for: its promise
    is taken out. *)
Definition in_wait (n : nat) (ms : list method_sig) (o : object) (sig : method_sig) (x : io) s : session P :=
  with_pending n (delete sig (push_all (s_next s) ms (o_pending o))) (set_io x (pushed n ms false o s)).

(** The wait for a method that has a listener too, which runs first. *)
Lemma wait_listened k j late s n ch o ms sig sb mt bs ws content rest l :
  idle s n ch o -> routed s ch n -> heeded n o sig -> sig ∈ ms -> pack_sig sig = Ok sb ->
  incoming (s_io s) ch sig (sb ++ bs) content late rest ->
  find_method (METHODS n) sig = Some mt -> carries mt bs ws -> listener j (drain_events j) n sig = Some l ->
  exists x, listening x ch /\ stream (x_transport x) = rest /\ advanced (s_io s) x /\
    forall s3 o3, l (reply_args other_decode o mt ws content) (in_wait n ms o sig x s) = (s3, Ok tt) ->
      s_objects s3 !! n = Some o3 -> s_promises s3 = s_promises (in_wait n ms o sig x s) ->
      wait (S (S k)) (drain_events (late + S j)) n ms false None s =
        (waited n ms o o3 s
           (settle (s_next s) (ASig (Some sig) :: reply_args other_decode o mt ws content) s3).1,
         Ok (Some (reply_args other_decode o mt ws content))).
Proof.
  intros Hi Hr Hh Hsig Hsb Hin Hmt Hcar Hl. pose proof (idle_object _ _ _ _ Hi) as Ho.
  set (pd := push_all (s_next s) ms (o_pending o)).
  pose proof (pushed_idle n ch ms false o s Hi) as Hi1. fold pd in Hi1.
  assert (pd !! sig = Some (s_next s)) as Hpd by (unfold pd; by rewrite push_all_lookup, decide_True).
  destruct (turn os_nt other_codec other_decode unwrap shutdown sock_close user cfg j late
    (pushed n ms false o s) n ch (set_pending pd o) sig mt (sb ++ bs) content rest Hi1 Hr Hh Hin Hmt)
    as (x & Hix & Hst & Ha & Hd); [left; by eexists|]. cbn [o_pending set_pending o_auto_decode] in Hd.
  exists x. split_and!; [apply Hix|exact Hst|exact Ha|]. intros s3 o3 Hl3 Ho3 Hp3.
  rewrite Hpd in Hd. change (with_pending n _ _) with (in_wait n ms o sig x s) in Hd.
  assert (s_promises s3 !! s_next s = Some (Promise false p_new)) as Hpp by (rewrite Hp3; apply pushed_promise).
  unfold run_listeners in Hd. rewrite (st_bind_lift _ (reply_args other_decode o mt ws content)) in Hd
    by by apply (method_args_carries mt sig).
  rewrite Hl, (st_bind_ok _ _ _ _ _ Hl3) in Hd. unfold call_promise in Hd.
  rewrite (st_bind_ok _ _ s3 s3 (Promise false p_new)) in Hd by (unfold promise; by rewrite Hpp).
  by apply (wait_settled k _ n ms false None s o _ s3 _ _ Ho (idle_connection _ _ _ _ Hi) Hd Hpp Ho3).
Qed.

(** What the listener did to the object is what is left, without the promises. *)
Lemma waited_listened n ms o o3 s s3 v sig g :
  s_objects s !! n = Some o -> sig ∈ ms -> NoDup ms ->
  s_objects s3 = <[n := o3]> (s_objects s) ->
  (forall pd, g (set_pending pd o) = set_pending pd (g o)) ->
  o_pending (g o) = o_pending o ->
  o3 = g (set_pending (delete sig (push_all (s_next s) ms (o_pending o))) o) ->
  s_objects (waited n ms o o3 s (settle (s_next s) v s3).1) = <[n := g o]> (s_objects s).
Proof.
  intros Ho Hsig Hnd Hs3 Hg Hgp ->. unfold waited, with_pending. cbn [s_objects set_objects settle modify fst set_promises].
  rewrite Hs3, Hg. cbn [o_pending set_pending]. rewrite popped_pending by done.
  rewrite (alter_insert_eq' _ _ (set_pending (delete sig (push_all (s_next s) ms (o_pending o))) (g o)))
    by apply lookup_insert_eq.
  rewrite insert_insert_eq, <- Hgp. f_equal. by destruct (g o).
Qed.

Lemma in_wait_objects n ms o sig x s :
  s_objects s !! n = Some o ->
  s_objects (in_wait n ms o sig x s) =
    <[n := set_pending (delete sig (push_all (s_next s) ms (o_pending o))) o]> (s_objects s).
Proof.
  intros Ho. trans (alter (set_pending (delete sig (push_all (s_next s) ms (o_pending o)))) n (s_objects s)).
  - apply alter_pending_twice.
  - by apply alter_insert_eq'.
Qed.

Lemma in_wait_ok n ms o sig x s :
  session_ok s -> s_objects s !! n = Some o -> session_ok (in_wait n ms o sig x s).
Proof.
  intros Hs Ho. destruct (pushed_ok n ms false o s Hs Ho) as [H1 _].
  destruct (same_core_ok (pushed n ms false o s) (set_io x (pushed n ms false o s))) as [H2 _]; [by split_and!|done|].
  destruct (keeps_take_pending (P := P) n sig _ H2) as [H3 _]. unfold take_pending in H3.
  rewrite (st_bind_ok _ _ _ _ _ (attr_ok n o_pending (set_io x (pushed n ms false o s)) _
    (pushed_object n ms false o s Ho))) in H3. exact H3.
Qed.

(** [f] called for [Channel.open] does nothing, if there is one. *)
Definition quiet_on_open (n : nat) (o : object) : Prop :=
  forall f s, o_on_open o = Some f -> user (OnOpen f n) s = (s, Ok tt).

Definition opened_log (n : nat) (o : object) : list user_call :=
  if o_on_open o is Some f then [OnOpen f n] else [].

(** The listener of [open-ok]. *)
Lemma on_open_ok_eq n o s :
  s_objects s !! n = Some o -> quiet_on_open n o ->
  exists s', channel_on_open_ok user n s = (s', Ok tt) /\
    s_objects s' = <[n := set_is_open true o]> (s_objects s) /\
    s_log s' = s_log s ++ opened_log n o /\
    s_io s' = s_io s /\ s_promises s' = s_promises s /\ s_channels s' = s_channels s /\
    s_used_ids s' = s_used_ids s /\ s_tuning s' = s_tuning s.
Proof.
  intros Ho Hq. unfold channel_on_open_ok, upd. rewrite st_bind_modify.
  set (s1 := set_objects _ s).
  assert (s_objects s1 = <[n := set_is_open true o]> (s_objects s)) as Hs1 by by apply alter_insert_eq'.
  rewrite (st_bind_ok _ _ s1 s1 (o_on_open o)).
  2: { by rewrite (attr_ok n o_on_open s1 (set_is_open true o)) by (by rewrite Hs1, lookup_insert_eq). }
  unfold opened_log. destruct (o_on_open o) as [f|] eqn:Hf; cbn [call_opt].
  - unfold call_user. rewrite st_bind_modify, Hq by done. eexists. by split_and!.
  - exists s1. rewrite app_nil_r. by split_and!.
Qed.

(** *** [Channel.open] *)

(** The channel is opened: the request is one frame, and the reply is read. *)
Lemma channel_open_opens k j s n ch o wire wires sb bs raw rest :
  idle s (S n) ch o -> routed s ch (S n) -> o_is_closing o = false -> o_is_open o = false ->
  quiet_on_open (S n) o ->
  request_frame (tu_frame_max (s_tuning s)) ch open_channel wire ->
  accepts (t_outcomes (x_transport (s_io s))) (wire :: wires) ->
  pack_sig Spec.Channel.OpenOk = Ok sb -> pack_frame (Frame 1 ch (sb ++ bs)) = Ok raw ->
  stream (x_transport (s_io s)) = raw ++ rest ->
  exists s', channel_open other_codec unwrap shutdown sock_close user cfg (S (S k)) (drain_events (S j)) (S n) s =
      (s', Ok tt) /\
    idle s' (S n) ch (set_is_open true o) /\
    s_objects s' = <[S n := set_is_open true o]> (s_objects s) /\
    s_channels s' = s_channels s /\ s_used_ids s' = s_used_ids s /\ s_tuning s' = s_tuning s /\
    s_log s' = s_log s ++ opened_log (S n) o /\
    stream (x_transport (s_io s')) = rest /\
    t_out (x_transport (s_io s')) = t_out (x_transport (s_io s)) ++ wire /\
    accepts (t_outcomes (x_transport (s_io s'))) wires.
Proof.
  intros Hi Hr Hcl Hop Hq Hreq Hacc Hsb Hraw Hst. pose proof (idle_object _ _ _ _ Hi) as Ho.
  destruct (send_method_sends (S (S k)) (drain_events (S j)) (S n) ch o open_channel wire wires (mret tt) s
    Hi Hreq Hacc) as (x1 & Hsame & Hout & Hacc1 & _ & _ & Hsend).
  set (s1 := set_io x1 s) in *. pose proof (same_input_idle s x1 (S n) ch o Hsame Hi) as Hi1. fold s1 in Hi1.
  set (ms := [Spec.Channel.OpenOk]).
  assert (stream (x_transport (s_io s1)) = raw ++ rest) as Hst1.
  { rewrite <- Hst. apply (same_in_stream _ _ (in_transport _ _ Hsame)). }
  pose proof (incoming_method (s_io s1) ch Spec.Channel.OpenOk sb bs raw rest (idle_io _ _ _ _ Hi1) Hsb
    ltac:(by apply (bool_decide_unpack _)) Hraw Hst1) as Hin.
  destruct (wait_listened k j 0 s1 (S n) ch o ms Spec.Channel.OpenOk sb _ bs [] None rest _ Hi1 Hr
    (or_introl Hcl) ltac:(by left) Hsb Hin eq_refl eq_refl eq_refl) as (x & Hx & Hstx & Ha & Hwait).
  set (s2 := in_wait (S n) ms o Spec.Channel.OpenOk x s1) in *.
  set (o2 := set_pending (delete Spec.Channel.OpenOk (push_all (s_next s1) ms (o_pending o))) o).
  assert (s_objects s2 = <[S n := o2]> (s_objects s)) as Hobj2 by by apply (in_wait_objects (S n) ms o _ x s1).
  destruct (on_open_ok_eq (S n) o2 s2) as (s3 & Hl & Hobj3 & Hlog3 & Hio3 & Hp3 & Hc3 & Hu3 & Ht3);
    [by rewrite Hobj2, lookup_insert_eq|exact Hq|].
  rewrite Hobj2, insert_insert_eq in Hobj3.
  assert (s_objects s3 !! S n = Some (set_is_open true o2)) as Ho3 by by rewrite Hobj3, lookup_insert_eq.
  specialize (Hwait s3 (set_is_open true o2) Hl Ho3 Hp3).
  set (v := ASig _ :: _) in Hwait.
  exists (waited (S n) ms o (set_is_open true o2) s1 (settle (s_next s1) v s3).1).
  assert (s_objects (waited (S n) ms o (set_is_open true o2) s1 (settle (s_next s1) v s3).1) =
    <[S n := set_is_open true o]> (s_objects s)) as Hobj.
  { apply (waited_listened (S n) ms o (set_is_open true o2) s1 s3 v Spec.Channel.OpenOk (set_is_open true));
      try done; [by left|apply NoDup_singleton]. }
  assert (s_io (waited (S n) ms o (set_is_open true o2) s1 (settle (s_next s1) v s3).1) = x) as Hio by exact Hio3.
  split_and!; try done.
  - unfold channel_open. rewrite (st_bind_ok _ _ _ _ _ (attr_ok (S n) o_is_open s o Ho)), Hop.
    erewrite st_bind_ok; [reflexivity|]. unfold rpc. rewrite (st_bind_ok _ _ _ _ _ Hsend). exact Hwait.
  - destruct Hi as [_ ???]. split; [by rewrite Hobj, lookup_insert_eq|done|done|by rewrite Hio].
  - by rewrite Hio.
  - rewrite Hio, <- Hout. apply (ad_out _ _ Ha).
  - rewrite Hio, (so_outcomes _ _ (ad_out _ _ Ha)). done.
Qed.

(** What [Channel.__init__] does when there is a free id. *)
Lemma channel_init_eq s m ch used' cb :
  session_ok s -> s_channels s = Some m ->
  get_free_channel_id (tu_channel_max (s_tuning s)) (s_used_ids s) = Ok (ch, used') ->
  (ch ∉ s_used_ids s) /\ m !! ch = None /\
  exists s', channel_init None cb s = (s', Ok (s_next s)) /\
    s_objects s' = <[s_next s := new_channel ch cb]> (s_objects s) /\
    s_channels s' = Some (<[ch := s_next s]> m) /\ s_used_ids s' = used' /\
    s_io s' = s_io s /\ s_log s' = s_log s /\ s_tuning s' = s_tuning s.
Proof.
  intros Hs Hm Hid. destruct (get_free_ok _ _ _ _ Hid) as (Hne & Hfree & Hused).
  split_and!; [done| |].
  { destruct (m !! ch) as [n|] eqn:E; [|done]. by destruct (ok_used s Hs m ch n Hm E). }
  set (s1 := set_used_ids used' s). exists (registered s1 ch m cb). split_and!; try done.
  unfold channel_init. rewrite !st_bind_gets, (st_bind_lift _ (ch, used')), st_bind_modify by done.
  rewrite st_bind_gets. change (s_channels (set_used_ids used' s)) with (s_channels s).
  by rewrite Hm, (st_bind_lift _ m), st_bind_gets, !st_bind_modify.
Qed.

(** C15: [Connection.channel].  On an open connection the call takes an
    id that no channel has, sends [channel.open] for it, and when the
    broker's [open-ok] arrives returns a new channel object that is
    registered under the id and ready for use; nothing else has changed. *)
Theorem channel_opens k j s m ch used' cb wire sb bs raw rest :
  session_ok s -> s_channels s = Some m ->
  get_free_channel_id (tu_channel_max (s_tuning s)) (s_used_ids s) = Ok (ch, used') ->
  listening (s_io s) ch -> (forall f s', cb = Some f -> user (OnOpen f (s_next s)) s' = (s', Ok tt)) ->
  request_frame (tu_frame_max (s_tuning s)) ch open_channel wire ->
  accepts (t_outcomes (x_transport (s_io s))) [wire] ->
  pack_sig Spec.Channel.OpenOk = Ok sb -> pack_frame (Frame 1 ch (sb ++ bs)) = Ok raw ->
  stream (x_transport (s_io s)) = raw ++ rest ->
  let n := s_next s in
  exists s', channel other_codec unwrap shutdown sock_close user cfg (S (S k)) (drain_events (S j)) None cb s =
      (s', Ok n) /\
    idle s' n ch (set_is_open true (new_channel ch cb)) /\
    s_objects s !! n = None /\
    s_objects s' = <[n := set_is_open true (new_channel ch cb)]> (s_objects s) /\
    m !! ch = None /\ s_channels s' = Some (<[ch := n]> m) /\
    s_used_ids s' = used' /\ (ch ∉ s_used_ids s) /\
    s_log s' = s_log s ++ (if cb is Some f then [OnOpen f n] else []) /\
    stream (x_transport (s_io s')) = rest /\
    t_out (x_transport (s_io s')) = t_out (x_transport (s_io s)) ++ wire.
Proof.
  intros Hs Hm Hid Hio Hcb Hreq Hacc Hsb Hraw Hst n.
  destruct (channel_init_eq s m ch used' cb Hs Hm Hid) as (Hfree & Hnone & s1 & Hinit & Hobj1 & Hch1 & Hu1 & Hio1 & Hl1 & Ht1).
  fold n in Hinit, Hobj1, Hch1. pose proof (next_positive s Hs) as Hpos. fold n in Hpos.
  destruct n as [|n'] eqn:Hn; [done|].
  assert (idle s1 (S n') ch (new_channel ch cb)) as Hi1.
  { split; [by rewrite Hobj1, lookup_insert_eq|done|done|by rewrite Hio1]. }
  destruct (channel_open_opens k j s1 n' ch (new_channel ch cb) wire [] sb bs raw rest Hi1)
    as (s2 & Hopen & Hi2 & Hobj2 & Hch2 & Hu2 & _ & Hl2 & Hst2 & Hout2 & _); rewrite ?Hio1, ?Ht1; try done.
  { eexists. rewrite Hch1. split; [done|]. apply lookup_insert_eq. }
  { intros f s' Hf. rewrite <- Hn. by apply Hcb. }
  exists s2. split_and!; try done.
  - unfold channel. rewrite st_bind_gets, Hm. cbn [mbind option_bind].
    rewrite (st_bind_ok _ _ _ _ _ Hinit). by rewrite (st_bind_ok _ _ _ _ _ Hopen).
  - destruct (ok_fresh s Hs (S n')) as [Hno _]; [by rewrite <- Hn|done].
  - by rewrite Hobj2, Hobj1, insert_insert_eq.
  - by rewrite Hch2.
  - by rewrite Hu2.
  - by rewrite Hl2, Hl1.
  - by rewrite Hout2, Hio1.
Qed.

(** *** [Channel.close] *)

(** The wait for [close-ok], in which the channel is collected. *)
Lemma wait_close_ok k j late s m n ch o sb rest :
  session_ok s -> idle s (S n) ch o -> s_channels s = Some m ->
  pack_sig Spec.Channel.CloseOk = Ok sb ->
  incoming (s_io s) ch Spec.Channel.CloseOk sb None late rest ->
  exists s', wait (S (S k)) (drain_events (late + S j)) (S n) [Spec.Channel.CloseOk] false None s =
      (s', Ok (Some [])) /\
    s_objects s' = <[S n := collected o]> (s_objects s) /\
    s_channels s' = Some (delete ch m) /\ s_used_ids s' = remove_channel_id (s_used_ids s) ch /\
    s_log s' = s_log s /\ stream (x_transport (s_io s')) = rest /\ advanced (s_io s) (s_io s').
Proof.
  intros Hs Hi Hm Hsb Hin. pose proof (idle_object _ _ _ _ Hi) as Ho. set (ms := [Spec.Channel.CloseOk]).
  destruct (wait_listened k j late s (S n) ch o ms Spec.Channel.CloseOk sb
    (Spec.method Spec.Channel.CloseOk None false) [] [] None rest
    (fun args => match args with [] => channel_collect (S n) | _ => raise TypeError end) Hi)
    as (x & Hx & Hst & Ha & Hwait); try done.
  { by apply (idle_routed s (S n) ch o). }
  { right. by right; left. }
  { by left. }
  { by rewrite app_nil_r. }
  set (s2 := in_wait (S n) ms o Spec.Channel.CloseOk x s) in *.
  set (o2 := set_pending (delete Spec.Channel.CloseOk (push_all (s_next s) ms (o_pending o))) o).
  assert (s_objects s2 = <[S n := o2]> (s_objects s)) as Hobj2 by by apply in_wait_objects.
  assert (channel_collect (S n) s2 =
    (set_objects (<[S n := collected o2]> (s_objects s2)) (unregistered o2 s2), Ok tt)) as Hcol.
  { apply channel_collect_eq; [by apply in_wait_ok|done|by rewrite Hobj2, lookup_insert_eq]. }
  assert (unregistered o2 s2 =
    set_used_ids (remove_channel_id (s_used_ids s) ch) (set_channels (Some (delete ch m)) s2)) as Hun.
  { unfold unregistered. cbn [o2 o_connection o_channel_id set_pending].
    rewrite (idle_connection _ _ _ _ Hi), (idle_id _ _ _ _ Hi). change (s_channels s2) with (s_channels s).
    by rewrite Hm. }
  rewrite Hun in Hcol. set (s3 := set_objects _ _) in Hcol.
  assert (s_objects s3 = <[S n := collected o2]> (s_objects s)) as Hobj3.
  { trans (<[S n := collected o2]> (s_objects s2)); [done|]. by rewrite Hobj2, insert_insert_eq. }
  specialize (Hwait s3 (collected o2) Hcol ltac:(by rewrite Hobj3, lookup_insert_eq) eq_refl).
  eexists. split_and!; [exact Hwait| |done..].
  by apply (waited_listened (S n) ms o (collected o2) s s3 _ Spec.Channel.CloseOk collected);
    try done; [by left|apply NoDup_singleton].
Qed.

(** C16: [Channel.close].  The request goes out as one frame, and when the
    broker's [close-ok] arrives the call returns: the channel has lost its
    connection, its id and its consumers, its id is free again, no other
    object has changed, and a second [close] does nothing. *)
Theorem channel_close_ends k j late s m n ch o code text class_id method_id wire sb rest :
  session_ok s -> idle s (S n) ch o -> s_channels s = Some m -> o_is_open o = true ->
  request_frame (tu_frame_max (s_tuning s)) ch (close_channel code text class_id method_id) wire ->
  accepts (t_outcomes (x_transport (s_io s))) [wire] ->
  pack_sig Spec.Channel.CloseOk = Ok sb ->
  incoming (s_io s) ch Spec.Channel.CloseOk sb None late rest ->
  let close := channel_close other_codec unwrap shutdown sock_close user cfg (S (S k)) (drain_events (late + S j))
                 (S n) code text class_id method_id in
  exists s', close s = (s', Ok tt) /\
    s_objects s' = <[S n := collected (set_is_closing false o)]> (s_objects s) /\
    s_channels s' = Some (delete ch m) /\
    s_used_ids s' = remove_channel_id (s_used_ids s) ch /\ (ch ∉ s_used_ids s') /\
    s_log s' = s_log s /\
    t_out (x_transport (s_io s')) = t_out (x_transport (s_io s)) ++ wire /\
    stream (x_transport (s_io s')) = rest /\
    close s' = (s', Ok tt).
Proof.
  intros Hs Hi Hm Hop Hreq Hacc Hsb Hin close. set (drain := drain_events (late + S j)) in *.
  set (r := close_channel code text class_id method_id) in *. pose proof (idle_object _ _ _ _ Hi) as Ho.
  set (s1 := (upd (S n) (set_is_closing true) s).1). set (o1 := set_is_closing true o).
  assert (s_objects s1 = <[S n := o1]> (s_objects s)) as Hobj1 by by apply alter_insert_eq'.
  assert (session_ok s1) as Hok1 by by apply (keeps_inert (P := P) (S n) (set_is_closing true)).
  assert (idle s1 (S n) ch o1) as Hi1.
  { destruct Hi. split; try done. by rewrite Hobj1, lookup_insert_eq. }
  destruct (send_method_sends (S (S k)) drain (S n) ch o1 r wire [] (mret tt) s1 Hi1 Hreq Hacc)
    as (x1 & Hsame & Hout & _ & _ & _ & Hsend).
  set (s2 := set_io x1 s1) in *. pose proof (same_input_idle s1 x1 (S n) ch o1 Hsame Hi1) as Hi2. fold s2 in Hi2.
  assert (session_ok s2) as Hok2 by (apply (same_core_ok s1 s2); [by split_and!|done]).
  destruct (wait_close_ok k j late s2 m n ch o1 sb rest Hok2 Hi2 Hm Hsb) as
    (s3 & Hwait & Hobj3 & Hch3 & Hu3 & Hl3 & Hst3 & Ha3); [by apply (same_input_incoming (s_io s1))|].
  set (f := fun o => set_connection false (o_channel_id o) (set_is_closing false o)).
  set (s4 := (upd (S n) f s3).1).
  assert (s_objects s4 = <[S n := collected (set_is_closing false o)]> (s_objects s)) as Hobj4.
  { trans (alter f (S n) (s_objects s3)); [done|]. rewrite Hobj3, alter_insert_eq.
    trans (<[S n := f (collected o1)]> (s_objects s1)); [done|]. by rewrite Hobj1, insert_insert_eq. }
  exists s4. split_and!; try done.
  - unfold close, channel_close, st_finally.
    rewrite (st_bind_ok _ _ _ _ _ (attr_ok (S n) o_connection s o Ho)), st_bind_gets.
    rewrite (st_bind_ok _ _ _ _ _ (attr_ok (S n) o_is_open s o Ho)), (idle_connection _ _ _ _ Hi), Hm, Hop.
    cbn [andb when]. rewrite (st_bind_ok _ _ s s1 tt) by done. erewrite st_bind_ok; [reflexivity|].
    unfold rpc. rewrite (st_bind_ok _ _ _ _ _ Hsend). exact Hwait.
  - change (s_used_ids s4) with (s_used_ids s3). rewrite Hu3. by apply remove_channel_id_nodup, (ok_ids s2 Hok2).
  - etrans; [apply (ad_out _ _ Ha3)|exact Hout].
  - assert (s_objects s4 !! S n = Some (collected (set_is_closing false o))) as Ho4
      by by rewrite Hobj4, lookup_insert_eq.
    unfold close, channel_close, st_finally. rewrite (st_bind_ok _ _ _ _ _ (attr_ok (S n) o_connection s4 _ Ho4)).
    rewrite st_bind_gets, (st_bind_ok _ _ _ _ _ (attr_ok (S n) o_is_open s4 _ Ho4)). cbn [o_connection collected andb when].
    trans (upd (S n) f s4); [done|]. unfold upd, modify. rewrite alter_id; [by destruct s4|].
    intros o'. rewrite Ho4. by intros [= <-].
Qed.

(** *** The broker closes a channel *)

(** C17: the broker closes a channel.  When [channel.close] arrives, one call
    of [drain_events] answers it with [channel.close-ok], opens the channel
    again under its id, waits for [open-ok] and raises the exception of the
    reply code.  The channel is ready for use again and keeps everything it
    had, its consumers and the mark that it is in confirm mode included,
    though the broker has forgotten them; nothing else has changed. *)
Theorem channel_closed_by_broker k late s n ch o oc sb bs code text class_id method_id raw rest wire1 wire2 sb2 bs2 :
  session_ok s -> idle s (S n) ch o -> s_objects s !! 0%nat = Some oc ->
  o_is_closing oc = false -> o_is_closing o = false -> o_pending o !! Spec.Channel.Close = None ->
  quiet_on_open (S n) o ->
  pack_sig Spec.Channel.Close = Ok sb ->
  incoming (s_io s) ch Spec.Channel.Close (sb ++ bs) None late (raw ++ rest) ->
  carries (Spec.method Spec.Channel.Close (Some "BsBB") false) bs
    [VInt code; VStr text; VInt class_id; VInt method_id] ->
  pack_sig Spec.Channel.OpenOk = Ok sb2 -> pack_frame (Frame 1 ch (sb2 ++ bs2)) = Ok raw ->
  request_frame (tu_frame_max (s_tuning s)) ch channel_close_ok wire1 ->
  request_frame (tu_frame_max (s_tuning s)) ch open_channel wire2 ->
  accepts (t_outcomes (x_transport (s_io s))) [wire1; wire2] ->
  exists s', drain_events (late + S (S (S k))) None s =
      (s', Raise (Amqp (error_for_code code (Some (TStr text)) (Some (inl (class_id, method_id))) ChannelError))) /\
    idle s' (S n) ch (set_is_open true o) /\
    s_objects s' = <[S n := set_is_open true o]> (s_objects s) /\
    s_channels s' = s_channels s /\ s_used_ids s' = s_used_ids s /\
    s_log s' = s_log s ++ opened_log (S n) o /\
    stream (x_transport (s_io s')) = rest /\
    t_out (x_transport (s_io s')) = t_out (x_transport (s_io s)) ++ wire1 ++ wire2.
Proof.
  intros Hs Hi Hoc Hclc Hcl Hp Hq Hsb Hin Hcar Hsb2 Hraw Hreq1 Hreq2 Hacc. set (j := S (S k)).
  destruct (turn_unasked os_nt other_codec other_decode unwrap shutdown sock_close user cfg j late s (S n) ch o
    Spec.Channel.Close sb _ bs _ None (raw ++ rest) _ Hs Hi (or_introl Hcl) Hsb Hin eq_refl Hcar Hp eq_refl)
    as (x & Hx & Hst & Ha & Hd).
  set (s1 := set_io x s) in *.
  assert (accepts (t_outcomes (x_transport (s_io s1))) [wire1; wire2]) as Hacc1.
  { cbn [s1 s_io set_io]. by rewrite (so_outcomes _ _ (ad_out _ _ Ha)). }
  destruct (send_method_sends j (drain_events j) (S n) ch o channel_close_ok wire1 [wire2] (mret tt) s1 Hx Hreq1 Hacc1)
    as (x2 & Hsame & Hout & Hacc2 & _ & _ & Hsend).
  set (s2 := set_io x2 s1) in *. pose proof (same_input_idle s1 x2 (S n) ch o Hsame Hx) as Hi2. fold s2 in Hi2.
  pose proof (idle_object _ _ _ _ Hi2) as Ho2.
  set (s3 := (upd (S n) (set_is_open false) s2).1). set (o3 := set_is_open false o).
  assert (s_objects s3 = <[S n := o3]> (s_objects s)) as Hobj3 by by apply alter_insert_eq'.
  assert (idle s3 (S n) ch o3) as Hi3.
  { destruct Hi2. split; try done. by rewrite Hobj3, lookup_insert_eq. }
  destruct (channel_open_opens k (S k) s3 n ch o3 wire2 [] sb2 bs2 raw rest Hi3)
    as (s4 & Hopen & Hi4 & Hobj4 & Hch4 & Hu4 & _ & Hl4 & Hst4 & Hout4 & _); try done.
  { by apply (idle_routed s (S n) ch o). }
  { rewrite <- Hst. apply (same_in_stream _ _ (in_transport _ _ Hsame)). }
  exists s4. split_and!; try done.
  - rewrite Hd. trans (channel_on_close other_codec unwrap shutdown sock_close user cfg j (drain_events j) (S n)
      code text class_id method_id s1); [done|]. unfold channel_on_close.
    rewrite (st_bind_ok _ _ _ _ _ Hsend). fold s2.
    rewrite (st_bind_ok _ _ _ _ _ (attr_ok (S n) o_connection s2 o Ho2)), (idle_connection _ _ _ _ Hi).
    cbn [negb when]. rewrite st_bind_ret, (st_bind_ok _ _ _ _ _ (attr_ok 0 o_is_closing s2 oc Hoc)), Hclc.
    rewrite (st_bind_ok _ _ _ _ _ (attr_ok (S n) o_is_closing s2 o Ho2)), Hcl. cbn [negb andb when].
    unfold do_revive. rewrite st_bind_bind, (st_bind_ok _ _ s2 s3 tt) by done.
    by rewrite (st_bind_ok _ _ _ _ _ Hopen).
  - by rewrite Hobj4, Hobj3, insert_insert_eq.
  - etrans; [exact Hout4|]. cbn. etrans; [by rewrite Hout|]. rewrite <- app_assoc. f_equal. apply (ad_out _ _ Ha).
Qed.
End channel.

(** ** On the demo connection *)

Definition open_ok_sig : bytes := ok_or [] (pack_sig Spec.Channel.OpenOk).
Definition open_ok_frame : bytes := ok_or [] (pack_frame (Frame 1 1 open_ok_sig)).
Definition opened : object := set_is_open true demo_object.

Lemma channel_opens_witness :
  let s := demo_up open_ok_frame in
  let n := s_next s in
  exists s', channel no_codec closes closes closes demo_user demo_config 10 demo_drain None None s = (s', Ok n) /\
    idle s' n 1 opened /\ s_objects s !! n = None /\
    s_objects s' = <[n := opened]> (s_objects s) /\
    ({[ 0 := 0%nat ]} : gmap Z nat) !! 1 = None /\ s_channels s' = Some (<[1 := n]> {[ 0 := 0%nat ]}) /\
    s_used_ids s' = [1] /\ (1 ∉ s_used_ids s) /\ s_log s' = s_log s ++ [] /\
    stream (x_transport (s_io s')) = [] /\
    t_out (x_transport (s_io s')) = t_out (x_transport (s_io s)) ++ frame_of 1 open_channel.
Proof.
  assert (listening (s_io (demo_up open_ok_frame)) 1) as Hi by (apply listening_intro; vm_compute; reflexivity).
  unfold demo_drain, opened, demo_object. cbv zeta.
  refine (channel_opens false no_codec no_decode closes closes closes demo_user demo_config 8 9
    (demo_up open_ok_frame) {[ 0 := 0%nat ]} 1 [1] None (frame_of 1 open_channel) open_ok_sig [] open_ok_frame []
    (demo_up_ok _) _ _ Hi _ _ _ _ _ _).
  - vm_compute. reflexivity.
  - vm_compute. reflexivity.
  - intros f s' [=].
  - apply frame_of_request; [done|vm_compute; reflexivity].
  - cbn [accepts]. vm_compute. split_and!; [discriminate|lia|done].
  - vm_compute. reflexivity.
  - vm_compute. reflexivity.
  - vm_compute. reflexivity.
Defined.

Definition channel_close_frame : bytes := frame_of 1 (close_channel (VInt 0) (VStr []) (VInt 0) (VInt 0)).
Definition channel_close_ok_sig : bytes := ok_or [] (pack_sig Spec.Channel.CloseOk).
Definition channel_close_ok_frame : bytes := ok_or [] (pack_frame (Frame 1 1 channel_close_ok_sig)).

Lemma channel_close_ends_witness :
  let s := demo_open channel_close_ok_frame in
  let close := channel_close no_codec closes closes closes demo_user demo_config 10 demo_drain 1
                 (VInt 0) (VStr []) (VInt 0) (VInt 0) in
  exists s', close s = (s', Ok tt) /\
    s_objects s' = <[1%nat := collected (set_is_closing false opened)]> (s_objects s) /\
    s_channels s' = Some (delete 1 {[ 0 := 0%nat; 1 := 1%nat ]}) /\
    s_used_ids s' = remove_channel_id (s_used_ids s) 1 /\ (1 ∉ s_used_ids s') /\
    s_log s' = s_log s /\
    t_out (x_transport (s_io s')) = t_out (x_transport (s_io s)) ++ channel_close_frame /\
    stream (x_transport (s_io s')) = [] /\
    close s' = (s', Ok tt).
Proof.
  assert (idle (demo_open channel_close_ok_frame) 1 1 opened) as Hi
    by (apply idle_intro; vm_compute; reflexivity).
  unfold demo_drain, opened, demo_object in *. cbv zeta.
  refine (channel_close_ends false no_codec no_decode closes closes closes demo_user demo_config 8 9 0
    (demo_open channel_close_ok_frame) {[ 0 := 0%nat; 1 := 1%nat ]} 0 1 (set_is_open true (new_channel 1 None))
    (VInt 0) (VStr []) (VInt 0) (VInt 0) channel_close_frame channel_close_ok_sig []
    (demo_open_ok _) Hi _ eq_refl _ _ _ _).
  - vm_compute. reflexivity.
  - apply frame_of_request; [done|vm_compute; reflexivity].
  - cbn [accepts]. vm_compute. split_and!; [discriminate|lia|done].
  - vm_compute. reflexivity.
  - rewrite <- (app_nil_r channel_close_ok_sig).
    apply (incoming_method (s_io (demo_open channel_close_ok_frame)) 1 Spec.Channel.CloseOk
      channel_close_ok_sig [] channel_close_ok_frame []).
    + apply Hi.
    + vm_compute. reflexivity.
    + by apply (bool_decide_unpack _).
    + vm_compute. reflexivity.
    + vm_compute. reflexivity.
Defined.

Definition not_found_values : list value := [VInt 404; VStr (str_of "no queue"); VInt 50; VInt 10].
Definition not_found_args : bytes := ok_or [] (dumps (bytes_of "BsBB") not_found_values).
Definition not_found : bytes := method_bytes 1 Spec.Channel.Close "BsBB" not_found_values.

Lemma channel_closed_by_broker_witness :
  let s := demo_open (not_found ++ open_ok_frame) in
  exists s', demo_drain None s =
      (s', Raise (Amqp (error_for_code 404 (Some (TStr (str_of "no queue"))) (Some (inl (50, 10))) ChannelError))) /\
    idle s' 1 1 (set_is_open true opened) /\
    s_objects s' = <[1%nat := set_is_open true opened]> (s_objects s) /\
    s_channels s' = s_channels s /\ s_used_ids s' = s_used_ids s /\
    s_log s' = s_log s ++ opened_log 1 opened /\
    stream (x_transport (s_io s')) = [] /\
    t_out (x_transport (s_io s')) = t_out (x_transport (s_io s)) ++ frame_of 1 channel_close_ok ++ frame_of 1 open_channel.
Proof.
  assert (idle (demo_open (not_found ++ open_ok_frame)) 1 1 opened) as Hi
    by (apply idle_intro; vm_compute; reflexivity).
  unfold demo_drain, opened, demo_object in *. cbv zeta.
  refine (channel_closed_by_broker false no_codec no_decode closes closes closes demo_user demo_config 7 0
    (demo_open (not_found ++ open_ok_frame)) 0 1 (set_is_open true (new_channel 1 None)) (connection_object None)
    (ok_or [] (pack_sig Spec.Channel.Close)) not_found_args 404 (str_of "no queue") 50 10 open_ok_frame []
    (frame_of 1 channel_close_ok) (frame_of 1 open_channel) open_ok_sig []
    (demo_open_ok _) Hi _ eq_refl eq_refl eq_refl _ _ _ _ _ _ _ _ _).
  - vm_compute. reflexivity.
  - intros f s [=].
  - vm_compute. reflexivity.
  - apply (incoming_method (s_io (demo_open (not_found ++ open_ok_frame))) 1 Spec.Channel.Close
      (ok_or [] (pack_sig Spec.Channel.Close)) not_found_args not_found (open_ok_frame ++ [])).
    + apply Hi.
    + vm_compute. reflexivity.
    + by apply (bool_decide_unpack _).
    + vm_compute. reflexivity.
    + vm_compute. reflexivity.
  - split; [reflexivity|]. exists not_found_values. split; [plain_args|split; vm_compute; reflexivity].
  - vm_compute. reflexivity.
  - vm_compute. reflexivity.
  - apply frame_of_request; [done|vm_compute; reflexivity].
  - apply frame_of_request; [done|vm_compute; reflexivity].
  - cbn [accepts]. vm_compute. split_and!; [discriminate|lia|discriminate|lia|done].
Defined.
