(* ===== verification/SessionTimeout.v ===== *)
(** * Timeouts

    [drain_events(timeout)] may time out anywhere: between two frames, inside
    of the header or the payload of one, between the frames of a message.
    Nothing is lost by that: the next call goes on where the last one was
    interrupted. *)

From S2P Require Import Prelude Exceptions State Struct Utf8 Values Table Codec Content Framing.
From S2P Require Import Transport Sasl Conn Rpc Session SessionDemo Life SessionInv SessionSafe.
From S2P Require Import Quiet SessionWait SessionTurn SessionRpc SessionEvents.
From S2P Require Spec.

Open Scope Z_scope.

(** ** The transport *)

(** What reading leaves alone. *)
Record same_socket (t t' : transport) : Prop := SameSocket {
  ss_out : t_out t' = t_out t;
  ss_outcomes : t_outcomes t' = t_outcomes t;
  ss_open : t_open t' = t_open t;
  ss_kind : t_kind t' = t_kind t;
  ss_timeout : t_timeout t' = t_timeout t;
}.

#[export] Instance same_socket_preorder : PreOrder same_socket.
Proof. split; [by split|]. intros t1 t2 t3 [] []. split; congruence. Qed.

Section read_frame.
Context (os_nt : bool) (t0 : transport).

Abbreviation stays := (preserves (same_socket t0)).

Lemma stays_modify f : (forall t, same_socket t (f t)) -> stays (modify f).
Proof. intros H. apply preserves_modify. intros t Ht. by etrans. Qed.

Lemma stays_read n i : stays (read n i).
Proof.
  intros t Ht. unfold read. destruct (read_loop _ _ _ _ _ _) as [[evs rbuf] []]; cbn; by etrans.
Qed.

Lemma stays_except {A} buf e : stays (read_frame_except (A := A) os_nt buf e).
Proof.
  unfold read_frame_except, restore.
  repeat first [apply preserves_raise | apply preserves_when | apply stays_modify; by split
    | apply preserves_bind; [|intros] | case_match ].
Qed.

Lemma stays_guarded {A} buf (m : st transport A) : stays m -> stays (guarded os_nt buf m).
Proof. intros. apply preserves_try; [done|]. intros e. apply stays_except. Qed.

Lemma stays_read_frame : stays (read_frame os_nt).
Proof.
  unfold read_frame, read_payload.
  repeat first [apply stays_guarded | apply stays_read | apply preserves_lift | apply preserves_ret
    | apply preserves_try; [|intros; apply stays_except]
    | apply preserves_bind; [|intros] | case_match ].
Qed.
End read_frame.

(** A frame is at the front of what arrives: [read_frame] returns it, or it
    times out and has used up an event. *)
Lemma read_frame_calm os_nt t f raw rest :
  calm t -> pack_frame f = Ok raw -> stream t = raw ++ rest ->
  exists t', same_socket t t' /\ t_connected t' = t_connected t /\ calm t' /\
    (read_frame os_nt t = (t', Ok f) /\ stream t' = rest /\ (events_size (t_in t') <= events_size (t_in t))%nat \/
     read_frame os_nt t = (t', Raise SockTimeout) /\ stream t' = stream t /\
       (events_size (t_in t') < events_size (t_in t))%nat).
Proof.
  intros Hc Hf Hs. pose proof (read_frame_settles os_nt t f raw rest Hc Hf Hs) as [Hc' Hx].
  pose proof (stays_read_frame os_nt t t ltac:(by split)) as Hss.
  pose proof (read_frame_keeps_connected os_nt t) as Hcon.
  destruct (read_frame os_nt t) as [t' r] eqn:Hr. cbn [fst snd] in *. exists t'.
  destruct r as [g|e|]; [|destruct e; try done|done]; split_and!; try done.
  - left. apply read_frame_ok in Hr as (raw' & Hg & Hs'). rewrite Hs in Hs'.
    by destruct (pack_frame_prefix _ _ _ _ _ _ Hf Hg Hs') as [<- <-].
  - right. by apply read_frame_timeout in Hr.
Qed.

(** The same with a timeout for the call, which is gone afterwards. *)
Lemma read_timed os_nt timeout t f raw rest :
  (is_Some timeout -> t_open t = true) ->
  calm t -> pack_frame f = Ok raw -> stream t = raw ++ rest ->
  exists t', same_out t t' /\ t_timeout t' = t_timeout t /\ calm t' /\
    (having_timeout timeout (read_frame os_nt) t = (t', Ok f) /\ stream t' = rest /\
       (events_size (t_in t') <= events_size (t_in t))%nat \/
     having_timeout timeout (read_frame os_nt) t = (t', Raise SockTimeout) /\ stream t' = stream t /\
       (events_size (t_in t') < events_size (t_in t))%nat).
Proof.
  intros Ho Hc Hf Hs. unfold having_timeout, having_timeout_in. destruct timeout as [x|].
  2: { destruct (read_frame_calm os_nt t f raw rest Hc Hf Hs) as (t' & [] & ? & ? & ?). exists t'. by split_and!. }
  rewrite st_bind_gets, Ho by done. cbn [negb]. rewrite st_bind_gets.
  destruct (decide (t_timeout t = Some x)) as [E|E].
  - rewrite !bool_decide_eq_true_2 by done. cbn [negb when]. rewrite st_bind_ret. unfold st_finally, st_try.
    destruct (read_frame_calm os_nt t f raw rest Hc Hf Hs) as (t' & [] & ? & ? & [(-> & ? & ?)|(-> & ? & ?)]);
      exists t'; (split_and!; [by split|congruence|done|]); [by left|by right].
  - rewrite !bool_decide_eq_false_2 by congruence. cbn [negb when].
    rewrite (st_bind_ok _ _ t (set_timeout (Some x) t) tt) by done. unfold st_finally, st_try.
    destruct (read_frame_calm os_nt (set_timeout (Some x) t) f raw rest Hc Hf Hs)
      as (t' & [] & ? & ? & [(-> & ? & ?)|(-> & ? & ?)]);
      exists (set_timeout (t_timeout t) t'); (split_and!; [by split|done|done|]); [by left|by right].
Qed.

(** ** The loop of events *)

Section session.
Context {P : Type} `{!Vine P} (os_nt : bool).
Context (other_codec : pystr -> pystr -> py bytes) (other_decode : bytes -> pystr -> py pystr).
Context (unwrap shutdown sock_close : transport -> py unit).
Context (user : user_call -> st (session P) unit) (cfg : config).
Implicit Types s : session P.

Abbreviation drain_events :=
  (Session.drain_events os_nt other_codec other_decode unwrap shutdown sock_close user cfg).
Abbreviation blocking_read :=
  (Session.blocking_read os_nt other_codec other_decode unwrap shutdown sock_close user cfg).
Abbreviation on_inbound_method :=
  (Session.on_inbound_method other_codec other_decode unwrap shutdown sock_close user cfg).

(** A transport that may time out, with a peer that stays. *)
Record patient (timeout : option Z) (x : io) : Prop := Patient {
  pa_has : x_has_transport x = true;
  pa_open : is_Some timeout -> t_open (x_transport x) = true;
  pa_calm : calm (x_transport x);
}.

(** Nothing but the input has moved, and the timeout of the socket is the old
    one. *)
Record moved (x x' : io) : Prop := Moved {
  mv_advanced : advanced x x';
  mv_timeout : t_timeout (x_transport x') = t_timeout (x_transport x);
}.

#[local] Instance moved_preorder : PreOrder moved.
Proof. split; [by split|]. intros x1 x2 x3 [] []. split; [by etrans|congruence]. Qed.

(** A call of [drain_events] that times out. *)
Definition interrupted (k : nat) (timeout : option Z) s s' : Prop :=
  drain_events k timeout s = (s', Raise SockTimeout).

Lemma blocking_read_timed k drain timeout s f raw rest :
  patient timeout (s_io s) -> pack_frame f = Ok raw -> stream (x_transport (s_io s)) = raw ++ rest ->
  exists t, let x := set_x_transport t (s_io s) in
    moved (s_io s) x /\ patient timeout x /\
    (blocking_read k drain timeout s =
       Session.on_inbound_frame other_codec other_decode unwrap shutdown sock_close user cfg k drain f (set_io x s) /\
     stream t = rest /\ (events_size (t_in t) <= events_size (t_in (x_transport (s_io s))))%nat \/
     blocking_read k drain timeout s = (set_io x s, Raise SockTimeout) /\
     stream t = raw ++ rest /\ (events_size (t_in t) < events_size (t_in (x_transport (s_io s))))%nat).
Proof.
  intros [Hhas Hopen Hc] Hf Hs.
  destruct (read_timed os_nt timeout _ f raw rest Hopen Hc Hf Hs) as (t & Ho & Ht & Hc' & H).
  exists t. cbv zeta. split_and!; [split; [by split|done]|split; try done|].
  { intros H'. cbn. rewrite (so_open _ _ Ho). auto. }
  unfold Session.blocking_read, force_connect.
  rewrite st_bind_bind, st_bind_gets. unfold no_transport. rewrite Hhas. cbn [negb when].
  rewrite st_bind_ret, st_bind_gets, Hhas. cbn [negb when]. rewrite st_bind_ret.
  unfold zoom_transport, zoom_io.
  destruct H as [(Hr & Hst & Hle)|(Hr & Hst & Hlt)]; [left|right]; (split_and!; [|congruence|done]).
  - rewrite (st_bind_ok _ _ s (set_io (set_x_transport t (s_io s)) s) f); [done|]. unfold zoom. by rewrite Hr.
  - rewrite (st_bind_raise _ _ s (set_io (set_x_transport t (s_io s)) s) SockTimeout); [done|].
    unfold zoom. by rewrite Hr.
Qed.

(** One call: it times out among the frames of a method, or it gets to the
    last of them and dispatches the method. *)
Lemma drain_timed i j late timeout s ch sig payload content rest :
  (late < i)%nat -> (late + j < i)%nat ->
  patient timeout (s_io s) -> incoming (s_io s) ch sig payload content late rest ->
  exists x, moved (s_io s) x /\ patient timeout x /\
    ((exists late', (late' <= late)%nat /\ interrupted i timeout s (set_io x s) /\
       incoming x ch sig payload content late' rest /\
       (events_size (t_in (x_transport x)) < events_size (t_in (x_transport (s_io s))))%nat) \/
     (exists j' h, (j <= j')%nat /\ stream (x_transport x) = rest /\
       x_handler x = Some h /\ chan_state h ch = (1, None) /\
       drain_events i timeout s = on_inbound_method j' (drain_events j') ch (Some sig) payload content (set_io x s))).
Proof.
  intros Hi Hij Hp [h fs wire Hh Hw Hst Hrun Hend].
  revert i late s h wire Hi Hij Hp Hh Hw Hst Hrun Hend. induction fs as [|f fs IH];
    intros i late s h wire Hi Hij Hp Hh Hw Hst Hrun Hend; [by destruct late|].
  destruct i as [|i]; [lia|]. cbn [run] in Hrun, Hend.
  destruct (on_frame h f) as [h1 r1] eqn:Hf. destruct (run h1 fs) as [h2 rs] eqn:Hr.
  cbn [fst snd fmap list_fmap] in Hrun, Hend. cbn [pack_frames] in Hw.
  apply bind_ok_inv in Hw as (raw & Hraw & Hw). apply bind_ok_inv in Hw as (raws & Hraws & Hw).
  unfold mret, result_ret in Hw. injection Hw as <-. rewrite <- app_assoc in Hst.
  destruct (blocking_read_timed i (drain_events i) timeout s f raw (raws ++ rest) Hp Hraw Hst)
    as (t & Hm & Hp1 & [(Hb & Hst1 & Hle)|(Hb & Hst1 & Hlt)]).
  2: { exists (set_x_transport t (s_io s)). split_and!; [done..|]. left. exists late.
    split_and!; [done|by unfold interrupted; cbn [Session.drain_events]; unfold mbind, st_bind; rewrite Hb| |done].
    apply (Incoming _ _ _ _ _ _ _ h (f :: fs) (raw ++ raws)); cbn [run pack_frames]; rewrite ?Hf, ?Hr; try done.
    - by rewrite Hraw, Hraws.
    - by rewrite <- app_assoc. }
  assert (forall r, drain_events (S i) timeout s = r <->
    (delivered ← Session.on_inbound_frame other_codec other_decode unwrap shutdown sock_close user cfg i
       (drain_events i) f; if (delivered : bool) then mret tt else drain_events i timeout)
      (set_io (set_x_transport t (s_io s)) s) = r) as Hd.
  { intros r. cbn [Session.drain_events]. unfold mbind at 1, st_bind at 1. by rewrite Hb. }
  destruct late as [|late]; cbn [replicate app] in Hrun.
  - injection Hrun as -> Hrs. apply fmap_nil_inv in Hrs as ->. destruct fs as [|g fs].
    2: { cbn [run] in Hr. destruct (on_frame h1 g), (run _ fs). done. }
    cbn in Hr, Hraws. injection Hr as <-. injection Hraws as <-.
    exists (set_x_handler h1 (set_x_transport t (s_io s))). split_and!; [by destruct Hm as [[] ?]|by destruct Hp1|].
    right. exists i, h1. split_and!; [lia|done..|]. apply Hd. unfold mbind at 1, st_bind at 1.
    rewrite (on_inbound_frame_eq _ _ _ _ _ _ _ _ _ (set_io (set_x_transport t (s_io s)) s) h) by done.
    rewrite Hf. cbn [fst snd c_channel c_method c_args c_content]. unfold mbind, st_bind.
    by destruct (on_inbound_method i (drain_events i) ch (Some sig) payload content _) as [s2 [[]| |]].
  - injection Hrun as -> Hrs. set (s1 := set_io (set_x_handler h1 (set_x_transport t (s_io s))) s).
    assert (forall r, drain_events (S i) timeout s = r <-> drain_events i timeout s1 = r) as Hd1.
    { intros r. rewrite Hd. unfold mbind at 1, st_bind at 1.
      rewrite (on_inbound_frame_eq _ _ _ _ _ _ _ _ _ (set_io (set_x_transport t (s_io s)) s) h) by done.
      by rewrite Hf. }
    destruct (IH i late s1 h1 raws) as (x & Hm1 & Hp2 & H); try done; [lia|lia|by destruct Hp1|by rewrite Hr..|].
    exists x. split_and!; [|done|].
    { etrans; [|exact Hm1]. by destruct Hm as [[] ?]. }
    destruct H as [(late' & Hl & Hint & Hin & Hlt)|(j' & h' & Hj & Hst' & Hx & Hch & Hdr)].
    + left. exists late'. split_and!; [lia|by apply Hd1|done|]. cbn in Hlt. lia.
    + right. exists j', h'. split_and!; [done..|]. by apply Hd1.
Qed.

(** C11: timeouts lose nothing.  The frames of a method arrive in pieces of
    any size, with timeouts and interrupted calls anywhere between and inside
    of them: then only finitely many calls of [drain_events] time out, no more
    than there are events, and the next one dispatches the method, with the
    whole content, in the session of before, of which only the input has moved
    past exactly these frames and whose socket has its old timeout. *)
Theorem timeouts_invisible k j late timeout s ch sig payload content rest :
  (late + j < k)%nat ->
  patient timeout (s_io s) -> incoming (s_io s) ch sig payload content late rest ->
  exists n s1 x j', (n <= events_size (t_in (x_transport (s_io s))))%nat /\ (j <= j')%nat /\
    nsteps (interrupted k timeout) n s s1 /\
    moved (s_io s) x /\ patient timeout x /\ between x ch /\ stream (x_transport x) = rest /\
    drain_events k timeout s1 =
      on_inbound_method j' (drain_events j') ch (Some sig) payload content (set_io x s).
Proof.
  intros Hk. remember (events_size (t_in (x_transport (s_io s)))) as size eqn:Hsize.
  revert s late Hk Hsize. induction size as [size IH] using lt_wf_ind. intros s late Hk -> Hp Hin.
  destruct (drain_timed k j late timeout s ch sig payload content rest) as (x & Hm & Hp' & H); [lia|done..|].
  destruct H as [(late' & Hl & Hint & Hin' & Hlt)|(j' & h & Hj & Hst & Hh & Hc & Hd)].
  - destruct (IH _ Hlt (set_io x s) late') as (n & s1 & x' & j' & Hn & Hj & Hs & Hm' & H); [lia|done..|].
    exists (S n), s1, x', j'. split_and!; [lia|done|by econstructor|by etrans|apply H..].
  - exists 0%nat, s, x, j'. split_and!; [lia|done|constructor|done|done|by exists h|done..].
Qed.
End session.

(** ** On the demo channel *)

(** The delivery of [SessionEvents.v], with timeouts in the header, in the
    payload and between the frames. *)
Definition chopped : list event :=
  [Err SockTimeout; Data (take 3 deliver_bytes); Err SockTimeout; Data (take 10 (drop 3 deliver_bytes));
   Err (OSErr (Some EAGAIN)); Err SockTimeout; Data (drop 13 deliver_bytes)].
Definition demo_slow : demo_session :=
  set_io (set_x_transport (set_in chopped (x_transport (s_io demo_consuming))) (s_io demo_consuming)) demo_consuming.

Lemma timeouts_invisible_witness :
  exists n s1 x j', (n <= events_size chopped)%nat /\ (7 <= j')%nat /\
    nsteps (interrupted false no_codec no_decode closes closes closes demo_user demo_config 10 (Some 1)) n demo_slow s1 /\
    moved (s_io demo_slow) x /\ patient (Some 1) x /\ between x 1 /\ stream (x_transport x) = [] /\
    drain_events false no_codec no_decode closes closes closes demo_user demo_config 10 (Some 1) s1 =
      on_inbound_method no_codec no_decode closes closes closes demo_user demo_config j'
        (drain_events false no_codec no_decode closes closes closes demo_user demo_config j') 1
        (Some Spec.Basic.Deliver) (ok_or [] (pack_sig Spec.Basic.Deliver) ++ deliver_args) (Some delivered)
        (set_io x demo_slow).
Proof.
  refine (timeouts_invisible false no_codec no_decode closes closes closes demo_user demo_config 10 7 2 (Some 1)
    demo_slow 1 Spec.Basic.Deliver (ok_or [] (pack_sig Spec.Basic.Deliver) ++ deliver_args) (Some delivered) []
    _ _ _).
  - lia.
  - split; [vm_compute; reflexivity|intros _; vm_compute; reflexivity|vm_compute; reflexivity].
  - apply (incoming_content_between (s_io demo_slow) 1 Spec.Basic.Deliver
      (ok_or [] (pack_sig Spec.Basic.Deliver)) deliver_args [("priority", VInt 9)]
      (ok_or [] (pack_header Spec.Basic.CLASS_ID 5))
      (ok_or [] (serialize_properties PROPERTIES [("priority", VInt 9)]))
      [("priority", VInt 9)] [bytes_of "hello"] deliver_bytes []).
    + apply between_intro. vm_compute. reflexivity.
    + vm_compute. reflexivity.
    + by apply (bool_decide_unpack _).
    + apply priority_wf.
    + vm_compute. reflexivity.
    + vm_compute. reflexivity.
    + vm_compute. reflexivity.
    + repeat constructor; discriminate.
    + vm_compute. reflexivity.
    + vm_compute. reflexivity.
Defined.
