(* ===== verification/SessionPublish.v ===== *)
(** * Publishing

    From the call of [basic_publish] to the frames that are written, and from
    one session to another: a message that is published and relayed by the
    broker reaches the function of the consumer. *)

From S2P Require Import Prelude Exceptions State Struct Utf8 Values Table Codec Content Framing.
From S2P Require Import Transport Sasl Conn Rpc Wire Session SessionDemo Life SessionInv SessionSafe.
From S2P Require Import Quiet SessionWait SessionTurn SessionRpc SessionEvents.
From S2P Require Spec.

Open Scope Z_scope.

Section publish.
Context {P : Type} `{!Vine P}.
Context (other_codec : pystr -> pystr -> py bytes).
Context (unwrap shutdown sock_close : transport -> py unit).
Context (user : user_call -> st (session P) unit) (cfg : config).
Context (k : nat) (drain : option Z -> st (session P) unit).
Implicit Types s : session P.

Abbreviation send_method :=
  (Session.send_method other_codec unwrap shutdown sock_close user cfg k drain).
Abbreviation write_method :=
  (Session.write_method other_codec unwrap shutdown sock_close user cfg k drain).
Abbreviation publish := (channel_basic_publish other_codec unwrap shutdown sock_close user cfg k drain).

(** What [frame_writer] makes of a content. *)
Record encodes (content : message) (fm args_len : Z) (ps : props) (props body : bytes) : Prop := Encodes {
  en_body : exists content', encode_body other_codec content = (content', Ok (VBytes body)) /\
    msg_properties content' = ps;
  en_props : serialize_properties PROPERTIES ps = Ok props;
  (* the exception is an empty body that does not fit one write *)
  en_size : body <> [] \/ args_len + zlen props + FRAME_OVERHEAD <= fm - 8;
}.

(** The frames of a content method, and their bytes. *)
Definition content_on_wire (fm ch : Z) (sig : method_sig) (args props body wire : bytes) : Prop :=
  exists chunks frames, content_frames ch sig args props chunks = Ok frames /\
    concat chunks = body /\ Forall (fun c => 0 < zlen c <= fm - 8) chunks /\ pack_frames frames = Ok wire.

Lemma write_content_ok n ch o sig args content ps props body s s1 :
  idle s n ch o -> 8 < tu_frame_max (s_tuning s) ->
  encodes content (tu_frame_max (s_tuning s)) (zlen args) ps props body ->
  write_method n sig (VBytes args) (Some content) s = (s1, Ok tt) ->
  exists x wire, s1 = set_io x s /\ same_input (s_io s) x /\
    content_on_wire (tu_frame_max (s_tuning s)) ch sig args props body wire /\
    t_out (x_transport x) = t_out (x_transport (s_io s)) ++ wire.
Proof.
  intros Hi Hfm [(content' & He & Hps) Hp Hsz]. subst ps. unfold Session.write_method, force_connect.
  destruct (li_buffer _ _ (idle_io _ _ _ _ Hi)) as [buf Hbuf].
  rewrite st_bind_bind, st_bind_gets. unfold no_writer. rewrite Hbuf. cbn [when].
  rewrite st_bind_ret, st_bind_gets, Hbuf, (st_bind_lift _ buf) by done.
  rewrite (st_bind_ok _ _ _ _ _ (attr_ok _ _ _ _ (idle_object _ _ _ _ Hi))).
  rewrite (idle_id _ _ _ _ Hi), (st_bind_lift _ ch), st_bind_gets by done.
  unfold zoom_io, zoom. set (w := Writer _ _ _).
  destruct (write_frame _ _ _ _ _ _ _ w) as [w' r] eqn:Hw. intros H. simplify_eq.
  pose proof (preserves_write_frame other_codec (x_transport (s_io s)) (tu_frame_max (s_tuning s)) 1 ch
    (Some sig) (VBytes args) (Some content) w) as Hin. rewrite Hw in Hin.
  destruct (write_content_frames other_codec _ ch sig args content content' body props w w' tt Hfm He Hp Hsz Hw)
    as (chunks & frames & wire & Hf & Hcat & Hall & Hpk & Hs & _).
  eexists (set_x_writer w' (s_io s)), wire. split_and!; [done| |by exists chunks, frames|done].
  split; cbn; try done. apply Hin. by split.
Qed.

Lemma send_content_ok n ch o r content args ps props body s s1 :
  idle s n ch o -> 8 < tu_frame_max (s_tuning s) -> rq_content r = Some content -> is_Some (rq_format r) ->
  request_bytes r = Ok args -> encodes content (tu_frame_max (s_tuning s)) (zlen args) ps props body ->
  send_method n r (mret tt) s = (s1, Ok tt) ->
  exists x wire, s1 = set_io x s /\ same_input (s_io s) x /\
    content_on_wire (tu_frame_max (s_tuning s)) ch (rq_sig r) args props body wire /\
    t_out (x_transport x) = t_out (x_transport (s_io s)) ++ wire.
Proof.
  intros Hi Hfm Hc [f Hf] Ha Hen. unfold Session.send_method.
  rewrite (st_bind_ok _ _ _ _ _ (attr_ok _ _ _ _ (idle_object _ _ _ _ Hi))).
  rewrite (idle_connection _ _ _ _ Hi). cbn [negb when]. rewrite st_bind_ret, Hc.
  unfold request_bytes in Ha. rewrite Hf in Ha.
  rewrite (st_bind_lift _ (VBytes args)) by (rewrite Hf; by rewrite Ha).
  intros H. apply st_bind_ok_inv in H as (s2 & [] & H & Hret). unfold mret, st_ret in Hret. injection Hret as <-.
  unfold st_try in H. destruct (write_method n (rq_sig r) (VBytes args) (Some content) s) as [s3 [[]|e|]] eqn:Hw;
    [|by destruct e|done]. simplify_eq. by eapply write_content_ok.
Qed.

(** The body of [having_timeout] runs with the timeout, and leaves the old one. *)
Lemma having_timeout_session_ok {A} timeout (m : st (session P) A) s s' a :
  let set t s := set_io (set_x_transport t (s_io s)) s in
  having_timeout_in (fun s => x_transport (s_io s)) set timeout m s = (s', Ok a) ->
  exists t0 s1, m (set (set_timeout t0 (x_transport (s_io s))) s) = (s1, Ok a) /\
    (t0 = t_timeout (x_transport (s_io s)) /\ s' = s1 \/
     s' = set (set_timeout (t_timeout (x_transport (s_io s))) (x_transport (s_io s1))) s1).
Proof.
  intros set. unfold having_timeout_in.
  assert (forall s, set (set_timeout (t_timeout (x_transport (s_io s))) (x_transport (s_io s))) s = s) as Hid
    by (by intros [[[] ? ? ? ? ?] ? ? ? ? ? ? ? ? ? ?]).
  destruct timeout as [x|]; [|intros H; exists (t_timeout (x_transport (s_io s))), s'; rewrite Hid; split; [done|by left]].
  rewrite st_bind_gets. destruct (negb _); [done|]. rewrite st_bind_gets. intros H.
  exists (Some x). destruct (decide (t_timeout (x_transport (s_io s)) = Some x)) as [E|E].
  - rewrite !bool_decide_eq_true_2 in H by done. cbn [negb when] in H. rewrite st_bind_ret in H.
    unfold st_finally, st_try in H. rewrite <- E, Hid.
    destruct (m s) as [s1 [b|e|]]; [|done..]. exists s1. unfold mret, st_ret in H. simplify_eq.
    split; [done|by left].
  - rewrite !bool_decide_eq_false_2 in H by congruence. cbn [negb when] in H.
    rewrite (st_bind_ok _ _ s (set (set_timeout (Some x) (x_transport (s_io s))) s) tt) in H by done.
    unfold st_finally, st_try in H. destruct (m _) as [s1 [b|e|]]; [|done..]. exists s1. cbn in H. simplify_eq.
    split; [done|by right].
Qed.

(** What [basic_publish] does first: when the client has the capability
    [connection.blocked], it takes an event that may have come. *)
Definition poll : st (session P) unit :=
  client_properties ← gets s_client_properties;
  blocked ← lift (blocked_capability client_properties);
  when blocked (st_try (drain (Some 0)) is_timeout (fun _ => mret tt)).

Lemma poll_unasked s : blocked_capability (s_client_properties s) = Ok false -> poll s = (s, Ok tt).
Proof. intros H. unfold poll. rewrite st_bind_gets. by rewrite (st_bind_lift _ false). Qed.

Lemma publish_ok n ch o content ex rk mandatory immediate timeout args ps props body s s0 s1 :
  poll s = (s0, Ok tt) -> idle s0 n ch o -> 8 < tu_frame_max (s_tuning s0) ->
  request_bytes (basic_publish ex rk mandatory immediate content) = Ok args ->
  encodes content (tu_frame_max (s_tuning s0)) (zlen args) ps props body ->
  publish n content ex rk mandatory immediate timeout s = (s1, Ok tt) ->
  exists x wire, s1 = set_io x s0 /\ idle s1 n ch o /\
    content_on_wire (tu_frame_max (s_tuning s0)) ch Spec.Basic.Publish args props body wire /\
    t_out (x_transport x) = t_out (x_transport (s_io s0)) ++ wire /\
    stream (x_transport x) = stream (x_transport (s_io s0)) /\
    t_timeout (x_transport x) = t_timeout (x_transport (s_io s0)).
Proof.
  intros Hpoll Hi Hfm Ha Hen. unfold channel_basic_publish.
  intros H. apply st_bind_ok_inv in H as (s' & c & Hc & H). unfold attr in Hc.
  assert (s' = s) as -> by (by destruct (s_objects s !! n); injection Hc as <-). clear Hc.
  destruct c; cbn [negb when] in H; [|done]. rewrite st_bind_ret, st_bind_gets in H.
  unfold poll in Hpoll. rewrite st_bind_gets in Hpoll.
  apply st_bind_ok_inv in H as (s' & b & Hb & H). unfold lift in Hb. injection Hb as <- Hb.
  rewrite (st_bind_lift _ b) in Hpoll by done. rewrite (st_bind_ok _ _ _ _ _ Hpoll) in H. revert H.
  rewrite (st_bind_ok _ _ _ _ _ (attr_ok n o_connection s0 o (idle_object _ _ _ _ Hi))).
  rewrite (idle_connection _ _ _ _ Hi). cbn [negb when]. rewrite st_bind_ret. unfold force_connect.
  unfold st_try at 1. rewrite st_bind_bind, st_bind_gets. unfold no_transport.
  rewrite (li_has _ _ (idle_io _ _ _ _ Hi)). cbn [negb when].
  rewrite st_bind_ret, st_bind_gets, (li_has _ _ (idle_io _ _ _ _ Hi)). cbn [negb when]. rewrite st_bind_ret.
  destruct (having_timeout_in _ _ _ _ s0) as [s2 [[]|e|]] eqn:Hh; [|by case_match|done]. intros [= <-].
  apply having_timeout_session_ok in Hh as (t0 & s3 & Hm & Hs2).
  set (x0 := set_x_transport (set_timeout t0 (x_transport (s_io s0))) (s_io s0)) in Hm.
  assert (idle (set_io x0 s0) n ch o) as Hi0 by (by destruct Hi as [? ? ? []]).
  destruct (send_content_ok n ch o (basic_publish ex rk mandatory immediate content) content args ps props body _ _ Hi0 Hfm eq_refl ltac:(by eexists) Ha Hen Hm)
    as (x & wire & -> & Hin & Hw & Hout).
  pose proof (same_input_idle _ _ _ _ _ Hin Hi0) as Hix. destruct (same_in_stream _ _ (in_transport _ _ Hin)) as [Hst _].
  pose proof (si_timeout _ _ (in_transport _ _ Hin)) as Hto. destruct Hs2 as [[-> ->]| ->].
  - exists x, wire. by split_and!.
  - exists (set_x_transport (set_timeout (t_timeout (x_transport (s_io s0))) (x_transport x)) x), wire.
    destruct Hix as [? ? ? []]. by split_and!.
Qed.
End publish.

(** Nothing has come: the poll times out at once. *)
Lemma read_nothing os_nt t evs timeout :
  t_open t = true -> t_read_buffer t = [] -> t_in t = Err SockTimeout :: evs ->
  having_timeout (Some timeout) (read_frame os_nt) t = (set_in evs t, Raise SockTimeout).
Proof.
  destruct t as [k r c op rb tm ti ws out]. cbn. intros -> -> ->.
  assert (forall tm, read_frame os_nt (Transport k r c true [] tm (Err SockTimeout :: evs) ws out) =
    (Transport k r c true [] tm evs ws out, Raise SockTimeout)) as Hr by done.
  unfold having_timeout, having_timeout_in. rewrite !st_bind_gets. cbn [t_open negb].
  rewrite st_bind_gets. cbn [t_timeout]. destruct (decide (tm = Some timeout)) as [->|E].
  - rewrite !bool_decide_eq_true_2 by done. cbn [negb when]. rewrite st_bind_ret.
    unfold st_finally, st_try. by rewrite Hr.
  - rewrite !bool_decide_eq_false_2 by congruence. cbn [negb when].
    rewrite (st_bind_ok _ _ _ (Transport k r c true [] (Some timeout) (Err SockTimeout :: evs) ws out) tt) by done.
    unfold st_finally, st_try. by rewrite Hr.
Qed.

Lemma poll_nothing {P} `{!Vine P} os_nt other_codec other_decode unwrap shutdown sock_close user cfg j (s : session P) evs :
  blocked_capability (s_client_properties s) = Ok true ->
  x_has_transport (s_io s) = true -> t_open (x_transport (s_io s)) = true ->
  t_read_buffer (x_transport (s_io s)) = [] -> t_in (x_transport (s_io s)) = Err SockTimeout :: evs ->
  poll (drain_events os_nt other_codec other_decode unwrap shutdown sock_close user cfg (S j)) s =
    (set_io (set_x_transport (set_in evs (x_transport (s_io s))) (s_io s)) s, Ok tt).
Proof.
  intros Hb Hhas Ho Hbuf Hin. unfold poll. rewrite st_bind_gets, (st_bind_lift _ true) by done.
  unfold when, st_try. cbn [drain_events]. unfold Session.blocking_read, force_connect.
  rewrite (st_bind_raise _ _ s (set_io (set_x_transport (set_in evs (x_transport (s_io s))) (s_io s)) s) SockTimeout); [done|].
  rewrite st_bind_bind, st_bind_gets. unfold no_transport. rewrite Hhas. cbn [negb when].
  rewrite st_bind_ret, st_bind_gets, Hhas. cbn [negb when]. rewrite st_bind_ret.
  apply st_bind_raise. unfold zoom_transport, zoom_io, zoom. by rewrite (read_nothing _ _ evs).
Qed.

(** ** From one session to another *)

(** The text that a consumer gets of a published text. *)
Lemma text_received other_codec other_decode content text ps ps' props body fm len sig margs :
  msg_body content = VStr text -> wf_str text -> dict_get (msg_properties content) "content_encoding" = None ->
  encodes other_codec content fm len ps props body -> wire_props ps PROPERTIES = Ok ps' ->
  msg_body (decode_body other_decode (received_message sig margs ps' body)) = VStr text.
Proof.
  intros Hb Hwf Hce [(content' & He & <-) _ _] Hw. unfold encode_body in He. rewrite Hb, Hce in He.
  injection He as <- He. cbn [msg_properties set_properties] in Hw.
  assert (encode_utf8_strict text = Ok body) as Hu.
  { assert (str_encode other_codec text (VStr (str_of "utf-8")) = encode_utf8_strict text) as E
      by (unfold str_encode; by rewrite decide_True).
    change (VBytes <$> str_encode other_codec text (VStr (str_of "utf-8")) = Ok (VBytes body)) in He.
    rewrite E in He. destruct (encode_utf8_strict text); [by injection He as ->|done..]. }
  pose proof (utf8_strict_decode_encode text body Hwf Hu) as Hdec.
  destruct (wire_props_lookup (dict_set (msg_properties content) "content_encoding" (VStr (str_of "utf-8")))
    PROPERTIES ps' "content_encoding" "s" (VStr (str_of "utf-8"))) as (w & Hwa & Hd); try done.
  { by apply (bool_decide_unpack _). }
  { right. left. }
  { unfold present. by rewrite dict_get_set, decide_True. }
  assert (w = VStr (str_of "utf-8")) as -> by (vm_compute in Hwa; by simplify_eq).
  unfold decode_body, received_message. cbn [msg_properties msg_body]. rewrite Hd.
  destruct body as [|b body]; [cbn in Hdec; by simplify_eq|].
  unfold bytes_decode. rewrite decide_True by done. by rewrite Hdec.
Qed.

Section travel.
(** The publisher. *)
Context {P : Type} `{!Vine P} (os_nt : bool).
Context (other_codec : pystr -> pystr -> py bytes) (other_decode : bytes -> pystr -> py pystr).
Context (unwrap shutdown sock_close : transport -> py unit).
Context (user : user_call -> st (session P) unit) (cfg : config) (k d : nat).
(** The consumer. *)
Context {Q : Type} `{!Vine Q} (os_nt' : bool).
Context (other_codec' : pystr -> pystr -> py bytes) (other_decode' : bytes -> pystr -> py pystr).
Context (unwrap' shutdown' sock_close' : transport -> py unit).
Context (user' : user_call -> st (session Q) unit) (cfg' : config).

(** A delivery whose frames have the given properties and body. *)
Lemma consume_wire (s : session Q) n ch o fm args props body wire rest ps ps' tag delivery_tag redelivered
    exchange key f j :
  session_ok s -> idle s (S n) ch o -> o_is_closing o = false -> o_pending o !! Spec.Basic.Deliver = None ->
  wf_props PROPERTIES ps -> serialize_properties PROPERTIES ps = Ok props -> wire_props ps PROPERTIES = Ok ps' ->
  content_on_wire fm ch Spec.Basic.Deliver args props body wire ->
  stream (x_transport (s_io s)) = wire ++ rest ->
  carries (Spec.method Spec.Basic.Deliver (Some "sLbss") true) args
    [VStr tag; delivery_tag; redelivered; exchange; key] ->
  dict_get (o_callbacks o) (KStr tag) = Some (Some f) ->
  exists late x margs, method_frame 1 (Some Spec.Basic.Deliver) (VBytes args) = Ok margs /\
    idle (set_io x s) (S n) ch o /\ stream (x_transport x) = rest /\ advanced (s_io s) x /\
    let msg := received_message Spec.Basic.Deliver margs ps' body in
    let info := [("consumer_tag", VStr tag); ("delivery_tag", delivery_tag); ("redelivered", redelivered);
                 ("exchange", exchange); ("routing_key", key)] in
    drain_events os_nt' other_codec' other_decode' unwrap' shutdown' sock_close' user' cfg' (late + S j) None s =
      call_user user' (Consumed f (set_delivery (S n) info
        (if o_auto_decode o then decode_body other_decode' msg else msg))) (set_io x s).
Proof.
  intros Hs Hi Hcl Hpend Hwf Hser Hps (chunks & frames & Hf & Hcat & Hall & Hpk) Hst Hcar Hcb.
  unfold content_frames in Hf. apply bind_ok_inv in Hf as (m & Hm & Hf). apply bind_ok_inv in Hf as (hf & Hhf & Hf).
  unfold mret, result_ret in Hf. injection Hf as <-.
  unfold method_frame in Hm. cbn in Hm. apply bind_ok_inv in Hm as (sb & Hsb & Hm).
  unfold mret, result_ret in Hm. injection Hm as <-.
  unfold header_frame in Hhf. cbn in Hhf. apply bind_ok_inv in Hhf as (hdr & Hhdr & Hhf).
  unfold mret, result_ret in Hhf. injection Hhf as <-. subst body.
  exists (S (length chunks)).
  destruct (deliver_turn os_nt' other_codec' other_decode' unwrap' shutdown' sock_close' user' cfg' j
    (S (length chunks)) s n ch o sb args tag delivery_tag redelivered exchange key
    (received_message Spec.Basic.Deliver (sb ++ args) ps' (concat chunks)) rest)
    as (x & Hx & Hst' & Ha & Hd); try done.
  - eapply incoming_content; try done; [apply Hi|by apply (bool_decide_unpack _)|by eapply sized_nonempty].
  - exists x, (sb ++ args). split_and!; [|done..|].
    + unfold method_frame. cbn. by rewrite Hsb.
    + rewrite Hd, Hcb. done.
Qed.

Abbreviation drain := (drain_events os_nt other_codec other_decode unwrap shutdown sock_close user cfg (S d)).

(** C4: a message travels.  [basic_publish] first takes an event, if the client
    has the capability [connection.blocked]: without it the session is as it
    was, and if nothing has come only the timeout has been taken off what
    arrives.  When it returns, on a channel that is in use after that, it has
    sent the method, the content header and the body cut into frames of at most
    [frame_max - 8] octets, and since then nothing has changed but the output,
    the timeout of the socket included.  Relayed by a broker in a
    [basic.deliver], with the properties and the body as they are but the body
    cut in whatever way, the message reaches the function of the consumer in
    one call of [drain_events] of the other session: with the properties as
    the format transmits them, with the same body, and a text published
    without an encoding as the same text on a channel that decodes. *)
Theorem message_travels (s s0 s1 : session P) n ch o content ex rk mandatory immediate timeout args ps ps' props body :
  poll drain s = (s0, Ok tt) -> idle s0 n ch o -> 8 < tu_frame_max (s_tuning s0) ->
  request_bytes (basic_publish ex rk mandatory immediate content) = Ok args ->
  encodes other_codec content (tu_frame_max (s_tuning s0)) (zlen args) ps props body ->
  wf_props PROPERTIES ps -> wire_props ps PROPERTIES = Ok ps' ->
  channel_basic_publish other_codec unwrap shutdown sock_close user cfg k drain n content ex rk mandatory
    immediate timeout s = (s1, Ok tt) ->
  (blocked_capability (s_client_properties s) = Ok false -> s0 = s) /\
  (forall evs, blocked_capability (s_client_properties s) = Ok true ->
     x_has_transport (s_io s) = true -> t_open (x_transport (s_io s)) = true ->
     t_read_buffer (x_transport (s_io s)) = [] -> t_in (x_transport (s_io s)) = Err SockTimeout :: evs ->
     s0 = set_io (set_x_transport (set_in evs (x_transport (s_io s))) (s_io s)) s) /\
  exists x wire, s1 = set_io x s0 /\ idle s1 n ch o /\
    content_on_wire (tu_frame_max (s_tuning s0)) ch Spec.Basic.Publish args props body wire /\
    t_out (x_transport x) = t_out (x_transport (s_io s0)) ++ wire /\
    stream (x_transport x) = stream (x_transport (s_io s0)) /\
    t_timeout (x_transport x) = t_timeout (x_transport (s_io s0)) /\
    forall (s' : session Q) n' ch' o' fm' args' wire' rest tag delivery_tag redelivered exchange key f j,
      session_ok s' -> idle s' (S n') ch' o' -> o_is_closing o' = false ->
      o_pending o' !! Spec.Basic.Deliver = None ->
      content_on_wire fm' ch' Spec.Basic.Deliver args' props body wire' ->
      stream (x_transport (s_io s')) = wire' ++ rest ->
      carries (Spec.method Spec.Basic.Deliver (Some "sLbss") true) args'
        [VStr tag; delivery_tag; redelivered; exchange; key] ->
      dict_get (o_callbacks o') (KStr tag) = Some (Some f) ->
      exists late x' m, idle (set_io x' s') (S n') ch' o' /\ stream (x_transport x') = rest /\
        drain_events os_nt' other_codec' other_decode' unwrap' shutdown' sock_close' user' cfg' (late + S j) None s' =
          call_user user' (Consumed f m) (set_io x' s') /\
        msg_properties m = ps' /\
        (o_auto_decode o' = false -> msg_body m = match body with [] => VStr [] | _ => VBytes body end) /\
        (forall text, msg_body content = VStr text -> wf_str text ->
           dict_get (msg_properties content) "content_encoding" = None -> o_auto_decode o' = true ->
           msg_body m = VStr text).
Proof.
  intros Hpoll Hi Hfm Ha Hen Hwf Hps Hpub.
  destruct (publish_ok other_codec unwrap shutdown sock_close user cfg k drain n ch o content ex rk mandatory
    immediate timeout args ps props body s s0 s1 Hpoll Hi Hfm Ha Hen Hpub)
    as (x & wire & Hs1 & Hi1 & Hw & Hout & Hst & Hto).
  split. { intros Hcap%(poll_unasked drain). by rewrite Hcap in Hpoll; injection Hpoll. }
  split. { intros evs Hcap H1 H2 H3 H4. rewrite (poll_nothing _ _ _ _ _ _ _ _ _ _ _ Hcap H1 H2 H3 H4) in Hpoll.
    by injection Hpoll. }
  exists x, wire. split_and!; [done..|].
  intros s' n' ch' o' fm' args' wire' rest tag delivery_tag redelivered exchange key f j Hs' Hi' Hcl Hp Hw' Hst' Hcar Hcb.
  destruct (consume_wire s' n' ch' o' fm' args' props body wire' rest ps ps' tag delivery_tag redelivered exchange
    key f j Hs' Hi' Hcl Hp Hwf (en_props _ _ _ _ _ _ _ Hen) Hps Hw' Hst' Hcar Hcb)
    as (late & x' & margs & _ & Hix & Hrest & _ & Hd).
  eexists late, x', _. split_and!; [done|done|exact Hd|..].
  - destruct (o_auto_decode o'); [|done]. unfold decode_body. by repeat case_match.
  - by intros ->.
  - intros text Hb Hwt Hce ->. cbn [msg_body set_delivery]. by eapply text_received.
Qed.
End travel.

(** ** On the demo channels *)

Definition sent_properties : props := msg_properties sample_sent.
Definition publish_args : bytes :=
  ok_or [] (request_bytes (basic_publish (VStr (str_of "x")) (VStr (str_of "k")) (VBool false) (VBool false)
    sample_content)).

(** What the broker makes of it for the consumer: two frames of body. *)
Definition relayed_frames : list frame :=
  ok_or [] (content_frames 1 Spec.Basic.Deliver deliver_args sample_serialized [bytes_of "hel"; bytes_of "lo"]).
Definition relayed_bytes : bytes := ok_or [] (pack_frames relayed_frames).
Definition demo_subscribed : demo_session :=
  (upd 1 (set_consumers [(KStr (str_of "c"), Some 3%nat)] [] []) (demo_open relayed_bytes)).1.

Lemma demo_subscribed_ok : session_ok demo_subscribed.
Proof. apply (keeps_inert 1); [by intros o|apply demo_open_ok]. Qed.

Lemma relayed_on_wire : content_on_wire 11 1 Spec.Basic.Deliver deliver_args sample_serialized (bytes_of "hello") relayed_bytes.
Proof.
  exists [bytes_of "hel"; bytes_of "lo"], relayed_frames. split_and!; try (vm_compute; reflexivity).
  repeat constructor; cbn; lia.
Qed.

(** A publisher with the capability, for which nothing has come yet. *)
Definition demo_publisher : demo_session :=
  let s := demo_open [] in
  set_io (set_x_transport (set_in [Err SockTimeout] (x_transport (s_io s))) (s_io s)) s.
Abbreviation demo_polled :=
  (poll (drain_events false no_codec no_decode closes closes closes demo_user demo_config 10) demo_publisher).

Lemma message_travels_witness :
  blocked_capability (s_client_properties demo_publisher) = Ok true /\
  exists s1 wire late x' m, demo_publish demo_publisher = (s1, Ok tt) /\
    t_out (x_transport (s_io s1)) = t_out (x_transport (s_io demo_publisher)) ++ wire /\
    drain_events false no_codec no_decode closes closes closes demo_user demo_config (late + 8) None demo_subscribed =
      call_user demo_user (Consumed 3 m) (set_io x' demo_subscribed) /\
    msg_body m = VStr (str_of "hello").
Proof.
  split; [vm_compute; reflexivity|].
  assert (idle demo_polled.1 1 1 (set_is_open true demo_object)) as Hi by (apply idle_intro; vm_compute; reflexivity).
  assert (idle demo_subscribed 1 1 consuming) as Hi' by (apply idle_intro; vm_compute; reflexivity).
  assert (8 < tu_frame_max (s_tuning demo_polled.1)) as Hfm by (vm_compute; reflexivity).
  assert (encodes no_codec sample_content (tu_frame_max (s_tuning demo_polled.1)) (zlen publish_args)
    sent_properties sample_serialized (bytes_of "hello")) as Hen.
  { split; [exists sample_sent; split; vm_compute; reflexivity|vm_compute; reflexivity|left; discriminate]. }
  assert (demo_polled.2 = Ok tt) as Hp by (vm_compute; reflexivity).
  assert (t_out (x_transport (s_io demo_polled.1)) = t_out (x_transport (s_io demo_publisher))) as Ho
    by (vm_compute; reflexivity).
  assert ((demo_publish demo_publisher).2 = Ok tt) as Hr by (vm_compute; reflexivity).
  destruct demo_polled as [s0 r0] eqn:Hpoll. cbn [fst snd] in *. subst r0.
  destruct (demo_publish demo_publisher) as [s1 r] eqn:Hpub. cbn [snd] in Hr. subst r.
  destruct (message_travels false no_codec no_decode closes closes closes demo_user demo_config 10 9
    false no_codec no_decode closes closes closes demo_user demo_config demo_publisher s0 s1 1 1
    (set_is_open true demo_object)
    sample_content (VStr (str_of "x")) (VStr (str_of "k")) (VBool false) (VBool false) None publish_args
    sent_properties [("content_encoding", VStr (str_of "utf-8")); ("priority", VInt 4)] sample_serialized
    (bytes_of "hello")) as (_ & _ & x & wire & Hs1 & _ & _ & Hout & _ & _ & Hcons);
    [exact Hpoll|exact Hi|exact Hfm|vm_compute; reflexivity|exact Hen|apply sample_sent_wf|vm_compute; reflexivity|exact Hpub|].
  - destruct (Hcons demo_subscribed 0%nat 1 consuming 11 deliver_args relayed_bytes [] (str_of "c") (VInt 5)
      (VBool false) (VStr (str_of "x")) (VStr (str_of "k")) 3%nat 7%nat demo_subscribed_ok Hi')
      as (late & x' & m & _ & _ & Hd & _ & _ & Htext).
    + reflexivity.
    + reflexivity.
    + apply relayed_on_wire.
    + vm_compute. reflexivity.
    + split; [reflexivity|]. exists deliver_values. split; [plain_args|split; vm_compute; reflexivity].
    + reflexivity.
    + exists s1, wire, late, x', m. split; [reflexivity|split; [by rewrite Hs1, <- Ho|split; [exact Hd|]]].
      apply Htext; [reflexivity| |reflexivity..].
      by apply (bool_decide_unpack _).
Defined.
