(* ===== verification/SessionConsume.v ===== *)
(** * Consuming

    [basic_consume] and the deliveries that follow it: every message reaches
    the function of the consumer, in the order in which they were sent. *)

From S2P Require Import Prelude Exceptions State Struct Utf8 Values Table Codec Content Framing.
From S2P Require Import Transport Sasl Conn Rpc Wire Session SessionFuel SessionDemo Life SessionInv SessionSafe.
From S2P Require Import Quiet SessionWait SessionTurn SessionRpc SessionEvents SessionPublish.
From S2P Require Spec.

Open Scope Z_scope.

(** The bytes of deliveries on channel [ch], one after the other, and the
    messages that the object [n] makes of them. *)
Inductive deliveries (other_decode : bytes -> pystr -> py pystr) (n : nat) (ch : Z) (decodes : bool) (tag : pystr)
    : list message -> bytes -> Prop :=
  | deliveries_nil : deliveries other_decode n ch decodes tag [] []
  | deliveries_cons fm args margs props body ps ps' wire delivery_tag redelivered exchange key msgs wires :
      wf_props PROPERTIES ps -> serialize_properties PROPERTIES ps = Ok props ->
      wire_props ps PROPERTIES = Ok ps' ->
      content_on_wire fm ch Spec.Basic.Deliver args props body wire ->
      method_frame 1 (Some Spec.Basic.Deliver) (VBytes args) = Ok margs ->
      carries (Spec.method Spec.Basic.Deliver (Some "sLbss") true) args
        [VStr tag; delivery_tag; redelivered; exchange; key] ->
      deliveries other_decode n ch decodes tag msgs wires ->
      let msg := received_message Spec.Basic.Deliver margs ps' body in
      let info := [("consumer_tag", VStr tag); ("delivery_tag", delivery_tag); ("redelivered", redelivered);
                   ("exchange", exchange); ("routing_key", key)] in
      deliveries other_decode n ch decodes tag
        (set_delivery n info (if decodes then decode_body other_decode msg else msg) :: msgs) (wire ++ wires).

Section consume.
Context {P : Type} `{!Vine P} (os_nt : bool).
Context (other_codec : pystr -> pystr -> py bytes) (other_decode : bytes -> pystr -> py pystr).
Context (unwrap shutdown sock_close : transport -> py unit).
Context (user : user_call -> st (session P) unit) (cfg : config).
Implicit Types s : session P.

Abbreviation drain_events :=
  (Session.drain_events os_nt other_codec other_decode unwrap shutdown sock_close user cfg).
Abbreviation listener := (Session.listener other_codec unwrap shutdown sock_close user cfg).

(** The function [f] returns and leaves the library alone. *)
Definition plain (f : nat) : Prop := forall m s, user (Consumed f m) s = (s, Ok tt).

(** [drain_events] for each message. *)
Definition drain_each (K : nat) (msgs : list message) : st (session P) unit :=
  st_iter (fun _ => drain_events K None) msgs.

Lemma deliveries_drain n ch tag f msgs wire rest s o :
  plain f -> session_ok s -> idle s (S n) ch o -> o_is_closing o = false ->
  o_pending o !! Spec.Basic.Deliver = None -> dict_get (o_callbacks o) (KStr tag) = Some (Some f) ->
  deliveries other_decode (S n) ch (o_auto_decode o) tag msgs wire ->
  stream (x_transport (s_io s)) = wire ++ rest ->
  exists K0, forall K, (K0 <= K)%nat -> exists s', drain_each K msgs s = (s', Ok tt) /\
    s_log s' = s_log s ++ (Consumed f <$> msgs) /\ session_ok s' /\ idle s' (S n) ch o /\
    s_objects s' = s_objects s /\ stream (x_transport (s_io s')) = rest /\ advanced (s_io s) (s_io s').
Proof.
  intros Hf Hs Hi Hcl Hp Hcb Hd. revert s Hs Hi. induction Hd as [|fm args margs props body ps ps' wire dt rd ex key
    msgs wires Hwf Hser Hps Hw Hm Hcar Hd IH msg info]; intros s Hs Hi Hst.
  { exists 0%nat. intros K _. exists s. rewrite app_nil_r. by split_and!. }
  rewrite <- app_assoc in Hst.
  destruct (consume_wire os_nt other_codec other_decode unwrap shutdown sock_close user cfg s n ch o fm args props
    body wire (wires ++ rest) ps ps' tag dt rd ex key f 0 Hs Hi Hcl Hp Hwf Hser Hps Hw Hst Hcar Hcb)
    as (late & x & margs' & Hm' & Hix & Hst' & Ha & Hdr). rewrite Hm in Hm'. injection Hm' as <-.
  fold msg info in Hdr. set (m1 := set_delivery _ _ _) in *.
  set (s1 := log_call (Consumed f m1) (set_io x s)).
  assert (drain_events (late + 1) None s = (s1, Ok tt)) as Hdr1 by (rewrite Hdr; unfold call_user; by rewrite (st_bind_ok _ _ _ s1 tt)).
  destruct (same_core_ok s s1) as [Hs1 _]; [by split_and!|done|].
  destruct (IH s1 Hs1) as (K0 & HK); [by destruct Hix as [? ? ? []]|done|].
  exists (Nat.max K0 (late + 1)). intros K HK'. destruct (HK K) as (s' & Hd' & Hl & Hok & Hi' & Hob & Hst'' & Had); [lia|].
  exists s'. split_and!; try done.
  - unfold drain_each. cbn [st_iter]. rewrite (st_bind_ok _ _ s s1 tt); [done|]. rewrite <- Hdr1.
    apply drain_events_fuel; [lia|]. by rewrite Hdr1.
  - rewrite Hl. cbn [s_log s1 log_call set_io fmap list_fmap]. by rewrite <- app_assoc.
  - etrans; [exact Ha|exact Had].
Qed.

(** What [basic_consume] leaves of the channel. *)
Definition subscribed (tag : dict_key) (callback : option nat) (on_cancel : option nat) (no_ack : bool)
    (o : object) : object :=
  set_consumers (dict_set (o_callbacks o) tag callback)
    (match on_cancel with
     | Some f => dict_set (o_cancel_callbacks o) tag f
     | None => o_cancel_callbacks o
     end)
    (if no_ack && negb (bool_decide (tag ∈ o_no_ack_consumers o))
     then o_no_ack_consumers o ++ [tag] else o_no_ack_consumers o) o.

Lemma consume_ok k j late s s1 n ch o queue ctag no_local no_ack exclusive callback arguments on_cancel
    sb bs tag rest :
  session_ok s -> idle s (S n) ch o -> o_is_closing o = false ->
  Session.send_method other_codec unwrap shutdown sock_close user cfg (S (S k)) (drain_events (late + S j))
    (S n) (basic_consume queue (value_of_key ctag) (VBool no_local) (VBool no_ack) (VBool exclusive) (VBool false)
      arguments) (mret tt) s = (s1, Ok tt) ->
  pack_sig Spec.Basic.ConsumeOk = Ok sb ->
  incoming (s_io s) ch Spec.Basic.ConsumeOk (sb ++ bs) None late rest ->
  carries (Spec.method Spec.Basic.ConsumeOk (Some "s") false) bs [VStr tag] ->
  exists s', idle s' (S n) ch (subscribed (KStr tag) callback on_cancel no_ack o) /\
    stream (x_transport (s_io s')) = rest /\
    channel_basic_consume other_codec unwrap shutdown sock_close user cfg (S (S k)) (drain_events (late + S j))
      (S n) queue ctag no_local no_ack exclusive false callback arguments on_cancel s = (s', Ok (KStr tag)).
Proof.
  intros Hs Hi Hcl Hsend Hsb Hin Hcar.
  set (r := basic_consume _ _ _ _ _ _ _) in Hsend.
  edestruct (rpc_reply os_nt other_codec other_decode unwrap shutdown sock_close user cfg k j late s s1 (S n) ch o r
    Spec.Basic.ConsumeOk sb (Spec.method Spec.Basic.ConsumeOk (Some "s") false) bs [VStr tag] None rest Hs Hi (or_introl Hcl) eq_refl)
    as (s' & args & rb & wire & Hrpc & _ & _ & _ & _ & Hst & Hobj & Hi'); [| |exact Hsend|exact Hsb|exact Hin| |exact Hcar| |].
  { left. }
  { apply NoDup_singleton. }
  { vm_compute. reflexivity. }
  { reflexivity. }
  exists (upd (S n) (subscribed (KStr tag) callback on_cancel no_ack) s').1. split_and!.
  - destruct Hi' as [Ho ???]. split; try done. unfold upd, modify. cbn. by rewrite lookup_alter_eq, Ho.
  - exact Hst.
  - unfold channel_basic_consume. rewrite (st_bind_ok _ _ _ _ _ Hrpc).
    assert (reply_args other_decode o (Spec.method Spec.Basic.ConsumeOk (Some "s") false) [VStr tag] None =
      [AVal (VStr tag)]) as -> by done.
    rewrite (st_bind_lift _ (KStr tag)) by done. reflexivity.
Qed.

(** C9: consuming.  [basic_consume] on a channel in use returns the tag of
    the broker's [consume-ok] and consumes nothing after it; from then on the
    messages delivered under the tag are given to the function of the
    consumer, one at each call of [drain_events], all of them, in the order in
    which they arrive, with the properties and the body they were sent with;
    nothing but these frames is consumed, and the channel is as it was. *)
Theorem consume_in_order k j late s s1 n ch o queue ctag no_local no_ack exclusive f arguments on_cancel
    sb bs tag msgs wire rest :
  uses_library user -> plain f ->
  session_ok s -> idle s (S n) ch o -> o_is_closing o = false -> o_pending o !! Spec.Basic.Deliver = None ->
  Session.send_method other_codec unwrap shutdown sock_close user cfg (S (S k)) (drain_events (late + S j))
    (S n) (basic_consume queue (value_of_key ctag) (VBool no_local) (VBool no_ack) (VBool exclusive) (VBool false)
      arguments) (mret tt) s = (s1, Ok tt) ->
  pack_sig Spec.Basic.ConsumeOk = Ok sb ->
  incoming (s_io s) ch Spec.Basic.ConsumeOk (sb ++ bs) None late (wire ++ rest) ->
  carries (Spec.method Spec.Basic.ConsumeOk (Some "s") false) bs [VStr tag] ->
  deliveries other_decode (S n) ch (o_auto_decode o) tag msgs wire ->
  exists s2 K0,
    channel_basic_consume other_codec unwrap shutdown sock_close user cfg (S (S k)) (drain_events (late + S j))
      (S n) queue ctag no_local no_ack exclusive false (Some f) arguments on_cancel s = (s2, Ok (KStr tag)) /\
    idle s2 (S n) ch (subscribed (KStr tag) (Some f) on_cancel no_ack o) /\
    forall K, (K0 <= K)%nat -> exists s3, drain_each K msgs s2 = (s3, Ok tt) /\
      s_log s3 = s_log s2 ++ (Consumed f <$> msgs) /\
      stream (x_transport (s_io s3)) = rest /\ s_objects s3 = s_objects s2 /\
      idle s3 (S n) ch (subscribed (KStr tag) (Some f) on_cancel no_ack o).
Proof.
  intros Huser Hf Hs Hi Hcl Hp Hsend Hsb Hin Hcar Hd.
  destruct (consume_ok k j late s s1 n ch o queue ctag no_local no_ack exclusive (Some f) arguments on_cancel sb bs
    tag (wire ++ rest) Hs Hi Hcl Hsend Hsb Hin Hcar) as (s2 & Hi2 & Hst2 & Hc).
  assert (session_ok s2) as Hs2.
  { assert (s2 = (channel_basic_consume other_codec unwrap shutdown sock_close user cfg (S (S k))
      (drain_events (late + S j)) (S n) queue ctag no_local no_ack exclusive false (Some f) arguments on_cancel s).1)
      as -> by by rewrite Hc.
    unfold uses_library in Huser. unfold channel_basic_consume.
    match goal with |- session_ok (?m s).1 => assert (keeps m) as Hk by keeps_tac; by apply Hk end. }
  destruct (deliveries_drain n ch tag f msgs wire rest s2 (subscribed (KStr tag) (Some f) on_cancel no_ack o))
    as (K0 & HK); try done.
  { cbn. by rewrite dict_get_set, decide_True. }
  exists s2, K0. split_and!; [done|done|]. intros K HK0.
  destruct (HK K HK0) as (s3 & H1 & H2 & _ & H4 & H5 & H6 & _). by exists s3.
Qed.
End consume.

(** ** On the demo channel *)

(** The [consume-ok], and two deliveries whose bodies are cut differently. *)
Definition consume_ok_args : bytes := ok_or [] (dumps (bytes_of "s") [VStr (str_of "c")]).
Definition consume_ok_bytes : bytes := method_bytes 1 Spec.Basic.ConsumeOk "s" [VStr (str_of "c")].
Definition whole_bytes : bytes :=
  ok_or [] (fs ← content_frames 1 Spec.Basic.Deliver deliver_args sample_serialized [bytes_of "hello"]; pack_frames fs).
Definition demo_delivering : demo_session := demo_open (consume_ok_bytes ++ relayed_bytes ++ whole_bytes).
Definition hello : message :=
  set_delivery 1
    [("consumer_tag", VStr (str_of "c")); ("delivery_tag", VInt 5); ("redelivered", VBool false);
     ("exchange", VStr (str_of "x")); ("routing_key", VStr (str_of "k"))]
    (decode_body no_decode (received_message Spec.Basic.Deliver
      (ok_or [] (method_frame 1 (Some Spec.Basic.Deliver) (VBytes deliver_args)))
      [("content_encoding", VStr (str_of "utf-8")); ("priority", VInt 4)] (bytes_of "hello"))).

Lemma hello_delivered fm wire msgs wires :
  content_on_wire fm 1 Spec.Basic.Deliver deliver_args sample_serialized (bytes_of "hello") wire ->
  deliveries no_decode 1 1 true (str_of "c") msgs wires ->
  deliveries no_decode 1 1 true (str_of "c") (hello :: msgs) (wire ++ wires).
Proof.
  intros Hw Hd. refine (deliveries_cons no_decode 1 1 true (str_of "c") fm deliver_args _ sample_serialized
    (bytes_of "hello") sent_properties _ wire (VInt 5) (VBool false) (VStr (str_of "x")) (VStr (str_of "k"))
    msgs wires _ _ _ Hw _ _ Hd).
  - apply sample_sent_wf.
  - vm_compute. reflexivity.
  - vm_compute. reflexivity.
  - vm_compute. reflexivity.
  - split; [reflexivity|]. exists deliver_values. split; [plain_args|split; vm_compute; reflexivity].
Qed.

Lemma consume_in_order_witness :
  exists s2 K0 s3, channel_basic_consume no_codec closes closes closes demo_user demo_config 10 demo_drain 1
      (VStr (str_of "q")) (KStr []) false false false false (Some 3%nat) (VDict []) None demo_delivering =
      (s2, Ok (KStr (str_of "c"))) /\
    drain_each false no_codec no_decode closes closes closes demo_user demo_config K0 [hello; hello] s2 = (s3, Ok tt) /\
    s_log s3 = s_log s2 ++ [Consumed 3 hello; Consumed 3 hello].
Proof.
  assert (idle demo_delivering 1 1 (set_is_open true demo_object)) as Hi by (apply idle_intro; vm_compute; reflexivity).
  unfold demo_drain.
  set (r := basic_consume (VStr (str_of "q")) (VStr []) (VBool false) (VBool false) (VBool false) (VBool false) (VDict [])).
  set (m := send_method no_codec closes closes closes demo_user demo_config 10
    (drain_events false no_codec no_decode closes closes closes demo_user demo_config 10) 1 r (mret tt)).
  assert ((m demo_delivering).2 = Ok tt) as Hr by (vm_compute; reflexivity).
  destruct (m demo_delivering) as [s1 u] eqn:Hm. cbn [snd] in Hr. subst u.
  edestruct (consume_in_order false no_codec no_decode closes closes closes demo_user demo_config 8 9 0
    demo_delivering s1 0 1 (set_is_open true demo_object) (VStr (str_of "q")) (KStr []) false false false 3
    (VDict []) None (ok_or [] (pack_sig Spec.Basic.ConsumeOk)) consume_ok_args (str_of "c") [hello; hello]
    (relayed_bytes ++ whole_bytes ++ []) []) as (s2 & K0 & H1 & _ & H2).
  - apply demo_user_uses_library.
  - intros msg s. reflexivity.
  - apply demo_open_ok.
  - exact Hi.
  - reflexivity.
  - reflexivity.
  - exact Hm.
  - vm_compute. reflexivity.
  - apply (incoming_method (s_io demo_delivering) 1 Spec.Basic.ConsumeOk
      (ok_or [] (pack_sig Spec.Basic.ConsumeOk)) consume_ok_args consume_ok_bytes).
    + apply Hi.
    + vm_compute. reflexivity.
    + by apply (bool_decide_unpack _).
    + vm_compute. reflexivity.
    + vm_compute. reflexivity.
  - split; [reflexivity|]. exists [VStr (str_of "c")]. split; [plain_args|split; vm_compute; reflexivity].
  - apply (hello_delivered 11); [apply relayed_on_wire|]. apply (hello_delivered 4096); [|constructor].
    exists [bytes_of "hello"], (ok_or [] (content_frames 1 Spec.Basic.Deliver deliver_args sample_serialized [bytes_of "hello"])).
    split_and!; [vm_compute; reflexivity|reflexivity| |vm_compute; reflexivity].
    repeat constructor; cbn; lia.
  - destruct (H2 K0 (le_n K0)) as (s3 & H3 & H4 & _). exists s2, K0, s3. split; [exact H1|split; [exact H3|exact H4]].
Defined.
