(* ===== verification/SessionFindings.v ===== *)
(** * What the session also does

    Behaviours of [connection.py] and [channel.py] that their names, comments
    or parameters do not suggest. *)

From S2P Require Import Prelude Exceptions State Struct Utf8 Values Table Codec Content Framing.
From S2P Require Import Transport Sasl Conn Rpc Session SessionDemo Life SessionInv SessionSafe.
From S2P Require Import Quiet SessionWait SessionTurn SessionRpc SessionEvents SessionClose.
From S2P Require Import SessionHandshake SessionChannel.
From S2P Require Spec.

Open Scope Z_scope.

(** [Channel.close] of a channel that is not open gives up the connection
    without [collect]: the channel stays registered and its id in use, and no
    later [close] can change that. *)
Lemma close_unopened_leaks {P} `{!Vine P} other_codec unwrap shutdown sock_close user cfg k drain
    (s : session P) n ch o code text class_id method_id :
  session_ok s -> n <> 0%nat -> s_objects s !! n = Some o -> o_connection o = true ->
  o_channel_id o = Some ch -> o_is_open o = false ->
  let '(s', r) := channel_close other_codec unwrap shutdown sock_close user cfg k drain n
                    code text class_id method_id s in
  r = Ok tt /\ routed s' ch n /\ (ch = 0 \/ ch ∈ s_used_ids s') /\ x_transport (s_io s') = x_transport (s_io s) /\
  exists o', s_objects s' !! n = Some o' /\ o_connection o' = false.
Proof.
  intros Hs Hn Ho Hc Hid Hopen. destruct (ok_live s Hs n o Ho Hn Hc) as (m & id & Hm & Hid' & Hmn).
  rewrite Hid in Hid'. injection Hid' as <-. unfold channel_close, st_finally.
  rewrite (st_bind_ok _ _ _ _ _ (attr_ok n o_connection s o Ho)), st_bind_gets.
  rewrite (st_bind_ok _ _ _ _ _ (attr_ok n o_is_open s o Ho)), Hopen, andb_false_r. cbn.
  split; [done|]. split; [by exists m|]. split; [by apply (ok_used s Hs m ch n)|]. split; [done|].
  rewrite lookup_alter_eq, Ho. by eexists.
Qed.

(** The id of such a channel cannot be used again: [channel] returns the dead
    channel. *)
Lemma channel_returns_registered {P} `{!Vine P} other_codec unwrap shutdown sock_close user cfg k drain
    (s : session P) n ch cb :
  routed s ch n -> channel other_codec unwrap shutdown sock_close user cfg k drain (Some ch) cb s = (s, Ok n).
Proof.
  intros (m & Hm & Hmn). unfold channel. rewrite st_bind_gets, Hm. cbn [mbind option_bind]. by rewrite Hmn.
Qed.

(** After [collect], [drain_events] opens a new transport, which sends the
    protocol header but never [start-ok], since the handshake counts as
    complete; the first method of the server then raises. *)
Example reconnect_without_handshake :
  let s := (demo_drain None (demo_up broker_close)).1 in
  let s := set_io (set_x_dials [demo_dial handshake] (s_io s)) s in
  let '(s', r) := demo_drain None s in
  r = raise_amqp RecoverableConnectionError "Connection already closed" None /\
  connected s' = true /\ t_out (x_transport (s_io s')) = AMQP_PROTOCOL_HEADER /\ s_channels s' = None.
Proof. vm_compute. by split_and!. Qed.

(** The callback of [connect] is not called when the connection is made. *)
Example connect_drops_callback :
  let m := connect closes closes closes demo_user demo_config 10 demo_drain in
  let '(s, r) := m (Some 7%nat) (demo_connection handshake) in
  r = Ok tt /\ s_log s = [] /\ s_log (m (Some 7%nat) s).1 = [Connected 7].
Proof. vm_compute. by split_and!. Qed.

(** [basic_consume] with [nowait] and no tag raises [ValueError] after the
    consumer was created at the broker. *)
Example consume_raises_after_sending :
  let s := demo_open [] in
  let '(s', r) := channel_basic_consume no_codec closes closes closes demo_user demo_config 10 demo_drain 1
      (VStr (str_of "q")) (KStr []) false false false true None VNone None s in
  r = Raise ValueError /\
  t_out (x_transport (s_io s')) = t_out (x_transport (s_io s)) ++
    method_bytes 1 Spec.Basic.Consume "BssbbbbF"
      [VInt 0; VStr (str_of "q"); VStr []; VBool false; VBool false; VBool false; VBool true; VNone].
Proof. vm_compute. by split. Qed.

(** After the broker has closed a channel in confirm mode, the channel is
    opened again but still marked so: the next [basic_publish_confirm] sends
    the message without [confirm.select], and waits for a confirm that the
    broker does not send. *)
Example revived_without_confirm :
  let publish := channel_basic_publish_confirm no_codec closes closes closes demo_user demo_config 10 demo_drain 1
      got_message (VStr []) (VStr (str_of "q")) (VBool false) (VBool false) None None in
  let events := handshake ++ [open_ok 1; Data (not_found ++ open_ok_frame); Err SockTimeout] in
  let s := (demo_channel None (demo_connect (demo_connection events)).1).1 in
  let s := (upd 1 set_confirm_selected s).1 in
  let s := (demo_drain None s).1 in
  let '(s', r) := publish s in
  (o_confirm_selected <$> s_objects s !! 1%nat) = Some true /\ (o_is_open <$> s_objects s !! 1%nat) = Some true /\
  t_out (x_transport (s_io s')) = t_out (x_transport (s_io s)) ++
    content_bytes 1 Spec.Basic.Publish
      (ok_or [] (dumps (bytes_of "Bssbb") [VInt 0; VStr []; VStr (str_of "q"); VBool false; VBool false]))
      [("priority", VInt 9)] (bytes_of "hello") /\
  stream (x_transport (s_io s')) = [] /\ r = OutOfFuel.
Proof. vm_compute. by split_and!. Qed.

(** The consumers survive too, though the broker has cancelled them: the list
    of the object is not cleared, unlike when the channel is collected. *)
Example revived_with_consumers :
  let s := (upd 1 (set_consumers [(KStr (str_of "c"), Some 3%nat)] [] []) (demo_open (not_found ++ open_ok_frame))).1 in
  let s := (demo_drain None s).1 in
  (o_callbacks <$> s_objects s !! 1%nat) = Some [(KStr (str_of "c"), Some 3%nat)].
Proof. vm_compute. reflexivity. Qed.
